(* ===== verification/_CoqProject ===== *)
-Q . S2P
Prelude.v
BitTools.v
Memory.v
Pte.v
Isa.v
Encdec.v
Decode.v
Rvc.v
Disassembler.v
Peripheral.v
Virtio.v
Syscall.v
Mmu.v
CpuState.v
Alu.v
Csr.v
Trap.v
LoadStore.v
Cpu.v
Invariant.v
SyscallSpec.v
FileCalls.v
Bare.v
Paged.v
Turns.v
Regime.v
IsaMachine.v
Machine.v
SystemTurns.v
Simulate.v
VirtualMemory.v
KernelEntry.v
Loader.v
LoaderSpec.v
ElfSpec.v
Program.v
CommandLine.v
