(* ===== verification/Prelude.v ===== *)
(** * A RISC-V emulator, verified: overview and prelude

    ** The program

    The program under src/ emulates a RISC-V machine (RV32 and RV64, IMAC, the
    privileged architecture with M, S and U modes) on a host.  Its parts, bottom up:
    a sparse guest memory (memory_wrapper), page-table entries (pte) and the MMU
    (Mmu); the instruction formats (instruction_encdec), the decoders, the
    execution of instructions, CSRs, traps and interrupts and the main loop
    (RISCV_cpu); the memory-mapped devices (PeripheralEmulator, ScreenEmulation);
    the emulated system calls (system_call_emulator); the disassembler; and the
    main program, which parses the command line, loads an ELF file, builds default
    page tables and starts the processor (RISCV_Emulator).  The processor, the MMU
    and the devices all hold a pointer to the one guest memory.

    ** The files

    - Prelude.v (this file): integers of fixed width, faults, the state monad and
      its program logic, records, vectors, shared tactics and hints.
    - BitTools.v (bit_tools.h): masks, bit fields, sign extension.
    - Memory.v (memory_wrapper): the class; its specification [ByteMem], a flat
      little-endian byte memory; the interface [GuestMemory] with its laws
      [GuestMemoryLaws], through which every other part uses a memory.
    - Pte.v (pte), Mmu.v (Mmu): entries and translation; the specification
      [PageTable] describes the Sv32 and Sv39 walks arithmetically.
    - Isa.v (enumerations of RISCV_cpu.h), Encdec.v (instruction_encdec), Decode.v
      ([GetCode32], [GetCode16]); the specifications [Manual] and, in Rvc.v,
      [Compressed] are the tables of encodings of the ISA manual.  Disassembler.v
      (Disassembler).
    - Peripheral.v (PeripheralEmulator, ScreenEmulation): host interface, UART,
      timer, virtio disk; Virtio.v: the queue in guest memory as the virtio standard
      has it, and the requests the disk serves from it.
    - Syscall.v (system_call_emulator): the calls, over an abstract host [HostOs]
      with the laws [HostOsLaws]; SyscallSpec.v: their theorems; FileCalls.v: the
      two calls that translate data, open (path and flags) and fstat ([struct stat]).
    - CpuState.v (the members of RiscvCpu and its accessors), Alu.v (arithmetic;
      the specification [Isa_spec] is the manual's), Csr.v, Trap.v, LoadStore.v
      (translation, loads, stores, fetch, atomics), Cpu.v (system instructions,
      dispatch, one turn of the loop [step], [RunCpu]): RISCV_cpu.cc in the order
      in which the methods call one another.
    - Invariant.v: the well-formedness invariant of the whole machine and that every
      operation keeps it; Bare.v: fetch and atomics without translation; Paged.v:
      fetch, loads, stores and atomics under Sv32 and Sv39 translation, page faults
      included; Turns.v: how a turn of the loop begins (timer, devices, interrupts,
      fetch) and for how many turns no interrupt comes; Machine.v: whole runs;
      SystemTurns.v: the turns of an ECALL, trapped or emulated, and of MRET and SRET.
    - IsaMachine.v: the specification of the whole, an abstract RV32IMAC or RV64IMAC
      machine after the ISA manual.  Regime.v: the class [Regime] of ways a program's
      bytes can be reached, with its laws [RegimeLaws] and the instance of machine mode
      without translation; Simulate.v: over any regime the emulator implements the
      abstract machine; VirtualMemory.v: the instance of a program whose pages are
      mapped by Sv32 or Sv39 tables, and the timer while it runs; KernelEntry.v: how
      such a program leaves for the handler of an ECALL, of a page fault or of the
      timer interrupt, and how a kernel resumes it.
    - Loader.v (RISCV_Emulator): ELF structures, loading, default page tables,
      command line, [run]; LoaderSpec.v, ElfSpec.v and CommandLine.v: the theorems on
      the page tables, the loaded image and the command line; Program.v: the parts
      together, from a program file to the result of [run].

    ** Conventions

    A definition has the name of the C++ function it translates; the comment before
    it names the file, the lines and the function.  A function that only reads is a
    function of the object's record; a method that writes is a state transformer
    [ST S A = S -> res (A * S)], where [S] is the pair of the object and the guest
    memory.  A [res] is a value or a fault: [Assert_failed] for an [assert] that does
    not hold, [Exception] for an exception nobody catches, [Undefined] for what C++
    leaves undefined (a read outside a vector, a null pointer, a shift by the width,
    a division by zero).  A [uintN_t] is a [Z] in [0, 2^N) and an [intN_t] a [Z] in
    [-2^(N-1), 2^(N-1)); every conversion is written ([u32], [s64], ...).  Fixed
    arrays are total maps from index to value ([zvec]).  A switch becomes a chain of
    tests in the order of its cases; a long one is split into one definition per
    group of cases.

    ** What the theorems show

    - Data: memory refines the flat bytes; encoding and decoding of all formats are
      inverse; page-table entries, bit fields and sign extension behave as described;
      operator== decides equality of memories.
    - Translation: the MMU implements the specified walk, faults and access bits
      included; translations do not disturb each other; the default tables are an
      identity map.  Loads, stores and fetches under translation work on the
      translated addresses or trap with the address that is not mapped; the second
      part of a split load is looked for where the code looks for it, after the
      physical address of the first.  Atomics work on the translated address when
      their page is mapped, and otherwise do what the code does.
    - Instructions: both decoders follow the manual's tables and stay in bounds;
      arithmetic, branches, loads, stores, atomics and fetch refine their
      specifications at both widths (a word division by a register whose low half
      alone is zero is a division by zero on the host); the disassembler agrees with
      the decoder, one misspelt name apart.
    - Privilege: CSR accesses keep all views coherent and change exactly the exposed
      bits; traps enter the right handler with the right state and change nothing
      else, and MRET and SRET resume the code, its mode and the interrupts it lets
      through (the enable bit itself comes back set after a trap from a lower mode,
      because the trap does not copy it); every turn takes the first interrupt that is
      due and enabled, precisely, between two instructions; an ECALL is served by the
      host or enters the handler of its privilege level.
    - Devices and calls: timer, host interface and UART; a disk request from its
      notification to its completion in the used ring, for drivers that start every
      request from one descriptor (the code reads the ring one slot too far); what each
      system call exchanges with the host and that it touches nothing else.
    - Whole machine: a turn of the loop in machine mode, 32 or 64 bits wide,
      implements a step of the abstract machine of that width, compressed instructions
      included, and [RunCpu] its runs; so it does for a user or supervisor program in
      virtual memory, which moreover changes no byte but those of its frames, the
      tables and MTIME, and which enters the kernel precisely at an ECALL, a page
      fault or when the timer, which its stores cannot reach, comes to its comparator;
      a time slice, from the MRET or SRET that resumes a program to its next trap or
      preemption; [RunCpu] ends exactly when the abstract run does, and never faults
      before; any run of any program keeps the
      invariant; the loop with fuel returns exactly when the loop without does; the
      ELF image; the command line.  [run_implements_isa] joins them: [run] on a
      64-bit ELF file gives the result of the abstract machine started on the image
      that the file describes.

    ** Fuel and bounds

    [RunCpu] runs a guest program, which need not stop; its fuel counts turns of the
    loop and [RunCpu_iff_finishes] shows that it restricts nothing.  Every other loop
    of the source is bounded and is structural recursion on its bound: the levels of
    a page table, the bytes of an access, the headers of a file, the arguments.

    ** Parameters

    The host operating system ([HostOs]), the terminal library (the keys it will
    return are part of the screen's state, what is shown is recorded) and the initial
    contents of the files are arguments of the model.  [misa_shift] is the amount by
    which the constructor shifts the width field of MISA, which is undefined in C++
    for 64 bits and therefore left open.

    ** Not modelled

    Diagnostics and traces (cerr, cout, printf, the register dump), which no
    operation reads; the tests and the test assembler; the vendored Windows headers
    apart from the ELF structures the loader reads; the timing of the host. *)

From Stdlib Require Export ZArith Lia Bool Btauto.
From stdpp Require Export base tactics option list numbers gmap.

#[global] Open Scope Z_scope.

(* ------------------------------------------------------------------ *)
(** ** Fixed-width integers

    A C++ [uintN_t] is a [Z] in [0, 2^N); an [intN_t] is a [Z] in
    [-2^(N-1), 2^(N-1)).  [uint N] is the conversion to [uintN_t] and [sint N]
    the two's-complement conversion to [intN_t]. *)

Definition uint (w z : Z) : Z := z mod 2 ^ w.
Definition sint (w z : Z) : Z := (z + 2 ^ (w - 1)) mod 2 ^ w - 2 ^ (w - 1).

Arguments uint : simpl never.
Arguments sint : simpl never.

Abbreviation u8 := (uint 8).
Abbreviation u16 := (uint 16).
Abbreviation u32 := (uint 32).
Abbreviation u64 := (uint 64).
Abbreviation s16 := (sint 16).
Abbreviation s32 := (sint 32).
Abbreviation s64 := (sint 64).

Declare Scope c_scope.
Delimit Scope c_scope with c.
Infix ".&" := Z.land (at level 40, left associativity) : c_scope.
Infix ".^" := Z.lxor (at level 45, left associativity) : c_scope.
Infix ".|" := Z.lor (at level 50, left associativity) : c_scope.
Infix "<<." := Z.shiftl (at level 37, left associativity) : c_scope.
Infix ">>." := Z.shiftr (at level 37, left associativity) : c_scope.
(** [~x] at an unsigned width. *)
Notation "'~32' x" := (uint 32 (Z.lnot x)) (at level 30, right associativity) : c_scope.
Notation "'~64' x" := (uint 64 (Z.lnot x)) (at level 30, right associativity) : c_scope.
#[global] Open Scope c_scope.

Definition in_u (w z : Z) : Prop := 0 <= z < 2 ^ w.
Definition in_s (w z : Z) : Prop := - 2 ^ (w - 1) <= z < 2 ^ (w - 1).

#[export] Instance in_u_dec w z : Decision (in_u w z).
Proof. unfold in_u; apply _. Defined.

(** Evaluate a decidable closed goal. *)
Ltac decide_it := apply (bool_decide_unpack _); vm_compute; exact I.

Create HintDb rv discriminated.

(** [lia] with the defining equations of [/] and [mod]. *)
Ltac zlia := intros; Z.to_euclidean_division_equations; lia.

Section Widths.
  Context (w : Z) (Hw : 0 < w).

Lemma pow2_pos : 0 < 2 ^ w.
  Proof using Hw. apply Z.pow_pos_nonneg; lia. Qed.

Lemma pow2_half : 2 ^ w = 2 * 2 ^ (w - 1).
  Proof using Hw. rewrite <- Z.pow_succ_r by lia. f_equal; lia. Qed.

Lemma uint_range z : in_u w (uint w z).
  Proof using Hw. apply Z.mod_pos_bound, pow2_pos. Qed.

Lemma uint_small z : in_u w z -> uint w z = z.
  Proof using. apply Z.mod_small. Qed.

Lemma uint_uint z : uint w (uint w z) = uint w z.
  Proof using Hw. apply uint_small, uint_range. Qed.

Lemma sint_range z : in_s w (sint w z).
  Proof using Hw.
    unfold sint, in_s. pose proof pow2_half. pose proof pow2_pos.
    pose proof (Z.mod_pos_bound (z + 2 ^ (w - 1)) (2 ^ w)). lia.
  Qed.

Lemma sint_small z : in_s w z -> sint w z = z.
  Proof using Hw.
    unfold in_s, sint. intros. pose proof pow2_half.
    rewrite Z.mod_small; lia.
  Qed.

Lemma uint_sint z : uint w (sint w z) = uint w z.
  Proof using Hw.
    unfold uint, sint. pose proof pow2_pos.
    rewrite Zminus_mod_idemp_l. f_equal; lia.
  Qed.

Lemma sint_uint z : sint w (uint w z) = sint w z.
  Proof using Hw.
    unfold uint, sint. now rewrite Zplus_mod_idemp_l.
  Qed.

  (** The two views of a word: same bits, the sign bit decides. *)
Lemma sint_unfold z :
    in_u w z -> sint w z = if z <? 2 ^ (w - 1) then z else z - 2 ^ w.
  Proof using Hw.
    unfold in_u, sint. intros. pose proof pow2_half.
    destruct (Z.ltb_spec z (2 ^ (w - 1))).
    - rewrite Z.mod_small; lia.
    - replace (z + 2 ^ (w - 1)) with (z - 2 ^ (w - 1) + 1 * 2 ^ w) by lia.
      rewrite Z.mod_add, Z.mod_small; lia.
  Qed.
End Widths.

(** A narrow unsigned value survives the conversion to a wider signed type. *)
Lemma sint_of_uint w k z : 0 < k < w -> sint w (uint k z) = uint k z.
Proof.
  intros. apply sint_small; [lia |]. pose proof (uint_range k ltac:(lia) z).
  unfold in_u, in_s in *. pose proof (Z.pow_le_mono_r 2 k (w - 1)).
  pose proof (Z.pow_pos_nonneg 2 (w - 1)). lia.
Qed.

#[export] Hint Resolve uint_range sint_range : rv.
#[export] Hint Extern 2 (_ <= _) => lia : rv.
#[export] Hint Extern 2 (_ < _) => lia : rv.

(* ------------------------------------------------------------------ *)
(** ** Bits

    [testbit] characterisations with the side conditions turned into boolean
    guards, and [bits_below N]: equality of two integers bit by bit, one goal
    per index below [N]. *)

Lemma testbit_uint w z i :
  0 <= w -> Z.testbit (uint w z) i = (i <? w) && Z.testbit z i.
Proof.
  intros. unfold uint. destruct (Z.ltb_spec i w).
  - destruct (Z.leb_spec 0 i).
    + rewrite Z.mod_pow2_bits_low by lia. reflexivity.
    + now rewrite !Z.testbit_neg_r by lia.
  - rewrite Z.mod_pow2_bits_high by lia. reflexivity.
Qed.

Lemma testbit_above w z i : in_u w z -> 0 <= w -> w <= i -> Z.testbit z i = false.
Proof.
  intros Hz Hw Hi. rewrite <- (uint_small w z Hz), testbit_uint by lia.
  destruct (Z.ltb_spec i w); [lia | reflexivity].
Qed.

Lemma testbit_sint w z i :
  0 < w -> 0 <= i ->
  Z.testbit (sint w z) i = if i <? w then Z.testbit z i else Z.testbit z (w - 1).
Proof.
  intros Hw Hi.
  pose proof (pow2_half w Hw) as Hh. pose proof (pow2_pos (w - 1)) as Hp.
  rewrite <- sint_uint, sint_unfold by (try apply uint_range; lia).
  assert (Htop : Z.testbit z (w - 1) = negb (uint w z <? 2 ^ (w - 1))).
  { replace (Z.testbit z (w - 1)) with (Z.testbit (uint w z) (w - 1))
      by (rewrite testbit_uint by lia; destruct (Z.ltb_spec (w - 1) w); [done | lia]).
    pose proof (uint_range w Hw z) as Hr. unfold in_u in Hr.
    rewrite Z.testbit_eqb by lia.
    destruct (Z.eq_dec w 1) as [->|].
    { change (2 ^ (1 - 1)) with 1. rewrite Z.div_1_r. change (2 ^ 1) with 2 in Hr.
      rewrite Z.mod_small by lia. destruct (Z.eqb_spec (uint 1 z) 1), (Z.ltb_spec (uint 1 z) 1); cbn; lia. }
    destruct (Z.ltb_spec (uint w z) (2 ^ (w - 1))); cbn.
    - rewrite Z.div_small by lia. reflexivity.
    - replace (uint w z / 2 ^ (w - 1)) with 1; [reflexivity |].
      apply Z.div_unique with (uint w z - 2 ^ (w - 1)); lia. }
  rewrite Htop. pose proof (uint_range w Hw z) as Hr. unfold in_u in Hr.
  destruct (Z.ltb_spec (uint w z) (2 ^ (w - 1))) as [Hlt|Hge]; cbn [negb].
  - rewrite testbit_uint by lia. destruct (Z.ltb_spec i w); reflexivity.
  - destruct (Z.ltb_spec i w).
    + replace (Z.testbit z i) with (Z.testbit (uint w z) i)
        by (rewrite testbit_uint by lia; destruct (Z.ltb_spec i w); [done | lia]).
      rewrite <- (Z.mod_pow2_bits_low (uint w z - 2 ^ w) w i) by lia.
      rewrite <- (Z.mod_pow2_bits_low (uint w z) w i) by lia.
      f_equal. replace (uint w z - 2 ^ w) with (uint w z + (-1) * 2 ^ w) by lia.
      now rewrite Z.mod_add by lia.
    + rewrite Z.testbit_eqb by lia.
      replace ((uint w z - 2 ^ w) / 2 ^ i) with (-1); [reflexivity |].
      pose proof (Z.pow_le_mono_r 2 w i).
      apply Z.div_unique with (uint w z - 2 ^ w + 2 ^ i); lia.
Qed.

Lemma testbit_lnot z i : 0 <= i -> Z.testbit (Z.lnot z) i = negb (Z.testbit z i).
Proof. apply Z.lnot_spec. Qed.

Lemma testbit_one i : 0 <= i -> Z.testbit 1 i = (i =? 0).
Proof. destruct i; done. Qed.

Lemma land_mask z k : 0 <= k -> z .& Z.ones k = uint k z.
Proof. intros. now rewrite Z.land_ones. Qed.

Lemma ones_land z k : 0 <= k -> Z.ones k .& z = uint k z.
Proof. intros. rewrite Z.land_comm. now apply land_mask. Qed.

Lemma in_u_bits w z :
  0 <= w -> 0 <= z -> (forall i, w <= i -> Z.testbit z i = false) -> in_u w z.
Proof.
  intros Hw Hz H. replace z with (uint w z); [destruct (Z.eq_dec w 0) as [->|]|].
  - unfold in_u, uint. rewrite Z.mod_1_r. lia.
  - apply uint_range; lia.
  - apply Z.bits_inj'. intros i Hi. rewrite testbit_uint by lia.
    destruct (Z.ltb_spec i w); [reflexivity | now rewrite H].
Qed.

(** The high part of a field is a field. *)
Lemma div_mod_field a b c : 0 < b -> 0 < c -> (a mod (b * c)) / b = (a / b) mod c.
Proof.
  intros. rewrite Z.rem_mul_r by lia. rewrite (Z.mul_comm b), Z.div_add by lia.
  rewrite Z.div_small by (apply Z.mod_pos_bound; lia). lia.
Qed.

Lemma mod_mod_field a b c : 0 < b -> 0 < c -> (a mod (b * c)) mod b = a mod b.
Proof.
  intros. rewrite Z.rem_mul_r by lia. rewrite (Z.mul_comm b), Z.mod_add by lia.
  apply Z.mod_mod. lia.
Qed.

(** Closure of the unsigned ranges under the bitwise operators. *)
Lemma in_u_land_l w a b : 0 <= w -> in_u w a -> 0 <= b -> in_u w (a .& b).
Proof.
  intros. apply in_u_bits; [lia | apply Z.land_nonneg; unfold in_u in *; lia |].
  intros. rewrite Z.land_spec, (testbit_above w a) by auto. reflexivity.
Qed.

Lemma in_u_lor w a b : 0 <= w -> in_u w a -> in_u w b -> in_u w (a .| b).
Proof.
  intros. apply in_u_bits; [lia | apply Z.lor_nonneg; unfold in_u in *; lia |].
  intros. rewrite Z.lor_spec, (testbit_above w a), (testbit_above w b) by auto. reflexivity.
Qed.

Lemma in_u_lxor w a b : 0 <= w -> in_u w a -> in_u w b -> in_u w (a .^ b).
Proof.
  intros. apply in_u_bits; [lia | apply Z.lxor_nonneg; unfold in_u in *; lia |].
  intros. rewrite Z.lxor_spec, (testbit_above w a), (testbit_above w b) by auto. reflexivity.
Qed.

Lemma in_u_land w a b : 0 <= w -> in_u w a -> in_u w b -> in_u w (a .& b).
Proof. intros. apply in_u_land_l; auto. unfold in_u in *; lia. Qed.

Lemma in_u_mono w w' a : w <= w' -> in_u w a -> in_u w' a.
Proof.
  unfold in_u. intros. destruct (Z.leb_spec 0 w).
  - pose proof (Z.pow_le_mono_r 2 w w'). lia.
  - rewrite Z.pow_neg_r in * by lia. lia.
Qed.

Lemma in_u_shiftr w a k : 0 <= k -> in_u w a -> in_u w (a >>. k).
Proof.
  unfold in_u. intros. rewrite Z.shiftr_div_pow2 by lia.
  pose proof (Z.pow_pos_nonneg 2 k ltac:(lia) ltac:(lia)).
  split; [apply Z.div_pos; lia |].
  apply Z.le_lt_trans with a; [apply Z.div_le_upper_bound; nia | lia].
Qed.

#[export] Hint Resolve in_u_land_l in_u_lor in_u_lxor in_u_shiftr : rv.

Lemma bits_eq_below N a b :
  0 <= N -> in_u N a -> in_u N b ->
  Forall (fun i => Z.testbit a i = Z.testbit b i) (seqZ 0 N) -> a = b.
Proof.
  intros HN Ha Hb H. apply Z.bits_inj'. intros i Hi.
  destruct (Z.ltb_spec i N).
  - rewrite Forall_forall in H. apply H, elem_of_seqZ. lia.
  - now rewrite !(testbit_above N) by (auto; lia).
Qed.

Lemma lor_low a b k : 0 <= k -> in_u k b -> (a <<. k) .| b = a * 2 ^ k + b.
Proof.
  intros Hk Hb. rewrite <- Z.shiftl_mul_pow2 by lia. rewrite Z.add_nocarry_lxor, Z.lxor_lor; [done | |];
    (apply Z.bits_inj'; intros i Hi; rewrite Z.land_spec, Z.shiftl_spec, Z.bits_0 by lia;
     destruct (Z.ltb_spec i k);
       [rewrite (Z.testbit_neg_r _ (i - k)) by lia; done
       | rewrite (testbit_above k b i) by (done || lia); apply andb_false_r]).
Qed.

(** Evaluate closed indices and comparisons inside [testbit] goals. *)
Ltac norm_index :=
  repeat match goal with
  | |- context [Z.testbit _ (?i + ?j)] =>
      let k := eval vm_compute in (i + j) in change (i + j) with k
  | |- context [Z.testbit _ (?i - ?j)] =>
      let k := eval vm_compute in (i - j) in change (i - j) with k
  | |- context [?i <? ?j] =>
      let k := eval vm_compute in (i <? j) in
      lazymatch k with true => idtac | false => idtac end; change (i <? j) with k
  | |- context [Z.testbit ?a ?i] =>
      lazymatch a with
      | Z0 => idtac | Zpos _ => idtac | Zneg _ => idtac
      | Z.ones _ => idtac | Z.pow _ _ => idtac end;
      let k := eval vm_compute in (Z.testbit a i) in
      lazymatch k with true => idtac | false => idtac end; change (Z.testbit a i) with k
  end;
  cbn [andb orb xorb negb].

(** Evaluate the closed integer comparisons and products of a goal. *)
Ltac ground_bool e :=
  let k := eval vm_compute in e in
  lazymatch k with true => idtac | false => idtac end; change e with k.
Ltac ground_int e :=
  let k := eval vm_compute in e in
  lazymatch k with Z0 => idtac | Zpos _ => idtac | Zneg _ => idtac end; change e with k.
Ltac ground :=
  repeat match goal with
  | |- context [?i <? ?j] => ground_bool (i <? j)
  | |- context [?i <=? ?j] => ground_bool (i <=? j)
  | |- context [?i =? ?j] => ground_bool (i =? j)
  | |- context [?i * ?j] => ground_int (i * j)
  | |- context [?i - ?j] => ground_int (i - j)
  | |- context [?i + ?j] => ground_int (i + j)
  end; cbn [andb orb negb].

Ltac testbit_step :=
  match goal with
  | |- context [Z.testbit ?a (Zneg ?p)] => rewrite (Z.testbit_neg_r a (Zneg p)) by lia
  | |- context [Z.testbit (Z.land _ _) _] => rewrite Z.land_spec
  | |- context [Z.testbit (Z.lor _ _) _] => rewrite Z.lor_spec
  | |- context [Z.testbit (Z.lxor _ _) _] => rewrite Z.lxor_spec
  | |- context [Z.testbit (Z.lnot _) _] => rewrite Z.lnot_spec by lia
  | |- context [Z.testbit (Z.shiftl _ _) _] => rewrite Z.shiftl_spec by lia
  | |- context [Z.testbit (Z.shiftr _ _) _] => rewrite Z.shiftr_spec by lia
  | |- context [Z.testbit (uint _ _) _] => rewrite testbit_uint by lia
  | |- context [Z.testbit (sint _ _) _] => rewrite testbit_sint by lia
  end.

Ltac testbit_high :=
  match goal with
  | H : in_u ?w ?a |- context [Z.testbit ?a ?i] =>
      rewrite (testbit_above w a i H) by lia
  end.

(** Equality of two unsigned [N]-bit integers, bit by bit. *)
Ltac zbits_core :=
  repeat (testbit_step; norm_index); repeat (testbit_high; norm_index);
  rewrite ?andb_false_r, ?andb_true_r, ?orb_false_r, ?orb_true_r; try reflexivity; try btauto.

(** A two's-complement field, by its bits. *)
Lemma sint_eq_below w a b :
  0 < w -> in_s w b -> Forall (fun i => Z.testbit a i = Z.testbit b i) (seqZ 0 w) -> sint w a = b.
Proof.
  intros Hw Hb H. rewrite <- (sint_small w Hw b Hb), <- (sint_uint w Hw a), <- (sint_uint w Hw b).
  f_equal. apply (bits_eq_below w); [lia | apply uint_range; lia | apply uint_range; lia |].
  rewrite Forall_forall in *. intros i Hi. rewrite !testbit_uint by lia. by rewrite H.
Qed.

Ltac all_bits :=
  match goal with |- Forall _ (seqZ 0 ?N) =>
    let l := eval vm_compute in (seqZ 0 N) in change (seqZ 0 N) with l end;
  repeat (apply Forall_cons; split; [zbits_core |]); try apply Forall_nil_2.

Ltac sbits N := apply (sint_eq_below N); [lia | auto 8 with rv | all_bits].

Ltac zbits N :=
  apply (bits_eq_below N); [lia | auto 8 with rv | auto 8 with rv | all_bits].

(* ------------------------------------------------------------------ *)
(** ** Congruence modulo 2^w

    The ring operations and the bitwise ones respect it, so a computation at 64
    bits can be compared with one at 32 by rewriting. *)

Definition eqm (w a b : Z) : Prop := uint w a = uint w b.

#[export] Instance eqm_equiv w : Equivalence (eqm w).
Proof. split; unfold eqm; [by intros ? | by intros ?? -> | by intros ??? -> ->]. Qed.

Section Congruence.
  Context (w : Z).

#[export] Instance eqm_add : Proper (eqm w ==> eqm w ==> eqm w) Z.add.
  Proof.
    intros a a' Ha b b' Hb. unfold eqm, uint in *. rewrite (Zplus_mod a b), (Zplus_mod a' b'). congruence.
  Qed.

#[export] Instance eqm_sub : Proper (eqm w ==> eqm w ==> eqm w) Z.sub.
  Proof.
    intros a a' Ha b b' Hb. unfold eqm, uint in *. rewrite (Zminus_mod a b), (Zminus_mod a' b'). congruence.
  Qed.

#[export] Instance eqm_mul : Proper (eqm w ==> eqm w ==> eqm w) Z.mul.
  Proof.
    intros a a' Ha b b' Hb. unfold eqm, uint in *. rewrite (Zmult_mod a b), (Zmult_mod a' b'). congruence.
  Qed.

#[export] Instance eqm_uint : Proper (eqm w ==> eq) (uint w).
  Proof. by intros a a' Ha. Qed.

#[export] Instance eqm_sint : Proper (eqm w ==> eq) (sint w).
  Proof.
    intros a a' Ha. unfold sint. f_equal. by apply (eqm_add a a' Ha _ _ eq_refl).
  Qed.

Lemma eqm_bits a b :
    0 <= w -> eqm w a b <-> forall i, 0 <= i < w -> Z.testbit a i = Z.testbit b i.
  Proof.
    intros Hw. unfold eqm. split.
    - intros E i Hi. apply (f_equal (fun x => Z.testbit x i)) in E.
      rewrite !testbit_uint in E by lia. destruct (Z.ltb_spec i w); [done | lia].
    - intros E. apply Z.bits_inj'. intros i Hi. rewrite !testbit_uint by lia.
      destruct (Z.ltb_spec i w); [by apply E | done].
  Qed.
End Congruence.

Lemma eqm_bitop w (op : Z -> Z -> Z) (f : bool -> bool -> bool) :
  (forall a b i, 0 <= i -> Z.testbit (op a b) i = f (Z.testbit a i) (Z.testbit b i)) ->
  Proper (eqm w ==> eqm w ==> eqm w) op.
Proof.
  intros Hop a a' Ha b b' Hb. destruct (Z.leb_spec 0 w).
  - rewrite eqm_bits in * by done. intros i Hi. rewrite !Hop by lia. by rewrite Ha, Hb.
  - unfold eqm, uint in *. rewrite Z.pow_neg_r, !Z.mod_0_r in * by done. congruence.
Qed.

#[export] Instance eqm_land w : Proper (eqm w ==> eqm w ==> eqm w) Z.land.
Proof. apply (eqm_bitop w _ andb). intros. apply Z.land_spec. Qed.
#[export] Instance eqm_lor w : Proper (eqm w ==> eqm w ==> eqm w) Z.lor.
Proof. apply (eqm_bitop w _ orb). intros. apply Z.lor_spec. Qed.
#[export] Instance eqm_lxor w : Proper (eqm w ==> eqm w ==> eqm w) Z.lxor.
Proof. apply (eqm_bitop w _ xorb). intros. apply Z.lxor_spec. Qed.

(** A conversion at a wider or equal width does not change the low bits. *)
Lemma uint_eqm w k z : 0 < w <= k -> eqm w (uint k z) z.
Proof.
  intros. apply eqm_bits; [lia |]. intros i Hi. rewrite testbit_uint by lia.
  destruct (Z.ltb_spec i k); [done | lia].
Qed.

Lemma sint_eqm w k z : 0 < w <= k -> eqm w (sint k z) z.
Proof.
  intros. apply eqm_bits; [lia |]. intros i Hi. rewrite testbit_sint by lia.
  destruct (Z.ltb_spec i k); [done | lia].
Qed.

Lemma uint_le w k z : 0 < w <= k -> uint w (uint k z) = uint w z.
Proof. apply uint_eqm. Qed.

Lemma uint_sint_le w k z : 0 < w <= k -> uint w (sint k z) = uint w z.
Proof. apply sint_eqm. Qed.

Lemma sint_uint_le w k z : 0 < w <= k -> sint w (uint k z) = sint w z.
Proof. intros. by rewrite (uint_eqm w k). Qed.

Lemma sint_sint_le w k z : 0 < w <= k -> sint w (sint k z) = sint w z.
Proof. intros. by rewrite (sint_eqm w k). Qed.

(** Sign extension keeps the value of a narrower signed integer. *)
Lemma sint_sint_ge w k z : 0 < k <= w -> sint w (sint k z) = sint k z.
Proof.
  intros. apply sint_small; [lia |]. pose proof (sint_range k ltac:(lia) z). unfold in_s in *.
  pose proof (Z.pow_le_mono_r 2 (k - 1) (w - 1)). lia.
Qed.

(* ------------------------------------------------------------------ *)
(** ** Faults and results

    What ends a run of the C++ program abnormally: a failed [assert], an
    exception that nothing catches, or an operation the language leaves
    undefined (division by zero, an out-of-range shift or index). *)

Inductive fault : Type := Assert_failed | Exception | Undefined.

#[export] Instance fault_eq_dec : EqDecision fault.
Proof. solve_decision. Defined.

Inductive res (A : Type) : Type :=
| Ok (a : A)
| Err (f : fault).
Arguments Ok {A} a.
Arguments Err {A} f.

#[export] Instance res_eq_dec `{EqDecision A} : EqDecision (res A).
Proof. solve_decision. Defined.

#[export] Instance res_ret : MRet res := fun A a => Ok a.
#[export] Instance res_bind : MBind res :=
  fun A B k m => match m with Ok a => k a | Err f => Err f end.

Definition assert_that (b : bool) : res unit := if b then Ok tt else Err Assert_failed.

(** State passing with faults: the state after a fault is not observable. *)
Definition ST (S A : Type) : Type := S -> res (A * S).

#[export] Instance st_ret S : MRet (ST S) := fun A a s => Ok (a, s).
#[export] Instance st_bind S : MBind (ST S) :=
  fun A B k m s => match m s with Ok (a, s') => k a s' | Err f => Err f end.

Section State.
  Context {S : Type}.

Definition get : ST S S := fun s => Ok (s, s).
Definition gets {A} (f : S -> A) : ST S A := fun s => Ok (f s, s).
Definition modify (f : S -> S) : ST S unit := fun s => Ok (tt, f s).
Definition lift {A} (r : res A) : ST S A :=
    fun s => match r with Ok a => Ok (a, s) | Err f => Err f end.
Definition raise {A} (f : fault) : ST S A := fun _ => Err f.
Definition when (b : bool) (m : ST S unit) : ST S unit := if b then m else mret tt.

  (** Run [m] on a part of the state. *)
Definition zoom {T A} (view : S -> T) (put : T -> S -> S) (m : ST T A) : ST S A :=
    fun s => match m (view s) with
             | Ok (a, t) => Ok (a, put t s)
             | Err f => Err f
             end.
End State.

(** Partial-correctness triples: what holds of the result when there is no fault. *)
Definition triple {S A} (P : S -> Prop) (m : ST S A) (Q : A -> S -> Prop) : Prop :=
  forall s a s', P s -> m s = Ok (a, s') -> Q a s'.

(** [m] keeps the invariant [I]. *)
Definition preserves {S A} (I : S -> Prop) (m : ST S A) : Prop :=
  triple I m (fun _ => I).

Section Triples.
  Context {S : Type}.
  Implicit Types P : S -> Prop.

Lemma triple_ret {A} P (a : A) (Q : A -> S -> Prop) :
    (forall s, P s -> Q a s) -> triple P (mret a : ST S A) Q.
  Proof. intros H s b s' HP [= <- <-]. auto. Qed.

Lemma triple_bind {A B} P (m : ST S A) (k : A -> ST S B) (R : A -> S -> Prop) Q :
    triple P m R -> (forall a, triple (R a) (k a) Q) -> triple P (m ≫= k) Q.
  Proof.
    intros Hm Hk s b s' HP. unfold mbind, st_bind.
    destruct (m s) as [[a s1]|f] eqn:E; [|done]. intros H.
    eapply Hk; [eapply Hm; eauto | eauto].
  Qed.

Lemma triple_conseq {A} P P' (m : ST S A) Q Q' :
    triple P' m Q' -> (forall s, P s -> P' s) -> (forall a s, Q' a s -> Q a s) -> triple P m Q.
  Proof. unfold triple. eauto. Qed.

Lemma triple_get P Q : (forall s, P s -> Q s s) -> triple P (get : ST S S) Q.
  Proof. intros H s b s' HP [= <- <-]. auto. Qed.

Lemma triple_gets {A} P (f : S -> A) Q : (forall s, P s -> Q (f s) s) -> triple P (gets f) Q.
  Proof. intros H s b s' HP [= <- <-]. auto. Qed.

Lemma triple_modify P f Q : (forall s, P s -> Q tt (f s)) -> triple P (modify f : ST S unit) Q.
  Proof. intros H s [] s' HP [= <-]. auto. Qed.

Lemma triple_lift {A} P (r : res A) Q :
    (forall s a, P s -> r = Ok a -> Q a s) -> triple P (lift r) Q.
  Proof. intros H s a s' HP. unfold lift. destruct r; [intros [= <- <-]; auto | done]. Qed.

Lemma triple_raise {A} P f (Q : A -> S -> Prop) : triple P (raise f : ST S A) Q.
  Proof. intros s a s' _. done. Qed.

Lemma preserves_ret {A} I (a : A) : preserves I (mret a : ST S A).
  Proof. apply triple_ret. auto. Qed.

Lemma preserves_bind {A B} I (m : ST S A) (k : A -> ST S B) :
    preserves I m -> (forall a, preserves I (k a)) -> preserves I (m ≫= k).
  Proof. intros. eapply triple_bind; eauto. Qed.

Lemma preserves_get I : preserves I (get : ST S S).
  Proof. apply triple_get. auto. Qed.

Lemma preserves_gets {A} I (f : S -> A) : preserves I (gets f : ST S A).
  Proof. apply triple_gets. auto. Qed.

Lemma preserves_modify (I : S -> Prop) f : (forall s, I s -> I (f s)) -> preserves I (modify f : ST S unit).
  Proof. intros. apply triple_modify. auto. Qed.

Lemma preserves_lift {A} I (r : res A) : preserves I (lift r : ST S A).
  Proof. apply triple_lift. auto. Qed.

Lemma preserves_raise {A} I f : preserves I (raise f : ST S A).
  Proof. apply triple_raise. Qed.

Lemma preserves_when I b (m : ST S unit) : preserves I m -> preserves I (when b m).
  Proof. destruct b; cbn; auto using preserves_ret. Qed.

Lemma preserves_zoom {T A} (I : S -> Prop) (J : T -> Prop) view put (m : ST T A) :
    preserves J m ->
    (forall s, I s -> J (view s)) -> (forall s t, I s -> J t -> I (put t s)) ->
    preserves I (zoom view put m).
  Proof.
    intros Hm Hv Hp s a s' HI. unfold zoom.
    destruct (m (view s)) as [[b t]|] eqn:E; [|done]. intros [= <- <-].
    apply Hp; [done|]. eapply Hm; eauto.
  Qed.
End Triples.

#[export] Hint Resolve preserves_ret preserves_get preserves_gets preserves_lift preserves_raise : rv.

(** Walk a monadic program: split binds, branches and matches. *)
Ltac preserves_step :=
  match goal with
  | |- preserves _ (mbind _ _) => apply preserves_bind; [| intros ?]
  | |- preserves _ (when _ _) => apply preserves_when
  | |- preserves _ (if ?b then _ else _) => destruct b
  | |- preserves _ (match ?x with _ => _ end) => destruct x
  | |- preserves _ (let _ := _ in _) => cbv zeta
  | |- preserves _ _ => solve [auto with rv]
  end.

(** [returns I P m]: a run of [m] from a state in the invariant [I] that ends
    without a fault ends in [I] with a result in [P].  The rules follow the
    constructors of a program. *)
Definition returns {S A} (I : S -> Prop) (P : A -> Prop) (m : ST S A) : Prop :=
  forall s a s', I s -> m s = Ok (a, s') -> I s' /\ P a.

Abbreviation keeps I := (returns I (fun _ => True)).

Section Returns.
Context {S : Type} (I : S -> Prop).

Lemma returns_weaken {A} (P Q : A -> Prop) (m : ST S A) :
  returns I P m -> (forall a, P a -> Q a) -> returns I Q m.
Proof. intros Hm H s a s' Hs E. destruct (Hm s a s' Hs E). auto. Qed.

Lemma returns_keeps {A} (P : A -> Prop) (m : ST S A) : returns I P m -> keeps I m.
Proof. intros H. by apply (returns_weaken P). Qed.

Lemma returns_ret {A} (P : A -> Prop) a : P a -> returns I P (mret a : ST S A).
Proof. intros H s b s' Hs [= <- <-]. auto. Qed.

Lemma returns_bind {A B} (P : A -> Prop) (Q : B -> Prop) (m : ST S A) (k : A -> ST S B) :
  returns I P m -> (forall a, P a -> returns I Q (k a)) -> returns I Q (m ≫= k).
Proof.
  intros Hm Hk s b s' Hs. unfold mbind, st_bind. destruct (m s) as [[a s1]|] eqn:E; [| done].
  destruct (Hm s a s1 Hs E) as [H1 H2]. by apply Hk.
Qed.

Lemma returns_gets {A} (P : A -> Prop) (f : S -> A) : (forall s, I s -> P (f s)) -> returns I P (gets f).
Proof. intros H s a s' Hs [= <- <-]. auto. Qed.

Lemma returns_modify f : (forall s, I s -> I (f s)) -> keeps I (modify f : ST S unit).
Proof. intros H s a s' Hs [= <- <-]. auto. Qed.

Lemma returns_lift {A} (P : A -> Prop) (r : res A) : (forall a, r = Ok a -> P a) -> returns I P (lift r : ST S A).
Proof. intros H s a s' Hs. unfold lift. destruct r; [intros [= <- <-]; auto | done]. Qed.

Lemma returns_raise {A} (P : A -> Prop) f : returns I P (raise f : ST S A).
Proof. done. Qed.

Lemma returns_when b (m : ST S unit) : (b = true -> keeps I m) -> keeps I (when b m).
Proof. destruct b; cbn; [auto |]. intros _. by apply returns_ret. Qed.

Lemma returns_zoom {T A} (J : T -> Prop) (P : A -> Prop) view put (m : ST T A) :
  returns J P m -> (forall s, I s -> J (view s)) -> (forall s t, I s -> J t -> I (put t s)) ->
  returns I P (zoom view put m).
Proof.
  intros Hm Hv Hp s a s' Hs. unfold zoom. destruct (m (view s)) as [[b t]|] eqn:E; [| done]. intros [= <- <-].
  destruct (Hm _ _ _ (Hv s Hs) E). auto.
Qed.
End Returns.

(** Inverting the run of a monadic program that ended without a fault. *)
Lemma bind_Ok {A B} (m : res A) (k : A -> res B) b :
  m ≫= k = Ok b -> exists a, m = Ok a /\ k a = Ok b.
Proof. destruct m; cbn; [eauto | done]. Qed.

Lemma st_bind_Ok {S A B} (m : ST S A) (k : A -> ST S B) s b s' :
  (m ≫= k) s = Ok (b, s') -> exists a s1, m s = Ok (a, s1) /\ k a s1 = Ok (b, s').
Proof. unfold mbind, st_bind. destruct (m s) as [[a s1]|]; [eauto | done]. Qed.

(** Running a program one step: the first action ended well. *)
Lemma st_bind_run {S A B} (m : ST S A) (k : A -> ST S B) s a s' :
  m s = Ok (a, s') -> (m ≫= k) s = k a s'.
Proof. intros H. unfold mbind, st_bind. by rewrite H. Qed.

Lemma st_bind_err {S A B} (m : ST S A) (k : A -> ST S B) s f :
  m s = Err f -> (m ≫= k) s = Err f.
Proof. intros H. unfold mbind, st_bind. by rewrite H. Qed.

(* ------------------------------------------------------------------ *)
(** ** Zero-initialised arrays

    A C++ array or vector of integers whose elements start at zero: a finite
    map in which an index that was never written reads 0. *)

Abbreviation zvec := (gmap Z Z).

Definition zget (v : zvec) (i : Z) : Z := default 0 (v !! i).
Definition zset (v : zvec) (i x : Z) : zvec := <[i := x]> v.

Lemma zget_zset v i j x : zget (zset v i x) j = if decide (i = j) then x else zget v j.
Proof. unfold zget, zset. rewrite lookup_insert. by case_decide. Qed.

Lemma zget_zset_eq v i x : zget (zset v i x) i = x.
Proof. rewrite zget_zset. by case_decide. Qed.

Lemma zget_zset_ne v i j x : i <> j -> zget (zset v i x) j = zget v j.
Proof. intros. rewrite zget_zset. by case_decide. Qed.

Lemma zget_empty i : zget ∅ i = 0.
Proof. done. Qed.

Lemma zset_zset v i x y : zset (zset v i x) i y = zset v i y.
Proof. apply insert_insert_eq. Qed.

Definition zvec_wf (w : Z) (v : zvec) : Prop := forall i, in_u w (zget v i).

Lemma zvec_wf_empty w : 0 <= w -> zvec_wf w ∅.
Proof. intros H i. rewrite zget_empty. split; [lia | apply Z.pow_pos_nonneg; lia]. Qed.

Lemma zvec_wf_zset w v i x : zvec_wf w v -> in_u w x -> zvec_wf w (zset v i x).
Proof. intros Hv Hx j. rewrite zget_zset. case_decide; auto. Qed.

#[export] Hint Resolve zvec_wf_empty zvec_wf_zset : rv.
Create Rewrite HintDb rv.
#[export] Hint Rewrite zget_zset_eq zget_empty zset_zset : rv.
#[export] Hint Rewrite zget_zset_ne using congruence : rv.

(* ------------------------------------------------------------------ *)
(** ** Objects and the memory they share

    A C++ object is a record; [r <| f := v |>] replaces one member.  The methods
    of an object that holds a pointer to the guest memory run on the pair of the
    object and that memory. *)

(** The record rebuilt from its members: what [mk_setter] abstracts. *)
Class Settable (R : Type) := rebuild : R -> R.
Class Setter {R T : Type} (f : R -> T) := put : T -> R -> R.
Arguments put {R T} f {_} v r : simpl never.

Ltac mk_setter f :=
  lazymatch type of f with ?R -> ?T =>
    let e := eval cbv beta delta [rebuild] in (@rebuild R _) in
    let e := eval red in e in
    lazymatch eval pattern f in e with
    | ?g _ => let h := constr:(fun (v : T) (r : R) => g (fun _ => v) r) in
              let h := eval cbv beta in h in exact h
    end
  end.

Notation "r <| f := v |>" := (put f v r)
  (at level 1, f at next level, v at level 200, left associativity,
   format "r  <|  f  :=  v  |>") : c_scope.

(** Read members through updates: [f (r <| g := v |>)] is [v] or [f r]. *)
Ltac rsimpl :=
  repeat match goal with
  | |- context [?f (@put ?R ?T ?g ?i ?v ?r)] =>
      first [ change (f (@put R T g i v r)) with v | change (f (@put R T g i v r)) with (f r) ]
  | H : context [?f (@put ?R ?T ?g ?i ?v ?r)] |- _ =>
      first [ change (f (@put R T g i v r)) with v in H | change (f (@put R T g i v r)) with (f r) in H ]
  end.

Section Objects.
  Context {R M : Type}.

Definition field {T} (f : R -> T) : ST (R * M) T := fun s => Ok (f s.1, s).
Definition assign {T} (f : R -> T) `{Setter R T f} (v : T) : ST (R * M) unit :=
    fun s => Ok (tt, (s.1 <| f := v |>, s.2)).
  (** A read of, and an update of, the shared memory. *)
Definition mem_get {A} (f : M -> res A) : ST (R * M) A :=
    fun s => match f s.2 with Ok a => Ok (a, s) | Err e => Err e end.
Definition mem_put (f : M -> res M) : ST (R * M) unit :=
    fun s => match f s.2 with Ok m => Ok (tt, (s.1, m)) | Err e => Err e end.

Lemma returns_field (I : R * M -> Prop) {T} (P : T -> Prop) (f : R -> T) :
  (forall s, I s -> P (f s.1)) -> returns I P (field f).
Proof. intros H s a s' Hs [= <- <-]. auto. Qed.

Lemma returns_assign (I : R * M -> Prop) {T} (f : R -> T) `{Setter R T f} (v : T) :
  (forall s, I s -> I (s.1 <| f := v |>, s.2)) -> keeps I (assign f v).
Proof. intros Hs s a s' Hi [= <- <-]. auto. Qed.
End Objects.

Notation "f '::=' v" := (assign f v) (at level 60, no associativity) : c_scope.
