(* ===== verification/BitTools.v ===== *)
(** * bit_tools.h: masks, bit fields, sign extension

    The two mask tables and the templates of bit_tools.h.  A template is
    instantiated at an unsigned width [w] (32 or 64), its value argument being
    a [w]-bit integer; [SignExtend] is also instantiated at [int32_t]. *)

From S2P Require Import Prelude.

(* bit_tools.h:6-13 GenMask *)
Fixpoint gen_mask (w : Z) (n : nat) (mask : Z) : Z :=
  match n with
  | O => mask
  | S n' => gen_mask w n' (uint w (mask <<. 1) .| 1)
  end.

(* bit_tools.h:6-13 GenMask *)
Definition GenMask (w size shift : Z) : Z :=
  uint w (gen_mask w (Z.to_nat size) 0 <<. shift).

(* bit_tools.h:15-22 SetBit *)
Definition SetBit (w data value pos : Z) : Z :=
  if negb (value =? 0) then data .| uint w (1 <<. pos)
  else data .& uint w (Z.lnot (uint w (1 <<. pos))).

(* bit_tools.h:26-41 mask *)
Definition mask_table : list Z :=
  [0x0; 0x01; 0x03; 0x07; 0x0F;
   0x01F; 0x03F; 0x07F; 0x0FF; 0x01FF;
   0x03FF; 0x07FF; 0x0FFF; 0x01FFF; 0x03FFF;
   0x07FFF; 0x0FFFF; 0x01FFFF; 0x03FFFF; 0x07FFFF;
   0x0FFFFF; 0x01FFFFF; 0x03FFFFF; 0x07FFFFF; 0x0FFFFFF;
   0x01FFFFFF; 0x03FFFFFF; 0x07FFFFFF; 0x0FFFFFFF;
   0x01FFFFFFF; 0x03FFFFFFF; 0x07FFFFFFF; 0x0FFFFFFFF;
   0x01FFFFFFFF; 0x03FFFFFFFF; 0x07FFFFFFFF; 0x0FFFFFFFFF;
   0x01FFFFFFFFF; 0x03FFFFFFFFF; 0x07FFFFFFFFF; 0x0FFFFFFFFFF;
   0x01FFFFFFFFFF; 0x03FFFFFFFFFF; 0x07FFFFFFFFFF; 0x0FFFFFFFFFFF;
   0x01FFFFFFFFFFF; 0x03FFFFFFFFFFF; 0x07FFFFFFFFFFF; 0x0FFFFFFFFFFFF;
   0x01FFFFFFFFFFFF; 0x03FFFFFFFFFFFF; 0x07FFFFFFFFFFFF; 0x0FFFFFFFFFFFFF;
   0x01FFFFFFFFFFFFF; 0x03FFFFFFFFFFFFF; 0x07FFFFFFFFFFFFF; 0x0FFFFFFFFFFFFFF;
   0x01FFFFFFFFFFFFFF; 0x03FFFFFFFFFFFFFF; 0x07FFFFFFFFFFFFFF; 0x0FFFFFFFFFFFFFFF;
   0x01FFFFFFFFFFFFFFF; 0x03FFFFFFFFFFFFFFF; 0x07FFFFFFFFFFFFFFF; 0xFFFFFFFFFFFFFFFF].

(* bit_tools.h:43-60 sign_mask *)
Definition sign_mask_table : list Z :=
  [0xFFFFFFFFFFFFFFFE; 0xFFFFFFFFFFFFFFFC; 0xFFFFFFFFFFFFFFF8; 0xFFFFFFFFFFFFFFF0;
   0xFFFFFFFFFFFFFFE0; 0xFFFFFFFFFFFFFFC0; 0xFFFFFFFFFFFFFF80; 0xFFFFFFFFFFFFFF00;
   0xFFFFFFFFFFFFFE00; 0xFFFFFFFFFFFFFC00; 0xFFFFFFFFFFFFF800; 0xFFFFFFFFFFFFF000;
   0xFFFFFFFFFFFFE000; 0xFFFFFFFFFFFFC000; 0xFFFFFFFFFFFF8000; 0xFFFFFFFFFFFF0000;
   0xFFFFFFFFFFFE0000; 0xFFFFFFFFFFFC0000; 0xFFFFFFFFFFF80000; 0xFFFFFFFFFFF00000;
   0xFFFFFFFFFFE00000; 0xFFFFFFFFFFC00000; 0xFFFFFFFFFF800000; 0xFFFFFFFFFF000000;
   0xFFFFFFFFFE000000; 0xFFFFFFFFFC000000; 0xFFFFFFFFF8000000; 0xFFFFFFFFF0000000;
   0xFFFFFFFFE0000000; 0xFFFFFFFFC0000000; 0xFFFFFFFF80000000; 0xFFFFFFFF00000000;
   0xFFFFFFFE00000000; 0xFFFFFFFC00000000; 0xFFFFFFF800000000; 0xFFFFFFF000000000;
   0xFFFFFFE000000000; 0xFFFFFFC000000000; 0xFFFFFF8000000000; 0xFFFFFF0000000000;
   0xFFFFFE0000000000; 0xFFFFFC0000000000; 0xFFFFF80000000000; 0xFFFFF00000000000;
   0xFFFFE00000000000; 0xFFFFC00000000000; 0xFFFF800000000000; 0xFFFF000000000000;
   0xFFFE000000000000; 0xFFFC000000000000; 0xFFF8000000000000; 0xFFF0000000000000;
   0xFFE0000000000000; 0xFFC0000000000000; 0xFF80000000000000; 0xFF00000000000000;
   0xFE00000000000000; 0xFC00000000000000; 0xF800000000000000; 0xF000000000000000;
   0xE000000000000000; 0xC000000000000000; 0x8000000000000000; 0x0000000000000000].

Definition mask (n : Z) : Z := nth (Z.to_nat n) mask_table 0.
Definition sign_mask (n : Z) : Z := nth (Z.to_nat n) sign_mask_table 0.

(* bit_tools.h:64-70 BitShift *)
Definition BitShift (w val width offset distpos : Z) : Z :=
  let val := val >>. offset in
  let val := val .& mask width in
  uint w (val <<. distpos).

(* bit_tools.h:72-77 bitcrop *)
Definition bitcrop (val width offset : Z) : Z :=
  let target_bits := val >>. offset in
  target_bits .& mask width.

(* bit_tools.h:79-87 SignExtend *)
Definition SignExtend (w value width : Z) : Z :=
  if Z.odd (value >>. (width - 1)) then uint w (value .| sign_mask (width - 1))
  else uint w (value .& ~64 (sign_mask (width - 1))).

(* bit_tools.h:79-87 SignExtend *)
Definition SignExtend_int32 (value width : Z) : Z :=
  if Z.odd (value >>. (width - 1)) then s32 (value .| sign_mask (width - 1))
  else s32 (value .& ~64 (sign_mask (width - 1))).

(* bit_tools.h:89-94 bitset *)
Definition bitset (w reg width offset val : Z) : Z :=
  let new_reg := uint w (reg .& ((~64 (mask (width + offset))) .| mask offset)) in
  uint w (new_reg .| uint w ((val .& mask width) <<. offset)).

(* ------------------------------------------------------------------ *)
(** ** What the tables and templates compute *)

(** A table entry by its index: decided by running over the whole table. *)
Lemma table_lookup (f g : Z -> Z) n :
  0 <= n -> Forall (fun i => f i = g i) (seqZ 0 (n + 1)) -> forall i, 0 <= i <= n -> f i = g i.
Proof.
  intros Hn HF i Hi. rewrite Forall_forall in HF. apply HF, elem_of_seqZ. lia.
Qed.

Lemma mask_spec n : 0 <= n <= 64 -> mask n = Z.ones n.
Proof.
  apply table_lookup; [lia |]. apply Forall_forall. intros i Hi.
  assert (H : Forall (fun i => mask i = Z.ones i) (seqZ 0 (64 + 1))) by
    (apply (bool_decide_unpack _); vm_compute; exact I).
  rewrite Forall_forall in H. now apply H.
Qed.

Lemma sign_mask_spec n : 0 <= n <= 63 -> sign_mask n = uint 64 (Z.lnot (Z.ones (n + 1))).
Proof.
  apply (table_lookup sign_mask (fun n => uint 64 (Z.lnot (Z.ones (n + 1))))); [lia |].
  apply (bool_decide_unpack _). vm_compute. exact I.
Qed.

Lemma bitcrop_testbit v w o i :
  0 <= w <= 64 -> 0 <= o -> 0 <= i ->
  Z.testbit (bitcrop v w o) i = (i <? w) && Z.testbit v (i + o).
Proof.
  intros. unfold bitcrop. cbv zeta. rewrite mask_spec, land_mask, testbit_uint by lia.
  now rewrite Z.shiftr_spec by lia.
Qed.

Lemma bitcrop_spec v w o :
  0 <= w <= 64 -> 0 <= o -> bitcrop v w o = uint w (v / 2 ^ o).
Proof.
  intros. unfold bitcrop. cbv zeta.
  now rewrite mask_spec, land_mask, Z.shiftr_div_pow2 by lia.
Qed.

(** A one-bit field is its bit. *)
Lemma bitcrop_bit v o : 0 <= o -> bitcrop v 1 o = Z.b2z (Z.testbit v o).
Proof.
  intros. rewrite bitcrop_spec by lia. rewrite Z.testbit_spec' by done. reflexivity.
Qed.

Lemma bitcrop_range v w o : 0 < w <= 64 -> in_u w (bitcrop v w o).
Proof.
  intros. unfold bitcrop. cbv zeta. rewrite mask_spec, land_mask by lia. apply uint_range; lia.
Qed.

Lemma SignExtend_spec w v width :
  0 < width <= 64 -> 0 < w <= 64 -> width <= w ->
  SignExtend w v width = uint w (sint width v).
Proof.
  intros. unfold SignExtend. rewrite sign_mask_spec by lia.
  replace (width - 1 + 1) with width by lia.
  assert (Hodd : Z.odd (v >>. (width - 1)) = Z.testbit v (width - 1)).
  { rewrite <- Z.bit0_odd, Z.shiftr_spec by lia. f_equal; lia. }
  rewrite Hodd. apply Z.bits_inj'. intros i Hi.
  destruct (Z.testbit v (width - 1)) eqn:E; rewrite !testbit_uint, testbit_sint by lia;
    destruct (Z.ltb_spec i w); cbn [andb]; try done.
  - rewrite Z.lor_spec, testbit_uint, Z.lnot_spec by lia.
    destruct (Z.ltb_spec i 64), (Z.ltb_spec i width); try lia; cbn [andb].
    + now rewrite Z.ones_spec_low, orb_false_r by lia.
    + rewrite Z.ones_spec_high by lia. cbn. now rewrite orb_true_r.
  - rewrite Z.land_spec, testbit_uint, Z.lnot_spec, testbit_uint, Z.lnot_spec by lia.
    destruct (Z.ltb_spec i 64), (Z.ltb_spec i width); try lia; cbn [andb].
    + rewrite Z.ones_spec_low by lia. cbn. apply andb_true_r.
    + rewrite Z.ones_spec_high by lia. cbn. rewrite andb_false_r. done.
Qed.

Lemma SignExtend_int32_spec v width :
  0 < width <= 32 -> SignExtend_int32 v width = sint width v.
Proof.
  intros. replace (sint width v) with (s32 (SignExtend 32 v width)).
  - unfold SignExtend_int32, SignExtend. destruct (Z.odd _); now rewrite sint_uint by lia.
  - rewrite SignExtend_spec, sint_uint by lia. apply sint_small; [lia |].
    pose proof (sint_range width ltac:(lia) v) as Hr. unfold in_s in *.
    pose proof (Z.pow_le_mono_r 2 (width - 1) (32 - 1)). lia.
Qed.

Lemma bitset_testbit w reg width offset val i :
  0 < w <= 64 -> 0 <= width -> 0 <= offset -> width + offset <= w ->
  in_u w reg -> 0 <= i ->
  Z.testbit (bitset w reg width offset val) i =
    if (offset <=? i) && (i <? width + offset) then Z.testbit val (i - offset)
    else Z.testbit reg i.
Proof.
  intros Hw Hwd Ho Hs Hreg Hi. unfold bitset. cbv zeta. rewrite !mask_spec by lia.
  rewrite !testbit_uint, Z.lor_spec, !testbit_uint, Z.land_spec, Z.lor_spec, testbit_uint,
    Z.lnot_spec, Z.shiftl_spec, Z.land_spec by lia.
  destruct (Z.ltb_spec i w).
  2:{ rewrite (testbit_above w reg i) by (auto; lia).
      destruct (Z.leb_spec offset i), (Z.ltb_spec i (width + offset)); try lia; done. }
  destruct (Z.ltb_spec i 64); [| lia].
  destruct (Z.leb_spec offset i), (Z.ltb_spec i (width + offset)); cbn [andb];
    repeat first
      [ rewrite (Z.ones_spec_low (width + offset)) by lia
      | rewrite (Z.ones_spec_high (width + offset)) by lia
      | rewrite (Z.ones_spec_low offset) by lia
      | rewrite (Z.ones_spec_high offset) by lia
      | rewrite (Z.ones_spec_low width) by lia
      | rewrite (Z.ones_spec_high width) by lia
      | rewrite (Z.testbit_neg_r val) by lia ]; cbn [andb orb negb];
    rewrite ?andb_false_r, ?andb_true_r, ?orb_false_r, ?orb_true_r; try reflexivity; try lia.
Qed.

Lemma bitset_range w reg width offset val : 0 < w -> in_u w (bitset w reg width offset val).
Proof. intros. apply uint_range; lia. Qed.

(** Reading back a field just written, and reading a disjoint one. *)
Lemma bitcrop_bitset_same w reg width offset val :
  0 < w <= 64 -> 0 <= width -> 0 <= offset -> width + offset <= w -> in_u w reg ->
  bitcrop (bitset w reg width offset val) width offset = uint width val.
Proof.
  intros. apply Z.bits_inj'. intros i Hi.
  rewrite bitcrop_testbit, bitset_testbit, testbit_uint by (auto; lia).
  destruct (Z.ltb_spec i width); cbn; [| done].
  destruct (Z.leb_spec offset (i + offset)), (Z.ltb_spec (i + offset) (width + offset)); try lia.
  cbn. f_equal; lia.
Qed.

Lemma bitcrop_bitset_other w reg width offset val width' offset' :
  0 < w <= 64 -> 0 <= width -> 0 <= offset -> width + offset <= w -> in_u w reg ->
  0 <= width' <= 64 -> 0 <= offset' ->
  offset' + width' <= offset \/ offset + width <= offset' ->
  bitcrop (bitset w reg width offset val) width' offset' = bitcrop reg width' offset'.
Proof.
  intros. apply Z.bits_inj'. intros i Hi.
  rewrite !bitcrop_testbit, bitset_testbit by (auto; lia).
  destruct (Z.ltb_spec i width'); cbn; [| done].
  destruct (Z.leb_spec offset (i + offset')), (Z.ltb_spec (i + offset') (width + offset));
    cbn; try done; lia.
Qed.

Lemma GenMask_spec w n s :
  0 < w -> 0 <= n -> 0 <= s -> GenMask w n s = uint w (uint w (Z.ones n) <<. s).
Proof.
  intros Hw Hn Hs. unfold GenMask. f_equal. f_equal.
  assert (H : forall k m, 0 <= m ->
            gen_mask w k (uint w (Z.ones m)) = uint w (Z.ones (m + Z.of_nat k))).
  { induction k as [|k IH]; intros m Hm; cbn [gen_mask].
    { do 2 f_equal. lia. }
    replace (uint w (uint w (Z.ones m) <<. 1) .| 1) with (uint w (Z.ones (m + 1))).
    { rewrite IH by lia. do 2 f_equal. lia. }
    apply Z.bits_inj'. intros i Hi.
    rewrite Z.lor_spec, !testbit_uint, Z.shiftl_spec, testbit_uint, testbit_one by lia.
    destruct (Z.eqb_spec i 0) as [->|].
    { rewrite Z.ones_spec_low by lia. destruct (Z.ltb_spec 0 w); [|lia]. by rewrite orb_true_r. }
    rewrite orb_false_r.
    destruct (Z.ltb_spec i w), (Z.ltb_spec (i - 1) w); try lia; cbn [andb]; try done.
    destruct (Z.ltb_spec i (m + 1)).
    - now rewrite !Z.ones_spec_low by lia.
    - now rewrite !Z.ones_spec_high by lia. }
  specialize (H (Z.to_nat n) 0 ltac:(lia)).
  replace (uint w (Z.ones 0)) with 0 in H by (symmetry; apply uint_small; unfold in_u;
    split; [done | apply Z.pow_pos_nonneg; lia]).
  rewrite H. do 2 f_equal. lia.
Qed.

#[export] Hint Resolve bitcrop_range bitset_range : rv.

Lemma SetBit_testbit w data value pos i :
  0 < w -> 0 <= pos < w -> in_u w data -> 0 <= i ->
  Z.testbit (SetBit w data value pos) i =
    if i =? pos then negb (value =? 0) else Z.testbit data i.
Proof.
  intros Hw Hp Hd Hi. unfold SetBit.
  assert (Hone : forall j, 0 <= j -> Z.testbit (uint w (1 <<. pos)) j = (j =? pos)).
  { intros j Hj. rewrite testbit_uint, Z.shiftl_spec by lia.
    destruct (Z.eqb_spec j pos) as [->|].
    - destruct (Z.ltb_spec pos w); [| lia]. by rewrite Z.sub_diag.
    - destruct (Z.ltb_spec (j - pos) 0); [rewrite Z.testbit_neg_r by lia; apply andb_false_r |].
      rewrite testbit_one by lia. destruct (Z.eqb_spec (j - pos) 0); [lia | apply andb_false_r]. }
  destruct (value =? 0); cbn [negb].
  - rewrite Z.land_spec, testbit_uint, Z.lnot_spec, Hone by lia.
    destruct (Z.eqb_spec i pos); cbn [negb]; rewrite ?andb_false_r, ?andb_true_r; [done |].
    destruct (Z.ltb_spec i w); [apply andb_true_r | rewrite (testbit_above w data i) by auto with rv; done].
  - rewrite Z.lor_spec, Hone by lia. destruct (Z.eqb_spec i pos); [apply orb_true_r | apply orb_false_r].
Qed.

Lemma SetBit_range w data value pos :
  0 < w -> 0 <= pos < w -> in_u w data -> in_u w (SetBit w data value pos).
Proof.
  intros. unfold SetBit.
  pose proof (uint_range w ltac:(lia) (1 <<. pos)).
  pose proof (uint_range w ltac:(lia) (Z.lnot (uint w (1 <<. pos)))) as Hr.
  destruct (negb _); [auto with rv | apply in_u_land_l; auto with rv; unfold in_u in Hr; lia].
Qed.

#[export] Hint Resolve SetBit_range : rv.

(** A field that does not contain the bit is not touched. *)
Lemma bitcrop_SetBit w data value pos width offset :
  0 < w -> 0 <= pos < w -> in_u w data -> 0 <= width <= 64 -> 0 <= offset ->
  bitcrop (SetBit w data value pos) width offset =
    if (offset <=? pos) && (pos <? offset + width)
    then SetBit width (bitcrop data width offset) value (pos - offset)
    else bitcrop data width offset.
Proof.
  intros Hw Hp Hd Hwd Ho. apply Z.bits_inj'. intros i Hi.
  destruct (Z.leb_spec offset pos), (Z.ltb_spec pos (offset + width)); cbn [andb];
    try rewrite SetBit_testbit by (auto with rv; lia);
    rewrite ?bitcrop_testbit, ?SetBit_testbit by (auto with rv; lia);
    destruct (Z.ltb_spec i width), (Z.eqb_spec (i + offset) pos); cbn [andb]; try lia; try done;
    destruct (Z.eqb_spec i (pos - offset)); try lia; done.
Qed.

Lemma SetBit_1 data value : in_u 1 data -> SetBit 1 data value 0 = Z.b2z (negb (value =? 0)).
Proof.
  intros. assert (data = 0 \/ data = 1) as [-> | ->] by (unfold in_u in *; lia);
    unfold SetBit; by destruct (value =? 0).
Qed.

Lemma bitcrop_low v w : 0 <= w <= 64 -> bitcrop v w 0 = v mod 2 ^ w.
Proof. intros. rewrite bitcrop_spec by lia. by rewrite Z.pow_0_r, Z.div_1_r. Qed.

(* ------------------------------------------------------------------ *)
(** ** Properties *)

(** [bitset] writes exactly the field it names, at both widths the emulator
    instantiates: [bitcrop] reads the low bits of the new value back, and every
    disjoint field keeps its value. *)
Theorem bitset_writes_field (w reg width offset val : Z) :
  w = 32 \/ w = 64 -> in_u w reg -> 0 <= width -> 0 <= offset -> width + offset <= w ->
  bitcrop (bitset w reg width offset val) width offset = val mod 2 ^ width /\
  forall width' offset', 0 <= width' <= 64 -> 0 <= offset' ->
    offset' + width' <= offset \/ offset + width <= offset' ->
    bitcrop (bitset w reg width offset val) width' offset' = bitcrop reg width' offset'.
Proof.
  intros Hw Hr Hwd Ho Hs. split.
  - apply bitcrop_bitset_same; lia || done.
  - intros. apply bitcrop_bitset_other; lia || done.
Qed.

Lemma bitset_writes_field_witness :
  bitcrop (bitset 64 0xA00001888 2 11 3) 2 11 = 3 /\ bitcrop (bitset 64 0xA00001888 2 11 3) 1 7 = 1.
Proof.
  destruct (bitset_writes_field 64 0xA00001888 2 11 3) as [H1 H2]; try (unfold in_u; lia).
  split; [exact H1 |]. exact (H2 1 7 ltac:(lia) ltac:(lia) ltac:(lia)).
Defined.

(** [SignExtend<T>] is two's-complement sign extension for every field width
    up to that of [T], at the three types it is instantiated at ([uint32_t],
    [uint64_t] and [int32_t]), whatever the bits above the field. *)
Theorem SignExtend_is_sign_extension (v width : Z) :
  0 < width <= 64 ->
  SignExtend 64 v width = u64 (sint width v) /\
  (width <= 32 -> SignExtend 32 v width = u32 (sint width v) /\ SignExtend_int32 v width = sint width v).
Proof.
  intros Hw. split; [apply SignExtend_spec; lia |]. intros.
  split; [apply SignExtend_spec; lia | apply SignExtend_int32_spec; lia].
Qed.

Lemma SignExtend_is_sign_extension_witness :
  SignExtend 64 0x1800 12 = 0xFFFFFFFFFFFFF800 /\ SignExtend_int32 0x800 12 = -2048.
Proof.
  destruct (SignExtend_is_sign_extension 0x1800 12 ltac:(lia)) as [H1 _].
  destruct (SignExtend_is_sign_extension 0x800 12 ltac:(lia)) as [_ H2].
  split; [exact H1 | exact (proj2 (H2 ltac:(lia)))].
Defined.
