(* ===== verification/Memory.v ===== *)
(** * memory_wrapper.h / memory_wrapper.cpp: the paged guest memory

    [Module MemoryWrapper] is the class; [Module ByteMem] the abstract
    specification it refines, a flat memory of bytes over the 32-bit address
    space; [Class GuestMemory] the interface through which the MMU and the
    devices use a memory, discharged by [MemoryWrapper]. *)

From S2P Require Import Prelude.

(** memory_wrapper.h:18-24.  The [int] left shift of a negative value wraps, as
    the compiler defines it. *)
(* memory_wrapper.h:18-24 GenerateBitMask *)
Fixpoint GenerateBitMask_loop (n : nat) (mask : Z) : Z :=
  match n with
  | O => mask
  | S n' => GenerateBitMask_loop n' (s32 (mask <<. 1) .| 1)
  end.

(* memory_wrapper.h:18-24 GenerateBitMask *)
Definition GenerateBitMask (bits : Z) : Z := GenerateBitMask_loop (Z.to_nat bits) 0.

(* ------------------------------------------------------------------ *)
(** ** Abstract specification: a flat little-endian byte memory

    Addresses count modulo 2^32. *)

Module ByteMem.

Definition t : Type := Z -> Z.

Fixpoint load (n : nat) (f : t) (a : Z) : Z :=
  match n with
  | O => 0
  | S n' => f a + 256 * load n' f (a + 1)
  end.

Definition store (n : nat) (f : t) (a v : Z) : t := fun b =>
  let d := (b - a) mod 2 ^ 32 in
  if d <? Z.of_nat n then u8 (v >>. (8 * d)) else f b.

Lemma load_ext n f g a :
  (forall b, a <= b < a + Z.of_nat n -> f b = g b) -> load n f a = load n g a.
Proof.
  revert a. induction n as [|n IH]; intros a H; cbn [load]; [done |].
  rewrite (H a), (IH (a + 1)) by lia || (intros; apply H; lia). done.
Qed.

Lemma load_range n f a : (forall b, in_u 8 (f b)) -> 0 <= load n f a < 256 ^ Z.of_nat n.
Proof.
  intros Hf. revert a. induction n as [|n IH]; intros a; cbn [load]; [lia |].
  specialize (IH (a + 1)). specialize (Hf a). unfold in_u in Hf.
  rewrite Nat2Z.inj_succ, Z.pow_succ_r by lia. lia.
Qed.

Lemma load_app n k f a :
  load (n + k) f a = load n f a + 256 ^ Z.of_nat n * load k f (a + Z.of_nat n).
Proof.
  revert a. induction n as [|n IH]; intros a.
  { cbn [load Nat.add]. rewrite Z.add_0_r. lia. }
  cbn [load Nat.add]. rewrite IH, Nat2Z.inj_succ, Z.pow_succ_r by lia.
  replace (a + Z.succ (Z.of_nat n)) with (a + 1 + Z.of_nat n) by lia. lia.
Qed.

Lemma load_shifted n f a v k :
  (forall d, k <= d < k + Z.of_nat n -> f (a + d) = u8 (v >>. (8 * d))) -> 0 <= k ->
  load n f (a + k) = uint (8 * Z.of_nat n) (v >>. (8 * k)).
Proof.
  revert k. induction n as [|n IH]; intros k H Hk; cbn [load].
  { cbn. unfold uint. by rewrite Z.mod_1_r. }
  rewrite (H k) by lia. replace (a + k + 1) with (a + (k + 1)) by lia.
  rewrite (IH (k + 1)) by (lia || (intros; apply H; lia)).
  unfold uint. rewrite !Z.shiftr_div_pow2 by lia.
  replace (8 * Z.of_nat (S n)) with (8 + 8 * Z.of_nat n) by lia.
  replace (8 * (k + 1)) with (8 * k + 8) by lia.
  rewrite !Z.pow_add_r by lia.
  assert (0 < 2 ^ (8 * k)) by (apply Z.pow_pos_nonneg; lia).
  assert (0 < 2 ^ (8 * Z.of_nat n)) by (apply Z.pow_pos_nonneg; lia).
  rewrite <- Z.div_div, Z.rem_mul_r by lia. done.
Qed.

(** Loading what was stored. *)
Lemma load_store_same n f a v :
  Z.of_nat n <= 2 ^ 32 -> load n (store n f a v) a = uint (8 * Z.of_nat n) v.
Proof.
  intros Hn. replace a with (a + 0) at 2 by lia.
  rewrite (load_shifted n _ a v 0); [by rewrite Z.shiftr_0_r | | lia].
  intros d Hd. unfold store. replace (a + d - a) with d by lia.
  rewrite (Z.mod_small d) by lia. destruct (Z.ltb_spec d (Z.of_nat n)); [done | lia].
Qed.

(** Loading bytes that were not stored to. *)
Lemma load_store_other n k f a b v :
  (forall i, 0 <= i < Z.of_nat k -> Z.of_nat n <= (b + i - a) mod 2 ^ 32) ->
  load k (store n f a v) b = load k f b.
Proof.
  intros H. apply load_ext. intros c Hc. unfold store.
  specialize (H (c - b)). replace (b + (c - b) - a) with (c - a) in H by lia.
  destruct (Z.ltb_spec ((c - a) mod 2 ^ 32) (Z.of_nat n)); [lia | done].
Qed.

Lemma store_app n k f a v b :
  Z.of_nat n + Z.of_nat k <= 2 ^ 32 ->
  store (n + k) f a v b = store k (store n f a v) (a + Z.of_nat n) (v >>. (8 * Z.of_nat n)) b.
Proof.
  intros Hn. unfold store. cbv zeta.
  rewrite Z.shiftr_shiftr by zlia.
  destruct (Z.ltb_spec ((b - a) mod 2 ^ 32) (Z.of_nat (n + k)));
    destruct (Z.ltb_spec ((b - (a + Z.of_nat n)) mod 2 ^ 32) (Z.of_nat k));
    destruct (Z.ltb_spec ((b - a) mod 2 ^ 32) (Z.of_nat n)); try zlia; try done.
  do 2 f_equal. zlia.
Qed.

Lemma store_uint n f a v b : store n f a (uint (8 * Z.of_nat n) v) b = store n f a v b.
Proof.
  unfold store. cbv zeta. destruct (Z.ltb_spec ((b - a) mod 2 ^ 32) (Z.of_nat n)); [| done].
  apply Z.bits_inj'. intros i Hi.
  rewrite !testbit_uint, !Z.shiftr_spec, testbit_uint by lia.
  destruct (Z.ltb_spec i 8); [| done].
  destruct (Z.ltb_spec (i + 8 * ((b - a) mod 2 ^ 32)) (8 * Z.of_nat n)); [done | lia].
Qed.

Lemma store_ext n f g a v b : f b = g b -> store n f a v b = store n g a v b.
Proof. intros H. unfold store. by rewrite H. Qed.

End ByteMem.

Module MemoryWrapper.

(* memory_wrapper.h:27-34 MemoryWrapper *)
Definition kTotalBits : Z := 32.
Definition kOffsetBits : Z := 20.
Definition kWordBits : Z := 2.
Definition kOffsetMask : Z := GenerateBitMask kOffsetBits.
Definition kEntryBits : Z := kTotalBits - kOffsetBits.
Definition kEntryMask : Z := GenerateBitMask kEntryBits.
Definition kMapEntry : Z := 1 <<. kEntryBits.

(** [mapping_]: 4096 vectors, each empty (no entry) or of 2^18 words that
    [resize] sets to 0; [assigned_]: the entries that have been resized. *)
(* memory_wrapper.h:70-71 MemoryWrapper *)
Record t : Type := mk {
  mapping_ : gmap Z zvec;
  assigned_ : gset Z
}.

(* memory_wrapper.cpp:10-15 MemoryWrapper::MemoryWrapper *)
Definition MemoryWrapper : t := mk ∅ ∅.

(* memory_wrapper.h:63-68 CheckRange *)
Definition CheckRange (m : t) (entry : Z) : res bool :=
  if (entry <? 0) || (kMapEntry <=? entry) then Err Exception
  else Ok (bool_decide (entry ∈ assigned_ m)).

(** [mapping_[entry]] as a vector. *)
Definition page (m : t) (entry : Z) : zvec := default ∅ (mapping_ m !! entry).

(* memory_wrapper.cpp:62-72 MemoryWrapper::Read32 *)
Definition Read32 (m : t) (i : Z) : res Z :=
  assert_that ((i .& 3) =? 0);;
  let entry := s32 ((i >>. kOffsetBits) .& kEntryMask) in
  in_range ← CheckRange m entry;
  if in_range : bool then
    let offset := s32 (i .& kOffsetMask) in
    let word_offset := offset >>. kWordBits in
    mret (zget (page m entry) word_offset)
  else mret 0.

(* memory_wrapper.cpp:74-84 MemoryWrapper::Write32 *)
Definition Write32 (m : t) (i value : Z) : res t :=
  assert_that ((i .& 3) =? 0);;
  let entry := s32 ((i >>. kOffsetBits) .& kEntryMask) in
  in_range ← CheckRange m entry;
  let m := if in_range : bool then m
           else mk (<[entry := page m entry]> (mapping_ m)) ({[entry]} ∪ assigned_ m) in
  let offset := s32 (i .& kOffsetMask) in
  let word_offset := offset >>. kWordBits in
  mret (mk (<[entry := zset (page m entry) word_offset value]> (mapping_ m)) (assigned_ m)).

(* memory_wrapper.cpp:17-23 MemoryWrapper::ReadByte *)
Definition ReadByte (m : t) (i : Z) : res Z :=
  let dram_address := u64 ((i >>. kWordBits) <<. kWordBits) in
  read_data ← Read32 m dram_address;
  let byte_offset := i .& 3 in
  let read_data := read_data >>. (byte_offset * 8) in
  mret (u8 (read_data .& 0xFF)).

Definition byte_mask : list Z := [0xFFFFFF00; 0xFFFF00FF; 0xFF00FFFF; 0x00FFFFFF].

(* memory_wrapper.cpp:25-38 MemoryWrapper::WriteByte *)
Definition WriteByte (m : t) (i data : Z) : res t :=
  let dram_address := u64 ((i >>. kWordBits) <<. kWordBits) in
  original_data ← Read32 m dram_address;
  let byte_offset := i .& 3 in
  let write_data := (original_data .& nth (Z.to_nat byte_offset) byte_mask 0)
                    .| u64 (data <<. (byte_offset * 8)) in
  Write32 m dram_address (u32 write_data).

(* memory_wrapper.cpp:40-47 MemoryWrapper::Read16 *)
Definition Read16 (m : t) (i : Z) : res Z :=
  assert_that ((i .& 1) =? 0);;
  let dram_address := u64 ((i >>. kWordBits) <<. kWordBits) in
  read_data ← Read32 m dram_address;
  let short_word_offset := i .& 3 in
  let read_data := read_data >>. (short_word_offset * 8) in
  mret (u16 (read_data .& 0xFFFF)).

Definition short_mask : list Z := [0xFFFF0000; 0x0000FFFF].

(* memory_wrapper.cpp:49-60 MemoryWrapper::Write16 *)
Definition Write16 (m : t) (i data : Z) : res t :=
  assert_that ((i .& 1) =? 0);;
  let dram_address := u64 ((i >>. kWordBits) <<. kWordBits) in
  original_data ← Read32 m dram_address;
  let short_word_offset := (i >>. 1) .& 1 in
  let write_data := u32 ((original_data .& u32 (nth (Z.to_nat short_word_offset) short_mask 0))
                    .| u32 (s32 (data <<. (short_word_offset * 16)))) in
  Write32 m dram_address write_data.

(* memory_wrapper.cpp:86-93 MemoryWrapper::Read64 *)
Definition Read64 (m : t) (i : Z) : res Z :=
  assert_that ((i .& 7) =? 0);;
  let dram_address := u64 ((i >>. kWordBits) <<. kWordBits) in
  read_data_lower ← Read32 m dram_address;
  read_data_upper ← Read32 m (u64 (dram_address + 4));
  mret (read_data_lower .| u64 (read_data_upper <<. 32)).

(* memory_wrapper.cpp:95-100 MemoryWrapper::Write64 *)
Definition Write64 (m : t) (i value : Z) : res t :=
  assert_that ((i .& 7) =? 0);;
  let dram_address := u64 ((i >>. kWordBits) <<. kWordBits) in
  m ← Write32 m dram_address (u32 (value .& 0xFFFFFFFF));
  Write32 m (u64 (dram_address + 4)) (u32 ((value >>. 32) .& 0xFFFFFFFF)).

(** Two vectors of the same size hold the same words. *)
Definition vec_eqb (a b : option zvec) : bool :=
  match a, b with
  | None, None => true
  | Some v, Some w => bool_decide (set_Forall (fun k => zget v k = zget w k) (dom v ∪ dom w))
  | _, _ => false
  end.

(* memory_wrapper.cpp:102-104 MemoryWrapper::operator== *)
Definition op_eq (m r : t) : bool :=
  bool_decide (set_Forall (fun e => vec_eqb (mapping_ m !! e) (mapping_ r !! e) = true)
                 (dom (mapping_ m) ∪ dom (mapping_ r)))
  && bool_decide (assigned_ m = assigned_ r).

(* memory_wrapper.cpp:106-108 MemoryWrapper::operator!= *)
Definition op_ne (m r : t) : bool :=
  negb (bool_decide (set_Forall (fun e => vec_eqb (mapping_ m !! e) (mapping_ r !! e) = true)
                       (dom (mapping_ m) ∪ dom (mapping_ r))))
  || negb (bool_decide (assigned_ m = assigned_ r)).

(* ------------------------------------------------------------------ *)
(** ** Invariant and word-level view *)

(** No stale words in an unassigned entry; every stored word is a [uint32_t]. *)
Record wf (m : t) : Prop := mk_wf {
  wf_unassigned : forall e, e ∉ assigned_ m -> mapping_ m !! e = None;
  wf_words : forall e, zvec_wf 32 (page m e)
}.

(** The 32-bit word number [k] (0 <= k < 2^30) of the address space. *)
Definition word (m : t) (k : Z) : Z := zget (page m (k / 2 ^ 18)) (k mod 2 ^ 18).

(** The word that holds the byte at address [i]. *)
Definition widx (i : Z) : Z := (i / 4) mod 2 ^ 30.

Lemma widx_range i : 0 <= widx i < 2 ^ 30.
Proof. apply Z.mod_pos_bound. lia. Qed.

Lemma entry_spec i : s32 ((i >>. kOffsetBits) .& kEntryMask) = widx i / 2 ^ 18.
Proof.
  change kEntryMask with (Z.ones 12). rewrite land_mask, Z.shiftr_div_pow2 by done.
  unfold kOffsetBits, widx. rewrite sint_of_uint by lia.
  change (2 ^ 30) with (2 ^ 18 * 2 ^ 12). rewrite div_mod_field, Z.div_div by lia. done.
Qed.

Lemma word_offset_spec i : s32 (i .& kOffsetMask) >>. kWordBits = widx i mod 2 ^ 18.
Proof.
  change kOffsetMask with (Z.ones 20). rewrite land_mask, Z.shiftr_div_pow2 by done.
  unfold kWordBits, widx. rewrite sint_of_uint by lia.
  change (2 ^ 30) with (2 ^ 18 * 2 ^ 12). rewrite mod_mod_field by lia.
  unfold uint. change (2 ^ 20) with (2 ^ 2 * 2 ^ 18). by rewrite div_mod_field by lia.
Qed.

Lemma CheckRange_ok m k :
  0 <= k < 2 ^ 30 -> CheckRange m (k / 2 ^ 18) = Ok (bool_decide (k / 2 ^ 18 ∈ assigned_ m)).
Proof.
  intros. unfold CheckRange. change kMapEntry with 4096.
  assert (0 <= k / 2 ^ 18 < 4096) by zlia.
  destruct (Z.ltb_spec (k / 2 ^ 18) 0), (Z.leb_spec 4096 (k / 2 ^ 18)); lia || done.
Qed.

Lemma land3 i : i .& 3 = i mod 4.
Proof. apply (land_mask i 2). lia. Qed.
Lemma land7 i : i .& 7 = i mod 8.
Proof. apply (land_mask i 3). lia. Qed.
Lemma land1 i : i .& 1 = i mod 2.
Proof. apply (land_mask i 1). lia. Qed.

Lemma Read32_spec m i :
  wf m ->
  Read32 m i = if i mod 4 =? 0 then Ok (word m (widx i)) else Err Assert_failed.
Proof.
  intros Hm. unfold Read32. rewrite land3.
  destruct (i mod 4 =? 0); cbn [assert_that mbind res_bind]; [| done].
  rewrite entry_spec, CheckRange_ok, word_offset_spec by apply widx_range. cbn [mbind res_bind].
  case_bool_decide as Hin; [done |]. unfold word, page.
  now rewrite (wf_unassigned m Hm _ Hin), zget_empty.
Qed.

Lemma word_range m k : wf m -> in_u 32 (word m k).
Proof. intros Hm. apply (wf_words m Hm). Qed.

(** A store changes one word of the space and keeps the invariant. *)
Lemma Write32_spec m i v :
  wf m -> in_u 32 v -> i mod 4 = 0 ->
  exists m', Write32 m i v = Ok m' /\ wf m' /\
    forall k, 0 <= k < 2 ^ 30 -> word m' k = if k =? widx i then v else word m k.
Proof.
  intros Hm Hv Hi. unfold Write32. rewrite land3, Hi. cbn [Z.eqb assert_that mbind res_bind].
  rewrite entry_spec, CheckRange_ok, word_offset_spec by apply widx_range. cbn [mbind res_bind].
  set (e := widx i / 2 ^ 18). set (o := widx i mod 2 ^ 18).
  assert (Hgo : forall m1, (forall e, page m1 e = page m e) ->
    (forall e', e' ∉ assigned_ m1 -> mapping_ m !! e' = None /\ mapping_ m1 !! e' = None) ->
    e ∈ assigned_ m1 ->
    exists m', Ok (mk (<[e := zset (page m1 e) o v]> (mapping_ m1)) (assigned_ m1)) = Ok m' /\ wf m' /\
    forall k, 0 <= k < 2 ^ 30 -> word m' k = if k =? widx i then v else word m k).
  { intros m1 Hp Hu He. eexists. split; [reflexivity |].
    assert (Hpage : forall e', page (mk (<[e := zset (page m1 e) o v]> (mapping_ m1)) (assigned_ m1)) e'
                    = if decide (e = e') then zset (page m e) o v else page m e').
    { intros e'. rewrite <- (Hp e), <- (Hp e'). unfold page. cbn. rewrite lookup_insert.
      by case_decide. }
    split; [split |].
    - cbn. intros e' He'. rewrite lookup_insert_ne by (intros ->; done). by apply Hu.
    - intros e'. rewrite Hpage. case_decide; [| apply wf_words, Hm].
      apply zvec_wf_zset; [apply wf_words, Hm | done].
    - intros k Hk. unfold word. rewrite Hpage. pose proof (widx_range i).
      destruct (Z.eqb_spec k (widx i)) as [->|Hne].
      + rewrite decide_True by done. apply zget_zset_eq.
      + case_decide as He'; [| done]. rewrite zget_zset_ne by (unfold e, o in *; zlia).
        now rewrite He'. }
  case_bool_decide as Hin; cbn [mret res_ret].
  - apply Hgo; [done | | done]. intros e' He'. split; by apply (wf_unassigned m Hm).
  - apply (Hgo (mk (<[e := page m e]> (mapping_ m)) ({[e]} ∪ assigned_ m))); cbn.
    + intros e'. unfold page. cbn. rewrite lookup_insert. case_decide; [by subst | done].
    + intros e' He'. rewrite lookup_insert_ne by set_solver.
      split; apply (wf_unassigned m Hm); set_solver.
    + set_solver.
Qed.

(** The byte at address [a]. *)
Definition byte (m : t) (a : Z) : Z := u8 (word m (widx a) >>. (8 * (a mod 4))).

Lemma byte_range m a : in_u 8 (byte m a).
Proof. apply uint_range; lia. Qed.

Lemma byte_period m a : byte m (a mod 2 ^ 32) = byte m a.
Proof.
  unfold byte, widx. change (2 ^ 32) with (4 * 2 ^ 30).
  by rewrite div_mod_field, mod_mod_field, Z.mod_mod by lia.
Qed.

Lemma widx_aligned a k : a mod 4 = 0 -> 0 <= k < 4 -> widx (a + k) = widx a /\ (a + k) mod 4 = k.
Proof.
  intros. unfold widx. replace ((a + k) / 4) with (a / 4) by zlia. split; [done | zlia].
Qed.

Lemma byte_aligned m a k :
  a mod 4 = 0 -> 0 <= k < 4 -> byte m (a + k) = u8 (word m (widx a) >>. (8 * k)).
Proof. intros Ha Hk. unfold byte. by destruct (widx_aligned a k Ha Hk) as [-> ->]. Qed.

Lemma word_load m a n k :
  wf m -> a mod 4 = 0 -> 0 <= k -> k + Z.of_nat n <= 4 ->
  ByteMem.load n (byte m) (a + k) = uint (8 * Z.of_nat n) (word m (widx a) >>. (8 * k)).
Proof.
  intros Hm Ha Hk Hn. apply ByteMem.load_shifted; [| done].
  intros d Hd. apply byte_aligned; [done | lia].
Qed.

Lemma aligned_base i :
  u64 ((i >>. kWordBits) <<. kWordBits) mod 4 = 0 /\
  widx (u64 ((i >>. kWordBits) <<. kWordBits)) = widx i.
Proof.
  unfold kWordBits. rewrite Z.shiftl_mul_pow2, Z.shiftr_div_pow2 by done.
  unfold uint, widx. change (2 ^ 64) with (4 * 2 ^ 62). change (2 ^ 2) with 4.
  rewrite mod_mod_field, Z.mod_mul, div_mod_field, Z.div_mul by lia.
  change (2 ^ 62) with (2 ^ 30 * 2 ^ 32). by rewrite mod_mod_field by lia.
Qed.

Lemma ReadByte_spec m a : wf m -> ReadByte m a = Ok (ByteMem.load 1 (byte m) a).
Proof.
  intros Hm. unfold ReadByte. cbv zeta. destruct (aligned_base a) as [H0 Hw].
  rewrite (Read32_spec m) by done. rewrite H0, Hw. cbn [Z.eqb mbind res_bind mret res_ret].
  f_equal. cbn [ByteMem.load]. unfold byte. rewrite land3, (land_mask _ 8), uint_uint by lia.
  rewrite (Z.mul_comm (a mod 4)). lia.
Qed.

Lemma Read16_spec m a :
  wf m -> Read16 m a = if a mod 2 =? 0 then Ok (ByteMem.load 2 (byte m) a) else Err Assert_failed.
Proof.
  intros Hm. unfold Read16. rewrite land1.
  destruct (Z.eqb_spec (a mod 2) 0) as [Ha|]; cbn [assert_that mbind res_bind]; [| done].
  cbv zeta. destruct (aligned_base a) as [H0 Hw].
  rewrite (Read32_spec m) by done. rewrite H0, Hw. cbn [Z.eqb mbind res_bind mret res_ret].
  f_equal. rewrite land3, (land_mask _ 16), uint_uint by lia.
  replace a with (4 * (a / 4) + a mod 4) at 3 by zlia.
  assert (Hw' : widx (4 * (a / 4)) = widx a) by (unfold widx; now rewrite (Z.mul_comm 4), Z.div_mul).
  rewrite word_load by (done || zlia).
  by rewrite Hw', (Z.mul_comm (a mod 4)).
Qed.

Lemma Read32_load m a :
  wf m -> Read32 m a = if a mod 4 =? 0 then Ok (ByteMem.load 4 (byte m) a) else Err Assert_failed.
Proof.
  intros Hm. rewrite Read32_spec by done. destruct (Z.eqb_spec (a mod 4) 0) as [Ha|]; [| done].
  f_equal. replace a with (a + 0) at 2 by lia. rewrite word_load by (done || lia).
  rewrite Z.shiftr_0_r. symmetry. apply uint_small, word_range, Hm.
Qed.

Lemma low3_base a : a mod 8 = 0 ->
  exists b, u64 ((a >>. kWordBits) <<. kWordBits) = b /\ u64 (b + 4) mod 4 = 0 /\
    b mod 4 = 0 /\ widx b = widx a /\ widx (u64 (b + 4)) = widx (a + 4).
Proof.
  intros Ha. eexists. split; [reflexivity |]. destruct (aligned_base a) as [H0 Hw].
  rewrite H0, Hw. unfold kWordBits. rewrite Z.shiftl_mul_pow2, Z.shiftr_div_pow2 by done.
  replace (a / 2 ^ 2 * 2 ^ 2) with a by zlia. unfold uint, widx.
  rewrite Zplus_mod_idemp_l. change (2 ^ 64) with (4 * (2 ^ 30 * 2 ^ 32)).
  rewrite mod_mod_field, div_mod_field, mod_mod_field by lia.
  repeat split; zlia.
Qed.

Lemma Read64_spec m a :
  wf m -> Read64 m a = if a mod 8 =? 0 then Ok (ByteMem.load 8 (byte m) a) else Err Assert_failed.
Proof.
  intros Hm. unfold Read64. rewrite land7.
  destruct (Z.eqb_spec (a mod 8) 0) as [Ha|]; cbn [assert_that mbind res_bind]; [| done].
  cbv zeta. destruct (low3_base a Ha) as (b & -> & H4 & H0 & Hw & Hw').
  rewrite !(Read32_spec m) by done. rewrite H4, H0, Hw, Hw'. cbn [Z.eqb mbind res_bind mret res_ret].
  f_equal.
  transitivity (ByteMem.load 4 (byte m) a + 2 ^ 32 * ByteMem.load 4 (byte m) (a + 4)).
  2:{ symmetry. apply (ByteMem.load_app 4 4). }
  pose proof (word_load m a 4 0 Hm ltac:(zlia) ltac:(lia) ltac:(lia)) as E1.
  pose proof (word_load m (a + 4) 4 0 Hm ltac:(zlia) ltac:(lia) ltac:(lia)) as E2.
  rewrite !Z.add_0_r, Z.shiftr_0_r in E1, E2. rewrite E1, E2.
  pose proof (word_range m (widx a) Hm) as R1. pose proof (word_range m (widx (a + 4)) Hm) as R2.
  change (8 * Z.of_nat 4) with 32. rewrite !(uint_small 32) by done.
  rewrite (Z.mul_comm (2 ^ 32)), <- Z.shiftl_mul_pow2 by lia.
  unfold in_u in *. rewrite (uint_small 64) by
    (unfold in_u; rewrite Z.shiftl_mul_pow2 by lia; lia).
  symmetry. rewrite Z.add_nocarry_lxor, Z.lxor_lor; [done | |];
    (apply Z.bits_inj'; intros i Hi; rewrite Z.land_spec, Z.shiftl_spec, Z.bits_0 by lia;
     destruct (Z.ltb_spec i 32);
       [rewrite (Z.testbit_neg_r _ (i - 32)) by lia; apply andb_false_r
       | by rewrite (testbit_above 32 _ i) by (done || lia)]).
Qed.

(** *** Stores, byte by byte *)

(** A run of [n] bytes inside the word of [a]: which addresses it covers. *)
Lemma within_word a b n :
  0 < n -> a mod 4 + n <= 4 ->
  ((b - a) mod 2 ^ 32 < n <-> widx b = widx a /\ a mod 4 <= b mod 4 < a mod 4 + n)
  /\ (widx b = widx a -> a mod 4 <= b mod 4 -> (b - a) mod 2 ^ 32 = b mod 4 - a mod 4).
Proof. unfold widx. zlia. Qed.

(** The bytes of a word after a store of [n] bytes at offset [o]. *)
Definition merged (old new v o n : Z) : Prop :=
  forall r, 0 <= r < 4 ->
    u8 (new >>. (8 * r)) = if (o <=? r) && (r <? o + n) then u8 (v >>. (8 * (r - o)))
                          else u8 (old >>. (8 * r)).

(** Storing a word that merges [n] bytes of [v] is the abstract store. *)
Lemma store_in_word m a base new v (n : nat) :
  wf m -> (0 < n)%nat -> a mod 4 + Z.of_nat n <= 4 ->
  base mod 4 = 0 -> widx base = widx a -> in_u 32 new ->
  merged (word m (widx a)) new v (a mod 4) (Z.of_nat n) ->
  exists m', Write32 m base new = Ok m' /\ wf m' /\
    forall b, byte m' b = ByteMem.store n (byte m) a v b.
Proof.
  intros Hm Hn Ha H0 Hw Hnew Hmerge.
  destruct (Write32_spec m base new Hm Hnew H0) as (m' & -> & Hm' & Hword).
  exists m'. split; [done |]. split; [done |]. intros b.
  unfold byte at 1. rewrite Hword by apply widx_range. rewrite Hw.
  destruct (within_word a b (Z.of_nat n) ltac:(lia) Ha) as [Hin Hd].
  unfold ByteMem.store. cbv zeta.
  destruct (Z.eqb_spec (widx b) (widx a)) as [Heq|Hne].
  - rewrite Hmerge by zlia. destruct (Z.leb_spec (a mod 4) (b mod 4)) as [Hle|];
      destruct (Z.ltb_spec (b mod 4) (a mod 4 + Z.of_nat n)); cbn [andb];
      destruct (Z.ltb_spec ((b - a) mod 2 ^ 32) (Z.of_nat n)); try lia.
    + by rewrite (Hd Heq Hle).
    + unfold byte. by rewrite Heq.
    + unfold byte. by rewrite Heq.
  - destruct (Z.ltb_spec ((b - a) mod 2 ^ 32) (Z.of_nat n)); [lia | done].
Qed.

(** Decide a [merged] goal: four byte positions, eight bits each. *)
Ltac solve_merged :=
  intros r Hr;
  assert (r = 0 \/ r = 1 \/ r = 2 \/ r = 3) as [->|[->|[->| ->]]] by lia;
  ground;
  zbits 8.

Lemma WriteByte_spec m a v :
  wf m -> in_u 8 v ->
  exists m', WriteByte m a v = Ok m' /\ wf m' /\
    forall b, byte m' b = ByteMem.store 1 (byte m) a v b.
Proof.
  intros Hm Hv. unfold WriteByte. cbv zeta. destruct (aligned_base a) as [H0 Hw].
  rewrite (Read32_spec m), H0, Hw by done. cbn [Z.eqb mbind res_bind].
  apply store_in_word; [done | lia | zlia | done | done | auto with rv |].
  rewrite land3. pose proof (word_range m (widx a) Hm) as Hold.
  set (old := word m (widx a)) in *.
  assert (a mod 4 = 0 \/ a mod 4 = 1 \/ a mod 4 = 2 \/ a mod 4 = 3) as [E|[E|[E|E]]] by zlia;
    rewrite E; cbn [Z.to_nat Pos.to_nat Pos.iter_op Nat.add nth byte_mask];
    clearbody old; clear - Hv Hold; solve_merged.
Qed.

Lemma Write16_spec m a v :
  wf m -> in_u 16 v ->
  (a mod 2 <> 0 -> Write16 m a v = Err Assert_failed) /\
  (a mod 2 = 0 -> exists m', Write16 m a v = Ok m' /\ wf m' /\
    forall b, byte m' b = ByteMem.store 2 (byte m) a v b).
Proof.
  intros Hm Hv. unfold Write16. rewrite !land1.
  destruct (Z.eqb_spec (a mod 2) 0) as [Ha|Ha]; cbn [assert_that mbind res_bind];
    (split; [intros; first [reflexivity | congruence] |]); [| intros; congruence].
  intros _. cbv zeta. destruct (aligned_base a) as [H0 Hw].
  rewrite (Read32_spec m), H0, Hw by done. cbn [Z.eqb mbind res_bind].
  apply store_in_word; [done | lia | zlia | done | done | auto with rv |].
  rewrite Z.shiftr_div_pow2 by lia. pose proof (word_range m (widx a) Hm) as Hold.
  set (old := word m (widx a)) in *.
  assert (a mod 4 = 0 /\ (a / 2 ^ 1) mod 2 = 0 \/ a mod 4 = 2 /\ (a / 2 ^ 1) mod 2 = 1)
    as [[E1 E2]|[E1 E2]] by zlia;
    rewrite E1, E2; cbn [Z.to_nat Pos.to_nat Pos.iter_op Nat.add nth short_mask];
    clearbody old; clear - Hv Hold; solve_merged.
Qed.

Lemma Write32_store m a v :
  wf m -> in_u 32 v ->
  (a mod 4 <> 0 -> Write32 m a v = Err Assert_failed) /\
  (a mod 4 = 0 -> exists m', Write32 m a v = Ok m' /\ wf m' /\
    forall b, byte m' b = ByteMem.store 4 (byte m) a v b).
Proof.
  intros Hm Hv. split.
  - intros Ha. unfold Write32. rewrite land3. by destruct (Z.eqb_spec (a mod 4) 0).
  - intros Ha. apply store_in_word; [done | lia | lia | done | done | done |]. rewrite Ha.
    pose proof (word_range m (widx a) Hm) as Hold. set (old := word m (widx a)) in *.
    clearbody old; clear - Hv Hold; solve_merged.
Qed.

Lemma Write64_spec m a v :
  wf m -> in_u 64 a -> in_u 64 v ->
  (a mod 8 <> 0 -> Write64 m a v = Err Assert_failed) /\
  (a mod 8 = 0 -> exists m', Write64 m a v = Ok m' /\ wf m' /\
    forall b, byte m' b = ByteMem.store 8 (byte m) a v b).
Proof.
  intros Hm Haddr Hv. unfold Write64. rewrite !land7.
  destruct (Z.eqb_spec (a mod 8) 0) as [Ha|Ha]; cbn [assert_that mbind res_bind];
    (split; [intros; first [reflexivity | congruence] |]); [| intros; congruence].
  intros _. cbv zeta.
  replace (u64 ((a >>. kWordBits) <<. kWordBits)) with a.
  2:{ unfold kWordBits. rewrite Z.shiftl_mul_pow2, Z.shiftr_div_pow2 by done.
      replace (a / 2 ^ 2 * 2 ^ 2) with a by zlia. by rewrite uint_small. }
  rewrite !(land_mask _ 32), !uint_uint by lia.
  destruct (proj2 (Write32_store m a (u32 v) Hm ltac:(auto with rv)) ltac:(zlia))
    as (m1 & -> & Hm1 & Hb1). cbn [mbind res_bind].
  rewrite (uint_small 64 (a + 4)) by (unfold in_u in *; zlia).
  destruct (proj2 (Write32_store m1 (a + 4) (u32 (v >>. 32)) Hm1 ltac:(auto with rv)) ltac:(zlia))
    as (m2 & -> & Hm2 & Hb2).
  exists m2. split; [done |]. split; [done |]. intros b.
  rewrite Hb2, (ByteMem.store_app 4 4), (ByteMem.store_uint 4) by done.
  apply ByteMem.store_ext. by rewrite Hb1, (ByteMem.store_uint 4).
Qed.

End MemoryWrapper.

(* ------------------------------------------------------------------ *)
(** ** The interface between a memory and its clients *)

Inductive width : Type := W8 | W16 | W32 | W64.

#[export] Instance width_eq_dec : EqDecision width.
Proof. solve_decision. Defined.

Definition nbytes (w : width) : nat :=
  match w with W8 => 1 | W16 => 2 | W32 => 4 | W64 => 8 end.

Definition nbits (w : width) : Z := 8 * Z.of_nat (nbytes w).

(** A memory with the four access widths of the wrapper. *)
Class GuestMemory (M : Type) := {
  mem_read : width -> M -> Z -> res Z;
  mem_write : width -> M -> Z -> Z -> res M
}.

(** What it promises: on aligned 64-bit addresses it behaves as the flat byte
    memory [mem_byte]; a misaligned access fails its assertion. *)
Class GuestMemoryLaws (M : Type) `{GuestMemory M} := {
  mem_ok : M -> Prop;
  mem_byte : M -> ByteMem.t;
  mem_byte_range m a : mem_ok m -> in_u 8 (mem_byte m a);
  mem_byte_period m a : mem_byte m (a mod 2 ^ 32) = mem_byte m a;
  mem_read_spec w m a :
    mem_ok m -> in_u 64 a ->
    mem_read w m a = if a mod Z.of_nat (nbytes w) =? 0
                     then Ok (ByteMem.load (nbytes w) (mem_byte m) a) else Err Assert_failed;
  mem_write_spec w m a v :
    mem_ok m -> in_u 64 a -> in_u (nbits w) v -> a mod Z.of_nat (nbytes w) = 0 ->
    exists m', mem_write w m a v = Ok m' /\ mem_ok m' /\
      forall b, mem_byte m' b = ByteMem.store (nbytes w) (mem_byte m) a v b;
  mem_write_misaligned w m a v :
    mem_ok m -> in_u 64 a -> in_u (nbits w) v -> a mod Z.of_nat (nbytes w) <> 0 ->
    mem_write w m a v = Err Assert_failed
}.

#[export] Instance MemoryWrapper_memory : GuestMemory MemoryWrapper.t := {
  mem_read w := match w with
    | W8 => MemoryWrapper.ReadByte | W16 => MemoryWrapper.Read16
    | W32 => MemoryWrapper.Read32 | W64 => MemoryWrapper.Read64 end;
  mem_write w := match w with
    | W8 => MemoryWrapper.WriteByte | W16 => MemoryWrapper.Write16
    | W32 => MemoryWrapper.Write32 | W64 => MemoryWrapper.Write64 end
}.

#[export] Program Instance MemoryWrapper_laws : GuestMemoryLaws MemoryWrapper.t := {
  mem_ok := MemoryWrapper.wf;
  mem_byte := MemoryWrapper.byte
}.
Next Obligation. intros. apply MemoryWrapper.byte_range. Qed.
Next Obligation. apply MemoryWrapper.byte_period. Qed.
Next Obligation.
  intros [] m a Hm Ha; cbn [mem_read MemoryWrapper_memory nbytes].
  - rewrite Z.mod_1_r. by apply MemoryWrapper.ReadByte_spec.
  - by apply MemoryWrapper.Read16_spec.
  - by apply MemoryWrapper.Read32_load.
  - by apply MemoryWrapper.Read64_spec.
Qed.
Next Obligation.
  intros [] m a v Hm Ha Hv; cbn [mem_write MemoryWrapper_memory nbytes].
  - intros _. by apply MemoryWrapper.WriteByte_spec.
  - by apply MemoryWrapper.Write16_spec.
  - by apply MemoryWrapper.Write32_store.
  - by apply MemoryWrapper.Write64_spec.
Qed.
Next Obligation.
  intros [] m a v Hm Ha Hv; cbn [mem_write MemoryWrapper_memory nbytes].
  - intros H. by rewrite Z.mod_1_r in H.
  - by apply MemoryWrapper.Write16_spec.
  - by apply MemoryWrapper.Write32_store.
  - by apply MemoryWrapper.Write64_spec.
Qed.

(** The flat memory of 32 address bits, seen through loads and stores. *)
Section Period.
  Context {M : Type} `{GuestMemoryLaws M}.

Lemma mem_load_congr n (m : M) a b :
    a mod 2 ^ 32 = b mod 2 ^ 32 -> ByteMem.load n (mem_byte m) a = ByteMem.load n (mem_byte m) b.
  Proof.
    revert a b. induction n as [|n IH]; intros a b Hab; cbn [ByteMem.load]; [done |].
    rewrite (IH (a + 1) (b + 1)) by zlia.
    by rewrite <- (mem_byte_period m a), Hab, mem_byte_period.
  Qed.

Lemma mem_load_mod n (m : M) a :
    ByteMem.load n (mem_byte m) (a mod 2 ^ 32) = ByteMem.load n (mem_byte m) a.
  Proof. apply mem_load_congr. by rewrite Z.mod_mod. Qed.

Lemma mem_load_range n (m : M) a :
    mem_ok m -> in_u (8 * Z.of_nat n) (ByteMem.load n (mem_byte m) a).
  Proof.
    intros Hm. pose proof (ByteMem.load_range n (mem_byte m) a) as Hr.
    unfold in_u. rewrite Z.pow_mul_r by lia. apply Hr.
    intros. by apply mem_byte_range.
  Qed.
End Period.

Lemma store_congr n f a b v c :
  a mod 2 ^ 32 = b mod 2 ^ 32 -> ByteMem.store n f a v c = ByteMem.store n f b v c.
Proof.
  intros Hab. unfold ByteMem.store. replace ((c - a) mod 2 ^ 32) with ((c - b) mod 2 ^ 32); [done |].
  zlia.
Qed.

Lemma mem_write_inv {M} `{GuestMemoryLaws M} w (m m' : M) a v :
  mem_write w m a v = Ok m' -> mem_ok m -> in_u 64 a -> in_u (nbits w) v ->
  mem_ok m' /\ a mod Z.of_nat (nbytes w) = 0 /\
  forall b, mem_byte m' b = ByteMem.store (nbytes w) (mem_byte m) a v b.
Proof.
  intros E Hm Ha Hv. destruct (Z.eq_dec (a mod Z.of_nat (nbytes w)) 0) as [Hal|Hal].
  - destruct (mem_write_spec w m a v) as (m1 & E1 & Hm1 & Hb); try done.
    rewrite E1 in E. by injection E as ->.
  - rewrite mem_write_misaligned in E by done. done.
Qed.

(** The memory of a fresh [MemoryWrapper], and small memories built from it. *)
Lemma MemoryWrapper_init_ok : MemoryWrapper.wf MemoryWrapper.MemoryWrapper.
Proof.
  split; cbn.
  - done.
  - intros e. unfold MemoryWrapper.page. cbn. rewrite lookup_empty. apply zvec_wf_empty. lia.
Qed.

(** [l] written to memory in order: (width, address, value) triples. *)
Fixpoint write_all {M} `{GuestMemory M} (m : M) (l : list (width * Z * Z)) : res M :=
  match l with
  | [] => Ok m
  | (w, a, v) :: l' => m' ← mem_write w m a v; write_all m' l'
  end.

Definition fits (p : width * Z * Z) : Prop := in_u 64 p.1.2 /\ in_u (nbits p.1.1) p.2.

#[export] Instance fits_dec p : Decision (fits p).
Proof. unfold fits. apply _. Defined.

Lemma write_all_ok {M} `{GuestMemoryLaws M} (m m' : M) l :
  mem_ok m -> Forall fits l -> write_all m l = Ok m' -> mem_ok m'.
Proof.
  intros Hm Hl. revert m Hm. induction Hl as [|[[w a] v] l [Ha Hv] Hl IH]; intros m Hm; cbn [write_all].
  - by intros [= <-].
  - intros (m1 & E & Hrest)%bind_Ok. eapply IH; [| exact Hrest]. by eapply mem_write_inv.
Qed.

(* ------------------------------------------------------------------ *)
(** ** Equality of memories *)

Lemma vec_eqb_sound a b k :
  MemoryWrapper.vec_eqb a b = true -> zget (default ∅ a) k = zget (default ∅ b) k.
Proof.
  destruct a as [v|], b as [w|]; cbn; try done. intros Hall%bool_decide_eq_true.
  destruct (decide (k ∈ dom v ∪ dom w)) as [Hk|Hk]; [by apply Hall |].
  unfold zget. by rewrite !not_elem_of_dom_1 by set_solver.
Qed.

Lemma op_eq_words m r :
  MemoryWrapper.op_eq m r = true ->
  MemoryWrapper.assigned_ m = MemoryWrapper.assigned_ r /\
  forall e k, zget (MemoryWrapper.page m e) k = zget (MemoryWrapper.page r e) k.
Proof.
  intros [Hm%bool_decide_eq_true Hass%bool_decide_eq_true]%andb_true_iff. split; [exact Hass | clear Hass].
  intros e k. unfold MemoryWrapper.page.
  destruct (decide (e ∈ dom (MemoryWrapper.mapping_ m) ∪ dom (MemoryWrapper.mapping_ r))) as [He|He].
  - by apply vec_eqb_sound, Hm.
  - by rewrite !not_elem_of_dom_1 by set_solver.
Qed.

Lemma op_eq_Read32 m r i : MemoryWrapper.op_eq m r = true -> MemoryWrapper.Read32 m i = MemoryWrapper.Read32 r i.
Proof.
  intros [Ha Hw]%op_eq_words. unfold MemoryWrapper.Read32, MemoryWrapper.CheckRange. rewrite Ha.
  destruct (assert_that _); [| done]. cbn. destruct (_ || _); [done |]. cbn.
  by rewrite Hw.
Qed.

(* ------------------------------------------------------------------ *)
(** ** Properties *)

(** C31: the paged [MemoryWrapper] is a flat little-endian byte memory of 2^32
    bytes: at every width a read at an aligned address returns the bytes there and
    a write replaces exactly its bytes (addresses wrap modulo 2^32) and keeps the
    invariant; a misaligned 16-, 32- or 64-bit access fails its assertion and no
    access ends in any other fault. *)
Theorem MemoryWrapper_refines_bytes (w : width) (m : MemoryWrapper.t) (a v : Z) :
  MemoryWrapper.wf m -> in_u 64 a -> in_u (nbits w) v ->
  if decide (a mod Z.of_nat (nbytes w) = 0) then
    mem_read w m a = Ok (ByteMem.load (nbytes w) (MemoryWrapper.byte m) a) /\
    exists m', mem_write w m a v = Ok m' /\ MemoryWrapper.wf m' /\
      forall b, MemoryWrapper.byte m' b = ByteMem.store (nbytes w) (MemoryWrapper.byte m) a v b
  else mem_read w m a = Err Assert_failed /\ mem_write w m a v = Err Assert_failed.
Proof.
  intros Hm Ha Hv. pose proof (mem_read_spec w m a Hm Ha) as Hr. case_decide as E.
  - rewrite E in Hr. split; [exact Hr |]. exact (mem_write_spec w m a v Hm Ha Hv E).
  - rewrite (proj2 (Z.eqb_neq _ _) E) in Hr. split; [exact Hr |]. exact (mem_write_misaligned w m a v Hm Ha Hv E).
Qed.

Lemma MemoryWrapper_refines_bytes_witness :
  exists m', mem_write W16 MemoryWrapper.MemoryWrapper 0x80000002 0xBEEF = Ok m' /\ MemoryWrapper.wf m' /\
    forall b, MemoryWrapper.byte m' b = ByteMem.store 2 (MemoryWrapper.byte MemoryWrapper.MemoryWrapper) 0x80000002 0xBEEF b.
Proof.
  refine (proj2 (_ : _ /\ _)).
  exact (MemoryWrapper_refines_bytes W16 MemoryWrapper.MemoryWrapper 0x80000002 0xBEEF
    MemoryWrapper_init_ok ltac:(decide_it) ltac:(decide_it)).
Defined.

(** A value written is read back, at any width and alignment-respecting
    address, and a read at any width that does not overlap the write (modulo 2^32)
    is not changed by it. *)
Theorem read_after_write (w w' : width) (m m' : MemoryWrapper.t) (a b v : Z) :
  MemoryWrapper.wf m -> in_u 64 a -> in_u 64 b -> in_u (nbits w) v ->
  mem_write w m a v = Ok m' ->
  mem_read w m' a = Ok v /\
  ((forall i, 0 <= i < Z.of_nat (nbytes w') -> Z.of_nat (nbytes w) <= (b + i - a) mod 2 ^ 32) ->
   mem_read w' m' b = mem_read w' m b).
Proof.
  intros Hm Ha Hb Hv E. change (mem_ok m) in Hm.
  destruct (mem_write_inv _ _ _ _ _ E Hm Ha Hv) as (Hm' & Hal & Hbytes).
  assert (Hl : forall k c, ByteMem.load k (mem_byte m') c
      = ByteMem.load k (ByteMem.store (nbytes w) (mem_byte m) a v) c)
    by (intros; apply ByteMem.load_ext; intros; apply Hbytes).
  split.
  - rewrite mem_read_spec, Hal, Hl, ByteMem.load_store_same by (done || destruct w; cbn; lia).
    f_equal. by apply uint_small.
  - intros Hd. rewrite !mem_read_spec, Hl, ByteMem.load_store_other by done. done.
Qed.

Lemma read_after_write_witness :
  exists m', mem_write W32 MemoryWrapper.MemoryWrapper 0x1000 0xDEADBEEF = Ok m' /\
    mem_read W32 m' 0x1000 = Ok 0xDEADBEEF /\ mem_read W8 m' 0x1004 = Ok 0.
Proof.
  destruct (mem_write W32 MemoryWrapper.MemoryWrapper 0x1000 0xDEADBEEF) as [m'|] eqn:E;
    [| vm_compute in E; discriminate E].
  exists m'. split; [reflexivity |].
  destruct (read_after_write W32 W8 _ m' 0x1000 0x1004 0xDEADBEEF MemoryWrapper_init_ok
    ltac:(decide_it) ltac:(decide_it) ltac:(decide_it) E) as [H1 H2].
  split; [exact H1 |]. rewrite H2; [reflexivity |]. cbn. intros. zlia.
Defined.

(** Memories that compare equal with [operator==] cannot be told apart by a
    read of any width at any address, and [operator!=] is its negation. *)
Theorem op_eq_sound (m r : MemoryWrapper.t) :
  MemoryWrapper.op_ne m r = negb (MemoryWrapper.op_eq m r) /\
  (MemoryWrapper.op_eq m r = true -> forall w a, mem_read w m a = mem_read w r a).
Proof.
  split.
  - unfold MemoryWrapper.op_ne, MemoryWrapper.op_eq. by rewrite negb_andb.
  - intros E w a. pose proof (fun i => op_eq_Read32 m r i E) as H32.
    destruct w; cbn [mem_read MemoryWrapper_memory];
      unfold MemoryWrapper.ReadByte, MemoryWrapper.Read16, MemoryWrapper.Read64;
      cbv zeta; rewrite ?H32; try done.
Qed.

Lemma op_eq_sound_witness :
  MemoryWrapper.op_eq MemoryWrapper.MemoryWrapper (MemoryWrapper.mk {[0 := ∅]} ∅) = false /\
  mem_read W64 MemoryWrapper.MemoryWrapper 8 = mem_read W64 MemoryWrapper.MemoryWrapper 8.
Proof.
  split; [reflexivity |].
  apply (proj2 (op_eq_sound MemoryWrapper.MemoryWrapper MemoryWrapper.MemoryWrapper)). reflexivity.
Defined.
