(* ===== verification/Pte.v ===== *)
(** * pte.h / pte.cpp: page-table entries

    A [Pte32] or [Pte64] object is its one member [pte_]; a setter returns the
    new value of that member. *)

From S2P Require Import Prelude BitTools.

Module Pte32.

(* pte.cpp:13-13 Pte32::Pte32 *)
Definition make (pte_value : Z) : Z := pte_value.

(* pte.cpp:11-11 Pte32::Pte32 *)
Definition make0 : Z := make 0.

(* pte.cpp:15-18 Pte32::operator= *)
Definition assign (pte pte_value : Z) : Z := pte_value.

(* pte.cpp:20-22 Pte32::GetValue *)
Definition GetValue (pte : Z) : Z := pte.

(* pte.cpp:24-26 Pte32::GetPpn *)
Definition GetPpn (pte : Z) : Z := bitcrop pte 22 10.

(* pte.cpp:28-30 Pte32::GetPpn1 *)
Definition GetPpn1 (pte : Z) : Z := bitcrop pte 12 20.

(* pte.cpp:32-34 Pte32::GetPpn0 *)
Definition GetPpn0 (pte : Z) : Z := bitcrop pte 10 10.

(* pte.cpp:36-38 Pte32::GetRsw *)
Definition GetRsw (pte : Z) : Z := bitcrop pte 2 8.

(* pte.cpp:40-42 Pte32::GetD *)
Definition GetD (pte : Z) : Z := bitcrop pte 1 7.

(* pte.cpp:44-46 Pte32::GetA *)
Definition GetA (pte : Z) : Z := bitcrop pte 1 6.

(* pte.cpp:48-50 Pte32::GetG *)
Definition GetG (pte : Z) : Z := bitcrop pte 1 5.

(* pte.cpp:52-54 Pte32::GetU *)
Definition GetU (pte : Z) : Z := bitcrop pte 1 4.

(* pte.cpp:56-58 Pte32::GetX *)
Definition GetX (pte : Z) : Z := bitcrop pte 1 3.

(* pte.cpp:60-62 Pte32::GetW *)
Definition GetW (pte : Z) : Z := bitcrop pte 1 2.

(* pte.cpp:64-66 Pte32::GetR *)
Definition GetR (pte : Z) : Z := bitcrop pte 1 1.

(* pte.cpp:68-70 Pte32::GetV *)
Definition GetV (pte : Z) : Z := bitcrop pte 1 0.

(* pte.cpp:72-74 Pte32::SetPpn *)
Definition SetPpn (pte ppn : Z) : Z := (pte .& ~32 (GenMask 32 22 10)) .| u32 (ppn <<. 10).

(* pte.cpp:76-78 Pte32::SetRsw *)
Definition SetRsw (pte rsw : Z) : Z := (pte .& ~32 (GenMask 32 2 8)) .| u32 (rsw <<. 8).

(* pte.cpp:81-83 Pte32::SetD *)
Definition SetD (pte value : Z) : Z := SetBit 32 pte value 7.

(* pte.cpp:85-87 Pte32::SetA *)
Definition SetA (pte value : Z) : Z := SetBit 32 pte value 6.

(* pte.cpp:89-91 Pte32::SetG *)
Definition SetG (pte value : Z) : Z := SetBit 32 pte value 5.

(* pte.cpp:93-95 Pte32::SetU *)
Definition SetU (pte value : Z) : Z := SetBit 32 pte value 4.

(* pte.cpp:97-99 Pte32::SetX *)
Definition SetX (pte value : Z) : Z := SetBit 32 pte value 3.

(* pte.cpp:101-103 Pte32::SetW *)
Definition SetW (pte value : Z) : Z := SetBit 32 pte value 2.

(* pte.cpp:105-107 Pte32::SetR *)
Definition SetR (pte value : Z) : Z := SetBit 32 pte value 1.

(* pte.cpp:109-111 Pte32::SetV *)
Definition SetV (pte value : Z) : Z := SetBit 32 pte value 0.

(* pte.cpp:113-122 Pte32::IsValid *)
Definition IsValid (pte : Z) : bool :=
  let v := GetV pte in
  let r := GetR pte in
  let w := u16 (GetW pte) in
  if (v =? 0) || ((r =? 0) && (w =? 1)) then false else true.

(* pte.cpp:124-126 Pte32::IsLeaf *)
Definition IsLeaf (pte : Z) : bool :=
  negb (GetR pte =? 0) || negb (GetW pte =? 0) || negb (GetX pte =? 0).

End Pte32.

Module Pte64.

(* pte.cpp:131-131 Pte64::Pte64 *)
Definition make (pte_value : Z) : Z := pte_value.

(* pte.cpp:129-129 Pte64::Pte64 *)
Definition make0 : Z := make 0.

(* pte.cpp:133-136 Pte64::operator= *)
Definition assign (pte pte_value : Z) : Z := pte_value.

(* pte.cpp:138-140 Pte64::GetValue *)
Definition GetValue (pte : Z) : Z := pte.

(* pte.cpp:142-144 Pte64::GetPpn *)
Definition GetPpn (pte : Z) : Z := u32 (bitcrop pte 44 10).

(* pte.cpp:146-148 Pte64::GetPpn2 *)
Definition GetPpn2 (pte : Z) : Z := u32 (bitcrop pte 26 28).

(* pte.cpp:150-152 Pte64::GetPpn1 *)
Definition GetPpn1 (pte : Z) : Z := u32 (bitcrop pte 9 19).

(* pte.cpp:154-156 Pte64::GetPpn0 *)
Definition GetPpn0 (pte : Z) : Z := u32 (bitcrop pte 9 10).

(* pte.cpp:158-160 Pte64::GetRsw *)
Definition GetRsw (pte : Z) : Z := u32 (bitcrop pte 2 8).

(* pte.cpp:162-164 Pte64::GetD *)
Definition GetD (pte : Z) : Z := u32 (bitcrop pte 1 7).

(* pte.cpp:166-168 Pte64::GetA *)
Definition GetA (pte : Z) : Z := u32 (bitcrop pte 1 6).

(* pte.cpp:170-172 Pte64::GetG *)
Definition GetG (pte : Z) : Z := u32 (bitcrop pte 1 5).

(* pte.cpp:174-176 Pte64::GetU *)
Definition GetU (pte : Z) : Z := u32 (bitcrop pte 1 4).

(* pte.cpp:178-180 Pte64::GetX *)
Definition GetX (pte : Z) : Z := u32 (bitcrop pte 1 3).

(* pte.cpp:182-184 Pte64::GetW *)
Definition GetW (pte : Z) : Z := u32 (bitcrop pte 1 2).

(* pte.cpp:186-188 Pte64::GetR *)
Definition GetR (pte : Z) : Z := u32 (bitcrop pte 1 1).

(* pte.cpp:190-192 Pte64::GetV *)
Definition GetV (pte : Z) : Z := u32 (bitcrop pte 1 0).

(* pte.cpp:194-196 Pte64::SetPpn *)
Definition SetPpn (pte ppn : Z) : Z := (pte .& ~64 (GenMask 64 22 10)) .| u64 (ppn <<. 10).

(* pte.cpp:198-200 Pte64::SetRsw *)
Definition SetRsw (pte rsw : Z) : Z := (pte .& ~64 (GenMask 64 2 8)) .| u64 (rsw <<. 8).

(* pte.cpp:202-204 Pte64::SetD *)
Definition SetD (pte value : Z) : Z := SetBit 64 pte value 7.

(* pte.cpp:206-208 Pte64::SetA *)
Definition SetA (pte value : Z) : Z := SetBit 64 pte value 6.

(* pte.cpp:210-212 Pte64::SetG *)
Definition SetG (pte value : Z) : Z := SetBit 64 pte value 5.

(* pte.cpp:214-216 Pte64::SetU *)
Definition SetU (pte value : Z) : Z := SetBit 64 pte value 4.

(* pte.cpp:218-220 Pte64::SetX *)
Definition SetX (pte value : Z) : Z := SetBit 64 pte value 3.

(* pte.cpp:222-224 Pte64::SetW *)
Definition SetW (pte value : Z) : Z := SetBit 64 pte value 2.

(* pte.cpp:226-228 Pte64::SetR *)
Definition SetR (pte value : Z) : Z := SetBit 64 pte value 1.

(* pte.cpp:230-232 Pte64::SetV *)
Definition SetV (pte value : Z) : Z := SetBit 64 pte value 0.

(* pte.cpp:234-243 Pte64::IsValid *)
Definition IsValid (pte : Z) : bool :=
  let v := GetV pte in
  let r := GetR pte in
  let w := u16 (GetW pte) in
  if (v =? 0) || ((r =? 0) && (w =? 1)) then false else true.

(* pte.cpp:245-247 Pte64::IsLeaf *)
Definition IsLeaf (pte : Z) : bool :=
  negb (GetR pte =? 0) || negb (GetW pte =? 0) || negb (GetX pte =? 0).

End Pte64.

(* ------------------------------------------------------------------ *)
(** ** The flags, uniformly *)

Inductive flag : Type := FD | FA | FG | FU | FX | FW | FR | FV.

#[export] Instance flag_eq_dec : EqDecision flag.
Proof. solve_decision. Defined.

Definition flag_pos (f : flag) : Z :=
  match f with FD => 7 | FA => 6 | FG => 5 | FU => 4 | FX => 3 | FW => 2 | FR => 1 | FV => 0 end.

Definition get32 (f : flag) : Z -> Z :=
  match f with
  | FD => Pte32.GetD | FA => Pte32.GetA | FG => Pte32.GetG | FU => Pte32.GetU
  | FX => Pte32.GetX | FW => Pte32.GetW | FR => Pte32.GetR | FV => Pte32.GetV
  end.
Definition set32 (f : flag) : Z -> Z -> Z :=
  match f with
  | FD => Pte32.SetD | FA => Pte32.SetA | FG => Pte32.SetG | FU => Pte32.SetU
  | FX => Pte32.SetX | FW => Pte32.SetW | FR => Pte32.SetR | FV => Pte32.SetV
  end.
Definition get64 (f : flag) : Z -> Z :=
  match f with
  | FD => Pte64.GetD | FA => Pte64.GetA | FG => Pte64.GetG | FU => Pte64.GetU
  | FX => Pte64.GetX | FW => Pte64.GetW | FR => Pte64.GetR | FV => Pte64.GetV
  end.
Definition set64 (f : flag) : Z -> Z -> Z :=
  match f with
  | FD => Pte64.SetD | FA => Pte64.SetA | FG => Pte64.SetG | FU => Pte64.SetU
  | FX => Pte64.SetX | FW => Pte64.SetW | FR => Pte64.SetR | FV => Pte64.SetV
  end.

Lemma get32_spec f pte : get32 f pte = bitcrop pte 1 (flag_pos f).
Proof. by destruct f. Qed.
Lemma set32_spec f pte v : set32 f pte v = SetBit 32 pte v (flag_pos f).
Proof. by destruct f. Qed.
Lemma set64_spec f pte v : set64 f pte v = SetBit 64 pte v (flag_pos f).
Proof. by destruct f. Qed.

Lemma bitcrop_u32 pte w o : 0 < w <= 32 -> u32 (bitcrop pte w o) = bitcrop pte w o.
Proof.
  intros. apply uint_small, (in_u_mono w); [lia | auto with rv].
Qed.

Lemma get64_spec f pte : get64 f pte = bitcrop pte 1 (flag_pos f).
Proof. destruct f; apply bitcrop_u32; lia. Qed.

Lemma flag_pos_range f : 0 <= flag_pos f <= 7.
Proof. destruct f; cbn; lia. Qed.

Lemma flag_pos_inj f g : flag_pos f = flag_pos g -> f = g.
Proof. destruct f, g; cbn; done. Qed.

(** A flag read after a flag was set, and any field above bit 7. *)
Lemma crop_set_flag w pte v f g :
  7 < w <= 64 -> in_u w pte ->
  bitcrop (SetBit w pte v (flag_pos g)) 1 (flag_pos f) =
    if decide (f = g) then Z.b2z (negb (v =? 0)) else bitcrop pte 1 (flag_pos f).
Proof.
  intros Hw Hp. pose proof (flag_pos_range f). pose proof (flag_pos_range g).
  rewrite bitcrop_SetBit by (auto; lia).
  case_decide as Hfg.
  - subst. destruct (Z.leb_spec (flag_pos g) (flag_pos g)),
      (Z.ltb_spec (flag_pos g) (flag_pos g + 1)); try lia. cbn [andb].
    rewrite Z.sub_diag. apply SetBit_1. auto with rv.
  - destruct (Z.leb_spec (flag_pos f) (flag_pos g)),
      (Z.ltb_spec (flag_pos g) (flag_pos f + 1)); cbn [andb]; try done.
    exfalso. apply Hfg, flag_pos_inj. lia.
Qed.

Lemma crop_high_set_flag w pte v g width offset :
  7 < w <= 64 -> in_u w pte -> 0 <= width <= 64 -> 8 <= offset ->
  bitcrop (SetBit w pte v (flag_pos g)) width offset = bitcrop pte width offset.
Proof.
  intros. pose proof (flag_pos_range g). rewrite bitcrop_SetBit by (auto; lia).
  by destruct (Z.leb_spec offset (flag_pos g)); [lia |].
Qed.

Lemma get64_bit f pte : get64 f pte = Z.b2z (Z.testbit pte (flag_pos f)).
Proof. rewrite get64_spec. apply bitcrop_bit. pose proof (flag_pos_range f). lia. Qed.

Lemma get32_bit f pte : get32 f pte = Z.b2z (Z.testbit pte (flag_pos f)).
Proof. rewrite get32_spec. apply bitcrop_bit. pose proof (flag_pos_range f). lia. Qed.

(** Setting the accessed and dirty bits, as one disjunction. *)
Lemma SetBit_1_lor w pte pos : 0 <= pos < w -> SetBit w pte 1 pos = pte .| 2 ^ pos.
Proof.
  intros. unfold SetBit. cbn [Z.eqb negb]. rewrite Z.shiftl_1_l, uint_small; [done |].
  split; [apply Z.pow_nonneg; lia | apply Z.pow_lt_mono_r; lia].
Qed.

(** Flags do not reach the page number. *)
Lemma crop_high_lor pte m width offset :
  0 <= offset -> in_u offset m -> 0 <= width <= 64 ->
  bitcrop (pte .| m) width offset = bitcrop pte width offset.
Proof.
  intros. apply Z.bits_inj'. intros i Hi. rewrite !bitcrop_testbit, Z.lor_spec by lia.
  destruct (i <? width); cbn [andb]; [| done].
  rewrite (testbit_above offset m) by (done || lia). apply orb_false_r.
Qed.

(* ------------------------------------------------------------------ *)
(** ** Properties *)

(** Every flag setter of [Pte32] and [Pte64] sets its own flag to the truth
    value of its argument and leaves the other seven flags and the page number
    alone. *)
Theorem pte_flags_independent (f g : flag) (p32 p64 v : Z) :
  in_u 32 p32 -> in_u 64 p64 ->
  get32 f (set32 g p32 v) = (if decide (f = g) then Z.b2z (negb (v =? 0)) else get32 f p32) /\
  get64 f (set64 g p64 v) = (if decide (f = g) then Z.b2z (negb (v =? 0)) else get64 f p64) /\
  Pte32.GetPpn (set32 g p32 v) = Pte32.GetPpn p32 /\ Pte64.GetPpn (set64 g p64 v) = Pte64.GetPpn p64.
Proof.
  intros H32 H64. rewrite !get32_spec, !get64_spec, !set32_spec, !set64_spec.
  rewrite !crop_set_flag by (done || lia). unfold Pte32.GetPpn, Pte64.GetPpn.
  by rewrite !crop_high_set_flag by (done || lia).
Qed.

Lemma pte_flags_independent_witness :
  get32 FD (set32 FA 0x80401 1) = 0 /\ get64 FV (set64 FV 0x200800CF 0) = 0.
Proof.
  destruct (pte_flags_independent FD FA 0x80401 0 1) as [H _]; try (unfold in_u; lia).
  destruct (pte_flags_independent FV FV 0 0x200800CF 0) as (_ & H' & _); try (unfold in_u; lia).
  split; [exact H | exact H'].
Defined.

Lemma SetPpn_testbit w pte ppn i :
  32 <= w -> in_u w pte -> in_u 22 ppn -> 0 <= i ->
  Z.testbit ((pte .& uint w (Z.lnot (GenMask w 22 10))) .| uint w (ppn <<. 10)) i =
  if (10 <=? i) && (i <? 32) then Z.testbit ppn (i - 10) else Z.testbit pte i.
Proof.
  intros Hw Hp Hn Hi. rewrite GenMask_spec by lia.
  rewrite Z.lor_spec, Z.land_spec, !testbit_uint, Z.lnot_spec, testbit_uint, !Z.shiftl_spec by lia.
  destruct (Z.ltb_spec i w) as [Hlt|]; cbn [andb].
  2:{ rewrite (testbit_above w pte i) by (done || lia).
      destruct (Z.leb_spec 10 i), (Z.ltb_spec i 32); try lia; done. }
  destruct (Z.ltb_spec i 10).
  - rewrite !(Z.testbit_neg_r _ (i - 10)) by lia. destruct (Z.leb_spec 10 i); [lia |].
    cbn [andb negb]. by rewrite andb_true_r, orb_false_r.
  - destruct (Z.leb_spec 10 i); [| lia]. rewrite testbit_uint by lia.
    destruct (Z.ltb_spec (i - 10) w); [| lia]. cbn [andb]. destruct (Z.ltb_spec i 32).
    + rewrite Z.ones_spec_low by lia. cbn [negb]. by rewrite andb_false_r.
    + rewrite Z.ones_spec_high by lia. cbn [negb].
      rewrite (testbit_above 22 ppn (i - 10)) by (done || lia). by rewrite andb_true_r, orb_false_r.
Qed.

Lemma crop_SetPpn w pte ppn width offset :
  32 <= w -> in_u w pte -> in_u 22 ppn -> 0 <= width <= 64 -> 0 <= offset ->
  offset + width <= 10 \/ 32 <= offset ->
  bitcrop ((pte .& uint w (Z.lnot (GenMask w 22 10))) .| uint w (ppn <<. 10)) width offset
  = bitcrop pte width offset.
Proof.
  intros. apply Z.bits_inj'. intros i Hi. rewrite !bitcrop_testbit, SetPpn_testbit by (done || lia).
  destruct (Z.ltb_spec i width); cbn [andb]; [| done].
  destruct (Z.leb_spec 10 (i + offset)), (Z.ltb_spec (i + offset) 32); try lia; done.
Qed.

Lemma crop_SetPpn_field w pte ppn :
  32 <= w -> in_u w pte -> in_u 22 ppn ->
  bitcrop ((pte .& uint w (Z.lnot (GenMask w 22 10))) .| uint w (ppn <<. 10)) 22 10 = ppn.
Proof.
  intros Hw Hp Hn. apply Z.bits_inj'. intros i Hi. rewrite bitcrop_testbit, SetPpn_testbit by (done || lia).
  destruct (Z.ltb_spec i 22); cbn [andb].
  - destruct (Z.leb_spec 10 (i + 10)), (Z.ltb_spec (i + 10) 32); try lia. cbn. f_equal. lia.
  - by rewrite (testbit_above 22 ppn i) by (done || lia).
Qed.

(** [SetPpn] then [GetPpn] returns the page number and keeps the flags: for
    every 22-bit number in a [Pte32]; in a [Pte64], whose setter replaces 22 of
    the 44 bits, exactly when the entry's upper page-number bits are clear in the
    32 bits [GetPpn] returns. *)
Theorem SetPpn_GetPpn (p32 p64 ppn : Z) (f : flag) :
  in_u 32 p32 -> in_u 64 p64 -> in_u 22 ppn ->
  Pte32.GetPpn (Pte32.SetPpn p32 ppn) = ppn /\ get32 f (Pte32.SetPpn p32 ppn) = get32 f p32 /\
  get64 f (Pte64.SetPpn p64 ppn) = get64 f p64 /\
  (Pte64.GetPpn (Pte64.SetPpn p64 ppn) = ppn <-> bitcrop p64 10 32 = 0).
Proof.
  intros H32 H64 Hn. rewrite !get32_spec, !get64_spec. pose proof (flag_pos_range f).
  unfold Pte32.SetPpn, Pte64.SetPpn, Pte32.GetPpn, Pte64.GetPpn.
  rewrite (crop_SetPpn_field 32), (crop_SetPpn 32 _ _ 1), (crop_SetPpn 64 _ _ 1) by (done || lia).
  split; [done |]. split; [done |]. split; [done |].
  set (p := Z.lor _ _).
  assert (Hsplit : u32 (bitcrop p 44 10) = bitcrop p 22 10 + 2 ^ 22 * bitcrop p 10 32).
  { rewrite !bitcrop_spec by lia. unfold uint. change (2 ^ 44) with (2 ^ 32 * 2 ^ 12).
    rewrite mod_mod_field by lia. change (2 ^ 32) with (2 ^ 22 * 2 ^ 10) at 1.
    rewrite Z.rem_mul_r, Z.div_div by lia. done. }
  rewrite Hsplit. subst p. rewrite crop_SetPpn_field, crop_SetPpn by (done || lia). lia.
Qed.

Lemma SetPpn_GetPpn_witness :
  Pte32.GetPpn (Pte32.SetPpn 0xFFFFFFFF 0x12345) = 0x12345 /\
  Pte64.GetPpn (Pte64.SetPpn 0x100000000 0x12345) <> 0x12345.
Proof.
  destruct (SetPpn_GetPpn 0xFFFFFFFF 0x100000000 0x12345 FV) as (H1 & _ & _ & H2);
    try (unfold in_u; lia).
  split; [exact H1 |]. intros E. apply H2 in E. vm_compute in E. discriminate E.
Defined.
