(* ===== verification/Isa.v ===== *)
(** * RISCV_cpu.h, riscv_cpu_common.h: the enumerations of the instruction set

    Each C++ enum is an inductive type with the source's enumerators and a
    coercion to its integer values, so that code that compares an integer with
    an enumerator reads as it does in the source. *)

From S2P Require Import Prelude.

(** Privilege levels. *)
(* riscv_cpu_common.h:10-14 PrivilegeMode *)
Inductive PrivilegeMode : Type := USER_MODE | SUPERVISOR_MODE | MACHINE_MODE.

(* riscv_cpu_common.h:10-14 PrivilegeMode *)
Definition code_PrivilegeMode (x : PrivilegeMode) : Z :=
  match x with USER_MODE => 0 | SUPERVISOR_MODE => 1 | MACHINE_MODE => 3 end.

#[export] Instance PrivilegeMode_eq_dec : EqDecision PrivilegeMode.
Proof. solve_decision. Defined.

(** Trap causes. *)
(* RISCV_cpu.h:213-235 ExceptionCode *)
Inductive ExceptionCode : Type :=
| USER_SOFTWARE_INTERRUPT | SUPERVISOR_SOFTWARRE_INTERRUPT | MACHINE_SOFTWARE_INTERRUPT
| SUPERVIOR_TIMER_INTERRUPT | MACHINE_TIMER_INTERRUPT | SUPERVISOR_EXTERNAL_INTERRUPT
| MACHINE_EXTERNAL_INTERRUPT | INSTRUCTION_ADDRESS_MISALIGNED | INSTRUCTION_ACCESS_FAULT
| ILLEGAL_INSTRUCTION | BREAK_POINT | LOAD_ADDRESS_MISALIGNED | LOAD_ACCESS_FAULT
| STORE_ADDRESS_MISALIGNED | STORE_ACCESS_FAULT | ECALL_UMODE | ECALL_SMODE | ECALL_MMODE
| INSTRUCTION_PAGE_FAULT | LOAD_PAGE_FAULT | STORE_PAGE_FAULT.

(* RISCV_cpu.h:213-235 ExceptionCode *)
Definition code_ExceptionCode (x : ExceptionCode) : Z :=
  match x with
  | USER_SOFTWARE_INTERRUPT => 0 | SUPERVISOR_SOFTWARRE_INTERRUPT => 1
  | MACHINE_SOFTWARE_INTERRUPT => 3 | SUPERVIOR_TIMER_INTERRUPT => 5
  | MACHINE_TIMER_INTERRUPT => 7 | SUPERVISOR_EXTERNAL_INTERRUPT => 9
  | MACHINE_EXTERNAL_INTERRUPT => 11 | INSTRUCTION_ADDRESS_MISALIGNED => 0
  | INSTRUCTION_ACCESS_FAULT => 1 | ILLEGAL_INSTRUCTION => 2 | BREAK_POINT => 3
  | LOAD_ADDRESS_MISALIGNED => 4 | LOAD_ACCESS_FAULT => 5 | STORE_ADDRESS_MISALIGNED => 6
  | STORE_ACCESS_FAULT => 7 | ECALL_UMODE => 8 | ECALL_SMODE => 9 | ECALL_MMODE => 11
  | INSTRUCTION_PAGE_FAULT => 12 | LOAD_PAGE_FAULT => 13 | STORE_PAGE_FAULT => 15
  end.
Coercion code_ExceptionCode : ExceptionCode >-> Z.

(** CSR numbers. *)
(* RISCV_cpu.h:237-277 CsrsAddresses *)
Inductive CsrsAddresses : Type :=
| USTATUS | UIE | UTVEC | USCRATCH | UEPC | UCAUSE | UTVAL | UIP | SSTATUS | SEDELEG
| SIDELEG | SIE | STVEC | SCOUNTEREN | SSCRATCH | SEPC | SCAUSE | STVAL | SIP | SATP
| MSTATUS | MISA | MEDELEG | MIDELEG | MIE | MTVEC | MCOUNTEREN | MSCRATCH | MEPC | MCAUSE
| MTVAL | MIP.

(* RISCV_cpu.h:237-277 CsrsAddresses *)
Definition code_CsrsAddresses (x : CsrsAddresses) : Z :=
  match x with
  | USTATUS => 0x000 | UIE => 0x004 | UTVEC => 0x005 | USCRATCH => 0x040 | UEPC => 0x041
  | UCAUSE => 0x042 | UTVAL => 0x43 | UIP => 0x44 | SSTATUS => 0x100 | SEDELEG => 0x102
  | SIDELEG => 0x103 | SIE => 0x104 | STVEC => 0x105 | SCOUNTEREN => 0x106
  | SSCRATCH => 0x140 | SEPC => 0x141 | SCAUSE => 0x142 | STVAL => 0x143 | SIP => 0x144
  | SATP => 0x180 | MSTATUS => 0x300 | MISA => 0x301 | MEDELEG => 0x302 | MIDELEG => 0x303
  | MIE => 0x304 | MTVEC => 0x305 | MCOUNTEREN => 0x306 | MSCRATCH => 0x340 | MEPC => 0x341
  | MCAUSE => 0x342 | MTVAL => 0x343 | MIP => 0x344
  end.
Coercion code_CsrsAddresses : CsrsAddresses >-> Z.

(** Register numbers. *)
(* RISCV_cpu.h:279-330 Registers *)
Inductive Registers : Type :=
| ZERO | X0 | X1 | X2 | X3 | X4 | X5 | X6 | X7 | X8 | X9 | X10 | X11 | X12 | X13 | X14
| X15 | X16 | RA | SP | GP | TP | T0 | T1 | T2 | FP | S0 | S1 | A0 | A1 | A2 | A3 | A4
| A5 | A6 | A7 | S2 | S3 | S4 | S5 | S6 | S7 | S8 | S9 | S10 | S11 | T3 | T4 | T5 | T6.

(* RISCV_cpu.h:279-330 Registers *)
Definition code_Registers (x : Registers) : Z :=
  match x with
  | ZERO => 0 | X0 => 0 | X1 => 1 | X2 => 2 | X3 => 3 | X4 => 4 | X5 => 5 | X6 => 6 | X7 => 7
  | X8 => 8 | X9 => 9 | X10 => 10 | X11 => 11 | X12 => 12 | X13 => 13 | X14 => 14 | X15 => 15
  | X16 => 16 | RA => 1 | SP => 2 | GP => 3 | TP => 4 | T0 => 5 | T1 => 6 | T2 => 7 | FP => 8
  | S0 => 8 | S1 => 9 | A0 => 10 | A1 => 11 | A2 => 12 | A3 => 13 | A4 => 14 | A5 => 15
  | A6 => 16 | A7 => 17 | S2 => 18 | S3 => 19 | S4 => 20 | S5 => 21 | S6 => 22 | S7 => 23
  | S8 => 24 | S9 => 25 | S10 => 26 | S11 => 27 | T3 => 28 | T4 => 29 | T5 => 30 | T6 => 31
  end.
Coercion code_Registers : Registers >-> Z.

(** Major opcodes. *)
(* RISCV_cpu.h:332-347 op_label *)
Inductive op_label : Type :=
| OPCODE_ARITHLOG | OPCODE_ARITHLOG_64 | OPCODE_ARITHLOG_I | OPCODE_ARITHLOG_I64
| OPCODE_B | OPCODE_LD | OPCODE_J | OPCODE_S | OPCODE_JALR | OPCODE_LUI | OPCODE_AUIPC
| OPCODE_SYSTEM | OPCODE_FENCE | OPCODE_AMO.

(* RISCV_cpu.h:332-347 op_label *)
Definition code_op_label (x : op_label) : Z :=
  match x with
  | OPCODE_ARITHLOG => 0x33 | OPCODE_ARITHLOG_64 => 0x3b | OPCODE_ARITHLOG_I => 0x13
  | OPCODE_ARITHLOG_I64 => 0x1b | OPCODE_B => 0x63 | OPCODE_LD => 3 | OPCODE_J => 0x6f
  | OPCODE_S => 0x23 | OPCODE_JALR => 0x67 | OPCODE_LUI => 0x37 | OPCODE_AUIPC => 0x17
  | OPCODE_SYSTEM => 0x73 | OPCODE_FENCE => 0xf | OPCODE_AMO => 0x2f
  end.
Coercion code_op_label : op_label >-> Z.

(** [funct7] values. *)
(* RISCV_cpu.h:349-354 op_funct *)
Inductive op_funct : Type :=
| FUNC_NORM | FUNC_ALT | FUNC_MRET | FUNC_MULT.

(* RISCV_cpu.h:349-354 op_funct *)
Definition code_op_funct (x : op_funct) : Z :=
  match x with
  | FUNC_NORM => 0 | FUNC_ALT => 0x20 | FUNC_MRET => 0x18 | FUNC_MULT => 1
  end.
Coercion code_op_funct : op_funct >-> Z.

(** [funct3] values. *)
(* RISCV_cpu.h:356-398 op_funct3 *)
Inductive op_funct3 : Type :=
| FUNC3_ADDSUB | FUNC3_AND | FUNC3_OR | FUNC3_XOR | FUNC3_SL | FUNC3_SR | FUNC3_SLT
| FUNC3_SLTU | FUNC3_BEQ | FUNC3_BGE | FUNC3_BGEU | FUNC3_BLT | FUNC3_BLTU | FUNC3_BNE
| FUNC3_LSB | FUNC3_LSBU | FUNC3_LSH | FUNC3_LSHU | FUNC3_LSW | FUNC3_LSD | FUNC3_LSWU
| FUNC3_JALR | FUNC3_SYSTEM | FUNC3_CSRRC | FUNC3_CSRRCI | FUNC3_CSRRS | FUNC3_CSRRSI
| FUNC3_CSRRW | FUNC3_CSRRWI | FUNC3_FENCE | FUNC3_FENCEI | FUNC3_MUL | FUNC3_MULH
| FUNC3_MULHSU | FUNC3_MULHU | FUNC3_DIV | FUNC3_DIVU | FUNC3_REM | FUNC3_REMU
| FUNC3_AMOW | FUNC3_AMOD.

(* RISCV_cpu.h:356-398 op_funct3 *)
Definition code_op_funct3 (x : op_funct3) : Z :=
  match x with
  | FUNC3_ADDSUB => 0 | FUNC3_AND => 7 | FUNC3_OR => 6 | FUNC3_XOR => 4 | FUNC3_SL => 1
  | FUNC3_SR => 5 | FUNC3_SLT => 2 | FUNC3_SLTU => 3 | FUNC3_BEQ => 0 | FUNC3_BGE => 5
  | FUNC3_BGEU => 7 | FUNC3_BLT => 4 | FUNC3_BLTU => 6 | FUNC3_BNE => 1 | FUNC3_LSB => 0
  | FUNC3_LSBU => 4 | FUNC3_LSH => 1 | FUNC3_LSHU => 5 | FUNC3_LSW => 2 | FUNC3_LSD => 3
  | FUNC3_LSWU => 6 | FUNC3_JALR => 0 | FUNC3_SYSTEM => 0 | FUNC3_CSRRC => 3
  | FUNC3_CSRRCI => 7 | FUNC3_CSRRS => 2 | FUNC3_CSRRSI => 6 | FUNC3_CSRRW => 1
  | FUNC3_CSRRWI => 5 | FUNC3_FENCE => 0 | FUNC3_FENCEI => 1 | FUNC3_MUL => 0
  | FUNC3_MULH => 1 | FUNC3_MULHSU => 2 | FUNC3_MULHU => 3 | FUNC3_DIV => 4 | FUNC3_DIVU => 5
  | FUNC3_REM => 6 | FUNC3_REMU => 7 | FUNC3_AMOW => 2 | FUNC3_AMOD => 3
  end.
Coercion code_op_funct3 : op_funct3 >-> Z.

(** [funct5] values of the AMO group. *)
(* RISCV_cpu.h:400-410 op_funct5 *)
Inductive op_funct5 : Type :=
| FUNC5_AMOADD | FUNC5_AMOAND | FUNC5_AMOMAX | FUNC5_AMOMAXU | FUNC5_AMOMIN
| FUNC5_AMOMINU | FUNC5_AMOOR | FUNC5_AMOSWAP | FUNC5_AMOXOR.

(* RISCV_cpu.h:400-410 op_funct5 *)
Definition code_op_funct5 (x : op_funct5) : Z :=
  match x with
  | FUNC5_AMOADD => 0 | FUNC5_AMOAND => 0xc | FUNC5_AMOMAX => 0x14 | FUNC5_AMOMAXU => 0x1c
  | FUNC5_AMOMIN => 0x10 | FUNC5_AMOMINU => 0x18 | FUNC5_AMOOR => 8 | FUNC5_AMOSWAP => 1
  | FUNC5_AMOXOR => 4
  end.
Coercion code_op_funct5 : op_funct5 >-> Z.

(** Decoded instructions. *)
(* RISCV_cpu.h:412-505 instruction *)
Inductive instruction : Type :=
| INST_ERROR | INST_ADD | INST_ADDW | INST_AND | INST_SUB | INST_SUBW | INST_OR | INST_XOR
| INST_SLL | INST_SLLW | INST_SRL | INST_SRLW | INST_SRA | INST_SRAW | INST_SLT
| INST_SLTU | INST_ADDI | INST_ADDIW | INST_ANDI | INST_ORI | INST_XORI | INST_SLLI
| INST_SLLIW | INST_SRLI | INST_SRLIW | INST_SRAI | INST_SRAIW | INST_SLTI | INST_SLTIU
| INST_BEQ | INST_BGE | INST_BGEU | INST_BLT | INST_BLTU | INST_BNE | INST_JAL | INST_JALR
| INST_LB | INST_LBU | INST_LH | INST_LHU | INST_LW | INST_LWU | INST_LD | INST_SB
| INST_SH | INST_SW | INST_SD | INST_LUI | INST_AUIPC | INST_SYSTEM | INST_CSRRC
| INST_CSRRCI | INST_CSRRS | INST_CSRRSI | INST_CSRRW | INST_CSRRWI | INST_FENCE
| INST_FENCEI | INST_MUL | INST_MULH | INST_MULHSU | INST_MULHU | INST_MULW | INST_DIV
| INST_DIVU | INST_DIVUW | INST_DIVW | INST_REM | INST_REMU | INST_REMUW | INST_REMW
| INST_AMOADDD | INST_AMOADDW | INST_AMOANDD | INST_AMOANDW | INST_AMOMAXD | INST_AMOMAXW
| INST_AMOMAXUD | INST_AMOMAXUW | INST_AMOMIND | INST_AMOMINW | INST_AMOMINUD
| INST_AMOMINUW | INST_AMOORD | INST_AMOORW | INST_AMOXORD | INST_AMOXORW | INST_AMOSWAPD
| INST_AMOSWAPW.

(* RISCV_cpu.h:412-505 instruction *)
Definition code_instruction (x : instruction) : Z :=
  match x with
  | INST_ERROR => 0 | INST_ADD => 1 | INST_ADDW => 2 | INST_AND => 3 | INST_SUB => 4
  | INST_SUBW => 5 | INST_OR => 6 | INST_XOR => 7 | INST_SLL => 8 | INST_SLLW => 9
  | INST_SRL => 10 | INST_SRLW => 11 | INST_SRA => 12 | INST_SRAW => 13 | INST_SLT => 14
  | INST_SLTU => 15 | INST_ADDI => 16 | INST_ADDIW => 17 | INST_ANDI => 18 | INST_ORI => 19
  | INST_XORI => 20 | INST_SLLI => 21 | INST_SLLIW => 22 | INST_SRLI => 23 | INST_SRLIW => 24
  | INST_SRAI => 25 | INST_SRAIW => 26 | INST_SLTI => 27 | INST_SLTIU => 28 | INST_BEQ => 29
  | INST_BGE => 30 | INST_BGEU => 31 | INST_BLT => 32 | INST_BLTU => 33 | INST_BNE => 34
  | INST_JAL => 35 | INST_JALR => 36 | INST_LB => 37 | INST_LBU => 38 | INST_LH => 39
  | INST_LHU => 40 | INST_LW => 41 | INST_LWU => 42 | INST_LD => 43 | INST_SB => 44
  | INST_SH => 45 | INST_SW => 46 | INST_SD => 47 | INST_LUI => 48 | INST_AUIPC => 49
  | INST_SYSTEM => 50 | INST_CSRRC => 51 | INST_CSRRCI => 52 | INST_CSRRS => 53
  | INST_CSRRSI => 54 | INST_CSRRW => 55 | INST_CSRRWI => 56 | INST_FENCE => 57
  | INST_FENCEI => 58 | INST_MUL => 59 | INST_MULH => 60 | INST_MULHSU => 61
  | INST_MULHU => 62 | INST_MULW => 63 | INST_DIV => 64 | INST_DIVU => 65 | INST_DIVUW => 66
  | INST_DIVW => 67 | INST_REM => 68 | INST_REMU => 69 | INST_REMUW => 70 | INST_REMW => 71
  | INST_AMOADDD => 72 | INST_AMOADDW => 73 | INST_AMOANDD => 74 | INST_AMOANDW => 75
  | INST_AMOMAXD => 76 | INST_AMOMAXW => 77 | INST_AMOMAXUD => 78 | INST_AMOMAXUW => 79
  | INST_AMOMIND => 80 | INST_AMOMINW => 81 | INST_AMOMINUD => 82 | INST_AMOMINUW => 83
  | INST_AMOORD => 84 | INST_AMOORW => 85 | INST_AMOXORD => 86 | INST_AMOXORW => 87
  | INST_AMOSWAPD => 88 | INST_AMOSWAPW => 89
  end.
Coercion code_instruction : instruction >-> Z.

#[export] Instance instruction_eq_dec : EqDecision instruction.
Proof. intros x y. destruct (decide (code_instruction x = code_instruction y)) as [E|E].
  - left. destruct x; cbn in E; destruct y; (reflexivity || discriminate E).
  - right. intros ->. done.
Defined.
