(* ===== verification/Encdec.v ===== *)
(** * instruction_encdec.h / instruction_encdec.cc: instruction formats

    The bit-field classes RType .. JType with [GetValue] (encode) and
    [SetValue] (decode), and the free decoding functions the emulator uses.  A
    store to a bit-field of the classes truncates to its width. *)

From S2P Require Import Prelude BitTools Isa.

Module BitField.
(* instruction_encdec.h:9-18 BitField *)
Record t : Type := mk {
  opcode : Z;
  rd : Z;
  rs2 : Z;
  rs1 : Z;
  funct3 : Z
}.

Definition wf (b : t) : Prop :=
  in_u 7 (opcode b) /\ in_u 5 (rd b) /\ in_u 5 (rs2 b) /\ in_u 5 (rs1 b) /\ in_u 3 (funct3 b).
End BitField.

(* ------------------------------------------------------------------ *)
(** ** The decoding functions *)

(* instruction_encdec.cc:112-112 GetOpcode *)
Definition GetOpcode (ir : Z) : Z := bitcrop ir 7 0.

(* instruction_encdec.cc:114-114 GetRd *)
Definition GetRd (ir : Z) : Z := bitcrop ir 5 7.

(* instruction_encdec.cc:116-116 GetRs1 *)
Definition GetRs1 (ir : Z) : Z := bitcrop ir 5 15.

(* instruction_encdec.cc:118-118 GetRs2 *)
Definition GetRs2 (ir : Z) : Z := bitcrop ir 5 20.

(* instruction_encdec.cc:120-123 GetImm12 *)
Definition GetImm12 (ir : Z) : Z := s32 (SignExtend 32 (bitcrop ir 12 20) 12).

(* instruction_encdec.cc:125-128 GetCsr *)
Definition GetCsr (ir : Z) : Z := s32 (bitcrop ir 12 20).

(* instruction_encdec.cc:159-165 GetImm13 *)
Definition GetImm13 (ir : Z) : Z :=
  let imm13 := 0 in
  let imm13 := s32 (imm13 .| (BitShift 32 ir 1 31 12 .| BitShift 32 ir 6 25 5)) in
  let imm13 := s32 (imm13 .| (BitShift 32 ir 4 8 1 .| BitShift 32 ir 1 7 11)) in
  SignExtend_int32 imm13 13.

(* instruction_encdec.cc:167-180 GetImm21 *)
Definition GetImm21 (ir : Z) : Z :=
  let offset19_12 := bitcrop ir 8 12 in
  let offset11 := bitcrop ir 1 20 in
  let offset10_1 := bitcrop ir 10 21 in
  let offset20 := bitcrop ir 1 31 in
  let imm21 := s32 (u32 (offset20 <<. 20) .| u32 (offset19_12 <<. 12)
                    .| u32 (offset11 <<. 11) .| u32 (offset10_1 <<. 1)) in
  SignExtend_int32 imm21 21.

(* instruction_encdec.cc:182-186 GetStypeImm12 *)
Definition GetStypeImm12 (ir : Z) : Z :=
  let imm12 := s32 (u32 (bitcrop ir 7 25 <<. 5) .| bitcrop ir 5 7) in
  SignExtend_int32 imm12 12.

(* instruction_encdec.cc:188-191 GetShamt *)
Definition GetShamt (ir : Z) : Z := bitcrop ir 6 20.

(* instruction_encdec.cc:193-197 GetImm20 *)
Definition GetImm20 (ir : Z) : Z := SignExtend 32 (bitcrop ir 20 12) 20.

(* instruction_encdec.cc:130-157 GetImm *)
Definition GetImm (ir : Z) : Z :=
  let opcode := u16 (bitcrop ir 7 0) in
  let funct3 := u8 (bitcrop ir 3 12) in
  let imm := GetImm12 ir in
  if (opcode =? OPCODE_ARITHLOG_I) || (opcode =? OPCODE_ARITHLOG_I64) then
    if (funct3 =? FUNC3_SL) || (funct3 =? FUNC3_SR) then imm .& 0x3F else imm
  else if opcode =? OPCODE_B then GetImm13 ir
  else if (opcode =? OPCODE_LUI) || (opcode =? OPCODE_AUIPC) then s32 (u32 (GetImm20 ir <<. 12))
  else if opcode =? OPCODE_J then GetImm21 ir
  else if opcode =? OPCODE_S then GetStypeImm12 ir
  else imm.

(* ------------------------------------------------------------------ *)
(** ** The format classes *)

Module RType.
Import BitField.

(* instruction_encdec.h:20-25 RType *)
Record t : Type := mk { base : BitField.t; funct7 : Z }.

(* instruction_encdec.cc:8-13 RType::GetValue *)
Definition GetValue (x : t) : Z :=
  let b := base x in
  let value := 0 in
  let value := u32 (value .| (funct7 x <<. 25 .| rs2 b <<. 20 .| rs1 b <<. 15)) in
  u32 (value .| (funct3 b <<. 12 .| rd b <<. 7 .| opcode b)).

(* instruction_encdec.cc:15-22 RType::SetValue *)
Definition SetValue (x : t) (value : Z) : t :=
  mk (BitField.mk (uint 7 (bitcrop value 7 0)) (uint 5 (bitcrop value 5 7))
        (uint 5 (bitcrop value 5 20)) (uint 5 (bitcrop value 5 15)) (uint 3 (bitcrop value 3 12)))
     (uint 7 (bitcrop value 7 25)).
End RType.

Module IType.
Import BitField.

(* instruction_encdec.h:27-32 IType *)
Record t : Type := mk { base : BitField.t; imm12 : Z }.

(* instruction_encdec.cc:24-29 IType::GetValue *)
Definition GetValue (x : t) : Z :=
  let b := base x in
  let value := 0 in
  let value := u32 (value .| (imm12 x <<. 20 .| rs1 b <<. 15)) in
  u32 (value .| (funct3 b <<. 12 .| rd b <<. 7 .| opcode b)).

(** [rs2] keeps its value. *)
(* instruction_encdec.cc:31-42 IType::SetValue *)
Definition SetValue (x : t) (value : Z) : t :=
  let opcode := uint 7 (bitcrop value 7 0) in
  let funct3 := uint 3 (bitcrop value 3 12) in
  let imm12 := sint 12 (GetImm12 value) in
  let imm12 :=
    if ((opcode =? OPCODE_ARITHLOG_I) || (opcode =? OPCODE_ARITHLOG_I64))
       && ((funct3 =? FUNC3_SR) || (funct3 =? FUNC3_SL))
    then sint 12 (imm12 .& 0x3F) else imm12 in
  mk (BitField.mk opcode (uint 5 (bitcrop value 5 7)) (rs2 (base x)) (uint 5 (bitcrop value 5 15)) funct3)
     imm12.
End IType.

Module SType.
Import BitField.

(* instruction_encdec.h:34-39 SType *)
Record t : Type := mk { base : BitField.t; imm12 : Z }.

(* instruction_encdec.cc:44-51 SType::GetValue *)
Definition GetValue (x : t) : Z :=
  let b := base x in
  let value := 0 in
  let imm11_5_7 := u32 (bitcrop (imm12 x) 7 5) in
  let imm4_0_5 := u32 (bitcrop (imm12 x) 5 0) in
  let value := u32 (value .| (imm11_5_7 <<. 25 .| rs2 b <<. 20 .| rs1 b <<. 15)) in
  u32 (value .| (funct3 b <<. 12 .| imm4_0_5 <<. 7 .| opcode b)).

(* instruction_encdec.cc:53-59 SType::SetValue *)
Definition SetValue (x : t) (value : Z) : t :=
  mk (BitField.mk (uint 7 (bitcrop value 7 0)) (rd (base x)) (uint 5 (bitcrop value 5 20))
        (uint 5 (bitcrop value 5 15)) (uint 3 (bitcrop value 3 12)))
     (sint 12 (GetStypeImm12 value)).
End SType.

Module BType.
Import BitField.

(* instruction_encdec.h:41-46 BType *)
Record t : Type := mk { base : BitField.t; imm13 : Z }.

(* instruction_encdec.cc:61-71 BType::GetValue *)
Definition GetValue (x : t) : Z :=
  let b := base x in
  let value := 0 in
  let imm12_1 := u32 (bitcrop (imm13 x) 1 12) in
  let imm10_5_6 := u32 (bitcrop (imm13 x) 6 5) in
  let imm4_1_4 := u32 (bitcrop (imm13 x) 4 1) in
  let imm11_1 := u32 (bitcrop (imm13 x) 1 11) in
  let value := u32 (value .| (imm12_1 <<. 31 .| imm10_5_6 <<. 25)) in
  let value := u32 (value .| (rs2 b <<. 20 .| rs1 b <<. 15)) in
  u32 (value .| (funct3 b <<. 12 .| imm4_1_4 <<. 8 .| imm11_1 <<. 7 .| opcode b)).

(* instruction_encdec.cc:73-79 BType::SetValue *)
Definition SetValue (x : t) (value : Z) : t :=
  mk (BitField.mk (uint 7 (bitcrop value 7 0)) (rd (base x)) (uint 5 (bitcrop value 5 20))
        (uint 5 (bitcrop value 5 15)) (uint 3 (bitcrop value 3 12)))
     (sint 13 (GetImm13 value)).
End BType.

Module UType.
Import BitField.

(* instruction_encdec.h:55-60 UType *)
Record t : Type := mk { base : BitField.t; imm20 : Z }.

(* instruction_encdec.cc:81-86 UType::GetValue *)
Definition GetValue (x : t) : Z :=
  let b := base x in
  let value := 0 in
  let value := u32 (value .| ((imm20 x .& 0xFFFFF) <<. 12)) in
  u32 (value .| (rd b <<. 7 .| opcode b)).

(* instruction_encdec.cc:88-92 UType::SetValue *)
Definition SetValue (x : t) (value : Z) : t :=
  let b := base x in
  mk (BitField.mk (uint 7 (bitcrop value 7 0)) (uint 5 (bitcrop value 5 7)) (rs2 b) (rs1 b) (funct3 b))
     (uint 24 (GetImm20 value)).
End UType.

Module JType.
Import BitField.

(* instruction_encdec.h:48-53 JType *)
Record t : Type := mk { base : BitField.t; imm21 : Z }.

(* instruction_encdec.cc:94-104 JType::GetValue *)
Definition GetValue (x : t) : Z :=
  let b := base x in
  let value := 0 in
  let imm20_1 := u32 (bitcrop (imm21 x) 1 20) in
  let imm10_1_10 := u32 (bitcrop (imm21 x) 10 1) in
  let imm11_1 := u32 (bitcrop (imm21 x) 1 11) in
  let imm19_12 := u32 (bitcrop (imm21 x) 8 12) in
  let value := u32 (value .| (imm20_1 <<. 31 .| imm10_1_10 <<. 21 .| imm11_1 <<. 20 .| imm19_12 <<. 12)) in
  u32 (value .| (rd b <<. 7 .| opcode b)).

(* instruction_encdec.cc:106-110 JType::SetValue *)
Definition SetValue (x : t) (value : Z) : t :=
  let b := base x in
  mk (BitField.mk (uint 7 (bitcrop value 7 0)) (uint 5 (bitcrop value 5 7)) (rs2 b) (rs1 b) (funct3 b))
     (sint 21 (GetImm21 value)).
End JType.

(* ------------------------------------------------------------------ *)
(** ** The fields of an instruction word *)

Lemma bitcrop_ones v w o : 0 <= w <= 64 -> 0 <= o -> bitcrop v w o = (v >>. o) .& Z.ones w.
Proof. intros. unfold bitcrop. cbv zeta. by rewrite mask_spec by lia. Qed.

Lemma BitShift_ones w v width offset dist :
  0 <= width <= 64 -> BitShift w v width offset dist = uint w (((v >>. offset) .& Z.ones width) <<. dist).
Proof. intros. unfold BitShift. cbv zeta. by rewrite mask_spec by lia. Qed.

Lemma GetImm12_spec ir : GetImm12 ir = sint 12 (ir >>. 20).
Proof.
  unfold GetImm12. rewrite SignExtend_spec, sint_uint, bitcrop_ones, land_mask by lia.
  rewrite sint_uint by lia. apply sint_small; [lia |].
  pose proof (sint_range 12 ltac:(lia) (ir >>. 20)). unfold in_s in *. lia.
Qed.

(** The immediate of a branch, a jump and a store, bit by bit. *)
Definition imm13_bits (ir : Z) : Z :=
  ((ir >>. 31) .& 1) <<. 12 .| (((ir >>. 7) .& 1) <<. 11) .| (((ir >>. 25) .& 0x3F) <<. 5) .| (((ir >>. 8) .& 0xF) <<. 1).
Definition imm21_bits (ir : Z) : Z :=
  ((ir >>. 31) .& 1) <<. 20 .| (((ir >>. 12) .& 0xFF) <<. 12) .| (((ir >>. 20) .& 1) <<. 11) .| (((ir >>. 21) .& 0x3FF) <<. 1).
Definition imm12s_bits (ir : Z) : Z := ((ir >>. 25) .& 0x7F) <<. 5 .| ((ir >>. 7) .& 0x1F).


Lemma GetImm13_spec ir : GetImm13 ir = sint 13 (imm13_bits ir).
Proof.
  unfold GetImm13. rewrite SignExtend_int32_spec, !BitShift_ones by lia.
  apply eqm_sint. unfold eqm. unfold imm13_bits. zbits 13.
Qed.

Lemma GetImm21_spec ir : GetImm21 ir = sint 21 (imm21_bits ir).
Proof.
  unfold GetImm21. rewrite SignExtend_int32_spec, !bitcrop_ones by lia.
  apply eqm_sint. unfold eqm. unfold imm21_bits. zbits 21.
Qed.

Lemma GetStypeImm12_spec ir : GetStypeImm12 ir = sint 12 (imm12s_bits ir).
Proof.
  unfold GetStypeImm12. rewrite SignExtend_int32_spec, !bitcrop_ones by lia.
  apply eqm_sint. unfold eqm. unfold imm12s_bits. zbits 12.
Qed.

Lemma GetImm20_spec ir : GetImm20 ir = u32 (sint 20 (ir >>. 12)).
Proof. unfold GetImm20. by rewrite SignExtend_spec, bitcrop_ones, land_mask, sint_uint by lia. Qed.

(* ------------------------------------------------------------------ *)
(** ** Round trips of the format classes *)

#[export] Hint Extern 3 (in_u _ (Z.land _ (Z.ones _))) => rewrite land_mask by lia : rv.
#[export] Hint Extern 3 (in_u _ (bitcrop _ _ _)) => apply bitcrop_range; lia : rv.

Ltac open_fields :=
  unfold BitField.wf in *; destruct_and?;
  repeat rewrite bitcrop_ones by lia.

Ltac fields :=
  f_equal; [f_equal |];
  match goal with
  | |- uint ?n _ = _ => zbits n
  | |- sint ?n _ = _ => sbits n
  | |- ?x = ?x => reflexivity
  | |- _ => idtac
  end.

(** The shift-immediate group, whose immediate is cut to six bits. *)
Definition shift_group (b : BitField.t) : bool :=
  ((BitField.opcode b =? OPCODE_ARITHLOG_I) || (BitField.opcode b =? OPCODE_ARITHLOG_I64))
  && ((BitField.funct3 b =? FUNC3_SR) || (BitField.funct3 b =? FUNC3_SL)).

Definition even (x : Z) : Prop := Z.testbit x 0 = false.

Record RType_wf (x : RType.t) : Prop := { RType_base : BitField.wf (RType.base x); RType_f7 : in_u 7 (RType.funct7 x) }.
Record IType_wf (x : IType.t) : Prop := {
  IType_base : BitField.wf (IType.base x);
  IType_imm : in_s 12 (IType.imm12 x);
  IType_shift : shift_group (IType.base x) = true -> in_u 6 (IType.imm12 x) }.
Record SType_wf (x : SType.t) : Prop := { SType_base : BitField.wf (SType.base x); SType_imm : in_s 12 (SType.imm12 x) }.
Record BType_wf (x : BType.t) : Prop := {
  BType_base : BitField.wf (BType.base x); BType_imm : in_s 13 (BType.imm13 x); BType_even : even (BType.imm13 x) }.
Record UType_wf (x : UType.t) : Prop := {
  UType_base : BitField.wf (UType.base x); UType_imm : uint 24 (sint 20 (UType.imm20 x)) = UType.imm20 x }.
Record JType_wf (x : JType.t) : Prop := {
  JType_base : BitField.wf (JType.base x); JType_imm : in_s 21 (JType.imm21 x); JType_even : even (JType.imm21 x) }.

(** Decoding what was encoded, one field at a time. *)
Lemma RType_set_get x : RType_wf x -> RType.SetValue x (RType.GetValue x) = x.
Proof.
  intros [Hb H7]. destruct x as [[op d s2 s1 f3] f7]. unfold BitField.wf in Hb.
  unfold RType.SetValue, RType.GetValue. cbn in *. open_fields. fields.
Qed.

Lemma sint_small12 ir : sint 12 (sint 12 ir) = sint 12 ir.
Proof. apply sint_small; [lia | apply sint_range; lia]. Qed.

Lemma IType_set_get x : IType_wf x -> IType.SetValue x (IType.GetValue x) = x.
Proof.
  intros [Hb Hi Hs]. destruct x as [[op d s2 s1 f3] im]. unfold BitField.wf, shift_group in *. cbn in *.
  unfold IType.SetValue. rewrite GetImm12_spec, sint_small12. cbv zeta. open_fields.
  match goal with |- context [IType.GetValue ?x] => set (v := IType.GetValue x) end.
  assert (Eop : uint 7 ((v >>. 0) .& Z.ones 7) = op) by (unfold v, IType.GetValue; cbn; zbits 7).
  assert (Ef3 : uint 3 ((v >>. 12) .& Z.ones 3) = f3) by (unfold v, IType.GetValue; cbn; zbits 3).
  assert (Eim : sint 12 (v >>. 20) = im) by (unfold v, IType.GetValue; cbn; sbits 12).
  rewrite Eop, Ef3, Eim. cbn [code_op_label code_op_funct3].
  f_equal; [f_equal; unfold v, IType.GetValue; cbn; zbits 5 |].
  case_match eqn:Eg; [| done].
  specialize (Hs eq_refl). change 0x3F with (Z.ones 6). rewrite land_mask, uint_small by (done || lia).
  by apply sint_small; [lia |].
Qed.

Lemma SType_set_get x : SType_wf x -> SType.SetValue x (SType.GetValue x) = x.
Proof.
  intros [Hb Hi]. destruct x as [[op d s2 s1 f3] im]. unfold BitField.wf in Hb.
  unfold SType.SetValue, SType.GetValue. cbn in *. rewrite GetStypeImm12_spec, sint_small12. unfold imm12s_bits.
  open_fields. fields.
Qed.

Lemma BType_set_get x : BType_wf x -> BType.SetValue x (BType.GetValue x) = x.
Proof.
  intros [Hb Hi He]. destruct x as [[op d s2 s1 f3] im]. unfold BitField.wf in Hb.
  unfold BType.SetValue, BType.GetValue. cbn in *. rewrite GetImm13_spec. unfold imm13_bits.
  rewrite (sint_small 13) by (lia || (apply sint_range; lia)).
  unfold even in He. open_fields. fields. by rewrite He.
Qed.

Lemma UType_set_get x : UType_wf x -> UType.SetValue x (UType.GetValue x) = x.
Proof.
  intros [Hb Hi]. destruct x as [[op d s2 s1 f3] im]. unfold BitField.wf in Hb.
  unfold UType.SetValue, UType.GetValue. cbn in *. rewrite GetImm20_spec. open_fields.
  rewrite <- Hi. clear Hi. fields.
Qed.

Lemma JType_set_get x : JType_wf x -> JType.SetValue x (JType.GetValue x) = x.
Proof.
  intros [Hb Hi He]. destruct x as [[op d s2 s1 f3] im]. unfold BitField.wf in Hb.
  unfold JType.SetValue, JType.GetValue. cbn in *. rewrite GetImm21_spec. unfold imm21_bits.
  rewrite (sint_small 21) by (lia || (apply sint_range; lia)).
  unfold even in He. open_fields. fields. by rewrite He.
Qed.

(** Encoding what was decoded: the whole 32-bit word comes back. *)
Lemma RType_get_set x v : in_u 32 v -> RType.GetValue (RType.SetValue x v) = v.
Proof.
  intros. unfold RType.SetValue, RType.GetValue. cbn. open_fields. zbits 32.
Qed.

Lemma SType_get_set x v : in_u 32 v -> SType.GetValue (SType.SetValue x v) = v.
Proof.
  intros. unfold SType.SetValue, SType.GetValue. cbn.
  rewrite GetStypeImm12_spec, sint_small12. unfold imm12s_bits. open_fields. zbits 32.
Qed.

Lemma BType_get_set x v : in_u 32 v -> BType.GetValue (BType.SetValue x v) = v.
Proof.
  intros. unfold BType.SetValue, BType.GetValue. cbn.
  rewrite GetImm13_spec, sint_small by (lia || (apply sint_range; lia)).
  unfold imm13_bits. open_fields. zbits 32.
Qed.

Lemma UType_get_set x v : in_u 32 v -> UType.GetValue (UType.SetValue x v) = v.
Proof.
  intros. unfold UType.SetValue, UType.GetValue. cbn. rewrite GetImm20_spec. open_fields. zbits 32.
Qed.

Lemma JType_get_set x v : in_u 32 v -> JType.GetValue (JType.SetValue x v) = v.
Proof.
  intros. unfold JType.SetValue, JType.GetValue. cbn.
  rewrite GetImm21_spec, sint_small by (lia || (apply sint_range; lia)).
  unfold imm21_bits. open_fields. zbits 32.
Qed.

Lemma IType_get_set x v :
  in_u 32 v -> (shift_group (IType.base (IType.SetValue x v)) = true -> v < 2 ^ 26) ->
  IType.GetValue (IType.SetValue x v) = v.
Proof.
  intros Hv Hs. unfold IType.SetValue, IType.GetValue, shift_group in *. cbn in *.
  rewrite GetImm12_spec, sint_small12. case_match.
  - assert (in_u 26 v) by (unfold in_u in *; specialize (Hs eq_refl); lia).
    open_fields. zbits 32.
  - open_fields. zbits 32.
Qed.

(* ------------------------------------------------------------------ *)
(** ** Properties *)

(** C37: for each of the six formats, decoding an encoded instruction gives back the
    fields it was built from (immediates in range and, for branches and jumps,
    even; shift immediates below 64). *)
Theorem decode_encode (r : RType.t) (i : IType.t) (s : SType.t) (b : BType.t) (u : UType.t) (j : JType.t) :
  RType_wf r -> IType_wf i -> SType_wf s -> BType_wf b -> UType_wf u -> JType_wf j ->
  RType.SetValue r (RType.GetValue r) = r /\ IType.SetValue i (IType.GetValue i) = i /\
  SType.SetValue s (SType.GetValue s) = s /\ BType.SetValue b (BType.GetValue b) = b /\
  UType.SetValue u (UType.GetValue u) = u /\ JType.SetValue j (JType.GetValue j) = j.
Proof.
  auto 10 using RType_set_get, IType_set_get, SType_set_get, BType_set_get, UType_set_get, JType_set_get.
Qed.

(** Decoding loses nothing: encoding the decoded fields of any 32-bit word gives
    the word back, in every format; the I-format shift group loses the upper
    immediate bits, so there the word must have them clear. *)
Theorem encode_decode (r : RType.t) (i : IType.t) (s : SType.t) (b : BType.t) (u : UType.t) (j : JType.t) (v : Z) :
  in_u 32 v ->
  RType.GetValue (RType.SetValue r v) = v /\ SType.GetValue (SType.SetValue s v) = v /\
  BType.GetValue (BType.SetValue b v) = v /\ UType.GetValue (UType.SetValue u v) = v /\
  JType.GetValue (JType.SetValue j v) = v /\
  ((shift_group (IType.base (IType.SetValue i v)) = true -> v < 2 ^ 26) ->
   IType.GetValue (IType.SetValue i v) = v).
Proof.
  auto 10 using RType_get_set, IType_get_set, SType_get_set, BType_get_set, UType_get_set, JType_get_set.
Qed.

Definition sample_base (op f3 : Z) : BitField.t := BitField.mk op 5 31 17 f3.

Lemma decode_encode_witness :
  BType.SetValue (BType.mk (sample_base 0x63 1) (-4096)) (BType.GetValue (BType.mk (sample_base 0x63 1) (-4096)))
  = BType.mk (sample_base 0x63 1) (-4096).
Proof.
  apply (decode_encode (RType.mk (sample_base 0x33 0) 0x20) (IType.mk (sample_base 0x13 5) 63)
    (SType.mk (sample_base 0x23 3) (-8)) (BType.mk (sample_base 0x63 1) (-4096))
    (UType.mk (sample_base 0x37 0) 0xF80000) (JType.mk (sample_base 0x6F 0) (-2)));
  split; try (unfold BitField.wf, in_u, in_s; cbn; lia); try reflexivity.
Defined.

Lemma encode_decode_witness :
  JType.GetValue (JType.SetValue (JType.mk (sample_base 0 0) 0) 0xFE000EE3) = 0xFE000EE3.
Proof.
  destruct (encode_decode (RType.mk (sample_base 0x33 0) 0x20) (IType.mk (sample_base 0x13 5) 63)
    (SType.mk (sample_base 0x23 3) (-8)) (BType.mk (sample_base 0x63 1) (-4096))
    (UType.mk (sample_base 0x37 0) 0xF80000) (JType.mk (sample_base 0 0) 0) 0xFE000EE3
    ltac:(decide_it)) as (_ & _ & _ & _ & H & _).
  exact H.
Defined.
