(* ===== verification/Decode.v ===== *)
(** * RISCV_cpu.cc: GetCode32 and GetCode16, the instruction decoders

    [GetCode32] is split into one definition per major opcode, [GetCode16] into
    one per group of compressed opcodes.  The five output parameters of
    [GetCode16] are the record [decoded]. *)

From S2P Require Import Prelude BitTools Isa Encdec.

(* ------------------------------------------------------------------ *)
(** ** 32-bit instructions *)

(* RISCV_cpu.cc:1392-1434 RiscvCpu::GetCode32 *)
Definition code_ARITHLOG (funct3 funct7 : Z) : instruction :=
  if (funct7 =? FUNC_NORM) || (funct7 =? FUNC_ALT) then
    if funct3 =? FUNC3_ADDSUB then if funct7 =? FUNC_NORM then INST_ADD else INST_SUB
    else if funct3 =? FUNC3_AND then INST_AND
    else if funct3 =? FUNC3_OR then INST_OR
    else if funct3 =? FUNC3_XOR then INST_XOR
    else if funct3 =? FUNC3_SR then
      if funct7 =? FUNC_NORM then INST_SRL
      else if funct7 =? FUNC_ALT then INST_SRA else INST_ERROR
    else if funct3 =? FUNC3_SL then INST_SLL
    else if funct3 =? FUNC3_SLT then INST_SLT
    else if funct3 =? FUNC3_SLTU then INST_SLTU
    else INST_ERROR
  else if funct7 =? FUNC_MULT then
    if funct3 =? FUNC3_MUL then INST_MUL
    else if funct3 =? FUNC3_MULH then INST_MULH
    else if funct3 =? FUNC3_MULHSU then INST_MULHSU
    else if funct3 =? FUNC3_MULHU then INST_MULHU
    else if funct3 =? FUNC3_DIV then INST_DIV
    else if funct3 =? FUNC3_DIVU then INST_DIVU
    else if funct3 =? FUNC3_REM then INST_REM
    else if funct3 =? FUNC3_REMU then INST_REMU
    else INST_ERROR
  else INST_ERROR.

(* RISCV_cpu.cc:1435-1462 RiscvCpu::GetCode32 *)
Definition code_ARITHLOG_64 (funct3 funct7 : Z) : instruction :=
  if (funct7 =? FUNC_NORM) || (funct7 =? FUNC_ALT) then
    if funct3 =? FUNC3_ADDSUB then if funct7 =? FUNC_NORM then INST_ADDW else INST_SUBW
    else if funct3 =? FUNC3_SL then INST_SLLW
    else if funct3 =? FUNC3_SR then
      if funct7 =? FUNC_NORM then INST_SRLW
      else if funct7 =? FUNC_ALT then INST_SRAW else INST_ERROR
    else INST_ERROR
  else if funct7 =? FUNC_MULT then
    if funct3 =? FUNC3_MUL then INST_MULW
    else if funct3 =? FUNC3_DIVU then INST_DIVUW
    else if funct3 =? FUNC3_DIV then INST_DIVW
    else if funct3 =? FUNC3_REMU then INST_REMUW
    else if funct3 =? FUNC3_REM then INST_REMW
    else INST_ERROR
  else INST_ERROR.

(* RISCV_cpu.cc:1462-1485 RiscvCpu::GetCode32 *)
Definition code_ARITHLOG_I (funct3 funct7 : Z) : instruction :=
  if funct3 =? FUNC3_ADDSUB then INST_ADDI
  else if funct3 =? FUNC3_AND then INST_ANDI
  else if funct3 =? FUNC3_OR then INST_ORI
  else if funct3 =? FUNC3_XOR then INST_XORI
  else if funct3 =? FUNC3_SL then INST_SLLI
  else if funct3 =? FUNC3_SR then
    if (funct7 >>. 1) =? 0 then INST_SRLI
    else if (funct7 >>. 1) =? 0x10 then INST_SRAI else INST_ERROR
  else if funct3 =? FUNC3_SLT then INST_SLTI
  else if funct3 =? FUNC3_SLTU then INST_SLTIU
  else INST_ERROR.

(* RISCV_cpu.cc:1486-1498 RiscvCpu::GetCode32 *)
Definition code_ARITHLOG_I64 (funct3 funct7 : Z) : instruction :=
  if funct3 =? FUNC3_ADDSUB then INST_ADDIW
  else if funct3 =? FUNC3_SL then INST_SLLIW
  else if funct3 =? FUNC3_SR then
    if (funct7 >>. 1) =? 0 then INST_SRLIW
    else if (funct7 >>. 1) =? 0x10 then INST_SRAIW else INST_ERROR
  else INST_ERROR.

(* RISCV_cpu.cc:1499-1513 RiscvCpu::GetCode32 *)
Definition code_B (funct3 : Z) : instruction :=
  if funct3 =? FUNC3_BEQ then INST_BEQ
  else if funct3 =? FUNC3_BLT then INST_BLT
  else if funct3 =? FUNC3_BLTU then INST_BLTU
  else if funct3 =? FUNC3_BGE then INST_BGE
  else if funct3 =? FUNC3_BGEU then INST_BGEU
  else if funct3 =? FUNC3_BNE then INST_BNE
  else INST_ERROR.

(* RISCV_cpu.cc:1522-1538 RiscvCpu::GetCode32 *)
Definition code_LD (funct3 : Z) : instruction :=
  if funct3 =? FUNC3_LSB then INST_LB
  else if funct3 =? FUNC3_LSBU then INST_LBU
  else if funct3 =? FUNC3_LSH then INST_LH
  else if funct3 =? FUNC3_LSHU then INST_LHU
  else if funct3 =? FUNC3_LSW then INST_LW
  else if funct3 =? FUNC3_LSWU then INST_LWU
  else if funct3 =? FUNC3_LSD then INST_LD
  else INST_ERROR.

(* RISCV_cpu.cc:1539-1549 RiscvCpu::GetCode32 *)
Definition code_S (funct3 : Z) : instruction :=
  if funct3 =? FUNC3_LSB then INST_SB
  else if funct3 =? FUNC3_LSH then INST_SH
  else if funct3 =? FUNC3_LSW then INST_SW
  else if funct3 =? FUNC3_LSD then INST_SD
  else INST_ERROR.

(* RISCV_cpu.cc:1556-1572 RiscvCpu::GetCode32 *)
Definition code_SYSTEM (funct3 : Z) : instruction :=
  if funct3 =? FUNC3_SYSTEM then INST_SYSTEM
  else if funct3 =? FUNC3_CSRRC then INST_CSRRC
  else if funct3 =? FUNC3_CSRRCI then INST_CSRRCI
  else if funct3 =? FUNC3_CSRRS then INST_CSRRS
  else if funct3 =? FUNC3_CSRRSI then INST_CSRRSI
  else if funct3 =? FUNC3_CSRRW then INST_CSRRW
  else if funct3 =? FUNC3_CSRRWI then INST_CSRRWI
  else INST_ERROR.

(* RISCV_cpu.cc:1573-1579 RiscvCpu::GetCode32 *)
Definition code_FENCE (funct3 : Z) : instruction :=
  if funct3 =? FUNC3_FENCEI then INST_FENCEI
  else if funct3 =? FUNC3_FENCE then INST_FENCE
  else INST_ERROR.

(* RISCV_cpu.cc:1580-1600 RiscvCpu::GetCode32 *)
Definition code_AMO (funct3 funct5 : Z) : instruction :=
  let d := funct3 =? FUNC3_AMOD in
  if funct5 =? FUNC5_AMOADD then if d then INST_AMOADDD else INST_AMOADDW
  else if funct5 =? FUNC5_AMOAND then if d then INST_AMOANDD else INST_AMOANDW
  else if funct5 =? FUNC5_AMOMAX then if d then INST_AMOMAXD else INST_AMOMAXW
  else if funct5 =? FUNC5_AMOMAXU then if d then INST_AMOMAXUD else INST_AMOMAXUW
  else if funct5 =? FUNC5_AMOMIN then if d then INST_AMOMIND else INST_AMOMINW
  else if funct5 =? FUNC5_AMOMINU then if d then INST_AMOMINUD else INST_AMOMINUW
  else if funct5 =? FUNC5_AMOOR then if d then INST_AMOORD else INST_AMOORW
  else if funct5 =? FUNC5_AMOXOR then if d then INST_AMOXORD else INST_AMOXORW
  else if funct5 =? FUNC5_AMOSWAP then if d then INST_AMOSWAPD else INST_AMOSWAPW
  else INST_ERROR.

(* RISCV_cpu.cc:1385-1608 RiscvCpu::GetCode32 *)
Definition GetCode32 (ir : Z) : instruction :=
  let opcode := u16 (bitcrop ir 7 0) in
  let funct3 := u8 (bitcrop ir 3 12) in
  let funct7 := u8 (bitcrop ir 7 25) in
  let funct5 := u8 (funct7 >>. 2) in
  if opcode =? OPCODE_ARITHLOG then code_ARITHLOG funct3 funct7
  else if opcode =? OPCODE_ARITHLOG_64 then code_ARITHLOG_64 funct3 funct7
  else if opcode =? OPCODE_ARITHLOG_I then code_ARITHLOG_I funct3 funct7
  else if opcode =? OPCODE_ARITHLOG_I64 then code_ARITHLOG_I64 funct3 funct7
  else if opcode =? OPCODE_B then code_B funct3
  else if opcode =? OPCODE_J then INST_JAL
  else if opcode =? OPCODE_JALR then if funct3 =? FUNC3_JALR then INST_JALR else INST_ERROR
  else if opcode =? OPCODE_LD then code_LD funct3
  else if opcode =? OPCODE_S then code_S funct3
  else if opcode =? OPCODE_LUI then INST_LUI
  else if opcode =? OPCODE_AUIPC then INST_AUIPC
  else if opcode =? OPCODE_SYSTEM then code_SYSTEM funct3
  else if opcode =? OPCODE_FENCE then code_FENCE funct3
  else if opcode =? OPCODE_AMO then code_AMO funct3 funct5
  else INST_ERROR.

(* ------------------------------------------------------------------ *)
(** ** Compressed instructions *)

(* RISCV_cpu.cc:1855-1859 RiscvCpu::GetCode16 *)
Record decoded : Type := mk_decoded {
  instruction_out : instruction;
  rd_out : Z;
  rs1_out : Z;
  rs2_out : Z;
  imm_out : Z
}.

(** Assignments of an unsigned expression to the [int32_t imm], plain and [|=]. *)
Definition imm_set (x : Z) : Z := s32 (u32 x).
Definition imm_or (imm x : Z) : Z := s32 (u32 imm .| u32 x).

Definition unsupported : decoded := mk_decoded INST_ERROR 0 0 0 0.

(* RISCV_cpu.cc:1617-1629 RiscvCpu::GetCode16 *)
Definition c_addi4spn (ir : Z) : decoded :=
  if bitcrop ir 8 5 =? 0 then unsupported
  else
    let rd := bitcrop ir 3 2 + 8 in
    let imm := imm_set (bitcrop ir 2 11 <<. 4) in
    let imm := imm_or imm (bitcrop ir 4 7 <<. 6) in
    let imm := imm_or imm (bitcrop ir 1 6 <<. 2) in
    let imm := imm_or imm (bitcrop ir 1 5 <<. 3) in
    mk_decoded INST_ADDI rd 2 0 imm.

(** The jump offset, common to c.jal and c.j. *)
(* RISCV_cpu.cc:1800-1808 RiscvCpu::GetCode16 *)
Definition c_jump_imm (ir : Z) : Z :=
  let imm := imm_set (bitcrop ir 1 12 <<. 11) in
  let imm := imm_or imm (bitcrop ir 1 11 <<. 4) in
  let imm := imm_or imm (bitcrop ir 2 9 <<. 8) in
  let imm := imm_or imm (bitcrop ir 1 8 <<. 10) in
  let imm := imm_or imm (bitcrop ir 1 7 <<. 6) in
  let imm := imm_or imm (bitcrop ir 1 6 <<. 7) in
  let imm := imm_or imm (bitcrop ir 3 3 <<. 1) in
  let imm := imm_or imm (bitcrop ir 1 2 <<. 5) in
  SignExtend_int32 imm 12.

(* RISCV_cpu.cc:1630-1651 RiscvCpu::GetCode16 *)
Definition c_addi_jal (opcode ir mxl : Z) : decoded :=
  if (opcode =? 0x5) && (mxl =? 1) then mk_decoded INST_JAL X1 0 0 (c_jump_imm ir)
  else
    let instruction := if (opcode >>. 2) =? 0 then INST_ADDI else INST_ADDIW in
    let rd := bitcrop ir 5 7 in
    let imm := imm_set (bitcrop ir 1 12 <<. 5) in
    let imm := imm_or imm (bitcrop ir 5 2) in
    mk_decoded instruction rd rd 0 (SignExtend_int32 imm 6).

(* RISCV_cpu.cc:1652-1656 RiscvCpu::GetCode16 *)
Definition c_slli (ir : Z) : decoded :=
  let rd := bitcrop ir 5 7 in
  mk_decoded INST_SLLI rd rd 0 (imm_set (bitcrop ir 1 12 <<. 5 .| bitcrop ir 5 2)).

(* RISCV_cpu.cc:1657-1664 RiscvCpu::GetCode16 *)
Definition c_lw (ir : Z) : decoded :=
  let rs1 := bitcrop ir 3 7 + 8 in
  let rd := bitcrop ir 3 2 + 8 in
  let imm := imm_set (bitcrop ir 3 10 <<. 3) in
  let imm := imm_or imm (bitcrop ir 1 6 <<. 2) in
  let imm := imm_or imm (bitcrop ir 1 5 <<. 6) in
  mk_decoded INST_LW rd rs1 0 imm.

(* RISCV_cpu.cc:1665-1672 RiscvCpu::GetCode16 *)
Definition c_li (ir : Z) : decoded :=
  let rd := bitcrop ir 5 7 in
  let imm := imm_set (bitcrop ir 1 12 <<. 5) in
  let imm := imm_or imm (bitcrop ir 5 2) in
  mk_decoded INST_ADDI rd 0 0 (SignExtend_int32 imm 6).

(* RISCV_cpu.cc:1673-1680 RiscvCpu::GetCode16 *)
Definition c_lwsp (ir : Z) : decoded :=
  let rd := bitcrop ir 5 7 in
  let imm := imm_set (bitcrop ir 1 12 <<. 5) in
  let imm := imm_or imm (bitcrop ir 3 4 <<. 2) in
  let imm := imm_or imm (bitcrop ir 2 2 <<. 6) in
  mk_decoded INST_LW rd X2 0 imm.

(* RISCV_cpu.cc:1681-1686 RiscvCpu::GetCode16 *)
Definition c_ld (ir : Z) : decoded :=
  let rd := bitcrop ir 3 2 + 8 in
  let rs1 := bitcrop ir 3 7 + 8 in
  mk_decoded INST_LD rd rs1 0 (imm_set (bitcrop ir 3 10 <<. 3 .| bitcrop ir 2 5 <<. 6)).

(* RISCV_cpu.cc:1687-1694 RiscvCpu::GetCode16 *)
Definition c_ldsp (ir : Z) : decoded :=
  let rd := bitcrop ir 5 7 in
  let imm := imm_set (bitcrop ir 1 12 <<. 5) in
  let imm := imm_or imm (bitcrop ir 2 5 <<. 3) in
  let imm := imm_or imm (bitcrop ir 3 2 <<. 6) in
  mk_decoded INST_LD rd 2 0 imm.

(* RISCV_cpu.cc:1695-1721 RiscvCpu::GetCode16 *)
Definition c_lui (ir : Z) : decoded :=
  let rd := bitcrop ir 5 7 in
  if negb (rd =? X2) then
    let imm := imm_set (bitcrop ir 1 12 <<. 17) in
    let imm := imm_or imm (bitcrop ir 5 2 <<. 12) in
    let imm := SignExtend_int32 imm 18 in
    mk_decoded (if imm =? 0 then INST_ERROR else INST_LUI) rd 0 0 imm
  else
    let imm := imm_set (bitcrop ir 1 12 <<. 9) in
    let imm := imm_or imm (bitcrop ir 1 6 <<. 4) in
    let imm := imm_or imm (bitcrop ir 1 5 <<. 6) in
    let imm := imm_or imm (bitcrop ir 2 3 <<. 7) in
    let imm := imm_or imm (bitcrop ir 1 2 <<. 5) in
    let imm := SignExtend_int32 imm 10 in
    mk_decoded (if imm =? 0 then INST_ERROR else INST_ADDI) rd 2 0 imm.

(* RISCV_cpu.cc:1722-1759 RiscvCpu::GetCode16 *)
Definition c_cr (ir : Z) : decoded :=
  if bitcrop ir 1 12 =? 1 then
    if (bitcrop ir 5 2 =? 0) && (bitcrop ir 5 7 =? 0) then mk_decoded INST_SYSTEM 0 0 0 1
    else if bitcrop ir 5 2 =? 0 then mk_decoded INST_JALR X1 (bitcrop ir 5 7) 0 0
    else if bitcrop ir 5 7 =? 0 then unsupported
    else mk_decoded INST_ADD (bitcrop ir 5 7) (bitcrop ir 5 7) (bitcrop ir 5 2) 0
  else
    if bitcrop ir 5 2 =? 0 then mk_decoded INST_JALR 0 (bitcrop ir 5 7) 0 0
    else mk_decoded INST_ADD (bitcrop ir 5 7) 0 (bitcrop ir 5 2) 0.

(* RISCV_cpu.cc:1760-1796 RiscvCpu::GetCode16 *)
Definition c_arith (ir : Z) : decoded :=
  let f := bitcrop ir 3 10 in
  let g := bitcrop ir 2 5 in
  let rd := bitcrop ir 3 7 + 8 in
  let rs2 := bitcrop ir 3 2 + 8 in
  if (f =? 3) && (g =? 3) then mk_decoded INST_AND rd rd rs2 0
  else if (f =? 3) && (g =? 1) then mk_decoded INST_XOR rd rd rs2 0
  else if (f =? 3) && (g =? 0) then mk_decoded INST_SUB rd rd rs2 0
  else if (f =? 3) && (g =? 2) then mk_decoded INST_OR rd rd rs2 0
  else if (f =? 7) && (g =? 1) then mk_decoded INST_ADDW rd rd rs2 0
  else if (f =? 7) && (g =? 0) then mk_decoded INST_SUBW rd rd rs2 0
  else if bitcrop ir 1 11 =? 0 then
    mk_decoded (if bitcrop ir 1 10 =? 1 then INST_SRAI else INST_SRLI) rd rd 0
      (imm_set (bitcrop ir 1 12 <<. 5 + bitcrop ir 5 2))
  else if bitcrop ir 1 10 =? 0 then
    let imm := imm_set (bitcrop ir 1 12 <<. 5 + bitcrop ir 5 2) in
    mk_decoded INST_ANDI rd rd 0 (SignExtend_int32 imm 6)
  else unsupported.

(* RISCV_cpu.cc:1810-1817 RiscvCpu::GetCode16 *)
Definition c_sw (ir : Z) : decoded :=
  let rs1 := bitcrop ir 3 7 + 8 in
  let rs2 := bitcrop ir 3 2 + 8 in
  let imm := imm_set (bitcrop ir 3 10 <<. 3) in
  let imm := imm_or imm (bitcrop ir 1 6 <<. 2) in
  let imm := imm_or imm (bitcrop ir 1 5 <<. 6) in
  mk_decoded INST_SW 0 rs1 rs2 imm.

(* RISCV_cpu.cc:1818-1824 RiscvCpu::GetCode16 *)
Definition c_sd (ir : Z) : decoded :=
  let rs1 := bitcrop ir 3 7 + 8 in
  let rs2 := bitcrop ir 3 2 + 8 in
  let imm := imm_set (bitcrop ir 3 10 <<. 3) in
  let imm := imm_or imm (bitcrop ir 2 5 <<. 6) in
  mk_decoded INST_SD 0 rs1 rs2 imm.

(* RISCV_cpu.cc:1825-1836 RiscvCpu::GetCode16 *)
Definition c_branch (opcode ir : Z) : decoded :=
  let rs1 := bitcrop ir 3 7 + 8 in
  let imm := imm_set (bitcrop ir 1 12 <<. 8) in
  let imm := imm_or imm (bitcrop ir 2 10 <<. 3) in
  let imm := imm_or imm (bitcrop ir 2 5 <<. 6) in
  let imm := imm_or imm (bitcrop ir 2 3 <<. 1) in
  let imm := imm_or imm (bitcrop ir 1 2 <<. 5) in
  mk_decoded (if opcode =? 0x19 then INST_BEQ else INST_BNE) 0 rs1 0 (SignExtend_int32 imm 9).

(* RISCV_cpu.cc:1837-1843 RiscvCpu::GetCode16 *)
Definition c_swsp (ir : Z) : decoded :=
  let rs2 := bitcrop ir 5 2 in
  let imm := imm_set (bitcrop ir 4 9 <<. 2) in
  let imm := imm_or imm (bitcrop ir 2 7 <<. 6) in
  mk_decoded INST_SW 0 2 rs2 imm.

(* RISCV_cpu.cc:1844-1850 RiscvCpu::GetCode16 *)
Definition c_sdsp (ir : Z) : decoded :=
  let rs2 := bitcrop ir 5 2 in
  let imm := imm_set (bitcrop ir 3 10 <<. 3) in
  let imm := imm_or imm (bitcrop ir 3 7 <<. 6) in
  mk_decoded INST_SD 0 X2 rs2 imm.

(* RISCV_cpu.cc:1610-1860 RiscvCpu::GetCode16 *)
Definition GetCode16 (ir mxl : Z) : decoded :=
  let opcode := u32 (((ir >>. 13) .& 7) <<. 2) .| (ir .& 3) in
  if opcode =? 0x0 then c_addi4spn ir
  else if (opcode =? 0x1) || (opcode =? 0x5) then c_addi_jal opcode ir mxl
  else if opcode =? 0x2 then c_slli ir
  else if opcode =? 0x8 then c_lw ir
  else if opcode =? 0x9 then c_li ir
  else if opcode =? 0xA then c_lwsp ir
  else if opcode =? 0xC then c_ld ir
  else if opcode =? 0xE then c_ldsp ir
  else if opcode =? 0xD then c_lui ir
  else if opcode =? 0x12 then c_cr ir
  else if opcode =? 0x11 then c_arith ir
  else if opcode =? 0x15 then mk_decoded INST_JAL 0 0 0 (c_jump_imm ir)
  else if opcode =? 0x18 then c_sw ir
  else if opcode =? 0x1C then c_sd ir
  else if (opcode =? 0x19) || (opcode =? 0x1D) then c_branch opcode ir
  else if opcode =? 0x1A then c_swsp ir
  else if opcode =? 0x1E then c_sdsp ir
  else unsupported.

(** What [RunCpu] passes to the execution of an instruction. *)
(* RISCV_cpu.cc:945-958 RiscvCpu::RunCpu *)
Definition decode (ir mxl : Z) (ctype : bool) : decoded :=
  if negb ctype then mk_decoded (GetCode32 ir) (GetRd ir) (GetRs1 ir) (GetRs2 ir) (GetImm ir)
  else GetCode16 ir mxl.

(* ------------------------------------------------------------------ *)
(** ** What every decoded instruction satisfies *)

Definition is_shift_imm (i : instruction) : bool :=
  match i with INST_SLLI | INST_SLLIW | INST_SRLI | INST_SRLIW | INST_SRAI | INST_SRAIW => true | _ => false end.

Definition is_relative (i : instruction) : bool :=
  match i with INST_JAL | INST_BEQ | INST_BGE | INST_BGEU | INST_BLT | INST_BLTU | INST_BNE => true | _ => false end.

(** Register numbers fit the register file, shift amounts are below 64 and
    relative targets even. *)
Record decoded_ok (d : decoded) : Prop := {
  ok_rd : in_u 5 (rd_out d);
  ok_rs1 : in_u 5 (rs1_out d);
  ok_rs2 : in_u 5 (rs2_out d);
  ok_imm : in_s 32 (imm_out d);
  ok_shift : is_shift_imm (instruction_out d) = true -> in_u 6 (imm_out d);
  ok_even : is_relative (instruction_out d) = true -> Z.testbit (imm_out d) 0 = false
}.

(** *** Immediates put together from fields *)

Definition field_ok (k x : Z) : Prop := in_u k x /\ k <= 31.

Lemma imm_set_ok k x : field_ok k x -> imm_set x = x /\ field_ok k x.
Proof.
  intros [Hx Hk]. split; [| done]. unfold imm_set. pose proof (in_u_mono k 32 x ltac:(lia) Hx).
  rewrite (uint_small 32) by done. apply sint_small; [lia |].
  unfold in_u, in_s in *. pose proof (Z.pow_le_mono_r 2 k 31). lia.
Qed.

Lemma field_ok_or k x y : 0 <= k -> field_ok k x -> field_ok k y -> field_ok k (x .| y).
Proof. intros Hk0 [Hx Hk] [Hy _]. split; [auto with rv | done]. Qed.

Lemma imm_or_ok k x y : 0 <= k -> field_ok k x -> field_ok k y -> imm_or x y = x .| y /\ field_ok k (x .| y).
Proof.
  intros Hk0 Hx Hy. pose proof (field_ok_or k x y Hk0 Hx Hy) as Ho.
  destruct (imm_set_ok k _ Ho) as [E _]. split; [| done]. unfold imm_or.
  destruct Hx as [Hx Hk], Hy as [Hy _].
  rewrite !(uint_small 32) by (eapply in_u_mono; [| done]; lia).
  unfold imm_set in E. rewrite uint_small in E; [done |]. apply (in_u_mono k); [lia | apply Ho].
Qed.

Lemma crop_shift_ok k v w o s :
  0 < w <= 64 -> 0 <= s -> w + s <= k -> k <= 31 -> field_ok k (bitcrop v w o <<. s).
Proof.
  intros. pose proof (bitcrop_range v w o ltac:(lia)) as Hr. split; [| done].
  unfold in_u in *. rewrite Z.shiftl_mul_pow2 by lia. pose proof (Z.pow_le_mono_r 2 (w + s) k).
  rewrite Z.pow_add_r in * by lia. pose proof (Z.pow_pos_nonneg 2 s). nia.
Qed.

Lemma crop_ok k v w o : 0 < w <= 64 -> w <= k -> k <= 31 -> field_ok k (bitcrop v w o).
Proof. intros. split; [| done]. apply (in_u_mono w); [lia | apply bitcrop_range; lia]. Qed.

(** Rewrite the assignments of an immediate into plain disjunctions. *)
Ltac plain_imm k :=
  repeat match goal with
  | |- context [imm_set ?x] =>
      rewrite (proj1 (imm_set_ok k x ltac:(field k)))
  | |- context [imm_or ?x ?y] =>
      lazymatch x with context [imm_or _ _] => fail | context [imm_set _] => fail | _ => idtac end;
      rewrite (proj1 (imm_or_ok k x y ltac:(lia) ltac:(field k) ltac:(field k)))
  end
with field k :=
  first [ apply field_ok_or; [lia | field k | field k]
        | apply crop_shift_ok; lia | apply crop_ok; lia ].

Lemma reg3 v o : in_u 5 (bitcrop v 3 o + 8).
Proof. pose proof (bitcrop_range v 3 o ltac:(lia)). unfold in_u in *. lia. Qed.

Lemma in_u6_s32 x : in_u 6 x -> in_s 32 x.
Proof. unfold in_u, in_s. lia. Qed.

Lemma in_u_s32 k x : k <= 31 -> in_u k x -> in_s 32 x.
Proof. unfold in_u, in_s. intros. pose proof (Z.pow_le_mono_r 2 k 31). lia. Qed.

Lemma in_sint_s32 k x : 0 < k <= 32 -> in_s 32 (sint k x).
Proof.
  intros. pose proof (sint_range k ltac:(lia) x). unfold in_s in *.
  pose proof (Z.pow_le_mono_r 2 (k - 1) 31). change (32 - 1) with 31. lia.
Qed.

Lemma reg_const : in_u 5 0 /\ in_u 5 1 /\ in_u 5 2.
Proof. unfold in_u. lia. Qed.

Create HintDb dec.
#[local] Hint Resolve reg3 : dec.
#[local] Hint Extern 1 (in_u 5 (bitcrop _ 5 _)) => apply bitcrop_range; lia : dec.
#[local] Hint Extern 1 (in_u 5 0) => apply reg_const : dec.
#[local] Hint Extern 1 (in_u 5 2) => apply reg_const : dec.
#[local] Hint Extern 1 (in_u 5 1) => apply reg_const : dec.
#[local] Hint Extern 1 (in_u 5 (code_Registers _)) => apply reg_const : dec.
#[local] Hint Extern 1 (in_s 32 0) => (unfold in_s; lia) : dec.
#[local] Hint Extern 1 (in_s 32 1) => (unfold in_s; lia) : dec.
#[local] Hint Extern 1 (in_s 32 (sint _ _)) => apply in_sint_s32; lia : dec.

Lemma c_jump_even ir : Z.testbit (c_jump_imm ir) 0 = false /\ in_s 32 (c_jump_imm ir).
Proof.
  unfold c_jump_imm. cbv zeta. plain_imm 12. rewrite SignExtend_int32_spec by lia.
  split; [| auto with dec]. rewrite !bitcrop_ones by lia. zbits_core.
Qed.

#[local] Hint Extern 2 (in_s 32 ?x) => (apply (in_u_s32 18); [lia |]; eapply proj1; field 18) : dec.
#[local] Hint Extern 2 (in_u 6 ?x) => (eapply proj1; field 6) : dec.

Lemma unsupported_ok : decoded_ok unsupported.
Proof. constructor; cbn; auto with dec; discriminate. Qed.

#[local] Hint Resolve unsupported_ok : dec.

(** The six conditions, one goal each; immediates have at most [k] bits. *)
Ltac dec_ok k :=
  cbv zeta; plain_imm k; rewrite ?SignExtend_int32_spec by lia;
  repeat match goal with |- context [if ?b then _ else _] => destruct b end;
  try exact unsupported_ok;
  constructor; cbn [instruction_out rd_out rs1_out rs2_out imm_out is_shift_imm is_relative];
  try (intros; discriminate); try (intros _); auto with dec.

Lemma c_addi4spn_ok ir : decoded_ok (c_addi4spn ir).
Proof. unfold c_addi4spn. destruct (_ =? _); [auto with dec |]. dec_ok 10. Qed.
Lemma c_addi_jal_ok opcode ir mxl : decoded_ok (c_addi_jal opcode ir mxl).
Proof.
  unfold c_addi_jal. destruct (c_jump_even ir). destruct (_ && _); [dec_ok 6; done |]. dec_ok 6.
Qed.
Lemma c_slli_ok ir : decoded_ok (c_slli ir).
Proof. unfold c_slli. dec_ok 6. Qed.
Lemma c_lw_ok ir : decoded_ok (c_lw ir).
Proof. unfold c_lw. dec_ok 7. Qed.
Lemma c_li_ok ir : decoded_ok (c_li ir).
Proof. unfold c_li. dec_ok 6. Qed.
Lemma c_lwsp_ok ir : decoded_ok (c_lwsp ir).
Proof. unfold c_lwsp. dec_ok 8. Qed.
Lemma c_ld_ok ir : decoded_ok (c_ld ir).
Proof. unfold c_ld. dec_ok 8. Qed.
Lemma c_ldsp_ok ir : decoded_ok (c_ldsp ir).
Proof. unfold c_ldsp. dec_ok 9. Qed.
Lemma c_lui_ok ir : decoded_ok (c_lui ir).
Proof. unfold c_lui. cbv zeta. destruct (negb _); dec_ok 18. Qed.
Lemma c_cr_ok ir : decoded_ok (c_cr ir).
Proof. unfold c_cr. dec_ok 6. Qed.
Lemma c_sw_ok ir : decoded_ok (c_sw ir).
Proof. unfold c_sw. dec_ok 7. Qed.
Lemma c_sd_ok ir : decoded_ok (c_sd ir).
Proof. unfold c_sd. dec_ok 8. Qed.
Lemma c_swsp_ok ir : decoded_ok (c_swsp ir).
Proof. unfold c_swsp. dec_ok 8. Qed.
Lemma c_sdsp_ok ir : decoded_ok (c_sdsp ir).
Proof. unfold c_sdsp. dec_ok 9. Qed.

Lemma c_branch_ok opcode ir : decoded_ok (c_branch opcode ir).
Proof.
  unfold c_branch. dec_ok 9.
  all: rewrite !bitcrop_ones by lia; zbits_core.
Qed.

(** In c.srli, c.srai and c.andi the two parts are added, not or-ed. *)
Lemma shamt_sum ir : imm_set (bitcrop ir 1 12 <<. 5 + bitcrop ir 5 2) = bitcrop ir 1 12 * 32 + bitcrop ir 5 2 /\
  in_u 6 (bitcrop ir 1 12 * 32 + bitcrop ir 5 2).
Proof.
  pose proof (bitcrop_range ir 1 12 ltac:(lia)). pose proof (bitcrop_range ir 5 2 ltac:(lia)).
  rewrite Z.shiftl_mul_pow2 by lia. change (2 ^ 5) with 32.
  assert (Hin : in_u 6 (bitcrop ir 1 12 * 32 + bitcrop ir 5 2)) by (unfold in_u in *; lia).
  split; [| done]. apply (imm_set_ok 6). by split.
Qed.

Lemma c_arith_ok ir : decoded_ok (c_arith ir).
Proof.
  unfold c_arith. cbv zeta. destruct (shamt_sum ir) as [E H]. rewrite E.
  assert (in_s 32 (bitcrop ir 1 12 * 32 + bitcrop ir 5 2)) by (by apply in_u6_s32).
  dec_ok 6; done.
Qed.

Lemma GetCode16_ok ir mxl : decoded_ok (GetCode16 ir mxl).
Proof.
  unfold GetCode16. cbv zeta. generalize (u32 (((ir >>. 13) .& 7) <<. 2) .| (ir .& 3)) as op. intros op.
  repeat match goal with |- decoded_ok (if ?b then _ else _) => destruct b end;
    auto using c_addi4spn_ok, c_addi_jal_ok, c_slli_ok, c_lw_ok, c_li_ok, c_lwsp_ok, c_ld_ok, c_ldsp_ok,
      c_lui_ok, c_cr_ok, c_arith_ok, c_sw_ok, c_sd_ok, c_branch_ok, c_swsp_ok, c_sdsp_ok, unsupported_ok.
  destruct (c_jump_even ir). dec_ok 6; done.
Qed.

(** *** 32-bit instructions *)

(** Which opcodes an instruction with a shift amount or a relative target has. *)
Lemma GetCode32_shift ir :
  is_shift_imm (GetCode32 ir) = true ->
  let opcode := u16 (bitcrop ir 7 0) in
  let funct3 := u8 (bitcrop ir 3 12) in
  (opcode =? OPCODE_ARITHLOG_I) || (opcode =? OPCODE_ARITHLOG_I64) = true /\
  (funct3 =? FUNC3_SL) || (funct3 =? FUNC3_SR) = true.
Proof.
  unfold GetCode32. cbv zeta.
  generalize (u16 (bitcrop ir 7 0)) as op, (u8 (bitcrop ir 3 12)) as f3, (u8 (bitcrop ir 7 25)) as f7.
  intros op f3 f7.
  unfold code_ARITHLOG, code_ARITHLOG_64, code_ARITHLOG_I, code_ARITHLOG_I64, code_B, code_LD, code_S,
    code_SYSTEM, code_FENCE, code_AMO.
  repeat case_match; cbn [is_shift_imm]; intros; try discriminate;
    repeat match goal with E : (_ =? _) = _ |- _ => rewrite E; clear E end;
    cbn [orb]; rewrite ?orb_true_r; done.
Qed.

Lemma GetCode32_relative ir :
  is_relative (GetCode32 ir) = true ->
  u16 (bitcrop ir 7 0) = OPCODE_B \/ u16 (bitcrop ir 7 0) = OPCODE_J.
Proof.
  unfold GetCode32. cbv zeta.
  generalize (u16 (bitcrop ir 7 0)) as op, (u8 (bitcrop ir 3 12)) as f3, (u8 (bitcrop ir 7 25)) as f7.
  intros op f3 f7.
  unfold code_ARITHLOG, code_ARITHLOG_64, code_ARITHLOG_I, code_ARITHLOG_I64, code_B, code_LD, code_S,
    code_SYSTEM, code_FENCE, code_AMO.
  destruct (Z.eqb_spec op OPCODE_B); [by left |]. destruct (Z.eqb_spec op OPCODE_J); [by right |].
  repeat case_match; cbn [is_relative]; intros; discriminate.
Qed.

Lemma GetImm_s32 ir : in_s 32 (GetImm ir).
Proof.
  unfold GetImm. cbv zeta.
  rewrite GetImm12_spec, GetImm13_spec, GetImm21_spec, GetStypeImm12_spec.
  repeat case_match; auto with dec. apply (in_u_s32 6); [lia |].
  change 0x3F with (Z.ones 6). rewrite land_mask by lia. apply uint_range; lia.
Qed.

Lemma decode32_ok ir : decoded_ok (mk_decoded (GetCode32 ir) (GetRd ir) (GetRs1 ir) (GetRs2 ir) (GetImm ir)).
Proof.
  constructor; cbn [instruction_out rd_out rs1_out rs2_out imm_out].
  - apply bitcrop_range; lia.
  - apply bitcrop_range; lia.
  - apply bitcrop_range; lia.
  - apply GetImm_s32.
  - intros [E1 E2]%GetCode32_shift. unfold GetImm. cbv zeta. rewrite E1, E2.
    change 0x3F with (Z.ones 6). rewrite land_mask by lia. apply uint_range; lia.
  - intros Hr. unfold GetImm. cbv zeta. destruct (GetCode32_relative ir Hr) as [E|E]; rewrite E.
    + cbn -[GetImm13 Z.testbit]. rewrite GetImm13_spec. unfold imm13_bits. zbits_core.
    + cbn -[GetImm21 Z.testbit]. rewrite GetImm21_spec. unfold imm21_bits. zbits_core.
Qed.

Lemma decode_ok ir mxl ctype : decoded_ok (decode ir mxl ctype).
Proof. unfold decode. destruct ctype; [apply GetCode16_ok | apply decode32_ok]. Qed.

(* ------------------------------------------------------------------ *)
(** ** The encodings of the ISA manual

    One row per instruction of RV64I (RV32I is a subset), M, A without LR/SC,
    Zicsr and Zifencei: the bits the manual fixes and their values. *)

Module Manual.

Record encoding : Type := row { fixed : Z; value : Z; inst : instruction }.

Definition fmt_R (op f3 f7 : Z) := row 0xFE00707F (op + f3 * 2 ^ 12 + f7 * 2 ^ 25).
Definition fmt_A (f3 f5 : Z) := row 0xF800707F (0x2F + f3 * 2 ^ 12 + f5 * 2 ^ 27).
Definition fmt_sh6 (op f3 f6 : Z) := row 0xFC00707F (op + f3 * 2 ^ 12 + f6 * 2 ^ 26).
Definition fmt_I (op f3 : Z) := row 0x707F (op + f3 * 2 ^ 12).
Definition fmt_U (op : Z) := row 0x7F op.

Definition base : list encoding :=
  [ fmt_U 0x37 INST_LUI; fmt_U 0x17 INST_AUIPC; fmt_U 0x6F INST_JAL; fmt_I 0x67 0 INST_JALR;
    fmt_I 0x63 0 INST_BEQ; fmt_I 0x63 1 INST_BNE; fmt_I 0x63 4 INST_BLT; fmt_I 0x63 5 INST_BGE;
    fmt_I 0x63 6 INST_BLTU; fmt_I 0x63 7 INST_BGEU;
    fmt_I 0x03 0 INST_LB; fmt_I 0x03 1 INST_LH; fmt_I 0x03 2 INST_LW; fmt_I 0x03 3 INST_LD;
    fmt_I 0x03 4 INST_LBU; fmt_I 0x03 5 INST_LHU; fmt_I 0x03 6 INST_LWU;
    fmt_I 0x23 0 INST_SB; fmt_I 0x23 1 INST_SH; fmt_I 0x23 2 INST_SW; fmt_I 0x23 3 INST_SD;
    fmt_I 0x13 0 INST_ADDI; fmt_I 0x13 2 INST_SLTI; fmt_I 0x13 3 INST_SLTIU; fmt_I 0x13 4 INST_XORI;
    fmt_I 0x13 6 INST_ORI; fmt_I 0x13 7 INST_ANDI;
    fmt_sh6 0x13 1 0 INST_SLLI; fmt_sh6 0x13 5 0 INST_SRLI; fmt_sh6 0x13 5 0x10 INST_SRAI;
    fmt_R 0x33 0 0 INST_ADD; fmt_R 0x33 0 0x20 INST_SUB; fmt_R 0x33 1 0 INST_SLL; fmt_R 0x33 2 0 INST_SLT;
    fmt_R 0x33 3 0 INST_SLTU; fmt_R 0x33 4 0 INST_XOR; fmt_R 0x33 5 0 INST_SRL; fmt_R 0x33 5 0x20 INST_SRA;
    fmt_R 0x33 6 0 INST_OR; fmt_R 0x33 7 0 INST_AND;
    fmt_I 0x1B 0 INST_ADDIW; fmt_R 0x1B 1 0 INST_SLLIW; fmt_R 0x1B 5 0 INST_SRLIW; fmt_R 0x1B 5 0x20 INST_SRAIW;
    fmt_R 0x3B 0 0 INST_ADDW; fmt_R 0x3B 0 0x20 INST_SUBW; fmt_R 0x3B 1 0 INST_SLLW;
    fmt_R 0x3B 5 0 INST_SRLW; fmt_R 0x3B 5 0x20 INST_SRAW;
    fmt_I 0x0F 0 INST_FENCE; fmt_I 0x0F 1 INST_FENCEI;
    row 0xFFFFFFFF 0x00000073 INST_SYSTEM (* ecall *); row 0xFFFFFFFF 0x00100073 INST_SYSTEM (* ebreak *);
    row 0xFFFFFFFF 0x30200073 INST_SYSTEM (* mret *); row 0xFFFFFFFF 0x10200073 INST_SYSTEM (* sret *);
    fmt_R 0x73 0 0x09 INST_SYSTEM (* sfence.vma *);
    fmt_I 0x73 1 INST_CSRRW; fmt_I 0x73 2 INST_CSRRS; fmt_I 0x73 3 INST_CSRRC;
    fmt_I 0x73 5 INST_CSRRWI; fmt_I 0x73 6 INST_CSRRSI; fmt_I 0x73 7 INST_CSRRCI ].

Definition mul_div : list encoding :=
  [ fmt_R 0x33 0 1 INST_MUL; fmt_R 0x33 1 1 INST_MULH; fmt_R 0x33 2 1 INST_MULHSU; fmt_R 0x33 3 1 INST_MULHU;
    fmt_R 0x33 4 1 INST_DIV; fmt_R 0x33 5 1 INST_DIVU; fmt_R 0x33 6 1 INST_REM; fmt_R 0x33 7 1 INST_REMU;
    fmt_R 0x3B 0 1 INST_MULW; fmt_R 0x3B 4 1 INST_DIVW; fmt_R 0x3B 5 1 INST_DIVUW;
    fmt_R 0x3B 6 1 INST_REMW; fmt_R 0x3B 7 1 INST_REMUW ].

Definition amo : list encoding :=
  [ fmt_A 2 0x01 INST_AMOSWAPW; fmt_A 2 0x00 INST_AMOADDW; fmt_A 2 0x04 INST_AMOXORW; fmt_A 2 0x0C INST_AMOANDW;
    fmt_A 2 0x08 INST_AMOORW; fmt_A 2 0x10 INST_AMOMINW; fmt_A 2 0x14 INST_AMOMAXW; fmt_A 2 0x18 INST_AMOMINUW;
    fmt_A 2 0x1C INST_AMOMAXUW;
    fmt_A 3 0x01 INST_AMOSWAPD; fmt_A 3 0x00 INST_AMOADDD; fmt_A 3 0x04 INST_AMOXORD; fmt_A 3 0x0C INST_AMOANDD;
    fmt_A 3 0x08 INST_AMOORD; fmt_A 3 0x10 INST_AMOMIND; fmt_A 3 0x14 INST_AMOMAXD; fmt_A 3 0x18 INST_AMOMINUD;
    fmt_A 3 0x1C INST_AMOMAXUD ].

Definition encodings : list encoding := base ++ mul_div ++ amo.

Definition major_opcodes : list Z :=
  [0x33; 0x3B; 0x13; 0x1B; 0x63; 0x03; 0x6F; 0x23; 0x67; 0x37; 0x17; 0x73; 0x0F; 0x2F].
End Manual.

(** A field whose bits are all fixed has the fixed value. *)
Lemma crop_fixed ir m v w o :
  0 <= w <= 64 -> 0 <= o -> ir .& m = v -> (Z.ones w <<. o) .& m = Z.ones w <<. o ->
  bitcrop ir w o = bitcrop v w o.
Proof.
  intros Hw Ho <- Hm. apply Z.bits_inj'. intros i Hi. rewrite !bitcrop_testbit, Z.land_spec by lia.
  destruct (Z.ltb_spec i w); cbn [andb]; [| done].
  apply (f_equal (fun x => Z.testbit x (i + o))) in Hm.
  rewrite Z.land_spec, Z.shiftl_spec, Z.ones_spec_low in Hm by lia. cbn [andb] in Hm.
  by rewrite Hm, andb_true_r.
Qed.

Lemma funct7_high ir k : k = 1 \/ k = 2 -> u8 (bitcrop ir 7 25) >>. k = bitcrop ir (7 - k) (25 + k).
Proof.
  intros Hk. rewrite (uint_small 8) by (apply (in_u_mono 7); [lia | apply bitcrop_range; lia]).
  apply Z.bits_inj'. intros i Hi. rewrite Z.shiftr_spec, !bitcrop_testbit by lia.
  replace (i + k + 25) with (i + (25 + k)) by lia.
  destruct (Z.ltb_spec (i + k) 7), (Z.ltb_spec i (7 - k)); try lia; done.
Qed.

Definition decodes_as (e : Manual.encoding) : Prop :=
  forall ir, ir .& Manual.fixed e = Manual.value e -> GetCode32 ir = Manual.inst e.

(** Replace a field by its fixed value, when the row fixes it. *)
Ltac fix_field H w o :=
  try rewrite (crop_fixed _ _ _ w o ltac:(lia) ltac:(lia) H eq_refl).

Ltac solve_row :=
  let ir := fresh "ir" in let H := fresh "H" in
  intros ir H; unfold Manual.fmt_R, Manual.fmt_A, Manual.fmt_I, Manual.fmt_U, Manual.fmt_sh6 in H |- *;
  cbn [Manual.fixed Manual.value Manual.inst] in H |- *;
  unfold GetCode32, code_ARITHLOG_I, code_ARITHLOG_I64; cbv zeta;
  rewrite !(funct7_high ir) by lia;
  fix_field H 7 0; fix_field H 3 12; fix_field H 7 25; fix_field H (7 - 1) (25 + 1); fix_field H (7 - 2) (25 + 2);
  reflexivity.

Lemma encodings_base : Forall decodes_as Manual.base.
Proof. unfold Manual.base, decodes_as. repeat (apply Forall_cons; split; [solve_row |]). by apply Forall_nil. Qed.

Lemma encodings_mul_div : Forall decodes_as Manual.mul_div.
Proof. unfold Manual.mul_div, decodes_as. repeat (apply Forall_cons; split; [solve_row |]). by apply Forall_nil. Qed.

Lemma encodings_amo : Forall decodes_as Manual.amo.
Proof. unfold Manual.amo, decodes_as. repeat (apply Forall_cons; split; [solve_row |]). by apply Forall_nil. Qed.

(* ------------------------------------------------------------------ *)
(** ** Properties *)

(** C28: every encoding that the ISA manual defines for RV64IMA (without LR/SC),
    Zicsr and Zifencei is decoded to its instruction by [GetCode32], whatever the
    bits the manual leaves free, and a word whose major opcode is none of the
    fourteen supported is an error. *)
Theorem GetCode32_follows_manual (e : Manual.encoding) (ir : Z) :
  (e ∈ Manual.encodings -> ir .& Manual.fixed e = Manual.value e -> GetCode32 ir = Manual.inst e) /\
  (bitcrop ir 7 0 ∉ Manual.major_opcodes -> GetCode32 ir = INST_ERROR).
Proof.
  split.
  - intros He Hm. pose proof encodings_base as Hb. pose proof encodings_mul_div as Hd.
    pose proof encodings_amo as Ha. rewrite !Forall_forall in *.
    unfold Manual.encodings in He. rewrite !elem_of_app in He.
    destruct He as [He | [He | He]]; [by apply (Hb e) | by apply (Hd e) | by apply (Ha e)].
  - intros Hout. unfold GetCode32. cbv zeta.
    rewrite (uint_small 16) by (apply (in_u_mono 7); [lia | apply bitcrop_range; lia]).
    unfold Manual.major_opcodes in Hout.
    repeat match goal with |- (if ?a =? ?b then _ else _) = _ =>
      destruct (Z.eqb_spec a b) as [E|_]; [exfalso; apply Hout; rewrite E; cbn; set_solver |] end.
    done.
Qed.

Lemma GetCode32_follows_manual_witness :
  GetCode32 0x41F5D5BB = INST_SRAW /\ GetCode32 0x0000007F = INST_ERROR.
Proof.
  split.
  - apply (proj1 (GetCode32_follows_manual (Manual.fmt_R 0x3B 5 0x20 INST_SRAW) 0x41F5D5BB)); [set_unfold; tauto | reflexivity].
  - apply (proj2 (GetCode32_follows_manual (Manual.fmt_U 0x37 INST_LUI) 0x7F)). decide_it.
Defined.

(** C36: whatever the instruction word, decoding yields register numbers below 32,
    an immediate that fits [int32_t], shift amounts below 64 and even branch and
    jump offsets: the execution functions never index outside the register file. *)
Theorem decode_in_bounds (ir mxl : Z) (ctype : bool) : decoded_ok (decode ir mxl ctype).
Proof. apply decode_ok. Qed.
