(* ===== verification/Rvc.v ===== *)
(** * The C extension: compressed instructions after the ISA manual

    [Compressed] is the manual's table of 16-bit encodings with the instruction each one
    expands to; the theorems show that [GetCode16] of RISCV_cpu.cc implements it in
    both widths. *)

From S2P Require Import Prelude BitTools Isa Encdec Decode.

Module Compressed.

(* ------------------------------------------------------------------ *)
(** ** The manual's notation *)

(** [n] bits from bit [lo] on. *)
Definition field (ir lo n : Z) : Z := ir / 2 ^ lo mod 2 ^ n.

(** A register field of five bits, or of three for x8 to x15 (rd', rs1', rs2'). *)
Definition reg5 (ir lo : Z) : Z := field ir lo 5.
Definition reg3 (ir lo : Z) : Z := 8 + field ir lo 3.

(** An immediate spread over the word, written as the manual does: [spread ir 12
    [5;4;3]] is imm[5:3] in bits 12, 11 and 10. *)
Fixpoint spread (ir hi : Z) (ds : list Z) : Z :=
  match ds with
  | [] => 0
  | d :: ds => ((ir >>. hi) .& 1) <<. d .| spread ir (hi - 1) ds
  end.

Definition imm_CI (ir : Z) : Z := spread ir 12 [5] .| spread ir 6 [4; 3; 2; 1; 0].
Definition imm_CJ (ir : Z) : Z := sint 12 (spread ir 12 [11; 4; 9; 8; 10; 6; 7; 3; 2; 1; 5]).
Definition imm_CB (ir : Z) : Z := sint 9 (spread ir 12 [8; 4; 3] .| spread ir 6 [7; 6; 2; 1; 5]).
Definition imm_CIW (ir : Z) : Z := spread ir 12 [5; 4; 9; 8; 7; 6; 2; 3].
Definition imm_CL4 (ir : Z) : Z := spread ir 12 [5; 4; 3] .| spread ir 6 [2; 6].
Definition imm_CL8 (ir : Z) : Z := spread ir 12 [5; 4; 3] .| spread ir 6 [7; 6].
Definition imm_LWSP (ir : Z) : Z := spread ir 12 [5] .| spread ir 6 [4; 3; 2; 7; 6].
Definition imm_LDSP (ir : Z) : Z := spread ir 12 [5] .| spread ir 6 [4; 3; 8; 7; 6].
Definition imm_SWSP (ir : Z) : Z := spread ir 12 [5; 4; 3; 2; 7; 6].
Definition imm_SDSP (ir : Z) : Z := spread ir 12 [5; 4; 3; 8; 7; 6].
Definition imm_16SP (ir : Z) : Z := sint 10 (spread ir 12 [9] .| spread ir 6 [4; 6; 8; 7; 5]).
Definition imm_LUI (ir : Z) : Z := sint 18 (spread ir 12 [17] .| spread ir 6 [16; 15; 14; 13; 12]).

(* ------------------------------------------------------------------ *)
(** ** The table

    The bits an encoding fixes and their values, the words that are not reserved
    (for MXL 1, 32 bits, and 2, 64 bits), and the expansion.  An operand the
    expanded instruction does not have is zero. *)

Record row : Type := Row { fixed : Z; value : Z; legal : Z -> Z -> bool; expansion : Z -> decoded }.

Definition any (mxl ir : Z) : bool := true.
Definition rv32 (mxl ir : Z) : bool := mxl =? 1.
Definition rv64 (mxl ir : Z) : bool := mxl =? 2.
(** [also legal p]: and [p] holds of the word. *)
Definition also (l : Z -> Z -> bool) (p : Z -> bool) (mxl ir : Z) : bool := l mxl ir && p ir.
Definition rd_set (ir : Z) : bool := negb (reg5 ir 7 =? 0).
Definition rs2_set (ir : Z) : bool := negb (reg5 ir 2 =? 0).
(** Shift amounts of 32 and more are for 64 bits. *)
Definition shamt_legal (mxl ir : Z) : bool := (mxl =? 2) || ((mxl =? 1) && (imm_CI ir <? 32)).

(** funct3 and quadrant; with further fixed bits. *)
Definition quadrant (f3 q : Z) := Row 0xE003 (f3 * 2 ^ 13 + q).
Definition quadrant_with (more f3 q v : Z) := Row (0xE003 + more) (f3 * 2 ^ 13 + q + v).

Definition arith (f : Z) (l : Z -> Z -> bool) (i : instruction) : row :=
  quadrant_with 0x1C60 4 1 (0xC00 + f) l (fun ir => mk_decoded i (reg3 ir 7) (reg3 ir 7) (reg3 ir 2) 0).

Definition quadrant0 : list row :=
  [ (* C.ADDI4SPN *) quadrant 0 0 (also any (fun ir => negb (imm_CIW ir =? 0)))
      (fun ir => mk_decoded INST_ADDI (reg3 ir 2) 2 0 (imm_CIW ir));
    (* C.LW *) quadrant 2 0 any (fun ir => mk_decoded INST_LW (reg3 ir 2) (reg3 ir 7) 0 (imm_CL4 ir));
    (* C.LD *) quadrant 3 0 rv64 (fun ir => mk_decoded INST_LD (reg3 ir 2) (reg3 ir 7) 0 (imm_CL8 ir));
    (* C.SW *) quadrant 6 0 any (fun ir => mk_decoded INST_SW 0 (reg3 ir 7) (reg3 ir 2) (imm_CL4 ir));
    (* C.SD *) quadrant 7 0 rv64 (fun ir => mk_decoded INST_SD 0 (reg3 ir 7) (reg3 ir 2) (imm_CL8 ir)) ].

Definition quadrant1 : list row :=
  [ (* C.NOP, C.ADDI *) quadrant 0 1 any (fun ir => mk_decoded INST_ADDI (reg5 ir 7) (reg5 ir 7) 0 (sint 6 (imm_CI ir)));
    (* C.JAL *) quadrant 1 1 rv32 (fun ir => mk_decoded INST_JAL 1 0 0 (imm_CJ ir));
    (* C.ADDIW *) quadrant 1 1 (also rv64 rd_set)
      (fun ir => mk_decoded INST_ADDIW (reg5 ir 7) (reg5 ir 7) 0 (sint 6 (imm_CI ir)));
    (* C.LI *) quadrant 2 1 any (fun ir => mk_decoded INST_ADDI (reg5 ir 7) 0 0 (sint 6 (imm_CI ir)));
    (* C.ADDI16SP *) quadrant_with 0xF80 3 1 0x100 (also any (fun ir => negb (imm_16SP ir =? 0)))
      (fun ir => mk_decoded INST_ADDI 2 2 0 (imm_16SP ir));
    (* C.LUI *) quadrant 3 1 (also any (fun ir => negb (reg5 ir 7 =? 2) && negb (imm_LUI ir =? 0)))
      (fun ir => mk_decoded INST_LUI (reg5 ir 7) 0 0 (imm_LUI ir));
    (* C.SRLI *) quadrant_with 0xC00 4 1 0 shamt_legal (fun ir => mk_decoded INST_SRLI (reg3 ir 7) (reg3 ir 7) 0 (imm_CI ir));
    (* C.SRAI *) quadrant_with 0xC00 4 1 0x400 shamt_legal (fun ir => mk_decoded INST_SRAI (reg3 ir 7) (reg3 ir 7) 0 (imm_CI ir));
    (* C.ANDI *) quadrant_with 0xC00 4 1 0x800 any
      (fun ir => mk_decoded INST_ANDI (reg3 ir 7) (reg3 ir 7) 0 (sint 6 (imm_CI ir)));
    arith 0x00 any INST_SUB; arith 0x20 any INST_XOR; arith 0x40 any INST_OR; arith 0x60 any INST_AND;
    arith 0x1000 rv64 INST_SUBW; arith 0x1020 rv64 INST_ADDW;
    (* C.J *) quadrant 5 1 any (fun ir => mk_decoded INST_JAL 0 0 0 (imm_CJ ir));
    (* C.BEQZ *) quadrant 6 1 any (fun ir => mk_decoded INST_BEQ 0 (reg3 ir 7) 0 (imm_CB ir));
    (* C.BNEZ *) quadrant 7 1 any (fun ir => mk_decoded INST_BNE 0 (reg3 ir 7) 0 (imm_CB ir)) ].

Definition quadrant2 : list row :=
  [ (* C.SLLI *) quadrant 0 2 shamt_legal (fun ir => mk_decoded INST_SLLI (reg5 ir 7) (reg5 ir 7) 0 (imm_CI ir));
    (* C.LWSP *) quadrant 2 2 (also any rd_set) (fun ir => mk_decoded INST_LW (reg5 ir 7) 2 0 (imm_LWSP ir));
    (* C.LDSP *) quadrant 3 2 (also rv64 rd_set) (fun ir => mk_decoded INST_LD (reg5 ir 7) 2 0 (imm_LDSP ir));
    (* C.JR *) quadrant_with 0x107C 4 2 0 (also any rd_set) (fun ir => mk_decoded INST_JALR 0 (reg5 ir 7) 0 0);
    (* C.MV *) quadrant_with 0x1000 4 2 0 (also any rs2_set) (fun ir => mk_decoded INST_ADD (reg5 ir 7) 0 (reg5 ir 2) 0);
    (* C.EBREAK *) quadrant_with 0x1FFC 4 2 0x1000 any (fun ir => mk_decoded INST_SYSTEM 0 0 0 1);
    (* C.JALR *) quadrant_with 0x107C 4 2 0x1000 (also any rd_set) (fun ir => mk_decoded INST_JALR 1 (reg5 ir 7) 0 0);
    (* C.ADD *) quadrant_with 0x1000 4 2 0x1000 (also (also any rs2_set) rd_set)
      (fun ir => mk_decoded INST_ADD (reg5 ir 7) (reg5 ir 7) (reg5 ir 2) 0);
    (* C.SWSP *) quadrant 6 2 any (fun ir => mk_decoded INST_SW 0 2 (reg5 ir 2) (imm_SWSP ir));
    (* C.SDSP *) quadrant 7 2 rv64 (fun ir => mk_decoded INST_SD 0 2 (reg5 ir 2) (imm_SDSP ir)) ].

Definition encodings : list row := quadrant0 ++ quadrant1 ++ quadrant2.

Definition matches (mxl ir : Z) (e : row) : bool := (ir .& fixed e =? value e) && legal e mxl ir.
End Compressed.

(* ------------------------------------------------------------------ *)
(** ** Fields and immediates *)

Lemma field_crop ir lo n : 0 <= n <= 64 -> 0 <= lo -> bitcrop ir n lo = Compressed.field ir lo n.
Proof. intros. by rewrite bitcrop_spec. Qed.

Lemma spread_range k ir hi ds : 0 <= k -> Forall (fun d => 0 <= d < k) ds -> in_u k (Compressed.spread ir hi ds).
Proof.
  intros Hk Hds. revert hi. induction Hds as [|d ds Hd _ IH]; intros hi; cbn [Compressed.spread].
  - unfold in_u. pose proof (Z.pow_pos_nonneg 2 k). lia.
  - apply in_u_lor; [done | | apply IH].
    rewrite Z.shiftl_mul_pow2 by lia. change 1 with (Z.ones 1). rewrite land_mask by lia.
    pose proof (uint_range 1 ltac:(lia) (ir >>. hi)) as Hb. pose proof (Z.pow_le_mono_r 2 (d + 1) k).
    rewrite Z.pow_add_r in * by lia. pose proof (Z.pow_pos_nonneg 2 d). unfold in_u in *. nia.
Qed.

(** The bits of an immediate of the code, put together with [|=], are those of the
    manual. *)
Ltac spread_ranges :=
  repeat match goal with |- in_u _ (Z.lor _ _) => apply in_u_lor; [lia | |] end;
  (apply spread_range; [lia |]); repeat (apply Forall_cons_2; [lia |]); apply Forall_nil_2.

Ltac spread_bits k :=
  unfold Compressed.imm_CI, Compressed.imm_CJ, Compressed.imm_CB, Compressed.imm_CIW, Compressed.imm_CL4, Compressed.imm_CL8,
    Compressed.imm_LWSP, Compressed.imm_LDSP, Compressed.imm_SWSP, Compressed.imm_SDSP, Compressed.imm_16SP, Compressed.imm_LUI;
  lazymatch goal with |- sint _ _ = _ => f_equal | _ => idtac end; apply (bits_eq_below k); [lia | eapply proj1; field k | spread_ranges |];
  rewrite ?bitcrop_ones by lia; cbn [Compressed.spread];
  repeat match goal with |- context [?a - 1] => ground_int (a - 1) end; all_bits.

Ltac same_imm k := cbv zeta; plain_imm k; rewrite ?SignExtend_int32_spec by lia; spread_bits k.

Lemma c_jump_spread ir : c_jump_imm ir = Compressed.imm_CJ ir.
Proof. unfold c_jump_imm. same_imm 12. Qed.

Lemma ci_spread ir : imm_or (imm_set (bitcrop ir 1 12 <<. 5)) (bitcrop ir 5 2) = Compressed.imm_CI ir.
Proof. same_imm 6. Qed.

Lemma shamt_spread ir : imm_set (bitcrop ir 1 12 <<. 5 .| bitcrop ir 5 2) = Compressed.imm_CI ir.
Proof. same_imm 6. Qed.

Lemma sum_spread ir : imm_set (bitcrop ir 1 12 <<. 5 + bitcrop ir 5 2) = Compressed.imm_CI ir.
Proof.
  rewrite <- shamt_spread. f_equal. symmetry.
  rewrite lor_low, Z.shiftl_mul_pow2 by (lia || (apply bitcrop_range; lia)). done.
Qed.

(** *** The groups of the decoder, in the manual's terms *)

Lemma reg5_crop ir lo : 0 <= lo -> bitcrop ir 5 lo = Compressed.reg5 ir lo.
Proof. intros. by apply field_crop. Qed.

Lemma reg3_crop ir lo : 0 <= lo -> bitcrop ir 3 lo + 8 = Compressed.reg3 ir lo.
Proof. intros. rewrite field_crop by lia. apply Z.add_comm. Qed.

Ltac group k :=
  f_equal; first [reflexivity | apply reg5_crop; lia | apply reg3_crop; lia | same_imm k].

Lemma c_lw_spec ir : c_lw ir = mk_decoded INST_LW (Compressed.reg3 ir 2) (Compressed.reg3 ir 7) 0 (Compressed.imm_CL4 ir).
Proof. unfold c_lw. group 7. Qed.
Lemma c_ld_spec ir : c_ld ir = mk_decoded INST_LD (Compressed.reg3 ir 2) (Compressed.reg3 ir 7) 0 (Compressed.imm_CL8 ir).
Proof. unfold c_ld. group 8. Qed.
Lemma c_sw_spec ir : c_sw ir = mk_decoded INST_SW 0 (Compressed.reg3 ir 7) (Compressed.reg3 ir 2) (Compressed.imm_CL4 ir).
Proof. unfold c_sw. group 7. Qed.
Lemma c_sd_spec ir : c_sd ir = mk_decoded INST_SD 0 (Compressed.reg3 ir 7) (Compressed.reg3 ir 2) (Compressed.imm_CL8 ir).
Proof. unfold c_sd. group 8. Qed.
Lemma c_li_spec ir : c_li ir = mk_decoded INST_ADDI (Compressed.reg5 ir 7) 0 0 (sint 6 (Compressed.imm_CI ir)).
Proof. unfold c_li. group 6. Qed.
Lemma c_slli_spec ir : c_slli ir = mk_decoded INST_SLLI (Compressed.reg5 ir 7) (Compressed.reg5 ir 7) 0 (Compressed.imm_CI ir).
Proof. unfold c_slli. group 6. Qed.
Lemma c_lwsp_spec ir : c_lwsp ir = mk_decoded INST_LW (Compressed.reg5 ir 7) 2 0 (Compressed.imm_LWSP ir).
Proof. unfold c_lwsp. group 8. Qed.
Lemma c_ldsp_spec ir : c_ldsp ir = mk_decoded INST_LD (Compressed.reg5 ir 7) 2 0 (Compressed.imm_LDSP ir).
Proof. unfold c_ldsp. group 9. Qed.
Lemma c_swsp_spec ir : c_swsp ir = mk_decoded INST_SW 0 2 (Compressed.reg5 ir 2) (Compressed.imm_SWSP ir).
Proof. unfold c_swsp. group 8. Qed.
Lemma c_sdsp_spec ir : c_sdsp ir = mk_decoded INST_SD 0 2 (Compressed.reg5 ir 2) (Compressed.imm_SDSP ir).
Proof. unfold c_sdsp. group 9. Qed.

Lemma c_branch_spec opcode ir :
  c_branch opcode ir = mk_decoded (if opcode =? 0x19 then INST_BEQ else INST_BNE) 0 (Compressed.reg3 ir 7) 0 (Compressed.imm_CB ir).
Proof. unfold c_branch. group 9. Qed.

Lemma c_addi_jal_spec opcode ir mxl :
  c_addi_jal opcode ir mxl =
  if (opcode =? 5) && (mxl =? 1) then mk_decoded INST_JAL 1 0 0 (Compressed.imm_CJ ir)
  else mk_decoded (if (opcode >>. 2) =? 0 then INST_ADDI else INST_ADDIW) (Compressed.reg5 ir 7) (Compressed.reg5 ir 7) 0
         (sint 6 (Compressed.imm_CI ir)).
Proof.
  unfold c_addi_jal. destruct (_ && _); [by rewrite c_jump_spread |]. cbv zeta.
  rewrite ci_spread, SignExtend_int32_spec by lia. by rewrite reg5_crop.
Qed.

Lemma spread_zero ir hi ds :
  (forall i, hi - Z.of_nat (length ds) < i <= hi -> Z.testbit ir i = false) -> 0 <= hi - Z.of_nat (length ds) + 1 ->
  Compressed.spread ir hi ds = 0.
Proof.
  revert hi. induction ds as [|d ds IH]; intros hi H H0; [done |]. cbn [Compressed.spread length] in *.
  rewrite IH by (intros; try apply H; lia). change 1 with (Z.ones 1) at 1.
  rewrite <- bitcrop_ones, bitcrop_bit, (H hi) by lia. by rewrite Z.shiftl_0_l.
Qed.

Lemma c_addi4spn_spec ir :
  (Compressed.imm_CIW ir =? 0) = false ->
  c_addi4spn ir = mk_decoded INST_ADDI (Compressed.reg3 ir 2) 2 0 (Compressed.imm_CIW ir).
Proof.
  rewrite Z.eqb_neq. intros Hi. unfold c_addi4spn. destruct (Z.eqb_spec (bitcrop ir 8 5) 0) as [E|_].
  - destruct Hi. apply spread_zero; [| cbn; lia]. cbn [length Z.of_nat Pos.of_succ_nat Pos.succ]. intros i Hr.
    apply (f_equal (fun x => Z.testbit x (i - 5))) in E. rewrite bitcrop_testbit, Z.bits_0 in E by lia.
    destruct (Z.ltb_spec (i - 5) 8); [| lia]. by replace (i - 5 + 5) with i in E by lia.
  - group 10.
Qed.

Lemma c_lui_spec ir :
  c_lui ir =
  if Compressed.reg5 ir 7 =? 2 then
    mk_decoded (if Compressed.imm_16SP ir =? 0 then INST_ERROR else INST_ADDI) (Compressed.reg5 ir 7) 2 0 (Compressed.imm_16SP ir)
  else mk_decoded (if Compressed.imm_LUI ir =? 0 then INST_ERROR else INST_LUI) (Compressed.reg5 ir 7) 0 0 (Compressed.imm_LUI ir).
Proof.
  unfold c_lui. rewrite reg5_crop by lia. cbv zeta. change (code_Registers X2) with 2.
  match goal with |- (if _ then mk_decoded (if ?a =? 0 then _ else _) _ _ _ _ else mk_decoded (if ?b =? 0 then _ else _) _ _ _ _) = _ =>
    assert (Ea : a = Compressed.imm_LUI ir) by same_imm 18; assert (Eb : b = Compressed.imm_16SP ir) by same_imm 10 end.
  rewrite Ea, Eb. by destruct (_ =? 2).
Qed.

Lemma crop_split ir v w o : 0 <= v -> 0 <= w -> v + w <= 64 -> 0 <= o ->
  bitcrop ir (v + w) o = bitcrop ir v o + 2 ^ v * bitcrop ir w (o + v).
Proof.
  intros. rewrite !bitcrop_spec by lia. unfold uint. rewrite !Z.pow_add_r, <- Z.div_div by lia.
  by rewrite Z.rem_mul_r by lia.
Qed.

Lemma crop_1_cases ir o : bitcrop ir 1 o = 0 \/ bitcrop ir 1 o = 1.
Proof. pose proof (bitcrop_range ir 1 o ltac:(lia)). unfold in_u in *. lia. Qed.

(** The selection in c_arith by three fields of the manual's. *)
Definition arith_case (f11_10 f12 f6_5 : Z) : instruction :=
  if f11_10 =? 0 then INST_SRLI else if f11_10 =? 1 then INST_SRAI else if f11_10 =? 2 then INST_ANDI
  else if f12 =? 0 then
    if f6_5 =? 0 then INST_SUB else if f6_5 =? 1 then INST_XOR else if f6_5 =? 2 then INST_OR else INST_AND
  else if f6_5 =? 0 then INST_SUBW else if f6_5 =? 1 then INST_ADDW else INST_ERROR.

Lemma c_arith_spec ir :
  let i := arith_case (bitcrop ir 2 10) (bitcrop ir 1 12) (bitcrop ir 2 5) in
  i <> INST_ERROR ->
  c_arith ir = mk_decoded i (Compressed.reg3 ir 7) (Compressed.reg3 ir 7)
                 (if bitcrop ir 2 10 =? 3 then Compressed.reg3 ir 2 else 0)
                 (if bitcrop ir 2 10 =? 3 then 0 else if bitcrop ir 2 10 =? 2 then sint 6 (Compressed.imm_CI ir) else Compressed.imm_CI ir).
Proof.
  unfold c_arith. cbv zeta. rewrite sum_spread, !reg3_crop, SignExtend_int32_spec by lia.
  pose proof (crop_split ir 2 1 10 ltac:(lia) ltac:(lia) ltac:(lia) ltac:(lia)) as E1.
  pose proof (crop_split ir 1 1 10 ltac:(lia) ltac:(lia) ltac:(lia) ltac:(lia)) as E2.
  pose proof (crop_split ir 1 1 5 ltac:(lia) ltac:(lia) ltac:(lia) ltac:(lia)) as E3.
  change (2 + 1) with 3 in E1. change (10 + 2) with 12 in E1. change (1 + 1) with 2 in E2, E3.
  change (10 + 1) with 11 in E2. change (5 + 1) with 6 in E3. rewrite E1, E2, E3.
  destruct (crop_1_cases ir 10) as [-> | ->], (crop_1_cases ir 11) as [-> | ->], (crop_1_cases ir 12) as [-> | ->]; try done;
    destruct (crop_1_cases ir 5) as [-> | ->], (crop_1_cases ir 6) as [-> | ->]; done.
Qed.

(* ------------------------------------------------------------------ *)
(** ** The rows *)

Lemma opcode_fields ir : u32 (((ir >>. 13) .& 7) <<. 2) .| (ir .& 3) = 4 * bitcrop ir 3 13 + bitcrop ir 2 0.
Proof.
  rewrite !bitcrop_ones by lia. change (ir >>. 0) with (ir >>. 0). rewrite Z.shiftr_0_r. change (Z.ones 3) with 7. change (Z.ones 2) with 3.
  assert (H : in_u 3 ((ir >>. 13) .& 7)) by (change 7 with (Z.ones 3); rewrite land_mask by lia; apply uint_range; lia).
  rewrite uint_small by (rewrite Z.shiftl_mul_pow2 by lia; unfold in_u in *; lia).
  rewrite lor_low by (lia || (change 3 with (Z.ones 2); rewrite land_mask by lia; apply uint_range; lia)). lia.
Qed.

(** The decoder at a row of the table. *)
Definition expands_as (e : Compressed.row) : Prop :=
  forall mxl ir, Compressed.matches mxl ir e = true -> GetCode16 ir mxl = Compressed.expansion e ir.

(** Replace the fields the row fixes by their values. *)
Ltac fix_fields H :=
  fix_field H 3 13; fix_field H 2 0; fix_field H 5 7; fix_field H 5 2; fix_field H 1 12; fix_field H 3 10; fix_field H 2 10;
  fix_field H 2 5; fix_field H 1 11; fix_field H 1 10;
  repeat match goal with |- context [bitcrop ?v ?w ?o] =>
    let k := eval vm_compute in (bitcrop v w o) in lazymatch k with Z0 => idtac | Zpos _ => idtac end;
    change (bitcrop v w o) with k end.

(** Select the case of the opcode. *)
Ltac pick_row H Hl :=
  intros mxl ir [H Hl]%andb_prop; apply Z.eqb_eq in H; unfold GetCode16; rewrite opcode_fields;
  cbn [Compressed.fixed Compressed.value Compressed.legal Compressed.expansion] in H, Hl |- *;
  fix_fields H;
  repeat match goal with |- context [4 * ?a + ?b] => ground_int (4 * a + b) end;
  cbn [Z.eqb Pos.eqb orb andb negb].

(** The conditions on reserved words. *)
Ltac use_legal Hl :=
  unfold Compressed.also, Compressed.any, Compressed.rv32, Compressed.rv64, Compressed.rd_set, Compressed.rs2_set in Hl;
  rewrite ?andb_true_iff, ?negb_true_iff, ?Z.eqb_eq in Hl; cbn [andb] in Hl;
  repeat match goal with Hc : _ /\ _ |- _ => destruct Hc end.

Ltac solve_group H Hl :=
  pick_row H Hl;
  rewrite ?c_lw_spec, ?c_ld_spec, ?c_sw_spec, ?c_sd_spec, ?c_li_spec, ?c_slli_spec, ?c_lwsp_spec, ?c_ldsp_spec, ?c_swsp_spec,
    ?c_sdsp_spec, ?c_branch_spec, ?c_addi_jal_spec, ?c_jump_spread, ?c_lui_spec; try reflexivity; use_legal Hl.

Lemma expands_0 : Forall expands_as Compressed.quadrant0.
Proof.
  unfold Compressed.quadrant0, expands_as, Compressed.quadrant.
  repeat (apply Forall_cons; split; [solve_group H Hl; by rewrite c_addi4spn_spec |]); try by apply Forall_nil.
Qed.

Ltac finish_row H :=
  match goal with
  | |- c_arith _ = _ => rewrite c_arith_spec; fix_fields H; done
  | |- c_cr _ = _ => unfold c_cr; fix_fields H; rewrite ?reg5_crop by lia;
      repeat match goal with E : (_ =? _) = false |- _ => rewrite E end; reflexivity
  | |- (if Compressed.reg5 ?ir 7 =? 2 then _ else _) = _ =>
      try (rewrite <- (reg5_crop ir 7) by lia; fix_field H 5 7; progress change (bitcrop _ 5 7) with 2);
      repeat match goal with E : (_ =? _) = false |- _ => rewrite E end; reflexivity
  | |- (if _ && (?mxl =? 1) then _ else _) = _ =>
      repeat match goal with E : mxl = _ |- _ => rewrite E end; reflexivity
  end.

Lemma expands_1 : Forall expands_as Compressed.quadrant1.
Proof.
  unfold Compressed.quadrant1, expands_as, Compressed.quadrant, Compressed.arith, Compressed.quadrant_with.
  repeat (apply Forall_cons; split); try by apply Forall_nil.
  all: solve_group H Hl; finish_row H.
Qed.

Lemma expands_2 : Forall expands_as Compressed.quadrant2.
Proof.
  unfold Compressed.quadrant2, expands_as, Compressed.quadrant, Compressed.arith, Compressed.quadrant_with.
  repeat (apply Forall_cons; split); try by apply Forall_nil.
  all: solve_group H Hl; finish_row H.
Qed.

Lemma encodings_expand e : e ∈ Compressed.encodings -> expands_as e.
Proof.
  pose proof expands_0 as H0. pose proof expands_1 as H1. pose proof expands_2 as H2. rewrite Forall_forall in H0, H1, H2.
  unfold Compressed.encodings. rewrite !elem_of_app. intros [He | [He | He]]; [by apply H0 | by apply H1 | by apply H2].
Qed.

(* ------------------------------------------------------------------ *)
(** ** Properties *)

(** The funct3 and quadrant of the floating-point accesses and of the reserved group
    of quadrant 0, which the emulator does not have. *)
Definition absent : list (Z * Z) := [(1, 0); (4, 0); (5, 0); (1, 2); (5, 2)].

(** C29: every 16-bit word that the C extension defines for RV32 or RV64 without
    floating point is decoded by [GetCode16] to exactly the instruction, registers
    and immediate of its expansion in the ISA manual; the words of the absent
    groups and the all-zero word, which the manual defines to be illegal, are
    errors. *)
Theorem GetCode16_follows_manual (e : Compressed.row) (mxl ir : Z) :
  (e ∈ Compressed.encodings -> Compressed.matches mxl ir e = true -> GetCode16 ir mxl = Compressed.expansion e ir) /\
  ((bitcrop ir 3 13, bitcrop ir 2 0) ∈ absent -> instruction_out (GetCode16 ir mxl) = INST_ERROR) /\
  instruction_out (GetCode16 0 mxl) = INST_ERROR.
Proof.
  split; [| split; [| done]].
  - intros He. by apply encodings_expand.
  - intros Ha. unfold GetCode16. rewrite opcode_fields.
    repeat (apply elem_of_cons in Ha as [[= -> ->] | Ha]; [done |]). by apply not_elem_of_nil in Ha.
Qed.

Definition c_addi16sp : Compressed.row := nth 9 Compressed.encodings (Compressed.arith 0 Compressed.any INST_SUB).

Lemma GetCode16_follows_manual_witness :
  GetCode16 0x715D 2 = mk_decoded INST_ADDI 2 2 0 (-80) /\ instruction_out (GetCode16 0x2000 1) = INST_ERROR.
Proof.
  split.
  - transitivity (Compressed.expansion c_addi16sp 0x715D); [| vm_compute; reflexivity].
    apply (proj1 (GetCode16_follows_manual c_addi16sp 2 0x715D)); [| vm_compute; reflexivity].
    apply list_elem_of_In, nth_In. vm_compute. lia.
  - apply (proj1 (proj2 (GetCode16_follows_manual c_addi16sp 1 0x2000))). vm_compute. apply list_elem_of_here.
Defined.
