(* ===== verification/Disassembler.v ===== *)
(** * Disassembler.cpp: instruction words as text

    The text is a [res string]: a register name outside the table of 32 is
    undefined.  The switch over the opcode is split into one definition per group
    of mnemonics, and the compressed opcodes with several forms likewise. *)

From Stdlib Require Import Ascii String.
From S2P Require Import Prelude BitTools Isa Encdec Decode.
#[local] Open Scope string_scope.
#[local] Open Scope Z_scope.

(* ------------------------------------------------------------------ *)
(** ** Text *)

(** [a + b] on strings that may have failed to be built. *)
Definition cat (a b : res string) : res string := x ← a; y ← b; mret (x ++ y).
Definition lit (s : string) : res string := mret s.
Notation "a +++ b" := (cat a b) (at level 60, right associativity).

(* Disassembler.cpp:12-19 GetRegName *)
Definition GetRegName (reg : Z) : res string :=
  let kRegNames :=
    ["ZERO"; "RA"; "SP"; "GP"; "TP"; "T0"; "T1"; "T2"; "FP"; "S1"; "A0";
     "A1"; "A2"; "A3"; "A4"; "A5"; "A6"; "A7"; "S2"; "S3"; "S4"; "S5";
     "S6"; "S7"; "S8"; "S9"; "S10"; "S11"; "T3"; "T4"; "T5"; "T6"] in
  if reg <? 0 then Err Undefined
  else match kRegNames !! Z.to_nat reg with Some name => Ok name | None => Err Undefined end.

(** One lower-case digit, and [std::hex] with as many digits as needed, eight for a
    [uint32_t]. *)
Definition hex_digit (d : Z) : string :=
  match nth_error ["0"; "1"; "2"; "3"; "4"; "5"; "6"; "7"; "8"; "9"; "a"; "b"; "c"; "d"; "e"; "f"] (Z.to_nat d) with
  | Some s => s | None => "" end.

Fixpoint hex (digits : nat) (num : Z) : string :=
  match digits with
  | O => ""
  | S n => (if num <? 16 then "" else hex n (num / 16)) ++ hex_digit (num mod 16)
  end.

(* Disassembler.cpp:21-25 NumberToHex *)
Definition NumberToHex (num : Z) : res string := lit ("0x" ++ hex 8 (u32 num)).

(* ------------------------------------------------------------------ *)
(** ** Compressed instructions *)

(* Disassembler.cpp:78-92 Disassemble16 *)
Definition text_cr (ir rd rs1 rs2 : Z) (cmd : res string) : res string :=
  if bitcrop ir 1 12 =? 1 then
    if (bitcrop ir 5 2 =? 0) && (bitcrop ir 5 7 =? 0) then lit "C.EBREAK"
    else if bitcrop ir 5 2 =? 0 then lit "C.JALR " +++ GetRegName rs1
    else if negb (bitcrop ir 5 7 =? 0) then lit "C.ADD " +++ GetRegName rd +++ lit ", " +++ GetRegName rs2
    else cmd
  else if bitcrop ir 5 2 =? 0 then lit "C.JR " +++ GetRegName rs1
  else lit "C.MV " +++ GetRegName rd +++ lit ", " +++ GetRegName rs2.

(* Disassembler.cpp:93-115 Disassemble16 *)
Definition text_arith (ir rd rs2 imm : Z) (cmd : res string) : res string :=
  if (bitcrop ir 3 10 =? 3) && (bitcrop ir 2 5 =? 3) then
    lit "C.AND " +++ GetRegName rd +++ lit ", " +++ GetRegName rs2
  else if (bitcrop ir 3 10 =? 3) && (bitcrop ir 2 5 =? 1) then
    lit "C.XOR " +++ GetRegName rd +++ lit ", " +++ GetRegName rs2
  else if (bitcrop ir 3 10 =? 3) && (bitcrop ir 2 5 =? 0) then
    lit "C.SUB " +++ GetRegName rd +++ lit ", " +++ GetRegName rs2
  else if (bitcrop ir 3 10 =? 3) && (bitcrop ir 2 5 =? 2) then
    lit "C.OR " +++ GetRegName rd +++ lit ", " +++ GetRegName rs2
  else if (bitcrop ir 3 10 =? 7) && (bitcrop ir 2 5 =? 1) then
    lit "C.ADDW " +++ GetRegName rd +++ lit ", " +++ GetRegName rs2
  else if (bitcrop ir 3 10 =? 7) && (bitcrop ir 2 5 =? 0) then
    lit "C.SUBW " +++ GetRegName rd +++ lit ", " +++ GetRegName rs2
  else if bitcrop ir 2 10 =? 1 then lit "C.SRAI " +++ GetRegName rd +++ lit ", " +++ NumberToHex imm
  else if bitcrop ir 2 10 =? 0 then lit "C.SRLI " +++ GetRegName rd +++ lit ", " +++ NumberToHex imm
  else if bitcrop ir 2 10 =? 2 then
    lit "C.ANDI " +++ GetRegName rd +++ lit ", " +++ NumberToHex (SignExtend_int32 imm 6)
  else cmd.

(** The case of [C.SW] has no [break]: it falls through to that of [C.BEQZ]. *)
(* Disassembler.cpp:30-141 Disassemble16 *)
Definition Disassemble16 (ir mxl : Z) : res string :=
  let cmd := lit "Unsupported C Instruction" in
  let d := GetCode16 ir mxl in
  let rd := rd_out d in let rs1 := rs1_out d in let rs2 := rs2_out d in let imm := imm_out d in
  let opcode := u16 (u32 (bitcrop ir 3 13 <<. 2) .| bitcrop ir 2 0) in
  if opcode =? 0x0 then lit "C.ADDI4SPN " +++ GetRegName rd +++ lit ", SP, " +++ NumberToHex imm
  else if opcode =? 0x1 then lit "C.ADDI " +++ GetRegName rd +++ lit ", " +++ NumberToHex imm
  else if opcode =? 0x2 then lit "C.SLLI " +++ GetRegName rd +++ lit ", " +++ NumberToHex imm
  else if opcode =? 0x5 then
    if mxl =? 1 then lit "C.JAL " +++ NumberToHex (SignExtend_int32 imm 12)
    else lit "C.ADDIW " +++ GetRegName rd +++ lit ", " +++ NumberToHex imm
  else if opcode =? 0x8 then
    lit "C.LW " +++ GetRegName rd +++ lit ", " +++ NumberToHex imm +++ lit "(" +++ GetRegName rs1 +++ lit ")"
  else if opcode =? 0x9 then lit "C.LI " +++ GetRegName rd +++ lit ", " +++ NumberToHex imm
  else if opcode =? 0xA then lit "C.LWSP " +++ GetRegName rd +++ lit ", " +++ NumberToHex imm +++ lit "(SP)"
  else if opcode =? 0xC then
    lit "C.LD " +++ GetRegName rd +++ lit ", " +++ NumberToHex imm +++ lit "(" +++ GetRegName rs1 +++ lit ")"
  else if opcode =? 0xD then
    if bitcrop ir 5 7 =? 2 then lit "C.ADDI16SP SP, SP, " +++ NumberToHex imm
    else lit "C.LUI " +++ GetRegName rd +++ lit ", " +++ NumberToHex imm
  else if opcode =? 0xE then lit "C.LDSP " +++ GetRegName rd +++ lit ", " +++ NumberToHex imm +++ lit "(SP)"
  else if opcode =? 0x12 then text_cr ir rd rs1 rs2 cmd
  else if opcode =? 0x11 then text_arith ir rd rs2 imm cmd
  else if opcode =? 0x15 then lit "C.J " +++ NumberToHex (SignExtend_int32 imm 12)
  else if (opcode =? 0x18) || (opcode =? 0x19) then
    lit "C.BEQZ " +++ GetRegName rs1 +++ lit ", " +++ NumberToHex (SignExtend_int32 imm 9)
  else if opcode =? 0x1A then lit "C.SWSP " +++ GetRegName rs2 +++ lit ", " +++ NumberToHex imm +++ lit "(SP)"
  else if opcode =? 0x1C then
    lit "C.SD " +++ GetRegName rs2 +++ lit ", " +++ NumberToHex imm +++ lit "(" +++ GetRegName rs1 +++ lit ")"
  else if opcode =? 0x1D then
    lit "C.BNEZ " +++ GetRegName rs1 +++ lit ", " +++ NumberToHex (SignExtend_int32 imm 9)
  else if opcode =? 0x1E then lit "C.SDSP " +++ GetRegName rs2 +++ lit ", " +++ NumberToHex imm +++ lit "(SP)"
  else cmd.

(* ------------------------------------------------------------------ *)
(** ** 32-bit instructions: the mnemonics *)

(* Disassembler.cpp:162-205 Disassemble *)
Definition name_ARITHLOG (funct3 funct7 : Z) : string :=
  if (funct7 =? FUNC_NORM) || (funct7 =? FUNC_ALT) then
    if funct3 =? FUNC3_ADDSUB then if funct7 =? FUNC_NORM then "ADD" else "SUB"
    else if funct3 =? FUNC3_AND then "AND"
    else if funct3 =? FUNC3_OR then "OR"
    else if funct3 =? FUNC3_XOR then "XOR"
    else if funct3 =? FUNC3_SR then
      if funct7 =? FUNC_NORM then "SRL"
      else if funct7 =? FUNC_ALT then "SRA" else "UNDEF"
    else if funct3 =? FUNC3_SL then "SLL"
    else if funct3 =? FUNC3_SLT then "SLT"
    else if funct3 =? FUNC3_SLTU then "SLTU"
    else "UNDEF"
  else if funct7 =? FUNC_MULT then
    if funct3 =? FUNC3_MUL then "MUL"
    else if funct3 =? FUNC3_MULH then "MULH"
    else if funct3 =? FUNC3_MULHSU then "MULHSU"
    else if funct3 =? FUNC3_MULHU then "MULHU"
    else if funct3 =? FUNC3_DIV then "DIV"
    else if funct3 =? FUNC3_DIVU then "DIVU"
    else if funct3 =? FUNC3_REM then "REM"
    else if funct3 =? FUNC3_REMU then "REMU"
    else "UNDEF"
  else "UNDEF".

(* Disassembler.cpp:206-232 Disassemble *)
Definition name_ARITHLOG_64 (funct3 funct7 : Z) : string :=
  if (funct7 =? FUNC_NORM) || (funct7 =? FUNC_ALT) then
    if funct3 =? FUNC3_ADDSUB then if funct7 =? FUNC_NORM then "ADDW" else "SUBW"
    else if funct3 =? FUNC3_SL then "SLLW"
    else if funct3 =? FUNC3_SR then
      if funct7 =? FUNC_NORM then "SRLW"
      else if funct7 =? FUNC_ALT then "SRAW" else "UNDEF"
    else "UNDEF"
  else if funct7 =? FUNC_MULT then
    if funct3 =? FUNC3_MUL then "MULW"
    else if funct3 =? FUNC3_DIVU then "DIVUW"
    else if funct3 =? FUNC3_DIV then "DIVW"
    else if funct3 =? FUNC3_REMU then "REMUW"
    else if funct3 =? FUNC3_REM then "REMW"
    else "UNDEF"
  else "UNDEF".

(* Disassembler.cpp:236-258 Disassemble *)
Definition name_ARITHLOG_I (funct3 funct7 : Z) : string :=
  if funct3 =? FUNC3_ADDSUB then "ADDI"
  else if funct3 =? FUNC3_AND then "ANDI"
  else if funct3 =? FUNC3_OR then "ORI"
  else if funct3 =? FUNC3_XOR then "XORI"
  else if funct3 =? FUNC3_SL then "SLLI"
  else if funct3 =? FUNC3_SR then
    if (funct7 >>. 1) =? 0 then "SRLI"
    else if (funct7 >>. 1) =? 0x10 then "SRAI" else "UNDEF"
  else if funct3 =? FUNC3_SLT then "SLTI"
  else if funct3 =? FUNC3_SLTU then "SLTIU"
  else "UNDEF".

(* Disassembler.cpp:262-273 Disassemble *)
Definition name_ARITHLOG_I64 (funct3 funct7 : Z) : string :=
  if funct3 =? FUNC3_ADDSUB then "ADDIW"
  else if funct3 =? FUNC3_SL then "SLLIW"
  else if funct3 =? FUNC3_SR then
    if (funct7 >>. 1) =? 0 then "SRLIW"
    else if (funct7 >>. 1) =? 0x10 then "SRAIW" else "UNDEF"
  else "UNDEF".

(* Disassembler.cpp:277-290 Disassemble *)
Definition name_B (funct3 : Z) : string :=
  if funct3 =? FUNC3_BEQ then "BEQ"
  else if funct3 =? FUNC3_BLT then "BLT"
  else if funct3 =? FUNC3_BLTU then "BLTU"
  else if funct3 =? FUNC3_BGE then "BGE"
  else if funct3 =? FUNC3_BGEU then "BGEU"
  else if funct3 =? FUNC3_BNE then "BNE"
  else "UNDEF".

(* Disassembler.cpp:303-318 Disassemble *)
Definition name_LD (funct3 : Z) : string :=
  if funct3 =? FUNC3_LSB then "LB"
  else if funct3 =? FUNC3_LSBU then "LBU"
  else if funct3 =? FUNC3_LSH then "LH"
  else if funct3 =? FUNC3_LSHU then "LHU"
  else if funct3 =? FUNC3_LSW then "LW"
  else if funct3 =? FUNC3_LSWU then "LWU"
  else if funct3 =? FUNC3_LSD then "LD"
  else "UNDEF".

(* Disassembler.cpp:322-331 Disassemble *)
Definition name_S (funct3 : Z) : string :=
  if funct3 =? FUNC3_LSB then "SB"
  else if funct3 =? FUNC3_LSH then "SH"
  else if funct3 =? FUNC3_LSW then "SW"
  else if funct3 =? FUNC3_LSD then "SD"
  else "UNDEF".

(* Disassembler.cpp:344-357 Disassemble *)
Definition name_SYSTEM (imm12 rd : Z) : string :=
  if imm12 =? 0 then "ECALL"
  else if imm12 =? 1 then "EBREAK"
  else if imm12 =? 0x302 then "MRET"
  else if imm12 =? 0x102 then "SRET"
  else if ((imm12 >>. 5) =? 9) && (rd =? 0) then "sfence.vma"
  else "Undefined System Instruction".

(* Disassembler.cpp:359-371 Disassemble *)
Definition name_CSR (funct3 : Z) : string :=
  if funct3 =? FUNC3_CSRRC then "CSRRC"
  else if funct3 =? FUNC3_CSRRCI then "CSRRCI"
  else if funct3 =? FUNC3_CSRRS then "CSRRS"
  else if funct3 =? FUNC3_CSRRSI then "CSRRSI"
  else if funct3 =? FUNC3_CSRRW then "CSRRW"
  else if funct3 =? FUNC3_CSRRWI then "CSRRWI"
  else "UNDEF".

(* Disassembler.cpp:377-381 Disassemble *)
Definition name_FENCE (funct3 : Z) : string :=
  if funct3 =? FUNC3_FENCEI then "FENCEI"
  else if funct3 =? FUNC3_FENCE then "FENCE"
  else "UNDEF".

(** The code writes "AMOMAIN.W" for AMOMINU.W. *)
(* Disassembler.cpp:384-402 Disassemble *)
Definition name_AMO (funct3 funct5 : Z) : string :=
  let d := funct3 =? FUNC3_AMOD in
  if funct5 =? FUNC5_AMOADD then if d then "AMOADD.D" else "AMOADD.W"
  else if funct5 =? FUNC5_AMOAND then if d then "AMOAND.D" else "AMOAND.W"
  else if funct5 =? FUNC5_AMOMAX then if d then "AMOMAX.D" else "AMOMAX.W"
  else if funct5 =? FUNC5_AMOMAXU then if d then "AMOMAXU.D" else "AMOMAXU.W"
  else if funct5 =? FUNC5_AMOMIN then if d then "AMOMIN.D" else "AMOMIN.W"
  else if funct5 =? FUNC5_AMOMINU then if d then "AMOMINU.D" else "AMOMAIN.W"
  else if funct5 =? FUNC5_AMOOR then if d then "AMOOR.D" else "AMOOR.W"
  else if funct5 =? FUNC5_AMOXOR then if d then "AMOXOR.D" else "AMOXOR.W"
  else if funct5 =? FUNC5_AMOSWAP then if d then "AMOSWAP.D" else "AMOSWAP.W"
  else "UNDEF".

(** The default argument [mxl = 1] is the caller's. *)
(* Disassembler.cpp:143-411 Disassemble *)
Definition Disassemble (ir mxl : Z) : res string :=
  let opcode := u16 (bitcrop ir 7 0) in
  if negb ((opcode .& 3) =? 3) then Disassemble16 ir mxl
  else
    let funct3 := u8 (bitcrop ir 3 12) in
    let funct7 := u8 (bitcrop ir 7 25) in
    let funct5 := u8 (funct7 >>. 2) in
    let rd := GetRd ir in
    let rs1 := GetRs1 ir in
    let rs2 := GetRs2 ir in
    let imm12 := s16 (GetImm12 ir) in
    let csr := s16 (GetCsr ir) in
    let imm13 := s16 (GetImm13 ir) in
    let imm21 := GetImm21 ir in
    let imm12_stype := s16 (GetStypeImm12 ir) in
    let imm20 := s32 (GetImm20 ir) in
    let r_type cmd := lit cmd +++ lit " " +++ GetRegName rd +++ lit ", " +++ GetRegName rs1 +++ lit ", " +++ GetRegName rs2 in
    let i_type cmd := lit cmd +++ lit " " +++ GetRegName rd +++ lit ", " +++ GetRegName rs1 +++ lit ", " +++ NumberToHex imm12 in
    if opcode =? OPCODE_ARITHLOG then r_type (name_ARITHLOG funct3 funct7)
    else if opcode =? OPCODE_ARITHLOG_64 then r_type (name_ARITHLOG_64 funct3 funct7)
    else if opcode =? OPCODE_ARITHLOG_I then i_type (name_ARITHLOG_I funct3 funct7)
    else if opcode =? OPCODE_ARITHLOG_I64 then i_type (name_ARITHLOG_I64 funct3 funct7)
    else if opcode =? OPCODE_B then
      lit (name_B funct3) +++ lit " " +++ GetRegName rs1 +++ lit ", " +++ GetRegName rs2 +++ lit ", " +++ NumberToHex imm13
    else if opcode =? OPCODE_J then lit "JAL " +++ GetRegName rd +++ lit ", " +++ NumberToHex imm21
    else if opcode =? OPCODE_JALR then
      if funct3 =? FUNC3_JALR then
        lit "JALR " +++ GetRegName rd +++ lit ", " +++ NumberToHex imm12 +++ lit "(" +++ GetRegName rs1 +++ lit ")"
      else lit "UNDEF"
    else if opcode =? OPCODE_LD then
      lit (name_LD funct3) +++ lit " " +++ GetRegName rd +++ lit ", " +++ NumberToHex imm12 +++ lit "(" +++ GetRegName rs1 +++ lit ")"
    else if opcode =? OPCODE_S then
      lit (name_S funct3) +++ lit " " +++ GetRegName rs2 +++ lit ", " +++ NumberToHex imm12_stype +++ lit "(" +++ GetRegName rs1 +++ lit ")"
    else if opcode =? OPCODE_LUI then lit "LUI" +++ lit " " +++ GetRegName rd +++ lit ", " +++ NumberToHex imm20 +++ lit " << 12"
    else if opcode =? OPCODE_AUIPC then lit "AUIPC" +++ lit " " +++ GetRegName rd +++ lit ", " +++ NumberToHex imm20 +++ lit " << 12"
    else if opcode =? OPCODE_SYSTEM then
      if funct3 =? FUNC3_SYSTEM then lit (name_SYSTEM imm12 rd)
      else lit (name_CSR funct3) +++ lit " " +++ GetRegName rd +++ lit ", " +++ NumberToHex csr +++ lit ", " +++ GetRegName rs1
    else if opcode =? OPCODE_FENCE then lit (name_FENCE funct3)
    else if opcode =? OPCODE_AMO then
      lit (name_AMO funct3 funct5) +++ lit " " +++ GetRegName rd +++ lit ", " +++ GetRegName rs2 +++ lit ", (" +++ GetRegName rs1 +++ lit ")"
    else lit "Undefined instruction".

(* ------------------------------------------------------------------ *)
(** ** Agreement with the decoder *)

(** The assembler's name of an instruction; "UNDEF" for none.  [INST_SYSTEM] stands
    for several instructions. *)
Definition mnemonic (i : instruction) : string :=
  match i with
  | INST_ERROR => "UNDEF" | INST_ADD => "ADD" | INST_ADDW => "ADDW" | INST_AND => "AND" | INST_SUB => "SUB"
  | INST_SUBW => "SUBW" | INST_OR => "OR" | INST_XOR => "XOR" | INST_SLL => "SLL" | INST_SLLW => "SLLW"
  | INST_SRL => "SRL" | INST_SRLW => "SRLW" | INST_SRA => "SRA" | INST_SRAW => "SRAW" | INST_SLT => "SLT"
  | INST_SLTU => "SLTU" | INST_ADDI => "ADDI" | INST_ADDIW => "ADDIW" | INST_ANDI => "ANDI" | INST_ORI => "ORI"
  | INST_XORI => "XORI" | INST_SLLI => "SLLI" | INST_SLLIW => "SLLIW" | INST_SRLI => "SRLI" | INST_SRLIW => "SRLIW"
  | INST_SRAI => "SRAI" | INST_SRAIW => "SRAIW" | INST_SLTI => "SLTI" | INST_SLTIU => "SLTIU" | INST_BEQ => "BEQ"
  | INST_BGE => "BGE" | INST_BGEU => "BGEU" | INST_BLT => "BLT" | INST_BLTU => "BLTU" | INST_BNE => "BNE"
  | INST_JAL => "JAL" | INST_JALR => "JALR" | INST_LB => "LB" | INST_LBU => "LBU" | INST_LH => "LH"
  | INST_LHU => "LHU" | INST_LW => "LW" | INST_LWU => "LWU" | INST_LD => "LD" | INST_SB => "SB" | INST_SH => "SH"
  | INST_SW => "SW" | INST_SD => "SD" | INST_LUI => "LUI" | INST_AUIPC => "AUIPC" | INST_SYSTEM => "SYSTEM"
  | INST_CSRRC => "CSRRC" | INST_CSRRCI => "CSRRCI" | INST_CSRRS => "CSRRS" | INST_CSRRSI => "CSRRSI"
  | INST_CSRRW => "CSRRW" | INST_CSRRWI => "CSRRWI" | INST_FENCE => "FENCE" | INST_FENCEI => "FENCEI"
  | INST_MUL => "MUL" | INST_MULH => "MULH" | INST_MULHSU => "MULHSU" | INST_MULHU => "MULHU" | INST_MULW => "MULW"
  | INST_DIV => "DIV" | INST_DIVU => "DIVU" | INST_DIVUW => "DIVUW" | INST_DIVW => "DIVW" | INST_REM => "REM"
  | INST_REMU => "REMU" | INST_REMUW => "REMUW" | INST_REMW => "REMW" | INST_AMOADDD => "AMOADD.D"
  | INST_AMOADDW => "AMOADD.W" | INST_AMOANDD => "AMOAND.D" | INST_AMOANDW => "AMOAND.W" | INST_AMOMAXD => "AMOMAX.D"
  | INST_AMOMAXW => "AMOMAX.W" | INST_AMOMAXUD => "AMOMAXU.D" | INST_AMOMAXUW => "AMOMAXU.W"
  | INST_AMOMIND => "AMOMIN.D" | INST_AMOMINW => "AMOMIN.W" | INST_AMOMINUD => "AMOMINU.D"
  | INST_AMOMINUW => "AMOMINU.W" | INST_AMOORD => "AMOOR.D" | INST_AMOORW => "AMOOR.W" | INST_AMOXORD => "AMOXOR.D"
  | INST_AMOXORW => "AMOXOR.W" | INST_AMOSWAPD => "AMOSWAP.D" | INST_AMOSWAPW => "AMOSWAP.W"
  end.

(** The text is built. *)
Definition written (t : res string) : Prop := exists s, t = Ok s.

(** It is a name, alone or followed by a space and more. *)
Definition begins (name : string) (t : res string) : Prop :=
  exists rest, t = Ok (name ++ rest) /\ (rest = "" \/ exists r, rest = " " ++ r).

Lemma written_cat a b : written a -> written b -> written (a +++ b).
Proof. intros [x ->] [y ->]. by eexists. Qed.

Lemma written_lit s : written (lit s).
Proof. by eexists. Qed.

Lemma written_hex n : written (NumberToHex n).
Proof. by eexists. Qed.

Lemma written_reg r : in_u 5 r -> written (GetRegName r).
Proof.
  intros Hr. unfold GetRegName. destruct (Z.ltb_spec r 0); [unfold in_u in Hr; lia |].
  assert (Hk : (Z.to_nat r < 32)%nat) by (unfold in_u in Hr; lia). revert Hk. generalize (Z.to_nat r). intros k Hk.
  do 32 (destruct k as [|k]; [by eexists |]). lia.
Qed.

Lemma append_nil s : s ++ "" = s.
Proof. induction s as [|c s IH]; [done | exact (f_equal (String c) IH)]. Qed.

Lemma begins_lit name : begins name (lit name).
Proof. exists "". split; [| by left]. unfold lit. by rewrite append_nil. Qed.

Lemma begins_cat name t : written t -> begins name (lit name +++ lit " " +++ t).
Proof. intros [s ->]. exists (" " ++ s). split; [done | eauto]. Qed.

(** The space may be part of the first piece. *)
Lemma begins_glued name s t : s = name ++ " " -> written t -> begins name (lit s +++ t).
Proof.
  intros -> [r ->]. exists (" " ++ r). split; [| eauto]. unfold cat, lit. cbn. f_equal.
  induction name as [|c name IH]; [done | exact (f_equal (String c) IH)].
Qed.

Create HintDb text.
#[local] Hint Resolve begins_glued written_cat written_lit written_hex written_reg begins_lit begins_cat : text.

(** The name of the instruction the decoder finds: its mnemonic, which for the
    privileged instructions the immediate tells apart. *)
Definition shown (ir : Z) : string :=
  match GetCode32 ir with
  | INST_ERROR => if bool_decide (bitcrop ir 7 0 ∈ Manual.major_opcodes) then "UNDEF" else "Undefined instruction"
  | INST_SYSTEM => name_SYSTEM (s16 (GetImm12 ir)) (GetRd ir)
  | i => mnemonic i
  end.

Lemma written16 ir mxl : written (Disassemble16 ir mxl).
Proof.
  destruct (GetCode16_ok ir mxl) as [H1 H2 H3 _ _ _]. unfold Disassemble16, text_cr, text_arith. cbv zeta.
  repeat match goal with |- written (if ?b then _ else _) => destruct b end; auto 12 with text.
Qed.

Lemma low_bits ir : u16 (bitcrop ir 7 0) .& 3 = bitcrop ir 2 0.
Proof.
  change 3 with (Z.ones 2). rewrite Z.land_ones, !bitcrop_spec by lia. unfold uint. rewrite Z.div_1_r. zlia.
Qed.

(** What is printed: the same, one misspelling apart. *)
Definition printed (ir : Z) : string :=
  match GetCode32 ir with INST_AMOMINUW => "AMOMAIN.W" | _ => shown ir end.

Lemma printed_shown ir : GetCode32 ir <> INST_AMOMINUW -> printed ir = shown ir.
Proof. unfold printed. by destruct (GetCode32 ir). Qed.

Lemma Disassemble_begins ir mxl : bitcrop ir 2 0 = 3 -> begins (printed ir) (Disassemble ir mxl).
Proof.
  intros Hlow. pose proof (decode32_ok ir) as [Hrd Hrs1 Hrs2 _ _ _]. cbn [rd_out rs1_out rs2_out] in Hrd, Hrs1, Hrs2.
  unfold Disassemble, printed, shown, GetCode32. cbv zeta. rewrite low_bits, Hlow. cbn [Z.eqb Pos.eqb negb].
  rewrite !(uint_small 16) by (apply (in_u_mono 7); [lia | apply bitcrop_range; lia]).
  repeat match goal with
  | |- context [if bitcrop ir 7 0 =? ?op then _ else _] =>
      let E := fresh "E" in destruct (Z.eqb_spec (bitcrop ir 7 0) op) as [E|];
      [ try rewrite (bool_decide_true (bitcrop ir 7 0 ∈ _)) by (rewrite E; decide_it);
        unfold name_ARITHLOG, name_ARITHLOG_64, name_ARITHLOG_I, name_ARITHLOG_I64, name_B, name_LD, name_S, name_CSR,
          name_FENCE, name_AMO, code_ARITHLOG, code_ARITHLOG_64, code_ARITHLOG_I, code_ARITHLOG_I64, code_B, code_LD,
          code_S, code_SYSTEM, code_FENCE, code_AMO; cbv zeta;
        repeat match goal with |- context [if ?b then _ else _] => destruct b end; solve [auto 12 with text] |]
  end.
  rewrite bool_decide_false; [apply begins_lit |]. intros Hin. unfold Manual.major_opcodes in Hin.
  repeat (apply elem_of_cons in Hin as [Hin | Hin];
    [match goal with N : bitcrop ir 7 0 <> _ |- _ => exact (N Hin) end |]).
  by apply elem_of_nil in Hin.
Qed.

(** C34: the disassembler agrees with the decoder, one instruction apart.  Every word
    has a text: no register name outside the table is ever looked up.  A 32-bit
    instruction other than AMOMINU.W has a text that begins with the name of the
    instruction [GetCode32] decodes, alone or followed by its operands, and exactly
    the words the decoder rejects are shown as undefined.  AMOMINU.W is the exception:
    its text begins with AMOMAIN.W, which is the name of no instruction. *)
Theorem Disassemble_agrees (ir mxl : Z) :
  written (Disassemble ir mxl) /\
  (bitcrop ir 2 0 = 3 ->
    (GetCode32 ir <> INST_AMOMINUW -> begins (shown ir) (Disassemble ir mxl)) /\
    (GetCode32 ir = INST_AMOMINUW -> begins "AMOMAIN.W" (Disassemble ir mxl))).
Proof.
  split; [| intros Hlow; pose proof (Disassemble_begins ir mxl Hlow) as Hb; split; intros Hc].
  - destruct (decide (bitcrop ir 2 0 = 3)) as [E|E].
    + destruct (Disassemble_begins ir mxl E) as (rest & -> & _). by eexists.
    + unfold Disassemble. cbv zeta. rewrite low_bits. destruct (Z.eqb_spec (bitcrop ir 2 0) 3); [done | apply written16].
  - by rewrite <- printed_shown.
  - unfold printed in Hb. by rewrite Hc in Hb.
Qed.

(** sraw a1, s11, t6 (and its decoding), a word of an unassigned major opcode, and
    amominu.w a0, a1, (a2). *)
Lemma Disassemble_agrees_witness :
  begins "SRAW" (Disassemble 0x41FDD5BB 2) /\ begins "Undefined instruction" (Disassemble 0x7F 2) /\
  begins "AMOMAIN.W" (Disassemble 0xC0B6252F 2).
Proof.
  split; [| split].
  - apply (proj2 (Disassemble_agrees 0x41FDD5BB 2)); [reflexivity | discriminate].
  - apply (proj2 (Disassemble_agrees 0x7F 2)); [reflexivity | discriminate].
  - apply (proj2 (Disassemble_agrees 0xC0B6252F 2)); reflexivity.
Defined.

Example sample_text : Disassemble 0x41FDD5BB 2 = Ok "SRAW A1, S11, T6".
Proof. reflexivity. Qed.
