(* ===== verification/Peripheral.v ===== *)
(** * PeripheralEmulator.h/.cpp, ScreenEmulation.h/.cpp: the devices

    Host interface (tohost), UART over an ncurses screen, timer and virtio disk.
    [Module Screen] is ScreenEmulation, [Module Peripheral] PeripheralEmulator,
    whose methods run on the pair of the object and the guest memory it points
    to.  What ncurses' [getch] will return and what [addch] was given are part of
    the screen's state.  Diagnostics on cerr/cout are not modelled. *)

From S2P Require Import Prelude BitTools Memory Isa.

Module Screen.

(** The keys [getch] will return, one per call ([ERR] when there is none), and
    the characters shown so far, last first. *)
(* ScreenEmulation.h:10-27 ScreenEmulation *)
Record t : Type := mk {
  counter_ : Z;
  key_value_ : Z;
  key_valid_ : bool;
  keys : list Z;
  shown : list Z
}.

#[global] Instance t_settable : Settable t := fun x => mk (counter_ x) (key_value_ x)
  (key_valid_ x) (keys x) (shown x).
#[global] Instance set_counter_ : Setter counter_ := ltac:(mk_setter counter_).
#[global] Instance set_key_value_ : Setter key_value_ := ltac:(mk_setter key_value_).
#[global] Instance set_key_valid_ : Setter key_valid_ := ltac:(mk_setter key_valid_).
#[global] Instance set_keys : Setter keys := ltac:(mk_setter keys).
#[global] Instance set_shown : Setter shown := ltac:(mk_setter shown).

(* ScreenEmulation.h:20-20 kThreshold *)
Definition kThreshold : Z := 1000.

(** ncurses: [ERR], [KEY_BACKSPACE] and [KEY_DC]. *)
(* Windows/ncurses.h:81-81 ERR *)
Definition ERR : Z := -1.
(* Windows/ncurses.h:629-629 KEY_BACKSPACE *)
Definition KEY_BACKSPACE : Z := 0x107.
(* Windows/ncurses.h:634-634 KEY_DC *)
Definition KEY_DC : Z := 0x14A.

(** A new screen; [key_value_] has no initial value and is not read before it is
    set. *)
(* ScreenEmulation.cpp:8-10 ScreenEmulation::ScreenEmulation *)
Definition init (input : list Z) : t := mk 0 0 false input [].

(** [getch()] with [nodelay]: the next key, or [ERR]. *)
Definition getch (s : t) : Z * t :=
  match keys s with [] => (ERR, s) | c :: k => (c, s <| keys := k |>) end.

(* ScreenEmulation.cpp:35-51 ScreenEmulation::CheckInput *)
Definition CheckInput (s : t) : bool * t :=
  let s := s <| counter_ := s32 (counter_ s + 1) |> in
  if counter_ s <? kThreshold then (key_valid_ s, s)
  else
    let s := s <| counter_ := 0 |> in
    if key_valid_ s then (key_valid_ s, s)
    else
      let '(c, s) := getch s in
      if c =? ERR then (key_valid_ s, s)
      else (true, s <| key_value_ := c |> <| key_valid_ := true |>).

(* ScreenEmulation.cpp:53-56 ScreenEmulation::GetKeyValue *)
Definition GetKeyValue (s : t) : Z * t := (key_value_ s, s <| key_valid_ := false |>).

(* ScreenEmulation.cpp:58-61 ScreenEmulation::putchar *)
Definition putchar (c : Z) (s : t) : t := s <| shown := c :: shown s |>.

End Screen.

(** [std::vector<uint8_t>]: its size and its bytes; an index out of range is
    undefined behaviour. *)
Record disk : Type := mk_disk { size : Z; bytes : zvec }.

Definition disk_get (d : disk) (i : Z) : res Z :=
  if (0 <=? i) && (i <? size d) then Ok (zget (bytes d) i) else Err Undefined.
Definition disk_set (d : disk) (i v : Z) : res disk :=
  if (0 <=? i) && (i <? size d) then Ok (mk_disk (size d) (zset (bytes d) i v)) else Err Undefined.

Module Peripheral.

(* PeripheralEmulator.h:16-21 VRingDesc *)
Record VRingDesc : Type := mk_desc { addr : Z; len : Z; flags : Z; next : Z }.

(* PeripheralEmulator.h:28-32 virtio_blk_outhdr *)
Record virtio_blk_outhdr : Type := mk_outhdr { type : Z; reserved : Z; sector : Z }.

(* PeripheralEmulator.h:25-25 kPlicAddress *)
Definition kPlicAddress : Z := 0x0c000000.
(* PeripheralEmulator.h:26-26 kPlicClaimAddress *)
Definition kPlicClaimAddress : Z := kPlicAddress + 0x201004.

(* PeripheralEmulator.h:38-38 kToHost0 *)
Definition kToHost0 : Z := 0x80001000.
(* PeripheralEmulator.h:39-39 kToHost1 *)
Definition kToHost1 : Z := 0x80003000.
(* PeripheralEmulator.h:43-43 kUartBase *)
Definition kUartBase : Z := 0x10000000.
(* PeripheralEmulator.h:45-45 kUartLsrReady *)
Definition kUartLsrReady : Z := 1.
(* PeripheralEmulator.h:46-46 kUartRhr *)
Definition kUartRhr : Z := kUartBase.
(* PeripheralEmulator.h:47-47 kUartLsr *)
Definition kUartLsr : Z := kUartBase + 5.
(* PeripheralEmulator.h:50-50 kTimerBase *)
Definition kTimerBase : Z := 0x2000000.
(* PeripheralEmulator.h:51-51 kTimerCmp *)
Definition kTimerCmp : Z := kTimerBase + 0x4000.
(* PeripheralEmulator.h:52-52 kTimerMtime *)
Definition kTimerMtime : Z := kTimerBase + 0xbff8.
(* PeripheralEmulator.h:55-55 kQueueNumMax *)
Definition kQueueNumMax : Z := 8.
(* PeripheralEmulator.h:56-56 kVirtioBase *)
Definition kVirtioBase : Z := 0x10001000.
(* PeripheralEmulator.h:57-57 kVirtioEnd *)
Definition kVirtioEnd : Z := kVirtioBase + 0x100 - 1.
(* PeripheralEmulator.h:58-58 kVirtioMmioPageSize *)
Definition kVirtioMmioPageSize : Z := kVirtioBase + 0x28.
(* PeripheralEmulator.h:59-59 kVirtioMmioQueueSel *)
Definition kVirtioMmioQueueSel : Z := kVirtioBase + 0x30.
(* PeripheralEmulator.h:60-60 kVirtioMmioQueueMax *)
Definition kVirtioMmioQueueMax : Z := kVirtioBase + 0x34.
(* PeripheralEmulator.h:61-61 kVirtioMmioQueueNum *)
Definition kVirtioMmioQueueNum : Z := kVirtioBase + 0x38.
(* PeripheralEmulator.h:62-62 kVirtioMmioQueuePfn *)
Definition kVirtioMmioQueuePfn : Z := kVirtioBase + 0x40.
(* PeripheralEmulator.h:63-63 kVirtioMmioQueueNotify *)
Definition kVirtioMmioQueueNotify : Z := kVirtioBase + 0x50.
(* PeripheralEmulator.h:137-137 kSectorSize *)
Definition kSectorSize : Z := 512.

(** [scr_emulation] and [disk_image_] are pointers, null until set. *)
(* PeripheralEmulator.h:108-144 PeripheralEmulator *)
Record t : Type := mk {
  mxl_ : Z;
  (* host interface *)
  host_emulation_enable_ : bool;
  host_write_ : Z;
  host_value_ : Z;
  end_flag_ : bool;
  error_flag_ : bool;
  (* UART *)
  device_emulation_enable : bool;
  uart_write_ : bool;
  uart_read_ : bool;
  uart_full_ : bool;
  uart_write_value_ : Z;
  uart_interrupt_ : bool;
  uart_break_ : bool;
  scr_emulation : option Screen.t;
  (* timer *)
  elapsed_cycles_ : Z;
  next_cycle_ : Z;
  timercmp_update_ : bool;
  timer_interrupt_ : bool;
  (* virtio disk *)
  disk_image_ : option disk;
  virtio_write_ : bool;
  virtio_address_ : Z;
  virtio_width_ : Z;
  virtio_data_ : Z;
  queue_num_ : Z;
  virtio_interrupt_ : bool
}.

#[global] Instance t_settable : Settable t := fun x => mk (mxl_ x) (host_emulation_enable_ x)
  (host_write_ x) (host_value_ x) (end_flag_ x) (error_flag_ x) (device_emulation_enable x)
  (uart_write_ x) (uart_read_ x) (uart_full_ x) (uart_write_value_ x) (uart_interrupt_ x)
  (uart_break_ x) (scr_emulation x) (elapsed_cycles_ x) (next_cycle_ x) (timercmp_update_ x)
  (timer_interrupt_ x) (disk_image_ x) (virtio_write_ x) (virtio_address_ x) (virtio_width_ x)
  (virtio_data_ x) (queue_num_ x) (virtio_interrupt_ x).
#[global] Instance set_mxl_ : Setter mxl_ := ltac:(mk_setter mxl_).
#[global] Instance set_host_emulation_enable_ : Setter host_emulation_enable_ := ltac:(mk_setter host_emulation_enable_).
#[global] Instance set_host_write_ : Setter host_write_ := ltac:(mk_setter host_write_).
#[global] Instance set_host_value_ : Setter host_value_ := ltac:(mk_setter host_value_).
#[global] Instance set_end_flag_ : Setter end_flag_ := ltac:(mk_setter end_flag_).
#[global] Instance set_error_flag_ : Setter error_flag_ := ltac:(mk_setter error_flag_).
#[global] Instance set_device_emulation_enable : Setter device_emulation_enable := ltac:(mk_setter device_emulation_enable).
#[global] Instance set_uart_write_ : Setter uart_write_ := ltac:(mk_setter uart_write_).
#[global] Instance set_uart_read_ : Setter uart_read_ := ltac:(mk_setter uart_read_).
#[global] Instance set_uart_full_ : Setter uart_full_ := ltac:(mk_setter uart_full_).
#[global] Instance set_uart_write_value_ : Setter uart_write_value_ := ltac:(mk_setter uart_write_value_).
#[global] Instance set_uart_interrupt_ : Setter uart_interrupt_ := ltac:(mk_setter uart_interrupt_).
#[global] Instance set_uart_break_ : Setter uart_break_ := ltac:(mk_setter uart_break_).
#[global] Instance set_scr_emulation : Setter scr_emulation := ltac:(mk_setter scr_emulation).
#[global] Instance set_elapsed_cycles_ : Setter elapsed_cycles_ := ltac:(mk_setter elapsed_cycles_).
#[global] Instance set_next_cycle_ : Setter next_cycle_ := ltac:(mk_setter next_cycle_).
#[global] Instance set_timercmp_update_ : Setter timercmp_update_ := ltac:(mk_setter timercmp_update_).
#[global] Instance set_timer_interrupt_ : Setter timer_interrupt_ := ltac:(mk_setter timer_interrupt_).
#[global] Instance set_disk_image_ : Setter disk_image_ := ltac:(mk_setter disk_image_).
#[global] Instance set_virtio_write_ : Setter virtio_write_ := ltac:(mk_setter virtio_write_).
#[global] Instance set_virtio_address_ : Setter virtio_address_ := ltac:(mk_setter virtio_address_).
#[global] Instance set_virtio_width_ : Setter virtio_width_ := ltac:(mk_setter virtio_width_).
#[global] Instance set_virtio_data_ : Setter virtio_data_ := ltac:(mk_setter virtio_data_).
#[global] Instance set_queue_num_ : Setter queue_num_ := ltac:(mk_setter queue_num_).
#[global] Instance set_virtio_interrupt_ : Setter virtio_interrupt_ := ltac:(mk_setter virtio_interrupt_).

(* PeripheralEmulator.cpp:14-14 PeripheralEmulator::PeripheralEmulator *)
Definition PeripheralEmulator (mxl : Z) : t :=
  mk mxl false 0 0 false false false false false false 0 false false None 0 0 true false
    None false 0 0 0 8 false.

(* PeripheralEmulator.cpp:18-18 PeripheralEmulator::SetDiskImage *)
Definition SetDiskImage (disk_image : option disk) (p : t) : t := p <| disk_image_ := disk_image |>.
(* PeripheralEmulator.cpp:20-20 PeripheralEmulator::SetHostEmulationEnable *)
Definition SetHostEmulationEnable (enable : bool) (p : t) : t := p <| host_emulation_enable_ := enable |>.
(* PeripheralEmulator.cpp:22-22 PeripheralEmulator::GetHostValue *)
Definition GetHostValue (p : t) : Z := host_value_ p.
(* PeripheralEmulator.cpp:24-24 PeripheralEmulator::GetHostErrorFlag *)
Definition GetHostErrorFlag (p : t) : bool := error_flag_ p.
(* PeripheralEmulator.cpp:26-26 PeripheralEmulator::GetHostEndFlag *)
Definition GetHostEndFlag (p : t) : bool := end_flag_ p.
(* PeripheralEmulator.h:91-91 SetDeviceEmulationEnable *)
Definition SetDeviceEmulationEnable (enable : bool) (p : t) : t := p <| device_emulation_enable := enable |>.
(* PeripheralEmulator.h:96-96 GetUartInterruptStatus *)
Definition GetUartInterruptStatus (p : t) : bool := uart_interrupt_ p.
(* PeripheralEmulator.h:97-97 ClearUartInterruptStatus *)
Definition ClearUartInterruptStatus (p : t) : t := p <| uart_interrupt_ := false |>.
(* PeripheralEmulator.h:98-98 GetUartBreak *)
Definition GetUartBreak (p : t) : bool := uart_break_ p.
(* PeripheralEmulator.h:104-104 GetInterruptStatus *)
Definition GetInterruptStatus (p : t) : bool := virtio_interrupt_ p.
(* PeripheralEmulator.h:105-105 ClearInterruptStatus *)
Definition ClearInterruptStatus (p : t) : t := p <| virtio_interrupt_ := false |>.
(* PeripheralEmulator.cpp:216-216 PeripheralEmulator::GetTimerInterrupt *)
Definition GetTimerInterrupt (p : t) : Z := Z.b2z (timer_interrupt_ p).
(* PeripheralEmulator.cpp:218-218 PeripheralEmulator::ClearTimerInterrupt *)
Definition ClearTimerInterrupt (p : t) : t := p <| timer_interrupt_ := false |>.

(* PeripheralEmulator.cpp:34-58 PeripheralEmulator::CheckDeviceWrite *)
Definition CheckDeviceWrite (address width data : Z) (p : t) : t :=
  let p :=
    if mxl_ p =? 1 then
      let p := p <| host_write_ := host_write_ p .| (if (address .& 0xFFFFFFFF) =? kToHost0 then 1 else 0) |> in
      p <| host_write_ := host_write_ p .| (if (address .& 0xFFFFFFFF) =? kToHost1 then 2 else 0) |>
    else
      let p := p <| host_write_ := host_write_ p .| (if address =? kToHost0 then 1 else 0) |> in
      p <| host_write_ := host_write_ p .| (if address =? kToHost1 then 2 else 0) |> in
  let p :=
    if (kUartBase <? u64 (address + width)) && (address <=? kUartBase) then
      let offset := u64 (kUartBase - address) in
      p <| uart_write_value_ := u8 ((data >>. (offset * 8)) .& 0xFF) |> <| uart_write_ := true |>
    else p in
  let p :=
    if (kVirtioBase <? u64 (address + width)) && (address <=? kVirtioEnd) then
      p <| virtio_address_ := address |> <| virtio_data_ := data |> <| virtio_width_ := width |>
        <| virtio_write_ := true |>
    else p in
  if (kTimerCmp <? u64 (address + width)) && (address <? kTimerCmp + 8) then
    p <| timercmp_update_ := true |>
  else p.

(* PeripheralEmulator.cpp:60-65 PeripheralEmulator::CheckDeviceRead *)
Definition CheckDeviceRead (address width : Z) (p : t) : t :=
  if (kUartBase <? u64 (address + width)) && (address <=? kUartBase) then p <| uart_read_ := true |> else p.

Section Methods.
  Context {M : Type} `{GuestMemory M}.

(** [memory_->ReadN(a)] and [memory_->WriteN(a, v)]. *)
Definition Read (w : width) (a : Z) : ST (t * M) Z := mem_get (fun m => mem_read w m a).
Definition Write (w : width) (a v : Z) : ST (t * M) unit := mem_put (fun m => mem_write w m a v).

(* PeripheralEmulator.cpp:67-67 PeripheralEmulator::MemoryMappedValueUpdate *)
Definition MemoryMappedValueUpdate : ST (t * M) unit :=
  e ← field elapsed_cycles_; Write W64 kTimerMtime e.

(* PeripheralEmulator.cpp:205-214 PeripheralEmulator::TimerTick *)
Definition TimerTick : ST (t * M) unit :=
  e ← field elapsed_cycles_;
  elapsed_cycles_ ::= u64 (e + 1);;
  update ← field timercmp_update_;
  when update (
    cmp ← Read W64 kTimerCmp;
    next_cycle_ ::= cmp;;
    timercmp_update_ ::= false);;
  e ← field elapsed_cycles_;
  n ← field next_cycle_;
  when (e =? n) (timer_interrupt_ ::= true).

(** Host interface. *)
(* PeripheralEmulator.cpp:80-138 PeripheralEmulator::HostEmulation *)
Definition HostEmulation : ST (t * M) unit :=
  hw ← field host_write_;
  mxl ← field mxl_;
  if hw =? 0 then mret tt
  else if negb ((hw .& 2) =? 0) then
    payload ← (if mxl =? 1 then Read W32 kToHost1 else Read W64 kToHost1);
    host_value_ ::= payload >>. 1;;
    host_write_ ::= 0;;
    end_flag_ ::= true
  else
    end_flag_ ::= false;;
    '(payload, device, command) ←
      (if mxl =? 1 then
         payload ← Read W32 kToHost0; mret (payload, 0, 0)
       else
         payload ← Read W64 kToHost0;
         mret (payload, u8 ((payload >>. 56) .& 0xFF), u32 ((payload >>. 48) .& 0x3FFFF)));
    (if device =? 0 then
       if command =? 0 then
         let value := payload .& 0xFFFFFFFFFFFF in
         if (value .& 1) =? 0 then mret tt
         else host_value_ ::= value >>. 1;; end_flag_ ::= true
       else error_flag_ ::= true;; end_flag_ ::= true
     else mret tt);;
    host_write_ ::= 0.

(* PeripheralEmulator.cpp:140-148 PeripheralEmulator::UartInit *)
Definition UartInit (input : list Z) : ST (t * M) unit :=
  isr ← Read W8 (kUartBase + 5);
  let isr := u8 (isr .| (1 <<. 5)) in
  Write W8 (kUartBase + 5) isr;;
  scr_emulation ::= Some (Screen.init input).

(* PeripheralEmulator.cpp:184-190 PeripheralEmulator::SetUartBuffer *)
Definition SetUartBuffer (key : Z) : ST (t * M) unit :=
  uart_lsr_status ← Read W8 kUartLsr;
  let uart_lsr_status := u8 (uart_lsr_status .| kUartLsrReady) in
  Write W8 kUartRhr (u8 key);;
  Write W8 kUartLsr uart_lsr_status;;
  uart_full_ ::= true.

(* PeripheralEmulator.cpp:192-197 PeripheralEmulator::ClearUartBuffer *)
Definition ClearUartBuffer : ST (t * M) unit :=
  uart_lsr_status ← Read W8 kUartLsr;
  let uart_lsr_status := u8 (uart_lsr_status .& Z.lnot kUartLsrReady) in
  Write W8 kUartLsr uart_lsr_status;;
  uart_full_ ::= false.

(* PeripheralEmulator.cpp:199-203 PeripheralEmulator::UartInterrupt *)
Definition UartInterrupt : ST (t * M) unit :=
  let kUartIrq := 10 in
  Write W32 kPlicClaimAddress kUartIrq;;
  uart_interrupt_ ::= true.

(** A call through [scr_emulation]; the pointer is null before [Initialize]. *)
Definition screen {A} (f : Screen.t -> A * Screen.t) : ST (t * M) A :=
  scr ← field scr_emulation;
  match scr with
  | None => raise Undefined
  | Some s => let '(a, s') := f s in scr_emulation ::= Some s';; mret a
  end.

(* PeripheralEmulator.cpp:149-182 PeripheralEmulator::UartEmulation *)
Definition UartEmulation : ST (t * M) unit :=
  write ← field uart_write_;
  when write (
    v ← field uart_write_value_;
    screen (fun s => (tt, Screen.putchar v s));;
    uart_write_ ::= false);;
  read ← field uart_read_;
  when read (
    ClearUartBuffer;;
    uart_read_ ::= false);;
  full ← field uart_full_;
  if full : bool then mret tt
  else
    input ← screen Screen.CheckInput;
    if negb input then mret tt
    else
      key_input ← screen Screen.GetKeyValue;
      key_input ←
        (if key_input =? Screen.KEY_BACKSPACE then mret 8
         else if key_input =? Screen.KEY_DC then mret 127
         else if (key_input =? 0x01) || (key_input =? 0x03) then uart_break_ ::= true;; mret key_input
         else mret key_input);
      SetUartBuffer key_input;;
      UartInterrupt.

(** Virtio disk. *)
(* PeripheralEmulator.cpp:220-227 PeripheralEmulator::VirtioInit *)
Definition VirtioInit : ST (t * M) unit :=
  Write W32 (kVirtioBase + 0x00) 0x74726976;;
  Write W32 (kVirtioBase + 0x4) 1;;
  Write W32 (kVirtioBase + 0x8) 2;;
  Write W32 (kVirtioBase + 0xc) 0x554d4551;;
  Write W32 (kVirtioBase + 0x34) 8.

(* PeripheralEmulator.cpp:262-276 PeripheralEmulator::read_desc *)
Definition read_desc (desc_address desc_index : Z) : ST (t * M) VRingDesc :=
  let kVRingSize := 16 in
  let address := u64 (desc_address + desc_index * kVRingSize) in
  a ← Read W64 address;
  l ← Read W32 (u64 (address + 8));
  f ← Read W16 (u64 (address + 12));
  n ← Read W16 (u64 (address + 14));
  mret (mk_desc a l f n).

(* PeripheralEmulator.cpp:348-355 PeripheralEmulator::read_outhdr *)
Definition read_outhdr (outhdr_address : Z) : ST (t * M) virtio_blk_outhdr :=
  ty ← Read W32 outhdr_address;
  r ← Read W32 (u64 (outhdr_address + 4));
  s ← Read W64 (u64 (outhdr_address + 8));
  mret (mk_outhdr ty r s).

(* PeripheralEmulator.cpp:293-300 PeripheralEmulator::get_desc_index *)
Definition get_desc_index (avail_address : Z) : ST (t * M) Z :=
  w ← Read W16 (u64 (avail_address + 2));
  q ← field queue_num_;
  if q =? 0 then raise Undefined
  else
    let index := u16 (Z.rem w q) in
    lift (assert_that (index <? q));;
    Read W16 (u64 (avail_address + 4 + index * 2)).

(** The disk through the pointer; dereferencing null is undefined. *)
Definition with_disk {A} (f : disk -> res (A * disk)) : ST (t * M) A :=
  d ← field disk_image_;
  match d with
  | None => raise Undefined
  | Some d => '(a, d') ← lift (f d); disk_image_ ::= Some d';; mret a
  end.

(** The loops of disc_access, [n] bytes from [offset] on. *)
(* PeripheralEmulator.cpp:362-364 PeripheralEmulator::disc_access *)
Fixpoint disk_write_loop (kSectorAddress buffer_address : Z) (n : nat) (offset : Z) : ST (t * M) unit :=
  match n with
  | O => mret tt
  | S n' =>
      b ← Read W8 (u64 (buffer_address + offset));
      with_disk (fun d => d' ← disk_set d (u64 (kSectorAddress + offset)) b; mret (tt, d'));;
      disk_write_loop kSectorAddress buffer_address n' (offset + 1)
  end.

(* PeripheralEmulator.cpp:366-368 PeripheralEmulator::disc_access *)
Fixpoint disk_read_loop (kSectorAddress buffer_address : Z) (n : nat) (offset : Z) : ST (t * M) unit :=
  match n with
  | O => mret tt
  | S n' =>
      b ← with_disk (fun d => b ← disk_get d (u64 (kSectorAddress + offset)); mret (b, d));
      Write W8 (u64 (buffer_address + offset)) b;;
      disk_read_loop kSectorAddress buffer_address n' (offset + 1)
  end.

(* PeripheralEmulator.cpp:357-370 PeripheralEmulator::disc_access *)
Definition disc_access (sector buffer_address len : Z) (write : bool) : ST (t * M) unit :=
  let kSectorAddress := u64 (sector * kSectorSize) in
  if write then disk_write_loop kSectorAddress buffer_address (Z.to_nat len) 0
  else disk_read_loop kSectorAddress buffer_address (Z.to_nat len) 0.

(** The jumps to [ERROR] end in [assert(false)]. *)
(* PeripheralEmulator.cpp:302-346 PeripheralEmulator::process_disc_access *)
Definition process_disc_access (desc_address desc_index : Z) : ST (t * M) unit :=
  let kOk := 0 in
  desc ← read_desc desc_address desc_index;
  outhdr ← read_outhdr (addr desc);
  let write_access := type outhdr =? 1 in
  let sector := sector outhdr in
  if negb ((flags desc .& 1) =? 1) then raise Assert_failed
  else
    let desc_index := next desc in
    desc ← read_desc desc_address desc_index;
    let buffer_address := addr desc in
    if negb (eqb ((flags desc .& 2) =? 0) write_access) then raise Assert_failed
    else
      let len_ := len desc in
      disc_access sector buffer_address len_ write_access;;
      let desc_index := next desc in
      desc ← read_desc desc_address desc_index;
      if negb (len desc =? 1) || negb ((flags desc .& 3) =? 2) then raise Assert_failed
      else
        let buffer_address := addr desc in
        Write W8 buffer_address kOk.

(* PeripheralEmulator.cpp:372-380 PeripheralEmulator::process_used_buffer *)
Definition process_used_buffer (used_buffer_address index : Z) : ST (t * M) unit :=
  current_used_index ← Read W16 (u64 (used_buffer_address + 2));
  Write W32 (u64 (used_buffer_address + 4 + current_used_index * 8)) index;;
  Write W32 (u64 (used_buffer_address + 4 + current_used_index * 8 + 4)) 3;;
  let current_used_index := u16 (current_used_index + 1) in
  Write W16 (u64 (used_buffer_address + 2)) current_used_index.

(* PeripheralEmulator.cpp:278-291 PeripheralEmulator::VirtioDiskAccess *)
Definition VirtioDiskAccess (queue_address : Z) : ST (t * M) unit :=
  let desc_address := queue_address in
  let kDescSizeBytes := 16 in
  q ← field queue_num_;
  let avail_address := u64 (queue_address + u32 (q * kDescSizeBytes)) in
  let kPageSize := 4096 in
  let used_address :=
    u64 (u64 (avail_address + s32 (2 * s32 (2 + q)) + kPageSize - 1) / kPageSize * kPageSize) in
  desc_index ← get_desc_index avail_address;
  process_disc_access desc_address desc_index;;
  process_used_buffer used_address desc_index.

(* PeripheralEmulator.cpp:229-260 PeripheralEmulator::VirtioEmulation *)
Definition VirtioEmulation : ST (t * M) unit :=
  write ← field virtio_write_;
  if negb write then mret tt
  else
    virtio_write_ ::= false;;
    let kWordWidth := 4 in
    address ← field virtio_address_;
    width_ ← field virtio_width_;
    when ((kVirtioMmioQueueSel <? u64 (address + width_)) && (address <? kVirtioMmioQueueSel + kWordWidth)) (
      queue_sel ← Read W32 kVirtioMmioQueueSel;
      let queue_num_max := if queue_sel =? 0 then kQueueNumMax else 0 in
      Write W32 kVirtioMmioQueueMax queue_num_max);;
    if (u64 (address + width_) <=? kVirtioMmioQueueNotify) || (kVirtioMmioQueueNotify + kWordWidth <=? address)
    then mret tt
    else
      queue_number ← Read W32 kVirtioMmioQueueNotify;
      lift (assert_that (queue_number =? 0));;
      num ← Read W32 kVirtioMmioQueueNum;
      queue_num_ ::= s32 num;;
      lift (assert_that (s32 num <=? kQueueNumMax));;
      page_size ← Read W32 kVirtioMmioPageSize;
      let kPageSize := s32 page_size in
      lift (assert_that (kPageSize =? 4096));;
      pfn ← Read W32 kVirtioMmioQueuePfn;
      let kQueueAddress := u32 (pfn * kPageSize) in
      VirtioDiskAccess kQueueAddress;;
      let kVirtioIrq := 1 in
      Write W32 kPlicClaimAddress kVirtioIrq;;
      virtio_interrupt_ ::= true.

(* PeripheralEmulator.cpp:28-31 PeripheralEmulator::Initialize *)
Definition Initialize (input : list Z) : ST (t * M) unit :=
  UartInit input;;
  VirtioInit.

(* PeripheralEmulator.cpp:69-77 PeripheralEmulator::Emulation *)
Definition Emulation : ST (t * M) unit :=
  host ← field host_emulation_enable_;
  when host HostEmulation;;
  device ← field device_emulation_enable;
  when device (
    UartEmulation;;
    VirtioEmulation).

End Methods.
End Peripheral.

(* ------------------------------------------------------------------ *)
(** ** Running the methods *)

(** Unfold the plumbing of a method on a concrete pair. *)
Ltac run_simpl :=
  cbn [mbind st_bind mret st_ret field assign when raise lift fst snd];
  cbv beta.

Section Running.
  Context {M : Type} `{GuestMemoryLaws M}.
  Import Peripheral.

Lemma Read_run w a (p : Peripheral.t) (m : M) :
    mem_ok m -> in_u 64 a -> a mod Z.of_nat (nbytes w) = 0 ->
    Read w a (p, m) = Ok (ByteMem.load (nbytes w) (mem_byte m) a, (p, m)).
  Proof. intros Hm Ha Hal. unfold Read, mem_get. cbn [snd]. by rewrite mem_read_spec, Hal by done. Qed.

Lemma Write_run w a v (p : Peripheral.t) (m : M) :
    mem_ok m -> in_u 64 a -> in_u (nbits w) v -> a mod Z.of_nat (nbytes w) = 0 ->
    exists m', Write w a v (p, m) = Ok (tt, (p, m')) /\ mem_ok m' /\
      forall b, mem_byte m' b = ByteMem.store (nbytes w) (mem_byte m) a v b.
  Proof.
    intros Hm Ha Hv Hal. destruct (mem_write_spec w m a v) as (m' & E & ? & ?); try done.
    exists m'. split; [| done]. unfold Write, mem_put. cbn [fst snd]. by rewrite E.
  Qed.

  (** *** Timer *)

Fixpoint ticks (n : nat) : ST (Peripheral.t * M) unit :=
    match n with O => mret tt | S n' => TimerTick;; ticks n' end.

Definition cmp_of (m : M) : Z := ByteMem.load 8 (mem_byte m) kTimerCmp.

  (** The comparator has been read, or will be at the next tick. *)
Definition armed (p : Peripheral.t) (m : M) : Prop :=
    timercmp_update_ p = true \/ next_cycle_ p = cmp_of m.

(** The comparator value a tick compares with: read from memory when the guest has
      written it. *)
Definition comparator (p : Peripheral.t) (m : M) : Z :=
    if timercmp_update_ p then cmp_of m else next_cycle_ p.

Definition ticked (p : Peripheral.t) (m : M) : Peripheral.t :=
    let now := u64 (elapsed_cycles_ p + 1) in
    p <| elapsed_cycles_ := now |> <| next_cycle_ := comparator p m |> <| timercmp_update_ := false |>
      <| timer_interrupt_ := timer_interrupt_ p || (now =? comparator p m) |>.

(** What decides when the timer interrupts. *)
Definition timer (p : Peripheral.t) := (elapsed_cycles_ p, next_cycle_ p, timer_interrupt_ p).

(** The guest's accesses can ask for the comparator to be read, no more. *)
Lemma CheckDeviceWrite_timer a w v p : timer (CheckDeviceWrite a w v p) = timer p.
  Proof using. unfold CheckDeviceWrite. cbv zeta. by repeat case_match. Qed.

Lemma CheckDeviceRead_timer a w p : timer (CheckDeviceRead a w p) = timer p.
  Proof using. unfold CheckDeviceRead. by case_match. Qed.

Lemma TimerTick_ticked p m : mem_ok m -> TimerTick (p, m) = Ok (tt, (ticked p m, m)).
  Proof.
    intros Hm. pose proof (fun q => Read_run W64 kTimerCmp q m Hm ltac:(decide_it) eq_refl) as Hr.
    unfold TimerTick, ticked, comparator. cbv zeta. unfold mbind, st_bind, field, assign. cbn [fst snd].
    change (timercmp_update_ (p <| elapsed_cycles_ := _ |>)) with (timercmp_update_ p).
    destruct (timercmp_update_ p) eqn:U; cbn [when]; unfold mbind, st_bind, mret, st_ret, assign; rewrite ?Hr; cbn [fst snd].
    - set (now := u64 _). set (c := ByteMem.load _ _ _). change (ByteMem.load _ (mem_byte m) kTimerCmp) with (cmp_of m) in c.
      rsimpl. change c with (cmp_of m). clear c.
      destruct (now =? cmp_of m); cbn [when]; [rewrite orb_true_r | rewrite orb_false_r]; by destruct p.
    - set (now := u64 _). rsimpl.
      destruct (now =? next_cycle_ p); cbn [when]; [rewrite orb_true_r | rewrite orb_false_r]; destruct p; cbn in U; by subst.
  Qed.

Lemma TimerTick_run p m :
    mem_ok m -> armed p m -> in_u 64 (elapsed_cycles_ p + 1) ->
    exists p', TimerTick (p, m) = Ok (tt, (p', m)) /\ armed p' m /\
      elapsed_cycles_ p' = elapsed_cycles_ p + 1 /\
      timer_interrupt_ p' = timer_interrupt_ p || (elapsed_cycles_ p + 1 =? cmp_of m).
  Proof.
    intros Hm Harm He. rewrite TimerTick_ticked by done. eexists. split; [reflexivity |].
    assert (Hc : comparator p m = cmp_of m) by (unfold comparator; destruct Harm as [-> | ->]; [done | by destruct (timercmp_update_ p)]).
    unfold ticked, armed. cbv zeta. rewrite Hc, (uint_small 64) by done. rsimpl. auto.
  Qed.

Lemma ticks_run n p m :
    mem_ok m -> armed p m -> 0 <= elapsed_cycles_ p -> elapsed_cycles_ p + Z.of_nat n < 2 ^ 64 ->
    exists p', ticks n (p, m) = Ok (tt, (p', m)) /\
      elapsed_cycles_ p' = elapsed_cycles_ p + Z.of_nat n /\
      timer_interrupt_ p' = timer_interrupt_ p ||
        ((elapsed_cycles_ p <? cmp_of m) && (cmp_of m <=? elapsed_cycles_ p + Z.of_nat n)).
  Proof.
    intros Hm. revert p. induction n as [|n IH]; intros p Harm Hpos Hn; cbn [ticks].
    - exists p. split; [done |]. split; [lia |].
      destruct (Z.ltb_spec (elapsed_cycles_ p) (cmp_of m)),
        (Z.leb_spec (cmp_of m) (elapsed_cycles_ p + Z.of_nat 0)); try lia; by rewrite orb_false_r.
    - destruct (TimerTick_run p m Hm Harm) as (p1 & E & Harm1 & He & Ht); [unfold in_u; lia |].
      rewrite (st_bind_run _ _ _ _ _ E).
      destruct (IH p1 Harm1) as (p' & E' & He' & Ht'); [lia | lia |].
      exists p'. split; [done |]. split; [lia |]. rewrite Ht', Ht, He, <- orb_assoc. f_equal.
      destruct (Z.eqb_spec (elapsed_cycles_ p + 1) (cmp_of m)),
        (Z.ltb_spec (elapsed_cycles_ p) (cmp_of m)), (Z.ltb_spec (elapsed_cycles_ p + 1) (cmp_of m)),
        (Z.leb_spec (cmp_of m) (elapsed_cycles_ p + 1 + Z.of_nat n)),
        (Z.leb_spec (cmp_of m) (elapsed_cycles_ p + Z.of_nat (S n))); try lia; done.
  Qed.

  (** *** UART *)

  (** What the screen shows is touched by [putchar] only. *)
Lemma CheckInput_shown s : Screen.shown (Screen.CheckInput s).2 = Screen.shown s.
  Proof.
    unfold Screen.CheckInput, Screen.getch.
    repeat case_match; simplify_eq; cbn [snd]; rsimpl; try done.
    all: match goal with E : Screen.keys _ = _ |- _ => clear E end; done.
  Qed.

Lemma ClearUartBuffer_run p m :
    mem_ok m ->
    exists m', ClearUartBuffer (p, m) = Ok (tt, (p <| uart_full_ := false |>, m')) /\ mem_ok m'.
  Proof.
    intros Hm. unfold ClearUartBuffer. rewrite (st_bind_run _ _ _ _ _ (Read_run W8 kUartLsr p m Hm ltac:(decide_it) eq_refl)).
    destruct (Write_run W8 kUartLsr
      (u8 (ByteMem.load (nbytes W8) (mem_byte m) kUartLsr .& Z.lnot kUartLsrReady)) p m Hm ltac:(decide_it)
      ltac:(apply uint_range; lia) eq_refl) as (m' & E & Hm' & _).
    rewrite (st_bind_run _ _ _ _ _ E). exists m'. split; done.
  Qed.

Lemma SetUartBuffer_run key p m :
    mem_ok m ->
    exists m', SetUartBuffer key (p, m) = Ok (tt, (p <| uart_full_ := true |>, m')) /\ mem_ok m'.
  Proof.
    intros Hm. unfold SetUartBuffer. rewrite (st_bind_run _ _ _ _ _ (Read_run W8 kUartLsr p m Hm ltac:(decide_it) eq_refl)).
    set (v := u8 (_ .| _)). assert (in_u (nbits W8) v) by (apply uint_range; lia). clearbody v.
    destruct (Write_run W8 kUartRhr (u8 key) p m Hm ltac:(decide_it) ltac:(apply uint_range; lia) eq_refl)
      as (m1 & E1 & Hm1 & _). rewrite (st_bind_run _ _ _ _ _ E1).
    destruct (Write_run W8 kUartLsr v p m1 Hm1 ltac:(decide_it) ltac:(done) eq_refl) as (m2 & E2 & Hm2 & _).
    rewrite (st_bind_run _ _ _ _ _ E2). exists m2. split; done.
  Qed.

Lemma UartInterrupt_run p m :
    mem_ok m ->
    exists m', UartInterrupt (p, m) = Ok (tt, (p <| uart_interrupt_ := true |>, m')) /\ mem_ok m'.
  Proof.
    intros Hm. unfold UartInterrupt. cbv zeta.
    destruct (Write_run W32 kPlicClaimAddress 10 p m Hm ltac:(decide_it) ltac:(decide_it) eq_refl) as (m' & E & Hm' & _).
    rewrite (st_bind_run _ _ _ _ _ E). exists m'. split; done.
  Qed.

Lemma screen_run {A} (f : Screen.t -> A * Screen.t) p (m : M) s :
    scr_emulation p = Some s ->
    screen f (p, m) = Ok ((f s).1, (p <| scr_emulation := Some (f s).2 |>, m)).
  Proof.
    intros E. unfold screen, mbind, st_bind, field, assign. cbn [fst snd]. rewrite E.
    by destruct (f s).
  Qed.

  (** The state of the screen after the first half of UartEmulation. *)
Definition uart_ready (p : Peripheral.t) (chars : list Z) : Prop :=
    uart_write_ p = false /\ exists s, scr_emulation p = Some s /\ Screen.shown s = chars.

  (** The second half, from the test of [uart_full_] on. *)
Definition uart_input : ST (Peripheral.t * M) unit :=
    full ← field uart_full_;
    if full : bool then mret tt
    else
      input ← screen Screen.CheckInput;
      if negb input then mret tt
      else
        key_input ← screen Screen.GetKeyValue;
        key_input ←
          (if key_input =? Screen.KEY_BACKSPACE then mret 8
           else if key_input =? Screen.KEY_DC then mret 127
           else if (key_input =? 0x01) || (key_input =? 0x03) then uart_break_ ::= true;; mret key_input
           else mret key_input);
        SetUartBuffer key_input;;
        UartInterrupt.

Lemma uart_input_run p m chars :
    mem_ok m -> uart_ready p chars ->
    exists p' m', uart_input (p, m) = Ok (tt, (p', m')) /\ mem_ok m' /\ uart_ready p' chars.
  Proof.
    intros Hm (Hw & s & Hs & <-). unfold uart_input.
    rewrite (st_bind_run _ _ _ (uart_full_ p) (p, m)) by done.
    destruct (uart_full_ p); [exists p, m; unfold uart_ready; eauto 10 |].
    rewrite (st_bind_run _ _ _ _ _ (screen_run Screen.CheckInput p m s Hs)).
    pose proof (CheckInput_shown s) as Hsh. destruct (Screen.CheckInput s) as [b s1]. cbn [fst snd] in *.
    set (p1 := p <| scr_emulation := Some s1 |>).
    assert (H1 : scr_emulation p1 = Some s1) by done. assert (Hw1 : uart_write_ p1 = false) by done.
    clearbody p1. destruct b; cbn [negb]; [| exists p1, m; unfold uart_ready; eauto 10].
    rewrite (st_bind_run _ _ _ _ _ (screen_run Screen.GetKeyValue p1 m s1 H1)). cbn [fst snd Screen.GetKeyValue].
    set (p2 := p1 <| scr_emulation := _ |>).
    assert (H2 : uart_ready p2 (Screen.shown s)) by (split; [done | eexists; split; [reflexivity | exact Hsh]]).
    clearbody p2. generalize (Screen.key_value_ s1) as k. intros k.
    assert (Hend : forall key p3, uart_ready p3 (Screen.shown s) ->
      exists p' m', (SetUartBuffer key;; UartInterrupt) (p3, m) = Ok (tt, (p', m')) /\ mem_ok m' /\
        uart_ready p' (Screen.shown s)).
    { intros key p3 H3. destruct (SetUartBuffer_run key p3 m Hm) as (m1 & E1 & Hm1).
      rewrite (st_bind_run _ _ _ _ _ E1).
      destruct (UartInterrupt_run (p3 <| uart_full_ := true |>) m1 Hm1) as (m2 & E2 & Hm2).
      rewrite E2. eexists _, m2. split; [reflexivity |]. split; [done |]. exact H3. }
    destruct (k =? Screen.KEY_BACKSPACE); [by apply Hend |].
    destruct (k =? Screen.KEY_DC); [by apply Hend |].
    destruct (_ || _); [| by apply Hend].
    rewrite (st_bind_run _ _ _ k (p2 <| uart_break_ := true |>, m)) by done. by apply Hend.
  Qed.

Lemma UartEmulation_run p m s :
    mem_ok m -> scr_emulation p = Some s ->
    exists p' m', UartEmulation (p, m) = Ok (tt, (p', m')) /\ mem_ok m' /\
      uart_ready p' (if uart_write_ p then uart_write_value_ p :: Screen.shown s else Screen.shown s).
  Proof.
    intros Hm Hs. unfold UartEmulation. fold uart_input.
    rewrite (st_bind_run _ _ _ (uart_write_ p) (p, m)) by done.
    set (chars := if uart_write_ p then _ else _).
    assert (Hstep : exists p1, (when (uart_write_ p) (
        v ← field uart_write_value_;
        screen (fun s => (tt, Screen.putchar v s));;
        uart_write_ ::= false)) (p, m) = Ok (tt, (p1, m)) /\ uart_ready p1 chars).
    { unfold chars. destruct (uart_write_ p) eqn:Hw; cbn [when].
      - rewrite (st_bind_run _ _ _ (uart_write_value_ p) (p, m)) by done.
        rewrite (st_bind_run _ _ _ _ _ (screen_run _ p m s Hs)). cbn [fst snd].
        eexists. split; [reflexivity |]. split; [done |]. eexists. split; [reflexivity | done].
      - exists p. split; [done |]. split; [done |]. eauto. }
    destruct Hstep as (p1 & E1 & H1). rewrite (st_bind_run _ _ _ _ _ E1). clear E1.
    rewrite (st_bind_run _ _ _ (uart_read_ p1) (p1, m)) by done.
    assert (Hstep : exists p2 m2, (when (uart_read_ p1) (ClearUartBuffer;; uart_read_ ::= false)) (p1, m)
        = Ok (tt, (p2, m2)) /\ mem_ok m2 /\ uart_ready p2 chars).
    { destruct (uart_read_ p1); cbn [when]; [| by exists p1, m].
      destruct (ClearUartBuffer_run p1 m Hm) as (m2 & E2 & Hm2). rewrite (st_bind_run _ _ _ _ _ E2).
      eexists _, m2. split; [reflexivity |]. split; [done |]. exact H1. }
    destruct Hstep as (p2 & m2 & E2 & Hm2 & H2). rewrite (st_bind_run _ _ _ _ _ E2).
    by apply uart_input_run.
  Qed.

  (** *** Disk *)

Definition disk_ok (d : disk) : Prop := size d < 2 ^ 63 /\ zvec_wf 8 (bytes d).

Lemma with_disk_run {A} (f : disk -> res (A * disk)) p (m : M) d a d' :
    disk_image_ p = Some d -> f d = Ok (a, d') ->
    with_disk f (p, m) = Ok (a, (p <| disk_image_ := Some d' |>, m)).
  Proof.
    intros Hd Hf. unfold with_disk, mbind, st_bind, field, lift, assign. cbn [fst snd].
    by rewrite Hd, Hf.
  Qed.

Lemma put_disk_same p d : disk_image_ p = Some d -> p <| disk_image_ := Some d |> = p.
  Proof. intros E. destruct p. cbn in E. by subst. Qed.

Lemma disk_get_ok d i : 0 <= i < size d -> disk_get d i = Ok (zget (bytes d) i).
  Proof. intros. unfold disk_get. destruct (Z.leb_spec 0 i), (Z.ltb_spec i (size d)); done || lia. Qed.

Lemma disk_set_ok d i v :
    0 <= i < size d -> disk_set d i v = Ok (mk_disk (size d) (zset (bytes d) i v)).
  Proof. intros. unfold disk_set. destruct (Z.leb_spec 0 i), (Z.ltb_spec i (size d)); done || lia. Qed.

  (** Memory after a disk read: [n] bytes from [buf] on come from the disk. *)
Definition copied_in (f : ByteMem.t) (d : disk) (sec buf : Z) (n : nat) : ByteMem.t := fun b =>
    if (b - buf) mod 2 ^ 32 <? Z.of_nat n then zget (bytes d) (sec + (b - buf) mod 2 ^ 32) else f b.

Lemma disk_read_run n sec buf off p m d :
    mem_ok m -> disk_image_ p = Some d -> disk_ok d ->
    0 <= sec -> 0 <= off -> sec + off + Z.of_nat n <= size d ->
    0 <= buf -> buf + off + Z.of_nat n <= 2 ^ 64 -> Z.of_nat n <= 2 ^ 32 ->
    exists m', disk_read_loop sec buf n off (p, m) = Ok (tt, (p, m')) /\ mem_ok m' /\
      forall b, mem_byte m' b = copied_in (mem_byte m) d (sec + off) (buf + off) n b.
  Proof.
    intros Hm Hd [Hsz Hwf]. revert off m Hm. induction n as [|n IH]; intros off m Hm Hs Ho Hsec Hb Hbuf Hn;
      cbn [disk_read_loop].
    { exists m. split; [done |]. split; [done |]. intros b. unfold copied_in.
      destruct (Z.ltb_spec ((b - (buf + off)) mod 2 ^ 32) (Z.of_nat 0)); [zlia | done]. }
    rewrite (uint_small 64 (sec + off)), (uint_small 64 (buf + off)) by (unfold in_u; lia).
    erewrite st_bind_run by (eapply (with_disk_run _ p m d); [exact Hd | rewrite disk_get_ok by lia; reflexivity]).
    rewrite (put_disk_same p d) by done.
    destruct (Write_run W8 (buf + off) (zget (bytes d) (sec + off)) p m Hm) as (m1 & E1 & Hm1 & Hb1);
      [unfold in_u; lia | apply Hwf | by rewrite Z.mod_1_r |].
    rewrite (st_bind_run _ _ _ _ _ E1).
    destruct (IH (off + 1) m1 Hm1) as (m2 & E2 & Hm2 & Hb2); try lia.
    exists m2. split; [done |]. split; [done |]. intros b. rewrite Hb2. unfold copied_in. rewrite Hb1.
    unfold ByteMem.store. cbv zeta. cbn [nbytes].
    destruct (Z.ltb_spec ((b - (buf + (off + 1))) mod 2 ^ 32) (Z.of_nat n));
      destruct (Z.ltb_spec ((b - (buf + off)) mod 2 ^ 32) (Z.of_nat (S n)));
      destruct (Z.ltb_spec ((b - (buf + off)) mod 2 ^ 32) (Z.of_nat 1)); try zlia; try done.
    - f_equal. zlia.
    - assert ((b - (buf + off)) mod 2 ^ 32 = 0) as -> by zlia.
      rewrite Z.mul_0_r, Z.shiftr_0_r, Z.add_0_r. apply uint_small, Hwf.
  Qed.

  (** The disk after a disk write: [n] bytes from [sec] on come from memory. *)
Definition copied_out (f : ByteMem.t) (d : disk) (sec buf : Z) (n : nat) (d' : disk) : Prop :=
    size d' = size d /\ zvec_wf 8 (bytes d') /\
    forall i, zget (bytes d') i =
      if (sec <=? i) && (i <? sec + Z.of_nat n) then f (buf + (i - sec)) else zget (bytes d) i.

Lemma disk_write_run n sec buf off p m d :
    mem_ok m -> disk_image_ p = Some d -> disk_ok d ->
    0 <= sec -> 0 <= off -> sec + off + Z.of_nat n <= size d ->
    0 <= buf -> buf + off + Z.of_nat n <= 2 ^ 64 ->
    exists d', disk_write_loop sec buf n off (p, m) = Ok (tt, (p <| disk_image_ := Some d' |>, m)) /\
      copied_out (mem_byte m) d (sec + off) (buf + off) n d'.
  Proof.
    intros Hm Hd Hok. revert off p d Hd Hok. induction n as [|n IH]; intros off p d Hd [Hsz Hwf] Hs Ho Hsec Hb Hbuf;
      cbn [disk_write_loop].
    { exists d. rewrite (put_disk_same p d) by done. split; [done |]. split; [done |]. split; [done |]. intros i.
      destruct (Z.leb_spec (sec + off) i), (Z.ltb_spec i (sec + off + Z.of_nat 0)); done || lia. }
    rewrite (uint_small 64 (sec + off)), (uint_small 64 (buf + off)) by (unfold in_u; lia).
    rewrite (st_bind_run _ _ _ _ _ (Read_run W8 (buf + off) p m Hm ltac:(unfold in_u; lia) (Z.mod_1_r _))).
    assert (Hld : ByteMem.load (nbytes W8) (mem_byte m) (buf + off) = mem_byte m (buf + off))
      by (cbn [nbytes ByteMem.load]; lia).
    rewrite Hld.
    erewrite st_bind_run by (eapply (with_disk_run _ p m d); [exact Hd | rewrite disk_set_ok by lia; reflexivity]).
    set (d1 := mk_disk _ _). set (p1 := p <| disk_image_ := Some d1 |>).
    destruct (IH (off + 1) p1 d1) as (d' & E & Hsz' & Hwf' & Hby); try done; try (cbn; lia).
    { split; [done |]. apply zvec_wf_zset; [done | by apply mem_byte_range]. }
    exists d'. split; [exact E |]. split; [done |]. split; [done |]. intros i. rewrite Hby. cbn [bytes d1].
    rewrite zget_zset.
    destruct (Z.leb_spec (sec + (off + 1)) i), (Z.ltb_spec i (sec + (off + 1) + Z.of_nat n)),
      (Z.leb_spec (sec + off) i), (Z.ltb_spec i (sec + off + Z.of_nat (S n)));
      cbn [andb]; try case_decide; try lia; try done; f_equal; lia.
  Qed.
End Running.

Section Tohost.
Import Peripheral.

(** What the host interface makes of a word written to [tohost]. *)
Definition tohost_device (payload : Z) : Z := payload / 2 ^ 56.
Definition tohost_command (payload : Z) : Z := (payload / 2 ^ 48) mod 2 ^ 18.

Definition tohost_effect (mxl payload : Z) (p : t) : t :=
  let device := if mxl =? 1 then 0 else tohost_device payload in
  let command := if mxl =? 1 then 0 else tohost_command payload in
  let p := p <| end_flag_ := false |> in
  let p :=
    if device =? 0 then
      if command =? 0 then
        if Z.odd payload then p <| host_value_ := payload mod 2 ^ 48 / 2 |> <| end_flag_ := true |> else p
      else p <| error_flag_ := true |> <| end_flag_ := true |>
    else p in
  p <| host_write_ := 0 |>.

Lemma bit1_test x : negb ((x .& 2) =? 0) = Z.testbit x 1.
Proof.
  destruct (Z.testbit x 1) eqn:E; destruct (Z.eqb_spec (x .& 2) 0) as [E0|E0]; try done; exfalso.
  - apply (f_equal (fun y => Z.testbit y 1)) in E0. by rewrite Z.land_spec, E in E0.
  - apply E0, Z.bits_inj'. intros i Hi. change 2 with (2 ^ 1).
    rewrite Z.land_spec, Z.bits_0, Z.pow2_bits_eqb by lia.
    destruct (Z.eqb_spec 1 i) as [<-|]; [by rewrite E | apply andb_false_r].
Qed.

Lemma tohost_odd x : ((x .& 0xFFFFFFFFFFFF) .& 1 =? 0) = negb (Z.odd x).
Proof.
  rewrite <- Z.land_assoc. change (0xFFFFFFFFFFFF .& 1) with (Z.ones 1). rewrite land_mask by lia.
  unfold uint. rewrite <- Z.bit0_mod, Z.bit0_odd. by destruct (Z.odd x).
Qed.

Lemma tohost_code x : (x .& 0xFFFFFFFFFFFF) >>. 1 = x mod 2 ^ 48 / 2.
Proof. change 0xFFFFFFFFFFFF with (Z.ones 48). rewrite land_mask, Z.shiftr_div_pow2 by lia. done. Qed.

Lemma tohost_device_spec x : in_u 64 x -> u8 ((x >>. 56) .& 0xFF) = tohost_device x.
Proof.
  intros Hx. rewrite (land_mask _ 8), uint_uint, Z.shiftr_div_pow2 by lia. unfold in_u in Hx.
  apply uint_small. split; [apply Z.div_pos; lia | apply Z.div_lt_upper_bound; lia].
Qed.

Lemma tohost_command_spec x : u32 ((x >>. 48) .& 0x3FFFF) = tohost_command x.
Proof.
  rewrite (land_mask _ 18), Z.shiftr_div_pow2 by lia.
  apply uint_small, (in_u_mono 18); [lia | apply uint_range; lia].
Qed.
End Tohost.

(* ------------------------------------------------------------------ *)
(** ** Properties *)

Section Properties.
  Context {M : Type} `{GuestMemoryLaws M}.
  Import Peripheral.

  (** C39: after a write to the comparator has been noticed, [n] calls of [TimerTick]
      count [n] cycles, leave memory alone, and raise the timer interrupt exactly
      when the comparator value lies among the counts passed: neither early nor
      late, and never for a comparator already behind. *)
Theorem timer_fires_at_comparator (p : Peripheral.t) (m : M) (n : nat) :
    mem_ok m -> timercmp_update_ p = true -> timer_interrupt_ p = false ->
    0 <= elapsed_cycles_ p -> elapsed_cycles_ p + Z.of_nat n < 2 ^ 64 ->
    exists p', ticks n (p, m) = Ok (tt, (p', m)) /\
      elapsed_cycles_ p' = elapsed_cycles_ p + Z.of_nat n /\
      (timer_interrupt_ p' = true <->
       elapsed_cycles_ p < cmp_of m <= elapsed_cycles_ p + Z.of_nat n).
  Proof.
    intros Hm Hu Ht H0' Hn. destruct (ticks_run n p m Hm (or_introl Hu) H0' Hn) as (p' & E & He & Hi).
    exists p'. split; [done |]. split; [done |]. rewrite Hi, Ht. cbn [orb].
    rewrite andb_true_iff, Z.ltb_lt, Z.leb_le. done.
  Qed.

  (** A store of any width that covers the UART's transmit register makes the
      next [UartEmulation] show exactly the byte that fell on the register, once;
      reading, interrupts and pending input do not disturb it. *)
Theorem uart_store_is_shown (p : Peripheral.t) (s : Screen.t) (m : M) (address width data : Z) :
    mem_ok m -> scr_emulation p = Some s -> 0 <= address -> 0 < width <= 8 ->
    address <= kUartBase < address + width ->
    exists p' m' s', UartEmulation (CheckDeviceWrite address width data p, m) = Ok (tt, (p', m')) /\
      uart_write_ p' = false /\ scr_emulation p' = Some s' /\
      Screen.shown s' = (data / 2 ^ (8 * (kUartBase - address))) mod 256 :: Screen.shown s.
  Proof.
    intros Hm Hs Ha Hw Hcov. set (p1 := CheckDeviceWrite address width data p).
    assert (H1 : scr_emulation p1 = Some s /\ uart_write_ p1 = true /\
                 uart_write_value_ p1 = (data / 2 ^ (8 * (kUartBase - address))) mod 256).
    { unfold p1, CheckDeviceWrite. cbv zeta. unfold kUartBase in *.
      rewrite !(uint_small 64 (address + width)) by (unfold in_u; lia).
      destruct (Z.ltb_spec 0x10000000 (address + width)), (Z.leb_spec address 0x10000000); try lia.
      rewrite (uint_small 64 (0x10000000 - address)) by (unfold in_u; lia).
      rewrite Z.shiftr_div_pow2, (land_mask _ 8), uint_uint, (Z.mul_comm 8) by lia.
      by destruct (mxl_ p =? 1), (_ && (address <=? kVirtioEnd)), (_ && (address <? kTimerCmp + 8)). }
    destruct H1 as (Hs1 & Hw1 & Hv1).
    destruct (UartEmulation_run p1 m s Hm Hs1) as (p' & m' & E & _ & Hw' & s' & Hs' & Hsh).
    rewrite Hw1, Hv1 in Hsh. exists p', m', s'. auto.
  Qed.

  (** [disc_access] moves exactly the requested bytes between the disk, from byte
      512 * sector on, and memory: a read changes those bytes of memory and nothing
      else, a write those of the disk and not memory. *)
Theorem disc_access_transfers (p : Peripheral.t) (m : M) (d : disk) (sector buf len : Z) :
    mem_ok m -> disk_image_ p = Some d -> disk_ok d ->
    0 <= sector -> 0 <= len <= 2 ^ 32 -> 512 * sector + len <= size d ->
    0 <= buf -> buf + len <= 2 ^ 64 ->
    (exists m', disc_access sector buf len false (p, m) = Ok (tt, (p, m')) /\ mem_ok m' /\
       forall b, mem_byte m' b = copied_in (mem_byte m) d (512 * sector) buf (Z.to_nat len) b) /\
    (exists d', disc_access sector buf len true (p, m) = Ok (tt, (p <| disk_image_ := Some d' |>, m)) /\
       copied_out (mem_byte m) d (512 * sector) buf (Z.to_nat len) d').
  Proof.
    intros Hm Hd Hok Hs Hl Hsz Hb Hbl. unfold disc_access. cbv zeta. unfold kSectorSize.
    pose proof (proj1 Hok). rewrite (uint_small 64) by (unfold in_u; lia).
    destruct (disk_read_run (Z.to_nat len) (sector * 512) buf 0 p m d) as (m' & E & Hm' & Hby);
      try done; try lia.
    destruct (disk_write_run (Z.to_nat len) (sector * 512) buf 0 p m d) as (d' & E' & Hc);
      try done; try lia.
    rewrite !Z.add_0_r in *. rewrite (Z.mul_comm 512). split; [exists m' | exists d']; done.
  Qed.

  (** C40: [HostEmulation] on every branch: with nothing written it does nothing; after
      a write to the second tohost word it ends the run with the payload shifted
      right; otherwise an odd exit payload for device 0, command 0 ends the run with
      its 47-bit code, another command of device 0 ends it with an error, other
      devices are ignored; the write is always consumed and memory never changed. *)
Theorem HostEmulation_spec (p : Peripheral.t) (m : M) :
    mem_ok m ->
    let w := if mxl_ p =? 1 then W32 else W64 in
    let payload a := ByteMem.load (nbytes w) (mem_byte m) a in
    HostEmulation (p, m) = Ok (tt,
      (if host_write_ p =? 0 then p
       else if Z.testbit (host_write_ p) 1 then
         p <| host_value_ := payload kToHost1 / 2 |> <| host_write_ := 0 |> <| end_flag_ := true |>
       else tohost_effect (mxl_ p) (payload kToHost0) p, m)).
  Proof.
    intros Hm w payload. unfold HostEmulation.
    rewrite (st_bind_run _ _ _ (host_write_ p) (p, m)) by done.
    rewrite (st_bind_run _ _ _ (mxl_ p) (p, m)) by done.
    destruct (host_write_ p =? 0); [done |].
    replace (negb ((host_write_ p .& 2) =? 0)) with (Z.testbit (host_write_ p) 1).
    2:{ symmetry. apply bit1_test. }
    assert (Hread : forall a (q : Peripheral.t), in_u 64 a -> a mod 8 = 0 ->
      (if mxl_ p =? 1 then Read W32 a else Read W64 a) (q, m) = Ok (payload a, (q, m))).
    { intros a q Ha Hal. unfold payload, w. destruct (mxl_ p =? 1); apply Read_run; try done. cbn. zlia. }
    destruct (Z.testbit (host_write_ p) 1).
    - rewrite (st_bind_run _ _ _ _ _ (Hread kToHost1 p ltac:(decide_it) eq_refl)).
      unfold mbind, st_bind, assign. cbn [fst snd]. by rewrite Z.shiftr_div_pow2 by lia.
    - rewrite (st_bind_run _ _ _ tt (p <| end_flag_ := false |>, m)) by done.
      specialize (Hread kToHost0 (p <| end_flag_ := false |>) ltac:(decide_it) eq_refl).
      assert (Hp : in_u (nbits w) (payload kToHost0)) by (apply mem_load_range; done).
      unfold tohost_effect. cbv zeta. destruct (mxl_ p =? 1) eqn:Hmxl.
      + erewrite st_bind_run by (by rewrite (st_bind_run _ _ _ _ _ Hread)).
        cbn [Z.eqb]. rewrite (tohost_odd (payload kToHost0)), tohost_code.
        destruct (Z.odd _); done.
      + erewrite st_bind_run by (by rewrite (st_bind_run _ _ _ _ _ Hread)).
        rewrite tohost_device_spec by (revert Hp; unfold w; by rewrite Hmxl || done). rewrite tohost_command_spec.
        destruct (tohost_device _ =? 0); [| done]. destruct (tohost_command _ =? 0); [| done].
        rewrite tohost_odd, tohost_code. destruct (Z.odd _); done.
  Qed.
End Properties.

(** The command mask keeps two bits of the device number, so the character output
    of device 1 (command 1) cannot be reached. *)
Lemma device1_commands_unreachable payload :
  tohost_device payload = 1 -> tohost_command payload <> 0 /\ tohost_command payload <> 1.
Proof.
  unfold tohost_device, tohost_command. intros Hd.
  change (2 ^ 56) with (2 ^ 48 * 2 ^ 8) in Hd. rewrite <- Z.div_div in Hd by lia.
  generalize dependent (payload / 2 ^ 48). intros c Hc. zlia.
Qed.

(** *** Concrete devices for the witnesses *)

Definition sample_device : Peripheral.t :=
  (Peripheral.PeripheralEmulator 2) <| Peripheral.scr_emulation := Some (Screen.init [0x68]) |>
    <| Peripheral.disk_image_ := Some (mk_disk 1024 {[ 512 := 0x5A; 513 := 0xA5 ]}) |>.

Definition sample_device_memory : MemoryWrapper.t :=
  match write_all MemoryWrapper.MemoryWrapper
    [(W64, Peripheral.kTimerCmp, 3); (W64, Peripheral.kToHost0, 85); (W32, 0x100, 0xBEEF)] with
  | Ok m => m | Err _ => MemoryWrapper.MemoryWrapper end.

Lemma sample_device_memory_ok : mem_ok sample_device_memory.
Proof.
  apply (write_all_ok MemoryWrapper.MemoryWrapper _
    [(W64, Peripheral.kTimerCmp, 3); (W64, Peripheral.kToHost0, 85); (W32, 0x100, 0xBEEF)]);
    [exact MemoryWrapper_init_ok | decide_it | vm_compute; reflexivity].
Qed.

Lemma sample_disk_ok : disk_ok (mk_disk 1024 {[ 512 := 0x5A; 513 := 0xA5 ]}).
Proof.
  split; [by vm_compute |]. cbn [bytes].
  apply zvec_wf_zset; [| unfold in_u; lia]. apply (zvec_wf_zset 8 ∅); [auto with rv | unfold in_u; lia].
Qed.

Lemma timer_fires_at_comparator_witness :
  exists p', ticks 5 (sample_device, sample_device_memory) = Ok (tt, (p', sample_device_memory)) /\
    Peripheral.timer_interrupt_ p' = true.
Proof.
  destruct (timer_fires_at_comparator sample_device sample_device_memory 5 sample_device_memory_ok
    eq_refl eq_refl ltac:(decide_it) eq_refl) as (p' & E & _ & Hi).
  exists p'. split; [exact E |]. apply Hi. vm_compute. split; [reflexivity | discriminate].
Defined.

Lemma uart_store_is_shown_witness :
  exists p' m' s',
    Peripheral.UartEmulation (Peripheral.CheckDeviceWrite 0xFFFFFFE 4 0x12345678 sample_device, sample_device_memory)
      = Ok (tt, (p', m')) /\
    Peripheral.uart_write_ p' = false /\ Peripheral.scr_emulation p' = Some s' /\ Screen.shown s' = [0x34].
Proof.
  exact (uart_store_is_shown sample_device (Screen.init [0x68]) sample_device_memory 0xFFFFFFE 4 0x12345678
    sample_device_memory_ok eq_refl ltac:(decide_it) ltac:(decide_it) ltac:(decide_it)).
Defined.

Lemma disc_access_transfers_witness :
  exists m', Peripheral.disc_access 1 0x2000 2 false (sample_device, sample_device_memory) = Ok (tt, (sample_device, m')) /\
    mem_byte m' 0x2001 = 0xA5 /\ mem_byte m' 0x100 = 0xEF.
Proof.
  destruct (disc_access_transfers sample_device sample_device_memory _ 1 0x2000 2
    sample_device_memory_ok eq_refl sample_disk_ok ltac:(decide_it) ltac:(decide_it) ltac:(decide_it)
    ltac:(decide_it) ltac:(decide_it)) as [(m' & E & _ & Hb) _].
  exists m'. split; [exact E |]. split; rewrite Hb; vm_compute; reflexivity.
Defined.

Lemma HostEmulation_spec_witness :
  exists p', Peripheral.HostEmulation (Peripheral.CheckDeviceWrite Peripheral.kToHost0 8 85 sample_device, sample_device_memory)
    = Ok (tt, (p', sample_device_memory)) /\ Peripheral.end_flag_ p' = true /\ Peripheral.host_value_ p' = 42.
Proof.
  eexists. split.
  - exact (HostEmulation_spec (Peripheral.CheckDeviceWrite Peripheral.kToHost0 8 85 sample_device)
      sample_device_memory sample_device_memory_ok).
  - vm_compute. split; reflexivity.
Defined.
