(* ===== verification/Virtio.v ===== *)
(** * The virtio disk: a request, from the notification to its completion

    [Module VirtQueue] is the specification, of the virtio standard and not of the
    code: the layout of the legacy split queue in guest memory (a descriptor table,
    the available ring after it, the used ring on the next page), the head a driver
    publishes, the block request that a chain of three descriptors describes, and
    guest memory after its completion.  The theorem shows that
    [Peripheral.VirtioEmulation] serves the published request under one condition
    which the standard does not impose: the code reads the ring one slot too far
    ([announced]), so that slot has to hold the same head. *)

From S2P Require Import Prelude BitTools Memory Isa Peripheral.

Module VirtQueue.
Import Peripheral.

(** Entry [i] of the descriptor table at [table]. *)
Definition descriptor (f : ByteMem.t) (table i : Z) : VRingDesc :=
  let a := table + 16 * i in
  mk_desc (ByteMem.load 8 f a) (ByteMem.load 4 f (a + 8)) (ByteMem.load 2 f (a + 12)) (ByteMem.load 2 f (a + 14)).

Definition has_next (d : VRingDesc) : bool := Z.odd (flags d).
Definition device_writes (d : VRingDesc) : bool := Z.odd (flags d / 2).

(** The two rings of a queue of at most eight entries: index and slots. *)
Definition avail (table num : Z) : Z := table + 16 * num.
Definition used (table : Z) : Z := table + 4096.
Definition avail_slot (table num i : Z) : Z := avail table num + 4 + 2 * (i mod num).
Definition used_slot (table i : Z) : Z := used table + 4 + 8 * i.

(** A block request: the descriptor that starts its chain and the one that ends it,
    the address of its header, its direction ([out] is a disk write), what it
    transfers and where its status goes. *)
Record request : Type := mk {
  head : Z; tail : Z; header : Z; out : bool; from : Z; buffer : Z; length : Z; status : Z
}.

(** The head a driver has published last: to announce a chain it writes the head to
    the slot under the ring's 16-bit index and then advances the index, which is
    where it would put the {e next} head (virtio 1.1, section 2.6.6). *)
Definition published (f : ByteMem.t) (table num : Z) : Z :=
  ByteMem.load 2 f (avail_slot table num (u16 (ByteMem.load 2 f (avail table num + 2) - 1))).

Definition publish (f : ByteMem.t) (table num head : Z) : ByteMem.t :=
  let i := ByteMem.load 2 f (avail table num + 2) in
  ByteMem.store 2 (ByteMem.store 2 f (avail_slot table num i) head) (avail table num + 2) (i + 1).

(** The request described by the chain that starts at [head], if it is one of a
    header, a data and a status descriptor. *)
Definition request_of (f : ByteMem.t) (table head : Z) : option request :=
  let d0 := descriptor f table head in
  let d1 := descriptor f table (next d0) in
  let d2 := descriptor f table (next d1) in
  let out := ByteMem.load 4 f (addr d0) =? 1 in
  if has_next d0 && eqb (negb (device_writes d1)) out
     && (len d2 =? 1) && device_writes d2 && negb (has_next d2)
  then Some (mk head (next d1) (addr d0) out (512 * ByteMem.load 8 f (addr d0 + 8)) (addr d1) (len d1) (addr d2))
  else None.

(** Memory after the request: the data of a read, the status (0 is OK), an entry
    with the chain's head in the used ring, the ring's index one further, and the
    disk's interrupt number in the claim register of the PLIC. *)
Definition transferred (f : ByteMem.t) (d : disk) (r : request) : ByteMem.t :=
  if out r then f else copied_in f d (from r) (buffer r) (Z.to_nat (length r)).

Definition completed (f : ByteMem.t) (d : disk) (table : Z) (r : request) : ByteMem.t :=
  let i := ByteMem.load 2 f (used table + 2) in
  let f := transferred f d r in
  let f := ByteMem.store 1 f (status r) 0 in
  let f := ByteMem.store 4 f (used_slot table i) (head r) in
  let f := ByteMem.store 4 f (used_slot table i + 4) 3 in
  let f := ByteMem.store 2 f (used table + 2) (i + 1) in
  ByteMem.store 4 f kPlicClaimAddress 1.

(** The disk after it. *)
Definition disk_after (f : ByteMem.t) (d : disk) (r : request) (d' : disk) : Prop :=
  if out r then copied_out f d (from r) (buffer r) (Z.to_nat (length r)) d' else d' = d.

(** What the driver has written to the registers of the disk. *)
Definition programmed (f : ByteMem.t) (table num : Z) : Prop :=
  ByteMem.load 4 f kVirtioMmioQueueNotify = 0 /\
  ByteMem.load 4 f kVirtioMmioQueueNum = num /\ 1 <= num <= 8 /\
  ByteMem.load 4 f kVirtioMmioPageSize = 4096 /\
  table = (4096 * ByteMem.load 4 f kVirtioMmioQueuePfn) mod 2 ^ 32 /\ table + 8192 <= 2 ^ 32.

(** A request within its bounds: an aligned header, data on the disk and in memory,
    buffer and status outside the two pages of the queue. *)
Definition apart (table a n : Z) : Prop := a + n <= table \/ table + 8192 <= a.

Definition well_placed (d : disk) (table num : Z) (r : request) : Prop :=
  tail r < num /\ header r mod 8 = 0 /\
  from r + length r <= size d /\
  buffer r + length r <= 2 ^ 32 /\ apart table (buffer r) (length r) /\
  status r < 2 ^ 32 /\ apart table (status r) 1.

End VirtQueue.

(* ------------------------------------------------------------------ *)
(** ** Reading the queue *)

Section Queue.
  Context {M : Type} `{GuestMemoryLaws M}.
  Import Peripheral VirtQueue.

  (** Address arithmetic wraps at 64 bits, memory already at 32. *)
Lemma mod_u64 a w : u64 a mod Z.of_nat (nbytes w) = a mod Z.of_nat (nbytes w).
  Proof. unfold uint. destruct w; cbn [nbytes]; zlia. Qed.

Lemma Read_wrapped w a (p : Peripheral.t) (m : M) :
    mem_ok m -> a mod Z.of_nat (nbytes w) = 0 ->
    Read w (u64 a) (p, m) = Ok (ByteMem.load (nbytes w) (mem_byte m) a, (p, m)).
  Proof.
    intros Hm Ha. rewrite Read_run; [| done | apply uint_range; lia | by rewrite mod_u64].
    rewrite (mem_load_congr _ m (u64 a) a) by (unfold uint; zlia). done.
  Qed.

Lemma Write_wrapped w a v (p : Peripheral.t) (m : M) :
    mem_ok m -> a mod Z.of_nat (nbytes w) = 0 -> in_u (nbits w) v ->
    exists m', Write w (u64 a) v (p, m) = Ok (tt, (p, m')) /\ mem_ok m' /\
      forall b, mem_byte m' b = ByteMem.store (nbytes w) (mem_byte m) a v b.
  Proof.
    intros Hm Ha Hv. destruct (Write_run w (u64 a) v p m Hm) as (m' & E & Hm' & Hb);
      [apply uint_range; lia | done | by rewrite mod_u64 |].
    exists m'. split; [done |]. split; [done |]. intros b. rewrite Hb. apply store_congr. unfold uint. zlia.
  Qed.

Lemma read_desc_run table i (p : Peripheral.t) (m : M) :
    mem_ok m -> table mod 16 = 0 ->
    read_desc table i (p, m) = Ok (descriptor (mem_byte m) table i, (p, m)).
  Proof.
    intros Hm Ht. unfold read_desc, descriptor. cbv zeta. rewrite (Z.mul_comm 16).
    erewrite st_bind_run by (apply (Read_wrapped W64); [done | cbn; zlia]).
    assert (Hin : forall k, u64 (u64 (table + i * 16) + k) = u64 (table + i * 16 + k))
      by (intros; unfold uint; by rewrite Zplus_mod_idemp_l).
    rewrite !Hin.
    erewrite st_bind_run by (apply (Read_wrapped W32); [done | cbn; zlia]).
    erewrite st_bind_run by (apply (Read_wrapped W16); [done | cbn; zlia]).
    erewrite st_bind_run by (apply (Read_wrapped W16); [done | cbn; zlia]).
    done.
  Qed.

Lemma read_outhdr_run a (p : Peripheral.t) (m : M) :
    mem_ok m -> in_u 64 a -> a mod 8 = 0 ->
    read_outhdr a (p, m) =
      Ok (mk_outhdr (ByteMem.load 4 (mem_byte m) a) (ByteMem.load 4 (mem_byte m) (a + 4))
            (ByteMem.load 8 (mem_byte m) (a + 8)), (p, m)).
  Proof.
    intros Hm Ha Hal. unfold read_outhdr.
    erewrite st_bind_run by (apply (Read_run W32); [done | done | cbn; zlia]).
    erewrite st_bind_run by (apply (Read_wrapped W32); [done | cbn; zlia]).
    erewrite st_bind_run by (apply (Read_wrapped W64); [done | cbn; zlia]).
    done.
  Qed.

  (** The head that the code takes: the one in the slot under the index. *)
Definition announced (f : ByteMem.t) (table num : Z) : Z :=
    ByteMem.load 2 f (avail_slot table num (ByteMem.load 2 f (avail table num + 2))).

Lemma get_desc_index_run table num (p : Peripheral.t) (m : M) :
    mem_ok m -> table mod 16 = 0 -> queue_num_ p = num -> 1 <= num <= 8 ->
    get_desc_index (avail table num) (p, m) = Ok (announced (mem_byte m) table num, (p, m)).
  Proof.
    intros Hm Ht Hq Hn. unfold get_desc_index, announced, avail_slot, avail. set (a := table + 16 * num).
    assert (Ha : a mod 16 = 0) by zlia. clearbody a.
    erewrite st_bind_run by (apply (Read_wrapped W16); [done | cbn; zlia]).
    rewrite (st_bind_run _ _ _ (queue_num_ p) (p, m)) by done. rewrite Hq. cbv zeta.
    pose proof (mem_load_range 2 m (a + 2) Hm) as Hw. cbn [nbytes]. set (w := ByteMem.load 2 _ _) in *.
    clearbody w. change (8 * Z.of_nat 2) with 16 in Hw. unfold in_u in Hw.
    destruct (Z.eqb_spec num 0); [lia |].
    rewrite Z.rem_mod_nonneg by lia. rewrite (uint_small 16) by (unfold in_u; zlia).
    pose proof (Z.mod_pos_bound w num ltac:(lia)). destruct (Z.ltb_spec (w mod num) num); [| lia].
    rewrite (st_bind_run _ _ _ tt (p, m)) by done. rewrite (Z.mul_comm _ 2).
    apply (Read_wrapped W16); [done | cbn [nbytes]; zlia].
  Qed.

Lemma process_used_buffer_run table i head (p : Peripheral.t) (m : M) :
    mem_ok m -> table mod 16 = 0 -> in_u 16 head -> i = ByteMem.load 2 (mem_byte m) (used table + 2) ->
    exists m', process_used_buffer (used table) head (p, m) = Ok (tt, (p, m')) /\ mem_ok m' /\
      forall b, mem_byte m' b =
        ByteMem.store 2 (ByteMem.store 4 (ByteMem.store 4 (mem_byte m) (used_slot table i) head)
                           (used_slot table i + 4) 3) (used table + 2) (i + 1) b.
  Proof.
    intros Hm Ht Hh ->. unfold process_used_buffer, used_slot, used. set (u := table + 4096).
    assert (Hu : u mod 16 = 0) by zlia. clearbody u.
    erewrite st_bind_run by (apply (Read_wrapped W16); [done | cbn; zlia]).
    set (i := ByteMem.load _ _ _). change (ByteMem.load 2 (mem_byte m) (u + 2)) with i. clearbody i.
    rewrite (Z.mul_comm i 8).
    destruct (Write_wrapped W32 (u + 4 + 8 * i) head p m Hm) as (m1 & E1 & Hm1 & Hb1);
      [cbn; zlia | by apply (in_u_mono 16) |].
    rewrite (st_bind_run _ _ _ _ _ E1).
    destruct (Write_wrapped W32 (u + 4 + 8 * i + 4) 3 p m1 Hm1) as (m2 & E2 & Hm2 & Hb2); [cbn; zlia | decide_it |].
    rewrite (st_bind_run _ _ _ _ _ E2). cbv zeta.
    destruct (Write_wrapped W16 (u + 2) (u16 (i + 1)) p m2 Hm2) as (m3 & E3 & Hm3 & Hb3);
      [cbn; zlia | apply uint_range; lia |].
    exists m3. split; [exact E3 |]. split; [done |]. intros b. rewrite Hb3.
    rewrite (ByteMem.store_uint 2). apply ByteMem.store_ext. rewrite Hb2. apply ByteMem.store_ext. apply Hb1.
  Qed.
End Queue.

(** The tests of the flags, bit by bit. *)
Lemma flag_next x : ((x .& 1) =? 1) = Z.odd x.
Proof.
  change 1 with (Z.ones 1) at 1. rewrite land_mask by lia. unfold uint. rewrite Zmod_odd. by destruct (Z.odd x).
Qed.

Lemma flag_writes x : ((x .& 2) =? 0) = negb (Z.odd (x / 2)).
Proof.
  rewrite <- (negb_involutive (_ =? 0)), bit1_test, Z.testbit_odd. by rewrite Z.shiftr_div_pow2.
Qed.

Lemma flag_status x : ((x .& 3) =? 2) = Z.odd (x / 2) && negb (Z.odd x).
Proof.
  change 3 with (Z.ones 2). rewrite land_mask by lia. unfold uint. change (2 ^ 2) with (2 * 2). rewrite (Z.rem_mul_r x 2 2), !Zmod_odd by lia.
  by destruct (Z.odd x), (Z.odd (x / 2)).
Qed.

(* ------------------------------------------------------------------ *)
(** ** Serving a request *)

Section Request.
  Context {M : Type} `{GuestMemoryLaws M}.
  Import Peripheral VirtQueue.
  Context (d : disk) (table num : Z) (p : Peripheral.t) (m : M) (r : request).
  Context (Hm : mem_ok m) (Hd : disk_image_ p = Some d) (Hok : disk_ok d).
  Context (Htable : 0 <= table /\ table mod 4096 = 0 /\ table + 8192 <= 2 ^ 32) (Hnum : 1 <= num <= 8).
  Context (Hreq : request_of (mem_byte m) table (announced (mem_byte m) table num) = Some r).
  Context (Hplaced : well_placed d table num r).

  Abbreviation f := (mem_byte m).

  (** The queue's pages are not in the way of the transfer. *)
Lemma transferred_apart n a :
    0 <= buffer r -> table <= a -> a + Z.of_nat n <= table + 8192 ->
    ByteMem.load n (transferred f d r) a = ByteMem.load n f a.
  Proof using Htable Hplaced.
    intros Hb Ha Hn. destruct Hplaced as (_ & _ & _ & Hbuf & Hap & _). unfold apart in Hap.
    apply ByteMem.load_ext. intros b Hr. unfold transferred, copied_in. destruct (out r); [done |].
    destruct (Z.ltb_spec ((b - buffer r) mod 2 ^ 32) (Z.of_nat (Z.to_nat (length r)))); [| done].
    exfalso. zlia.
  Qed.


  (** The data part, from whatever state of the device has the disk. *)
Lemma transfer_run sector :
    from r = 512 * sector -> 0 <= sector -> 0 <= buffer r -> 0 <= length r ->
    exists d' m', disc_access sector (buffer r) (length r) (out r) (p, m) =
        Ok (tt, (p <| disk_image_ := Some d' |>, m')) /\ mem_ok m' /\
      (forall b, mem_byte m' b = transferred f d r b) /\ disk_after f d r d'.
  Proof using Hm Hd Hok Hplaced.
    intros Hfrom Hs Hb Hl. destruct Hplaced as (_ & _ & Hsz & Hbuf & _). pose proof (proj1 Hok).
    unfold disc_access, transferred, disk_after. cbv zeta. unfold kSectorSize.
    rewrite (Z.mul_comm sector), <- Hfrom, (uint_small 64) by (unfold in_u; lia).
    destruct (out r).
    - destruct (disk_write_run (Z.to_nat (length r)) (from r) (buffer r) 0 p m d) as (d' & E & Hc); try done; try lia.
      rewrite !Z.add_0_r in Hc. exists d', m. auto.
    - destruct (disk_read_run (Z.to_nat (length r)) (from r) (buffer r) 0 p m d) as (m' & E & Hm' & Hc);
        try done; try lia.
      rewrite !Z.add_0_r in Hc. exists d, m'. rewrite put_disk_same by done. auto.
  Qed.

Lemma load_nonneg n a : 0 <= ByteMem.load n f a.
  Proof using Hm. apply (mem_load_range n m a Hm). Qed.

  (** The three descriptors of the request. *)
Lemma request_inv :
    let d0 := descriptor f table (head r) in
    let d1 := descriptor f table (tail r) in
    exists data sector, head r = announced f table num /\ data = descriptor f table (next d0) /\
      header r = addr d0 /\ has_next d0 = true /\
      ByteMem.load 8 f (header r + 8) = sector /\ 0 <= sector /\ from r = 512 * sector /\
      out r = (ByteMem.load 4 f (header r) =? 1) /\ device_writes data = negb (out r) /\
      buffer r = addr data /\ length r = len data /\ tail r = next data /\
      status r = addr d1 /\ len d1 = 1 /\ device_writes d1 = true /\ has_next d1 = false.
  Proof using Hm Hreq.
    cbv zeta. revert Hreq. unfold request_of. cbv zeta.
    destruct (_ && _) eqn:E; [| done]. intros Hr. apply (inj Some) in Hr. rewrite <- Hr. cbn [head tail header out from buffer length status].
    apply andb_true_iff in E as [E E5]. apply andb_true_iff in E as [E E4]. apply andb_true_iff in E as [E E3].
    apply andb_true_iff in E as [E1 E2]. apply eqb_prop in E2. apply Z.eqb_eq in E3. apply negb_true_iff in E5.
    eexists _, _. repeat (split; [first [reflexivity | exact E1 | apply load_nonneg] |]).
    split; [by rewrite <- E2, negb_involutive |]. auto 10.
  Qed.

Lemma process_disc_access_run :
    exists d' m', process_disc_access table (head r) (p, m) =
        Ok (tt, (p <| disk_image_ := Some d' |>, m')) /\ mem_ok m' /\
      (forall b, mem_byte m' b = ByteMem.store 1 (transferred f d r) (status r) 0 b) /\ disk_after f d r d'.
  Proof using All.
    destruct request_inv as (data & sector & _ & Hdata & Hhdr & H0n & Hsec & Hs0 & Hfrom & Hout & Hdw & Hbuf &
      Hlen & Htail & Hst & Hl1 & Hw1 & Hn1).
    destruct Hplaced as (Htl & Hal & _). assert (Ht : table mod 16 = 0) by zlia.
    assert (Hfield : forall n a, 0 <= ByteMem.load n f a) by apply load_nonneg.
    unfold process_disc_access. cbv zeta.
    rewrite (st_bind_run _ _ _ _ _ (read_desc_run table (head r) p m Hm Ht)), <- Hhdr.
    erewrite st_bind_run by (apply read_outhdr_run; [done | rewrite Hhdr; apply (mem_load_range 8 m _ Hm) | done]).
    cbn [type Peripheral.sector]. rewrite Hsec, <- Hout, flag_next. unfold has_next in H0n. rewrite H0n. cbn [negb].
    rewrite (st_bind_run _ _ _ _ _ (read_desc_run table _ p m Hm Ht)), <- Hdata.
    rewrite flag_writes. unfold device_writes in Hdw. rewrite Hdw, negb_involutive, eqb_reflx. cbn [negb].
    rewrite <- Hbuf, <- Hlen, <- Htail.
    destruct (transfer_run sector) as (d' & m1 & E1 & Hm1 & Hb1 & Hd'); try done;
      try (rewrite Hbuf || rewrite Hlen; rewrite Hdata; apply Hfield).
    rewrite (st_bind_run _ _ _ _ _ E1), (st_bind_run _ _ _ _ _ (read_desc_run table _ _ m1 Hm1 Ht)).
    assert (Hsame : descriptor (mem_byte m1) table (tail r) = descriptor f table (tail r)).
    { assert (0 <= tail r) by (rewrite Htail, Hdata; apply Hfield).
      assert (0 <= buffer r) by (rewrite Hbuf, Hdata; apply Hfield).
      unfold descriptor. cbv zeta. f_equal; (etrans; [apply ByteMem.load_ext; intros; apply Hb1 |]);
        apply transferred_apart; lia. }
    rewrite Hsame, flag_status, Hl1. unfold device_writes in Hw1. unfold has_next in Hn1. rewrite Hw1, Hn1. cbn [negb orb Z.eqb Pos.eqb andb].
    rewrite <- Hst.
    destruct (Write_run W8 (status r) 0 (p <| disk_image_ := Some d' |>) m1 Hm1) as (m2 & E2 & Hm2 & Hb2);
      [rewrite Hst; apply (mem_load_range 8 m _ Hm) | decide_it | apply Z.mod_1_r |].
    exists d', m2. split; [exact E2 |]. split; [done |]. split; [| done].
    intros b. rewrite Hb2. apply ByteMem.store_ext, Hb1.
  Qed.

Lemma VirtioDiskAccess_run :
    queue_num_ p = num -> apart table (status r) 1 ->
    exists d' m', VirtioDiskAccess table (p, m) = Ok (tt, (p <| disk_image_ := Some d' |>, m')) /\ mem_ok m' /\
      (forall b, ByteMem.store 4 (mem_byte m') kPlicClaimAddress 1 b = completed f d table r b) /\
      disk_after f d r d'.
  Proof using All.
    intros Hq Hap. unfold apart in Hap.
    destruct request_inv as (data & _ & Hhead & Hdata & _ & _ & _ & _ & _ & _ & _ & Hbuf & _ & _ & Hst & _).
    assert (Hst0 : 0 <= status r) by (rewrite Hst; apply load_nonneg).
    assert (Hbuf0 : 0 <= buffer r) by (rewrite Hbuf, Hdata; apply load_nonneg).
    assert (Hst1 : status r < 2 ^ 32) by apply Hplaced.
    unfold VirtioDiskAccess. cbv zeta.
    rewrite (st_bind_run _ _ _ (queue_num_ p) (p, m)) by done. rewrite Hq.
    rewrite (uint_small 32 (num * 16)), (Z.mul_comm num 16) by (unfold in_u; lia).
    rewrite (sint_small 32 eq_refl (2 + num)), (sint_small 32 eq_refl (2 * (2 + num))) by (unfold in_s; lia).
    rewrite (uint_small 64 (table + 16 * num)) by (unfold in_u; lia).
    rewrite (uint_small 64 (table + 16 * num + 2 * (2 + num) + 4096 - 1)) by (unfold in_u; lia).
    replace ((table + 16 * num + 2 * (2 + num) + 4096 - 1) / 4096 * 4096) with (used table) by (unfold used; zlia).
    rewrite (uint_small 64 (used table)) by (unfold used, in_u; lia). fold (avail table num).
    assert (Ht : table mod 16 = 0) by zlia.
    rewrite (st_bind_run _ _ _ _ _ (get_desc_index_run table num p m Hm Ht Hq Hnum)), <- Hhead.
    destruct process_disc_access_run as (d' & m1 & E1 & Hm1 & Hb1 & Hd'). rewrite (st_bind_run _ _ _ _ _ E1).
    destruct (process_used_buffer_run table (ByteMem.load 2 f (used table + 2)) (head r)
      (p <| disk_image_ := Some d' |>) m1) as (m2 & E2 & Hm2 & Hb2); [done | done | | |].
    - rewrite Hhead. apply (mem_load_range 2 m _ Hm).
    - symmetry. etrans; [apply ByteMem.load_ext; intros; apply Hb1 |].
      rewrite ByteMem.load_store_other by (unfold used; zlia). apply transferred_apart; unfold used; lia.
    - exists d', m2. split; [done |]. split; [done |]. split; [| done].
      intros b. unfold completed. cbv zeta. apply ByteMem.store_ext. rewrite Hb2.
      do 3 apply ByteMem.store_ext. apply Hb1.
  Qed.
End Request.

(** *** Publishing a request *)

Section Publish.
  Import Peripheral VirtQueue.
  Context (f : ByteMem.t) (table num head : Z).
  Context (Hn : 2 <= num <= 8) (Ht : 0 <= table) (Htop : table + 8192 <= 2 ^ 32).

  Abbreviation index := (ByteMem.load 2 f (avail table num + 2)).

Lemma publish_index : 0 <= index < 2 ^ 16 -> ByteMem.load 2 (publish f table num head) (avail table num + 2) = u16 (index + 1).
  Proof using Hn Ht Htop. intros Hi. unfold publish. by rewrite ByteMem.load_store_same by lia. Qed.

  (** The slots are apart from the index. *)
Lemma publish_slot i : ByteMem.load 2 (publish f table num head) (avail_slot table num i) =
    ByteMem.load 2 (ByteMem.store 2 f (avail_slot table num index) head) (avail_slot table num i).
  Proof using Hn Ht Htop.
    unfold publish. pose proof (Z.mod_pos_bound i num ltac:(lia)).
    rewrite ByteMem.load_store_other; [done |]. unfold avail_slot, avail. intros. zlia.
  Qed.

  (** What is published is what the standard finds there ... *)
Lemma published_publish : 0 <= index < 2 ^ 16 -> in_u 16 head -> published (publish f table num head) table num = head.
  Proof using Hn Ht Htop.
    intros Hi Hh. unfold published. rewrite publish_slot, publish_index by done.
    replace (u16 (u16 (index + 1) - 1)) with index by (unfold uint; zlia).
    rewrite ByteMem.load_store_same by lia. by apply uint_small.
  Qed.

  (** ... but the emulator, which looks under the advanced index, does not see it: it
      takes what the following slot happens to hold. *)
Lemma published_head_not_announced :
    0 <= index < 2 ^ 16 - 1 ->
    announced (publish f table num head) table num = ByteMem.load 2 f (avail_slot table num (index + 1)).
  Proof using Hn Ht Htop.
    intros Hi. unfold announced. rewrite publish_slot, publish_index by lia.
    rewrite (uint_small 16) by (unfold in_u; lia). set (i := index) in *. clearbody i.
    pose proof (Z.mod_pos_bound i num ltac:(lia)).
    assert (Hslot : (i + 1) mod num <> i mod num).
    { rewrite (Z.add_mod i 1), (Z.mod_small 1) by lia. destruct (Z.lt_ge_cases (i mod num + 1) num).
      - rewrite Z.mod_small; lia.
      - replace (i mod num + 1) with num by lia. rewrite Z.mod_same; lia. }
    unfold avail_slot, avail in *.
    assert (0 <= i mod num < num /\ 0 <= (i + 1) mod num < num) by (split; apply Z.mod_pos_bound; lia).
    generalize dependent (i mod num). generalize dependent ((i + 1) mod num). intros.
    rewrite ByteMem.load_store_other; [done |]; intros; zlia.
  Qed.
End Publish.

(* ------------------------------------------------------------------ *)
(** ** Properties *)

Section Properties.
  Context {M : Type} `{GuestMemoryLaws M}.
  Import Peripheral VirtQueue.

  (** The device after a request. *)
Definition served (p : Peripheral.t) (num : Z) (d' : disk) : Peripheral.t :=
    p <| virtio_write_ := false |> <| queue_num_ := num |> <| disk_image_ := Some d' |>
      <| virtio_interrupt_ := true |>.

End Properties.

(** *** A concrete request: two bytes of sector 1 to 0x3000 *)

Definition queue_writes : list (width * Z * Z) :=
  [ (W32, Peripheral.kVirtioMmioQueueNum, 8); (W32, Peripheral.kVirtioMmioPageSize, 4096);
    (W32, Peripheral.kVirtioMmioQueuePfn, 8);
    (* descriptors 0, 1 and 2 *)
    (W64, 0x8000, 0x200); (W32, 0x8008, 16); (W16, 0x800C, 1); (W16, 0x800E, 1);
    (W64, 0x8010, 0x3000); (W32, 0x8018, 2); (W16, 0x801C, 3); (W16, 0x801E, 2);
    (W64, 0x8020, 0x300); (W32, 0x8028, 1); (W16, 0x802C, 2);
    (* slots 0 and 1 of the available ring hold head 0; one head is published *)
    (W16, 0x8084, 0); (W16, 0x8086, 0); (W16, 0x8082, 1);
    (* the header and the status byte *)
    (W32, 0x200, 0); (W64, 0x208, 1); (W8, 0x300, 0xFF) ].

Definition queue_memory : MemoryWrapper.t :=
  match write_all MemoryWrapper.MemoryWrapper queue_writes with
  | Ok m => m | Err _ => MemoryWrapper.MemoryWrapper end.

Lemma queue_memory_ok : mem_ok queue_memory.
Proof.
  apply (write_all_ok MemoryWrapper.MemoryWrapper _ queue_writes);
    [exact MemoryWrapper_init_ok | decide_it | vm_compute; reflexivity].
Qed.

Definition sample_request : VirtQueue.request := VirtQueue.mk 0 2 0x200 false 512 0x3000 2 0x300.

Definition notified : Peripheral.t :=
  Peripheral.CheckDeviceWrite Peripheral.kVirtioMmioQueueNotify 4 0 sample_device.

Lemma sample_programmed : VirtQueue.programmed (mem_byte queue_memory) 0x8000 8.
Proof. repeat split; vm_compute; reflexivity || discriminate. Qed.

Lemma sample_well_placed : VirtQueue.well_placed (mk_disk 1024 {[ 512 := 0x5A; 513 := 0xA5 ]}) 0x8000 8 sample_request.
Proof. repeat split; try (by vm_compute); left; by vm_compute. Qed.

