(* ===== verification/Syscall.v ===== *)
(** * system_call_emulator.h/.cpp: host system calls for the guest

    The calls into the host operating system, which is not part of the
    repository, are the operations of [Class HostOs]; they act on whatever the
    type [M] of the guest's surroundings records of the host.  The state of
    [SystemCallEmulation] is the register file, the program break and the global
    [openHandles].  Debug output is not modelled. *)

From S2P Require Import Prelude BitTools Memory Isa.

(** The members of the host's [struct stat] that the code copies. *)
Record HostStat : Type := mk_host_stat {
  h_dev : Z; h_ino : Z; h_mode : Z; h_nlink : Z; h_uid : Z; h_gid : Z; h_rdev : Z; h_size : Z;
  h_blksize : Z; h_blocks : Z; h_atim_sec : Z; h_atim_nsec : Z; h_mtim_sec : Z; h_mtim_nsec : Z;
  h_ctim_sec : Z; h_ctim_nsec : Z
}.

(* system_call_emulator.h:13-34 Riscv32NewlibStat *)
Record Riscv32NewlibStat : Type := mk_guest_stat {
  st_dev : Z; st_ino : Z; st_mode : Z; st_nlink : Z; st_uid : Z; st_gid : Z; st_rdev : Z; st_size : Z;
  st_spare0 : Z; st_atim : Z; st_spare1 : Z; st_spare1_2 : Z; st_mtim : Z; st_spare2 : Z; st_spare2_2 : Z;
  st_ctim : Z; st_spare3 : Z; st_blksize : Z; st_blocks : Z; st_spare4_0 : Z; st_spare4_1 : Z
}.

(** The host: POSIX calls, the values of its [O_*] flags, and what an
    uninitialised [Riscv32NewlibStat] on its stack holds (its last field: the
    byte image's padding). *)
Class HostOs (M : Type) := {
  os_write : Z -> list Z -> Z -> M -> Z * M;              (* fd, bytes, count *)
  os_read : Z -> Z -> M -> (Z * (Z -> Z)) * M;            (* fd, count: result and buffer contents *)
  os_fstat : Z -> M -> (Z * HostStat) * M;
  os_close : Z -> M -> Z * M;
  os_open : list Z -> Z -> Z -> M -> Z * M;               (* path, flags, mode *)
  os_lseek : Z -> Z -> Z -> M -> Z * M;
  O_RDWR : Z; O_RDONLY : Z; O_APPEND : Z; O_CLOEXEC : Z; O_CREAT : Z; O_DIRECT : Z;
  O_DIRECTORY : Z; O_EXCL : Z; O_NOCTTY : Z; O_NONBLOCK : Z; O_SYNC : Z; O_TRUNC : Z;
  stack_stat : Riscv32NewlibStat;
  stack_padding : Z
}.

(** The members of the host's structure are at least as wide as the guest's, so
    no assignment narrows; the signed ones are signed on the host too. *)
(* system_call_emulator.cpp:75-95 ConvGuestStatToHostStat *)
Definition ConvGuestStatToHostStat (g : Riscv32NewlibStat) (h : HostStat) : HostStat :=
  mk_host_stat (st_dev g) (st_ino g) (st_mode g) (st_nlink g) (st_uid g) (st_gid g) (st_rdev g) (st_size g)
    (st_blksize g) (st_blocks g) (st_atim g) 0 (st_mtim g) 0 (st_ctim g) 0.

(* system_call_emulator.cpp:97-114 ConvHostStatToGuestStat *)
Definition ConvHostStatToGuestStat (h : HostStat) (g : Riscv32NewlibStat) : Riscv32NewlibStat :=
  mk_guest_stat (u16 (h_dev h)) (u16 (h_ino h)) (u32 (h_mode h)) (u16 (h_nlink h)) (u16 (h_uid h))
    (u16 (h_gid h)) (u16 (h_rdev h)) (s32 (h_size h)) (st_spare0 g) (s64 (h_atim_sec h)) (st_spare1 g)
    (st_spare1_2 g) (s64 (h_mtim_sec h)) (st_spare2 g) (st_spare2_2 g) (s64 (h_ctim_sec h)) (st_spare3 g)
    (s32 (h_blksize h)) (s32 (h_blocks h)) (st_spare4_0 g) (st_spare4_1 g).

(** The members of a guest structure at their widths. *)
Definition guest_stat_ok (g : Riscv32NewlibStat) : Prop :=
  Forall (in_u 16) [st_dev g; st_ino g; st_nlink g; st_uid g; st_gid g; st_rdev g] /\ in_u 32 (st_mode g) /\
  Forall (in_s 32) [st_size g; st_blksize g; st_blocks g] /\ Forall (in_s 64) [st_atim g; st_mtim g; st_ctim g].

(** Converted to the host and back, a guest structure is itself but for the spare
    members, which stay those of the target. *)
Lemma stat_conversions g h :
  guest_stat_ok g -> ConvHostStatToGuestStat (ConvGuestStatToHostStat g h) g = g.
Proof.
  intros (H16 & H32 & Hs32 & Hs64). rewrite !Forall_cons in *. destruct H16 as (? & ? & ? & ? & ? & ? & _).
  destruct Hs32 as (? & ? & ? & _). destruct Hs64 as (? & ? & ? & _).
  unfold ConvHostStatToGuestStat, ConvGuestStatToHostStat. cbn.
  by rewrite !(uint_small 16), (uint_small 32), !(sint_small 32 eq_refl), !(sint_small 64 eq_refl) by done; destruct g.
Qed.

(** The object representation of the structure: 88 bytes, little endian, with
    four bytes of padding at the end. *)
Definition le_bytes (n : nat) (v : Z) : list Z := map (fun k => u8 (v >>. (8 * Z.of_nat k))) (seq 0 n).

(* system_call_emulator.h:13-34 Riscv32NewlibStat *)
Definition stat_image (g : Riscv32NewlibStat) (padding : Z) : list Z :=
  le_bytes 2 (st_dev g) ++ le_bytes 2 (st_ino g) ++ le_bytes 4 (st_mode g) ++ le_bytes 2 (st_nlink g) ++
  le_bytes 2 (st_uid g) ++ le_bytes 2 (st_gid g) ++ le_bytes 2 (st_rdev g) ++ le_bytes 4 (st_size g) ++
  le_bytes 4 (st_spare0 g) ++ le_bytes 8 (st_atim g) ++ le_bytes 4 (st_spare1 g) ++ le_bytes 4 (st_spare1_2 g) ++
  le_bytes 8 (st_mtim g) ++ le_bytes 4 (st_spare2 g) ++ le_bytes 4 (st_spare2_2 g) ++ le_bytes 8 (st_ctim g) ++
  le_bytes 4 (st_spare3 g) ++ le_bytes 4 (st_blksize g) ++ le_bytes 4 (st_blocks g) ++
  le_bytes 4 (st_spare4_0 g) ++ le_bytes 4 (st_spare4_1 g) ++ le_bytes 4 padding.

Module Syscall.

(* system_call_emulator.cpp:134-140 SystemCallEmulation *)
Record t : Type := mk {
  reg : zvec;
  brk : Z;
  openHandles : Z
}.

#[global] Instance t_settable : Settable t := fun x => mk (reg x) (brk x) (openHandles x).
#[global] Instance set_reg : Setter reg := ltac:(mk_setter reg).
#[global] Instance set_brk : Setter brk := ltac:(mk_setter brk).
#[global] Instance set_openHandles : Setter openHandles := ltac:(mk_setter openHandles).

Section Calls.
  Context {M : Type} `{GuestMemory M} `{HostOs M}.

(** [reg[num]] and [reg[num] = value]. *)
Definition reg_get (num : Registers) : ST (t * M) Z := r ← field reg; mret (zget r num).
Definition reg_put (num : Registers) (value : Z) : ST (t * M) unit := r ← field reg; reg ::= zset r num value.

(** A call into the host. *)
Definition host {A} (f : M -> A * M) : ST (t * M) A := fun s => let '(a, m) := f s.2 in Ok (a, (s.1, m)).

(* system_call_emulator.cpp:116-124 MemoryWrapperStrlen *)
Fixpoint strlen_loop (mem : M) (index : Z) (room : nat) (counter : Z) : res Z :=
  b ← mem_read W8 mem index;
  if negb (b =? 0) then
    match room with
    | O => mret counter
    | S room' => strlen_loop mem (u64 (index + 1)) room' (u64 (counter + 1))
    end
  else mret counter.

(* system_call_emulator.cpp:116-124 MemoryWrapperStrlen *)
Definition MemoryWrapperStrlen (mem : M) (address max : Z) : res Z := strlen_loop mem address (Z.to_nat max) 0.

(* system_call_emulator.cpp:126-132 MemoryWrapperCopy *)
Fixpoint MemoryWrapperCopy (mem : M) (address : Z) (length : nat) : res (list Z) :=
  match length with
  | O => mret []
  | S n =>
      b ← mem_read W8 mem address;
      l ← MemoryWrapperCopy mem (u64 (address + 1)) n;
      mret (b :: l)
  end.

(** The loops that copy a host buffer to the guest. *)
(* system_call_emulator.cpp:187-189 SystemCallEmulation *)
Fixpoint write_bytes (address : Z) (l : list Z) : ST (t * M) unit :=
  match l with
  | [] => mret tt
  | b :: l' => mem_put (fun m => mem_write W8 m address b);; write_bytes (u64 (address + 1)) l'
  end.

(** [new unsigned char[length]] throws when [length] is negative. *)
Definition new_array (length : Z) : ST (t * M) unit := when (length <? 0) (raise Exception).

(* system_call_emulator.cpp:150-164 SystemCallEmulation *)
Definition sys_write : ST (t * M) unit :=
  a0 ← reg_get A0; a1 ← reg_get A1; a2 ← reg_get A2;
  let length := s32 a2 in
  new_array length;;
  buffer ← mem_get (fun m => MemoryWrapperCopy m a1 (Z.to_nat length));
  return_value ← host (os_write (s32 a0) buffer length);
  reg_put A0 (u64 return_value).

(* system_call_emulator.cpp:165-177 SystemCallEmulation *)
Definition sys_brk (top : Z) : ST (t * M) unit :=
  a0 ← reg_get A0;
  if a0 =? 0 then b ← field brk; reg_put A0 b
  else if a0 <? top then brk ::= a0
  else reg_put A0 (u64 (-1)).

(* system_call_emulator.cpp:178-190 SystemCallEmulation *)
Definition sys_read : ST (t * M) unit :=
  a0 ← reg_get A0; a2 ← reg_get A2;
  let length := s32 a2 in
  new_array length;;
  '(return_value, buffer) ← host (os_read (s32 a0) length);
  reg_put A0 (u32 return_value);;
  a1 ← reg_get A1;
  write_bytes a1 (map (fun i => u8 (buffer i)) (seqZ 0 length)).

(* system_call_emulator.cpp:191-214 SystemCallEmulation *)
Definition sys_fstat : ST (t * M) unit :=
  a0 ← reg_get A0;
  '(return_value, host_stat) ← host (os_fstat (s32 a0));
  let guest_stat := ConvHostStatToGuestStat host_stat stack_stat in
  a1 ← reg_get A1;
  write_bytes a1 (stat_image guest_stat stack_padding);;
  reg_put A0 (u64 (s32 return_value)).

(* system_call_emulator.cpp:215-230 SystemCallEmulation *)
Definition sys_close : ST (t * M) unit :=
  handles ← field openHandles;
  return_value ←
    (if 0 <? handles then
       a0 ← reg_get A0;
       return_value ← host (os_close (s32 a0));
       openHandles ::= s32 (handles - 1);;
       mret (s32 return_value)
     else mret 0);
  reg_put A0 (u64 return_value).

(* system_call_emulator.cpp:237-260 SystemCallEmulation *)
Definition open_flags (a1 : Z) : Z :=
  let test (bit value : Z) := if negb ((a1 .& bit) =? 0) then value else 0 in
  let flag := u32 (if negb ((a1 .& 0x000002) =? 0) then O_RDWR else O_RDONLY) in
  let flag := flag .| u32 (test 0x000008 O_APPEND) in
  let flag := flag .| u32 (test 0x040000 O_CLOEXEC) in
  let flag := flag .| u32 (test 0x000200 O_CREAT) in
  let flag := flag .| u32 (test 0x080000 O_DIRECT) in
  let flag := flag .| u32 (test 0x200000 O_DIRECTORY) in
  let flag := flag .| u32 (test 0x000800 O_EXCL) in
  let flag := flag .| u32 (test 0x008000 O_NOCTTY) in
  let flag := flag .| u32 (test 0x004000 O_NONBLOCK) in
  let flag := flag .| u32 (test 0x002000 O_SYNC) in
  flag .| u32 (test 0x000400 O_TRUNC).

(* system_call_emulator.cpp:231-286 SystemCallEmulation *)
Definition sys_open : ST (t * M) unit :=
  a0 ← reg_get A0; a1 ← reg_get A1; a2 ← reg_get A2;
  let flag := open_flags a1 in
  let kMax := 1024 in
  length ← mem_get (fun m => MemoryWrapperStrlen m a0 kMax);
  return_value ←
    (if 0 <? length then
       buffer ← mem_get (fun m => MemoryWrapperCopy m a0 (Z.to_nat length));
       r ← host (os_open buffer (s32 flag) a2);
       let return_value := s32 r in
       handles ← field openHandles;
       when (0 <=? return_value) (openHandles ::= s32 (handles + 1));;
       mret return_value
     else mret (-1));
  reg_put A0 (u64 return_value).

(* system_call_emulator.cpp:287-291 SystemCallEmulation *)
Definition sys_lseek : ST (t * M) unit :=
  a0 ← reg_get A0; a1 ← reg_get A1; a2 ← reg_get A2;
  r ← host (os_lseek (s32 a0) (s64 a1) (s32 a2));
  reg_put A0 (u64 (s32 r)).

(** The result is the pair (error_flag, end_flag). *)
(* system_call_emulator.cpp:136-298 SystemCallEmulation *)
Definition SystemCallEmulation (top : Z) : ST (t * M) (bool * bool) :=
  a7 ← reg_get A7;
  if a7 =? 93 then mret (false, true)
  else if a7 =? 64 then sys_write;; mret (false, false)
  else if a7 =? 214 then sys_brk top;; mret (false, false)
  else if a7 =? 63 then sys_read;; mret (false, false)
  else if a7 =? 80 then sys_fstat;; mret (false, false)
  else if a7 =? 57 then sys_close;; mret (false, false)
  else if a7 =? 1024 then sys_open;; mret (false, false)
  else if a7 =? 62 then sys_lseek;; mret (false, false)
  else mret (false, true).

End Calls.
End Syscall.

(** ** What the host promises

    A call into the host operating system acts on the host and on the buffers it
    is given, never on the guest's memory. *)
Definition untouched {M} `{GuestMemoryLaws M} (m m' : M) : Prop :=
  (mem_ok m -> mem_ok m') /\ forall a, mem_byte m' a = mem_byte m a.

Class HostOsLaws (M : Type) `{GuestMemoryLaws M} `{HostOs M} := {
  os_write_frame fd buffer count m : untouched m (os_write fd buffer count m).2;
  os_read_frame fd count m : untouched m (os_read fd count m).2;
  os_fstat_frame fd m : untouched m (os_fstat fd m).2;
  os_close_frame fd m : untouched m (os_close fd m).2;
  os_open_frame path flags mode m : untouched m (os_open path flags mode m).2;
  os_lseek_frame fd offset whence m : untouched m (os_lseek fd offset whence m).2
}.

(** A host without files: writes to the console succeed, every other call fails;
    the flags are those of Linux. *)
Definition blank_host_stat : HostStat := mk_host_stat 0 0 0 0 0 0 0 0 0 0 0 0 0 0 0 0.
Definition blank_guest_stat : Riscv32NewlibStat := mk_guest_stat 0 0 0 0 0 0 0 0 0 0 0 0 0 0 0 0 0 0 0 0 0.

Definition console_host (M : Type) : HostOs M := {|
  os_write := fun fd _ count m => (if (fd =? 1) || (fd =? 2) then count else -1, m);
  os_read := fun _ _ m => ((0, fun _ => 0), m);
  os_fstat := fun _ m => ((-1, blank_host_stat), m);
  os_close := fun _ m => (-1, m);
  os_open := fun _ _ _ m => (-1, m);
  os_lseek := fun _ _ _ m => (-1, m);
  O_RDWR := 2; O_RDONLY := 0; O_APPEND := 0x400; O_CLOEXEC := 0x80000; O_CREAT := 0x40; O_DIRECT := 0x4000;
  O_DIRECTORY := 0x10000; O_EXCL := 0x80; O_NOCTTY := 0x100; O_NONBLOCK := 0x800; O_SYNC := 0x101000; O_TRUNC := 0x200;
  stack_stat := blank_guest_stat;
  stack_padding := 0
|}.

Lemma console_host_laws M `{GuestMemoryLaws M} : HostOsLaws (H1 := console_host M) M.
Proof. split; by split. Qed.
