(* ===== verification/Mmu.v ===== *)
(** * Mmu.h / Mmu.cpp: address translation

    [Module Mmu] is the class, over any memory with the [GuestMemory]
    interface; [Module PageTable] the specification, an arithmetic description
    of the Sv32 and Sv39 page-table walks over the flat byte memory.  The MMU
    object and the memory it points to are threaded together. *)

From S2P Require Import Prelude BitTools Memory Pte Isa.

Module Mmu.

(* Mmu.h:28-33 Mmu *)
Record t : Type := mk {
  mxl_ : Z;
  page_fault_ : bool;
  faulting_address_ : Z;
  privilege_ : PrivilegeMode
}.

(* Mmu.h:29-32 Mmu *)
Definition init : t := mk 0 false 0 MACHINE_MODE.

#[global] Instance t_settable : Settable t := fun u => mk (mxl_ u) (page_fault_ u) (faulting_address_ u) (privilege_ u).
#[global] Instance set_mxl_ : Setter mxl_ := ltac:(mk_setter mxl_).
#[global] Instance set_page_fault_ : Setter page_fault_ := ltac:(mk_setter page_fault_).
#[global] Instance set_faulting_address_ : Setter faulting_address_ := ltac:(mk_setter faulting_address_).
#[global] Instance set_privilege_ : Setter privilege_ := ltac:(mk_setter privilege_).

(* Mmu.h:17-17 SetMxl *)
Definition SetMxl (mxl : Z) (u : t) : t := u <| mxl_ := mxl |>.

(* Mmu.cpp:16-18 Mmu::SetPrivilege *)
Definition SetPrivilege (privilege : PrivilegeMode) (u : t) : t := u <| privilege_ := privilege |>.

(* Mmu.h:20-20 GetPageFault *)
Definition GetPageFault (u : t) : bool := page_fault_ u.

(* Mmu.h:21-21 GetFaultingAddress *)
Definition GetFaultingAddress (u : t) : Z := faulting_address_ u.

(* Mmu.h:33-33 kPageSize *)
Definition kPageSize : Z := 1 <<. 12.

(* Mmu.h:34-34 kMmuLevels *)
Definition kMmuLevels : nat := 2.

Definition set_fault (fault : bool) (address : Z) (u : t) : t :=
  u <| page_fault_ := fault |> <| faulting_address_ := address |>.

(** How the loop over the levels ends. *)
Inductive walk_result : Type :=
| WalkFault
| WalkLeaf (level : nat) (pte pte_address : Z).

Section Translation.
  Context {M : Type} `{GuestMemory M}.

(* Mmu.cpp:62-91 Mmu::VirtualToPhysical64 *)
Fixpoint walk64 (mem : M) (vpn : list Z) (ppn : Z) (level : nat) : res walk_result :=
  let kPteSize := 8 in
  let pte_address := u64 (u64 (ppn * kPageSize) + u64 (nth level vpn 0 * kPteSize)) in
  pte_value ← mem_read W64 mem pte_address;
  let pte := Pte64.assign 0 pte_value in
  if negb (Pte64.IsValid pte) then mret WalkFault
  else if Pte64.IsLeaf pte then mret (WalkLeaf level pte pte_address)
  else match level with
       | O => mret WalkFault
       | S level' => walk64 mem vpn (Pte64.GetPpn pte) level'
       end.

(* Mmu.cpp:127-154 Mmu::VirtualToPhysical32 *)
Fixpoint walk32 (mem : M) (vpn0 vpn ppn : Z) (level : nat) : res walk_result :=
  let kPteSize := 4 in
  let pte_address := u32 (u32 (ppn * kPageSize) + u32 (vpn * kPteSize)) in
  pte_value ← mem_read W32 mem pte_address;
  let pte := Pte32.assign 0 pte_value in
  if negb (Pte32.IsValid pte) then mret WalkFault
  else if Pte32.IsLeaf pte then mret (WalkLeaf level pte pte_address)
  else match level with
       | O => mret WalkFault
       | S level' => walk32 mem vpn0 vpn0 (Pte32.GetPpn pte) level'
       end.

(** [page_fault_ = true; faulting_address_ = virtual_address; return ...]. *)
Definition fault_at (virtual_address : Z) : ST (t * M) Z :=
  modify (prod_map (set_fault true virtual_address) id);; mret virtual_address.

(* Mmu.cpp:36-110 Mmu::VirtualToPhysical64 *)
Definition VirtualToPhysical64 (virtual_address satp : Z) (write_access : bool) : ST (t * M) Z :=
  let mode := u8 (bitcrop satp 4 60) in
  if mode =? 0 then mret virtual_address
  else if negb (mode =? 8) then fault_at virtual_address
  else
    let ppn := bitcrop satp 44 0 in
    let vpn := [bitcrop virtual_address 9 12; bitcrop virtual_address 9 21;
                bitcrop virtual_address 9 30] in
    let offset := u16 (bitcrop virtual_address 12 0) in
    let k64BitMmuLevels := 3%nat in
    w ← mem_get (fun mem => walk64 mem vpn ppn (k64BitMmuLevels - 1));
    match w with
    | WalkFault => fault_at virtual_address
    | WalkLeaf level pte pte_address =>
        if ((0 <? level)%nat && negb (Pte64.GetPpn0 pte =? 0))
           || ((1 <? level)%nat && negb (Pte64.GetPpn1 pte =? 0))
        then fault_at virtual_address
        else
          let pte := Pte64.SetA pte 1 in
          let pte := if write_access then Pte64.SetD pte 1 else pte in
          mem_put (fun mem => mem_write W64 mem pte_address (Pte64.GetValue pte));;
          let ppn2 := Pte64.GetPpn2 pte in
          let ppn1 := if (1 <? level)%nat then nth 1 vpn 0 else Pte64.GetPpn1 pte in
          let ppn0 := u32 (if (0 <? level)%nat then nth 0 vpn 0 else Pte64.GetPpn0 pte) in
          let physical_address :=
            u64 (ppn2 <<. 30) .| u64 (ppn1 <<. 21) .| u64 (ppn0 <<. 12) .| offset in
          let kMask56Bit := 0x00FFFFFFFFFFFFFF in
          mret (u64 (physical_address .& kMask56Bit))
    end.

(* Mmu.cpp:112-180 Mmu::VirtualToPhysical32 *)
Definition VirtualToPhysical32 (virtual_address satp : Z) (write_access : bool) : ST (t * M) Z :=
  let mode := u8 (bitcrop satp 1 31) in
  if mode =? 0 then mret virtual_address
  else
    let ppn := u32 (bitcrop satp 22 0) in
    let vpn1 := u16 (bitcrop virtual_address 10 22) in
    let vpn0 := u16 (bitcrop virtual_address 10 12) in
    let offset := u16 (bitcrop virtual_address 12 0) in
    w ← mem_get (fun mem => walk32 mem vpn0 vpn1 ppn (kMmuLevels - 1));
    match w with
    | WalkFault => fault_at virtual_address
    | WalkLeaf level pte pte_address =>
        if (0 <? level)%nat && negb (Pte32.GetPpn0 pte =? 0) then fault_at virtual_address
        else
          let pte := Pte32.SetA pte 1 in
          let pte := if write_access then Pte32.SetD pte 1 else pte in
          mem_put (fun mem => mem_write W32 mem pte_address (Pte32.GetValue pte));;
          let ppn1 := Pte32.GetPpn1 pte in
          let ppn0 := u32 (if (level =? 1)%nat then vpn0 else Pte32.GetPpn0 pte) in
          let physical_address := u64 (ppn1 <<. 22) .| u64 (ppn0 <<. 12) .| offset in
          mret (u64 (physical_address .& 0xFFFFFFFF))
    end.

(* Mmu.cpp:20-34 Mmu::VirtualToPhysical *)
Definition VirtualToPhysical (virtual_address satp : Z) (write_access : bool) : ST (t * M) Z :=
  modify (prod_map (set_fault false 0) id);;
  u ← gets fst;
  if decide (privilege_ u = MACHINE_MODE) then mret virtual_address
  else if mxl_ u =? 1 then VirtualToPhysical32 virtual_address satp write_access
  else VirtualToPhysical64 virtual_address satp write_access.

End Translation.
End Mmu.

(* ------------------------------------------------------------------ *)
(** ** Specification: Sv32 and Sv39 over a flat byte memory *)

Module PageTable.

Record format : Type := Format {
  top_level : nat;      (* level of the root table *)
  vpn_bits : Z;         (* bits of the page number each level consumes *)
  pte_width : width;    (* size of an entry *)
  ppn_bits : Z;         (* bits of a physical page number *)
  pa_bits : Z           (* bits of a physical address *)
}.

Definition sv39 : format := Format 2 9 W64 44 56.
Definition sv32 : format := Format 1 10 W32 22 32.

Definition valid (pte : Z) : bool := Z.odd pte && (Z.testbit pte 1 || negb (Z.testbit pte 2)).
Definition leaf (pte : Z) : bool := Z.testbit pte 1 || Z.testbit pte 2 || Z.testbit pte 3.

Section Walk.
  Context (fmt : format).

  (** Bits of the virtual address below the page number of a level-[l] page. *)
Definition span (l : nat) : Z := 12 + vpn_bits fmt * Z.of_nat l.

Definition vpn (va : Z) (l : nat) : Z := (va / 2 ^ span l) mod 2 ^ vpn_bits fmt.
Definition ppn (pte : Z) : Z := (pte / 2 ^ 10) mod 2 ^ ppn_bits fmt.

  (** The entry for [va] in the level-[l] table at page [root]; the memory has
      32 address bits. *)
Definition slot (root va : Z) (l : nat) : Z :=
    (root * 4096 + vpn va l * Z.of_nat (nbytes (pte_width fmt))) mod 2 ^ 32.

Definition entry (f : ByteMem.t) (root va : Z) (l : nat) : Z :=
    ByteMem.load (nbytes (pte_width fmt)) f (slot root va l).

  (** The leaf entry for [va]: its level, where it is, and its value. *)
Fixpoint walk (f : ByteMem.t) (va root : Z) (l : nat) : option (nat * Z * Z) :=
    let pte := entry f root va l in
    if negb (valid pte) then None
    else if leaf pte then Some (l, slot root va l, pte)
    else match l with O => None | S l' => walk f va (ppn pte) l' end.

  (** A superpage must start at a multiple of its size. *)
Definition aligned (l : nat) (pte : Z) : bool := ppn pte mod 2 ^ (vpn_bits fmt * Z.of_nat l) =? 0.

Definition physical (va pte : Z) (l : nat) : Z :=
    (ppn pte * 4096 + va mod 2 ^ span l) mod 2 ^ pa_bits fmt.

  (** Physical address, place and value of the leaf entry; [None]: page fault. *)
Definition translate (f : ByteMem.t) (root va : Z) : option (Z * Z * Z) :=
    match walk f va root (top_level fmt) with
    | Some (l, a, pte) => if aligned l pte then Some (physical va pte l, a, pte) else None
    | None => None
    end.

  (** The leaf entry after the access: A set, and D on a write. *)
Definition touched (write : bool) (pte : Z) : Z := pte .| (if write then 0xC0 else 0x40).

Definition touch (f : ByteMem.t) (write : bool) (a pte : Z) : ByteMem.t :=
    ByteMem.store (nbytes (pte_width fmt)) f a (touched write pte).
End Walk.

End PageTable.

(* ------------------------------------------------------------------ *)
(** ** Entries: the class accessors against the specification *)

Lemma Pte64_IsValid_spec pte : Pte64.IsValid pte = PageTable.valid pte.
Proof.
  unfold Pte64.IsValid, PageTable.valid.
  change Pte64.GetV with (get64 FV). change Pte64.GetR with (get64 FR).
  change Pte64.GetW with (get64 FW). rewrite !get64_bit, <- Z.bit0_odd. cbn [flag_pos].
  by destruct (Z.testbit pte 0), (Z.testbit pte 1), (Z.testbit pte 2).
Qed.

Lemma Pte32_IsValid_spec pte : Pte32.IsValid pte = PageTable.valid pte.
Proof.
  unfold Pte32.IsValid, PageTable.valid.
  change Pte32.GetV with (get32 FV). change Pte32.GetR with (get32 FR).
  change Pte32.GetW with (get32 FW). rewrite !get32_bit, <- Z.bit0_odd. cbn [flag_pos].
  by destruct (Z.testbit pte 0), (Z.testbit pte 1), (Z.testbit pte 2).
Qed.

Lemma Pte64_IsLeaf_spec pte : Pte64.IsLeaf pte = PageTable.leaf pte.
Proof.
  unfold Pte64.IsLeaf, PageTable.leaf.
  change Pte64.GetX with (get64 FX). change Pte64.GetR with (get64 FR).
  change Pte64.GetW with (get64 FW). rewrite !get64_bit. cbn [flag_pos].
  by destruct (Z.testbit pte 1), (Z.testbit pte 2), (Z.testbit pte 3).
Qed.

Lemma Pte32_IsLeaf_spec pte : Pte32.IsLeaf pte = PageTable.leaf pte.
Proof.
  unfold Pte32.IsLeaf, PageTable.leaf.
  change Pte32.GetX with (get32 FX). change Pte32.GetR with (get32 FR).
  change Pte32.GetW with (get32 FW). rewrite !get32_bit. cbn [flag_pos].
  by destruct (Z.testbit pte 1), (Z.testbit pte 2), (Z.testbit pte 3).
Qed.

Lemma Pte64_touched pte write :
  (let pte := Pte64.SetA pte 1 in if write : bool then Pte64.SetD pte 1 else pte) =
  PageTable.touched write pte.
Proof.
  cbv zeta. unfold Pte64.SetA, Pte64.SetD, PageTable.touched.
  destruct write; rewrite !SetBit_1_lor by lia; [rewrite <- Z.lor_assoc |]; done.
Qed.

Lemma Pte32_touched pte write :
  (let pte := Pte32.SetA pte 1 in if write : bool then Pte32.SetD pte 1 else pte) =
  PageTable.touched write pte.
Proof.
  cbv zeta. unfold Pte32.SetA, Pte32.SetD, PageTable.touched.
  destruct write; rewrite !SetBit_1_lor by lia; [rewrite <- Z.lor_assoc |]; done.
Qed.

Lemma crop_touched write pte w o :
  10 <= o -> 0 <= w <= 64 -> bitcrop (PageTable.touched write pte) w o = bitcrop pte w o.
Proof.
  intros. apply crop_high_lor; [lia | | lia]. apply (in_u_mono 10); [lia |].
  destruct write; unfold in_u; lia.
Qed.


(** The three (two) fields of a page number and the page offset, put together. *)
Lemma assemble3 a b c d :
  in_u 26 a -> in_u 9 b -> in_u 9 c -> in_u 12 d ->
  u64 (a <<. 30) .| u64 (b <<. 21) .| u64 (c <<. 12) .| d = ((a * 2 ^ 9 + b) * 2 ^ 9 + c) * 2 ^ 12 + d.
Proof.
  intros Ha Hb Hc Hd. unfold in_u in *.
  rewrite !(uint_small 64) by (unfold in_u; rewrite Z.shiftl_mul_pow2 by lia; lia).
  rewrite <- (lor_low _ d), <- (lor_low _ c), <- (lor_low a b) by (unfold in_u; lia).
  by rewrite !Z.shiftl_lor, !Z.shiftl_shiftl by lia.
Qed.

Lemma assemble2 b c d :
  in_u 12 b -> in_u 10 c -> in_u 12 d ->
  u64 (b <<. 22) .| u64 (c <<. 12) .| d = (b * 2 ^ 10 + c) * 2 ^ 12 + d.
Proof.
  intros Hb Hc Hd. unfold in_u in *.
  rewrite !(uint_small 64) by (unfold in_u; rewrite Z.shiftl_mul_pow2 by lia; lia).
  rewrite <- (lor_low _ d), <- (lor_low _ c) by (unfold in_u; lia).
  by rewrite !Z.shiftl_lor, !Z.shiftl_shiftl by lia.
Qed.

(** Evaluate the shifts and tests of a known level. *)
Ltac level_cases :=
  repeat match goal with
  | |- context [Z.of_nat ?n] => ground_int (Z.of_nat n)
  | |- context [(?a <? ?b)%nat] => ground_bool (a <? b)%nat
  | |- context [9 * ?b] => ground_int (9 * b)
  | |- context [10 * ?b] => ground_int (10 * b)
  | |- context [12 + ?b] => ground_int (12 + b)
  | H : context [Z.of_nat ?n] |- _ => let k := eval vm_compute in (Z.of_nat n) in
      lazymatch k with Z0 => idtac | Zpos _ => idtac end; change (Z.of_nat n) with k in H
  | H : context [9 * ?b] |- _ => let k := eval vm_compute in (9 * b) in
      lazymatch k with Z0 => idtac | Zpos _ => idtac end; change (9 * b) with k in H
  end; cbn [andb orb].

(** The fields of an Sv39 entry and of the addresses, arithmetically. *)
Lemma sv39_aligned level pte :
  (level <= 2)%nat ->
  ((0 <? level)%nat && negb (Pte64.GetPpn0 pte =? 0))
    || ((1 <? level)%nat && negb (Pte64.GetPpn1 pte =? 0))
  = negb (PageTable.aligned PageTable.sv39 level pte).
Proof.
  intros Hl. unfold Pte64.GetPpn0, Pte64.GetPpn1. rewrite !bitcrop_u32, !bitcrop_spec by lia.
  unfold PageTable.aligned, PageTable.ppn, uint. cbn [PageTable.vpn_bits PageTable.ppn_bits PageTable.sv39].
  replace (pte / 2 ^ 19) with (pte / 2 ^ 10 / 2 ^ 9) by (rewrite Z.div_div by lia; done).
  set (q := pte / 2 ^ 10). destruct level as [|[|[|]]]; [| | | lia]; level_cases.
  - rewrite Z.mod_1_r. done.
  - rewrite orb_false_r.
    change (2 ^ 44) with (2 ^ 9 * 2 ^ 35). by rewrite mod_mod_field by lia.
  - change (2 ^ 18) with (2 ^ 9 * 2 ^ 9).
    change (2 ^ 44) with (2 ^ 9 * 2 ^ 9 * 2 ^ 26). rewrite mod_mod_field, Z.rem_mul_r by lia.
    destruct (Z.eqb_spec (q mod 2 ^ 9) 0), (Z.eqb_spec ((q / 2 ^ 9) mod 2 ^ 9) 0);
      destruct (Z.eqb_spec (q mod 2 ^ 9 + 2 ^ 9 * ((q / 2 ^ 9) mod 2 ^ 9)) 0); cbn; zlia || done.
Qed.

Lemma sv32_aligned level pte :
  in_u 32 pte -> (level <= 1)%nat ->
  (0 <? level)%nat && negb (Pte32.GetPpn0 pte =? 0) = negb (PageTable.aligned PageTable.sv32 level pte).
Proof.
  intros Hp Hl. unfold Pte32.GetPpn0. rewrite bitcrop_spec by lia.
  unfold PageTable.aligned, PageTable.ppn, uint. cbn [PageTable.vpn_bits PageTable.ppn_bits PageTable.sv32].
  destruct level as [|[|]]; [| | lia]; level_cases.
  - rewrite Z.mod_1_r. done.
  - change (2 ^ 22) with (2 ^ 10 * 2 ^ 12). by rewrite mod_mod_field by lia.
Qed.

Lemma page_fields q :
  q mod 2 ^ 44 =
  (((q / 2 ^ 18) mod 2 ^ 26) * 2 ^ 9 + (q / 2 ^ 9) mod 2 ^ 9) * 2 ^ 9 + q mod 2 ^ 9.
Proof.
  change (2 ^ 44) with (2 ^ 9 * (2 ^ 9 * 2 ^ 26)). rewrite !Z.rem_mul_r, Z.div_div by lia.
  change (2 ^ 9 * 2 ^ 9) with (2 ^ 18). lia.
Qed.

Lemma offset_fields1 va : va mod 2 ^ 21 = (va / 2 ^ 12) mod 2 ^ 9 * 2 ^ 12 + va mod 2 ^ 12.
Proof. change (2 ^ 21) with (2 ^ 12 * 2 ^ 9). rewrite Z.rem_mul_r by lia. lia. Qed.

Lemma offset_fields2 va :
  va mod 2 ^ 30 =
  ((va / 2 ^ 21) mod 2 ^ 9 * 2 ^ 9 + (va / 2 ^ 12) mod 2 ^ 9) * 2 ^ 12 + va mod 2 ^ 12.
Proof.
  change (2 ^ 30) with (2 ^ 12 * (2 ^ 9 * 2 ^ 9)). rewrite !Z.rem_mul_r, Z.div_div by lia.
  change (2 ^ 12 * 2 ^ 9) with (2 ^ 21). lia.
Qed.

Lemma mod56_small x : 0 <= x mod 2 ^ 56 < 2 ^ 64.
Proof. pose proof (Z.mod_pos_bound x (2 ^ 56)). lia. Qed.

Lemma sv39_physical va pte level :
  (level <= 2)%nat -> PageTable.aligned PageTable.sv39 level pte = true ->
  let vpn := [bitcrop va 9 12; bitcrop va 9 21; bitcrop va 9 30] in
  let ppn1 := if (1 <? level)%nat then nth 1 vpn 0 else Pte64.GetPpn1 pte in
  let ppn0 := u32 (if (0 <? level)%nat then nth 0 vpn 0 else Pte64.GetPpn0 pte) in
  u64 ((u64 (Pte64.GetPpn2 pte <<. 30) .| u64 (ppn1 <<. 21) .| u64 (ppn0 <<. 12)
        .| u16 (bitcrop va 12 0)) .& 0x00FFFFFFFFFFFFFF)
  = PageTable.physical PageTable.sv39 va pte level.
Proof.
  intros Hl Ha. cbv zeta. unfold Pte64.GetPpn0, Pte64.GetPpn1, Pte64.GetPpn2.
  rewrite !bitcrop_u32 by lia. cbn [nth].
  assert (Hin : forall w v o, 0 < w <= 32 -> u32 (bitcrop v w o) = bitcrop v w o) by (intros; by apply bitcrop_u32).
  replace (u16 (bitcrop va 12 0)) with (bitcrop va 12 0)
    by (symmetry; apply uint_small, (in_u_mono 12); [lia | auto with rv]).
  rewrite (land_mask _ 56) by lia.
  assert (H0 : in_u 9 (if (0 <? level)%nat then bitcrop va 9 12 else bitcrop pte 9 10))
    by (destruct (0 <? level)%nat; auto with rv).
  assert (H1 : in_u 9 (if (1 <? level)%nat then bitcrop va 9 21 else bitcrop pte 9 19))
    by (destruct (1 <? level)%nat; auto with rv).
  rewrite (uint_small 32) by (apply (in_u_mono 9); [lia | done]).
  rewrite assemble3 by auto with rv. clear H0 H1.
  pose proof (bitcrop_range va 12 0 ltac:(lia)) as Hoff.
  unfold PageTable.aligned, PageTable.physical, PageTable.ppn, PageTable.span in *.
  cbn [PageTable.vpn_bits PageTable.ppn_bits PageTable.pa_bits PageTable.sv39] in *.
  rewrite !bitcrop_spec, Z.pow_0_r, Z.div_1_r by lia. unfold uint.
  rewrite (page_fields (pte / 2 ^ 10)), !Z.div_div by lia.
  change (2 ^ 10 * 2 ^ 9) with (2 ^ 19). change (2 ^ 10 * 2 ^ 18) with (2 ^ 28).
  rewrite (page_fields (pte / 2 ^ 10)), !Z.div_div in Ha by lia.
  change (2 ^ 10 * 2 ^ 9) with (2 ^ 19) in Ha. change (2 ^ 10 * 2 ^ 18) with (2 ^ 28) in Ha.
  generalize (Z.mod_pos_bound (pte / 2 ^ 28) (2 ^ 26) ltac:(lia)).
  generalize (Z.mod_pos_bound (pte / 2 ^ 19) (2 ^ 9) ltac:(lia)).
  generalize (Z.mod_pos_bound (pte / 2 ^ 10) (2 ^ 9) ltac:(lia)).
  generalize (Z.mod_pos_bound (va / 2 ^ 21) (2 ^ 9) ltac:(lia)).
  generalize (Z.mod_pos_bound (va / 2 ^ 12) (2 ^ 9) ltac:(lia)).
  generalize (Z.mod_pos_bound va (2 ^ 12) ltac:(lia)).
  revert Ha. clear Hoff Hin.
  destruct level as [|[|[|]]]; [| | | lia]; level_cases;
    rewrite ?(offset_fields1 va), ?(offset_fields2 va);
    generalize ((pte / 2 ^ 28) mod 2 ^ 26) as a, ((pte / 2 ^ 19) mod 2 ^ 9) as b,
      ((pte / 2 ^ 10) mod 2 ^ 9) as c, ((va / 2 ^ 21) mod 2 ^ 9) as b',
      ((va / 2 ^ 12) mod 2 ^ 9) as c', (va mod 2 ^ 12) as d; intros a b c b' c' d Ha%Z.eqb_eq **;
    rewrite (Z.mod_small _ (2 ^ 64)) by (apply mod56_small); f_equal; zlia.
Qed.

Lemma mod32_small x : 0 <= x mod 2 ^ 32 < 2 ^ 64.
Proof. pose proof (Z.mod_pos_bound x (2 ^ 32)). lia. Qed.

Lemma sv32_physical va pte level :
  (level <= 1)%nat -> PageTable.aligned PageTable.sv32 level pte = true ->
  let ppn0 := u32 (if (level =? 1)%nat then u16 (bitcrop va 10 12) else Pte32.GetPpn0 pte) in
  u64 ((u64 (Pte32.GetPpn1 pte <<. 22) .| u64 (ppn0 <<. 12) .| u16 (bitcrop va 12 0)) .& 0xFFFFFFFF)
  = PageTable.physical PageTable.sv32 va pte level.
Proof.
  intros Hl Ha. cbv zeta. unfold Pte32.GetPpn0, Pte32.GetPpn1.
  assert (Hu : forall k w v o, 0 < w <= k -> k <= 32 -> uint k (bitcrop v w o) = bitcrop v w o)
    by (intros; apply uint_small, (in_u_mono w); [lia | apply bitcrop_range; lia]).
  rewrite !Hu, (land_mask _ 32) by lia.
  replace (u32 (if (level =? 1)%nat then bitcrop va 10 12 else bitcrop pte 10 10))
    with (if (level =? 1)%nat then bitcrop va 10 12 else bitcrop pte 10 10)
    by (symmetry; destruct (level =? 1)%nat; apply Hu; lia).
  rewrite assemble2 by (destruct (level =? 1)%nat; apply bitcrop_range; lia).
  unfold PageTable.aligned, PageTable.physical, PageTable.ppn, PageTable.span in *.
  cbn [PageTable.vpn_bits PageTable.ppn_bits PageTable.pa_bits PageTable.sv32] in *.
  rewrite !bitcrop_spec, Z.pow_0_r, Z.div_1_r by lia. unfold uint.
  revert Ha. change (2 ^ 22) with (2 ^ 10 * 2 ^ 12).
  rewrite (Z.rem_mul_r (pte / 2 ^ 10)), Z.div_div by lia. change (2 ^ 10 * 2 ^ 10) with (2 ^ 20).
  generalize (Z.mod_pos_bound (pte / 2 ^ 10) (2 ^ 10) ltac:(lia)).
  clear Hu. destruct level as [|[|]]; [| | lia]; level_cases; cbn [Nat.eqb];
    [| change (2 ^ 22) with (2 ^ 12 * 2 ^ 10); rewrite (Z.rem_mul_r va) by lia];
    generalize ((pte / 2 ^ 20) mod 2 ^ 12) as b, ((pte / 2 ^ 10) mod 2 ^ 10) as c,
      ((va / 2 ^ 12) mod 2 ^ 10) as c', (va mod 2 ^ 12) as d; intros b c c' d Hc Ha%Z.eqb_eq;
    rewrite (Z.mod_small _ (2 ^ 64)) by (apply mod32_small); f_equal; zlia.
Qed.

(* ------------------------------------------------------------------ *)
(** ** The MMU implements the specification *)

(** The loop and the specified walk end alike; the code keeps the address of
    the entry before it is reduced to 32 bits. *)
Definition walk_matches (n : Z) (r : Mmu.walk_result) (o : option (nat * Z * Z)) : Prop :=
  match r, o with
  | Mmu.WalkFault, None => True
  | Mmu.WalkLeaf l pte addr, Some (l', a, pte') =>
      l = l' /\ pte = pte' /\ addr mod 2 ^ 32 = a /\ in_u 64 addr /\ addr mod n = 0
  | _, _ => False
  end.

Section Refinement.
  Context {M : Type} `{GuestMemoryLaws M}.
  Implicit Types m : M.

Lemma walk_level fmt (f : ByteMem.t) va root l r n addr k :
    PageTable.slot fmt root va l = addr mod 2 ^ 32 ->
    in_u 64 addr -> addr mod n = 0 ->
    let pte := PageTable.entry fmt f root va l in
    (match l with O => True | S l' => walk_matches n k (PageTable.walk fmt f va (PageTable.ppn fmt pte) l') end) ->
    r = (if negb (PageTable.valid pte) then Mmu.WalkFault
         else if PageTable.leaf pte then Mmu.WalkLeaf l pte addr
         else match l with O => Mmu.WalkFault | S _ => k end) ->
    walk_matches n r (PageTable.walk fmt f va root l).
  Proof.
    intros Hs Ha Hn pte Hk ->.
    assert (E : PageTable.walk fmt f va root l =
      if negb (PageTable.valid pte) then None
      else if PageTable.leaf pte then Some (l, PageTable.slot fmt root va l, pte)
      else match l with O => None | S l' => PageTable.walk fmt f va (PageTable.ppn fmt pte) l' end)
      by (by destruct l).
    rewrite E. destruct (negb _); [done |]. destruct (PageTable.leaf pte).
    - cbn. auto.
    - destruct l; [done | exact Hk].
  Qed.

Lemma slot_congr root root' va l :
    root mod 2 ^ 20 = root' mod 2 ^ 20 ->
    u64 (u64 (root * Mmu.kPageSize) + u64 (PageTable.vpn PageTable.sv39 va l * 8)) mod 2 ^ 32
    = PageTable.slot PageTable.sv39 root' va l.
  Proof.
    intros Hr. unfold PageTable.slot, Mmu.kPageSize.
    change (Z.of_nat (nbytes (PageTable.pte_width PageTable.sv39))) with 8.
    change (1 <<. 12) with 4096. generalize (PageTable.vpn PageTable.sv39 va l) as v. intros v.
    unfold uint. rewrite <- Zplus_mod. change (2 ^ 64) with (2 ^ 32 * 2 ^ 32).
    rewrite mod_mod_field by lia. zlia.
  Qed.

Lemma slot_aligned8 root v : u64 (u64 (root * Mmu.kPageSize) + u64 (v * 8)) mod 8 = 0.
  Proof.
    unfold Mmu.kPageSize, uint. change (1 <<. 12) with 4096. rewrite <- Zplus_mod.
    change (2 ^ 64) with (8 * 2 ^ 61). rewrite mod_mod_field by lia. zlia.
  Qed.

Lemma GetPpn64_congr pte :
    Pte64.GetPpn pte mod 2 ^ 20 = PageTable.ppn PageTable.sv39 pte mod 2 ^ 20.
  Proof.
    unfold Pte64.GetPpn, PageTable.ppn, uint. cbn [PageTable.ppn_bits PageTable.sv39].
    rewrite bitcrop_spec by lia. unfold uint.
    change (2 ^ 44) with (2 ^ 32 * 2 ^ 12) at 1. rewrite mod_mod_field by lia.
    change (2 ^ 32) with (2 ^ 20 * 2 ^ 12). change (2 ^ 44) with (2 ^ 20 * 2 ^ 24).
    by rewrite !mod_mod_field by lia.
  Qed.

Lemma sv39_vpn va l :
    (l <= 2)%nat ->
    nth l [bitcrop va 9 12; bitcrop va 9 21; bitcrop va 9 30] 0 = PageTable.vpn PageTable.sv39 va l.
  Proof.
    intros. unfold PageTable.vpn, PageTable.span. cbn [PageTable.vpn_bits PageTable.sv39].
    destruct l as [|[|[|]]]; [| | | lia]; level_cases; cbn [nth]; by rewrite bitcrop_spec by lia.
  Qed.

  (** One iteration, whatever the level. *)
Lemma walk64_unfold m vpn ppn l :
    Mmu.walk64 m vpn ppn l =
    (let addr := u64 (u64 (ppn * Mmu.kPageSize) + u64 (nth l vpn 0 * 8)) in
     pte ← mem_read W64 m addr;
     if negb (Pte64.IsValid pte) then mret Mmu.WalkFault
     else if Pte64.IsLeaf pte then mret (Mmu.WalkLeaf l pte addr)
     else match l with
          | O => mret Mmu.WalkFault
          | S l' => Mmu.walk64 m vpn (Pte64.GetPpn pte) l'
          end).
  Proof. by destruct l. Qed.

Lemma walk64_spec m va l ppn ppn' :
    mem_ok m -> (l <= 2)%nat -> ppn mod 2 ^ 20 = ppn' mod 2 ^ 20 ->
    exists r, Mmu.walk64 m [bitcrop va 9 12; bitcrop va 9 21; bitcrop va 9 30] ppn l = Ok r /\
      walk_matches 8 r (PageTable.walk PageTable.sv39 (mem_byte m) va ppn' l).
  Proof.
    intros Hm. revert ppn ppn'. induction l as [l IH] using lt_wf_ind. intros ppn ppn' Hl Hp.
    rewrite walk64_unfold. cbv zeta. rewrite sv39_vpn by done.
    pose proof (slot_congr _ _ va l Hp) as Hs.
    pose proof (slot_aligned8 ppn (PageTable.vpn PageTable.sv39 va l)) as Hal.
    set (addr := u64 (u64 _ + u64 _)) in *.
    assert (Ha : in_u 64 addr) by (apply uint_range; lia). clearbody addr.
    rewrite mem_read_spec by done. cbn [nbytes]. change (Z.of_nat 8) with 8. rewrite Hal.
    cbn [Z.eqb mbind res_bind].
    replace (ByteMem.load 8 (mem_byte m) addr)
      with (PageTable.entry PageTable.sv39 (mem_byte m) ppn' va l)
      by (unfold PageTable.entry; rewrite <- Hs; apply mem_load_mod).
    rewrite Pte64_IsValid_spec, Pte64_IsLeaf_spec.
    set (pte := PageTable.entry _ _ _ _ _).
    destruct l as [|l']; [eexists; split; [| eapply (walk_level PageTable.sv39 _ _ _ O _ _ addr Mmu.WalkFault); eauto] |].
    { fold pte. by destruct (negb _), (PageTable.leaf pte). }
    destruct (IH l' ltac:(lia) (Pte64.GetPpn pte) (PageTable.ppn PageTable.sv39 pte) ltac:(lia)
                (GetPpn64_congr pte)) as (k & Hk & Hmatch).
    rewrite Hk. eexists; split; [| eapply (walk_level PageTable.sv39 _ _ _ (S l') _ _ addr k); eauto].
    fold pte. by destruct (negb _), (PageTable.leaf pte).
  Qed.

Lemma slot32 ppn va l :
    u32 (u32 (ppn * Mmu.kPageSize) + u32 (PageTable.vpn PageTable.sv32 va l * 4))
    = PageTable.slot PageTable.sv32 ppn va l.
  Proof.
    unfold PageTable.slot, Mmu.kPageSize, uint. rewrite <- Zplus_mod. done.
  Qed.

Lemma slot32_aligned ppn va l : PageTable.slot PageTable.sv32 ppn va l mod 4 = 0.
  Proof.
    unfold PageTable.slot. change (Z.of_nat (nbytes (PageTable.pte_width PageTable.sv32))) with 4.
    change (2 ^ 32) with (4 * 2 ^ 30). rewrite mod_mod_field by lia. zlia.
  Qed.

Lemma sv32_vpn va l :
    (l <= 1)%nat ->
    u16 (if (l =? 0)%nat then bitcrop va 10 12 else bitcrop va 10 22) = PageTable.vpn PageTable.sv32 va l.
  Proof.
    intros. rewrite (uint_small 16) by (apply (in_u_mono 10); [lia |]; destruct (l =? 0)%nat; auto with rv).
    unfold PageTable.vpn, PageTable.span. cbn [PageTable.vpn_bits PageTable.sv32].
    destruct l as [|[|]]; [| | lia]; level_cases; cbn [Nat.eqb]; by rewrite bitcrop_spec by lia.
  Qed.

Lemma walk32_unfold m vpn0 vpn ppn l :
    Mmu.walk32 m vpn0 vpn ppn l =
    (let addr := u32 (u32 (ppn * Mmu.kPageSize) + u32 (vpn * 4)) in
     pte ← mem_read W32 m addr;
     if negb (Pte32.IsValid pte) then mret Mmu.WalkFault
     else if Pte32.IsLeaf pte then mret (Mmu.WalkLeaf l pte addr)
     else match l with
          | O => mret Mmu.WalkFault
          | S l' => Mmu.walk32 m vpn0 vpn0 (Pte32.GetPpn pte) l'
          end).
  Proof. by destruct l. Qed.

Lemma walk32_spec m va l ppn :
    mem_ok m -> (l <= 1)%nat ->
    exists r, Mmu.walk32 m (u16 (bitcrop va 10 12))
                (u16 (if (l =? 0)%nat then bitcrop va 10 12 else bitcrop va 10 22)) ppn l = Ok r /\
      walk_matches 4 r (PageTable.walk PageTable.sv32 (mem_byte m) va ppn l).
  Proof.
    intros Hm. revert ppn. induction l as [l IH] using lt_wf_ind. intros ppn Hl.
    rewrite walk32_unfold. cbv zeta. rewrite sv32_vpn by done. rewrite slot32.
    pose proof (slot32_aligned ppn va l) as Hal.
    assert (Ha : in_u 32 (PageTable.slot PageTable.sv32 ppn va l)) by (apply uint_range; lia).
    assert (Ha' : in_u 64 (PageTable.slot PageTable.sv32 ppn va l)) by (apply (in_u_mono 32); [lia | done]).
    assert (Hs : PageTable.slot PageTable.sv32 ppn va l
                 = PageTable.slot PageTable.sv32 ppn va l mod 2 ^ 32) by (symmetry; by apply uint_small).
    rewrite mem_read_spec by done. cbn [nbytes]. change (Z.of_nat 4) with 4. rewrite Hal.
    cbn [Z.eqb mbind res_bind]. fold (PageTable.entry PageTable.sv32 (mem_byte m) ppn va l).
    change (ByteMem.load 4 (mem_byte m) (PageTable.slot PageTable.sv32 ppn va l))
      with (PageTable.entry PageTable.sv32 (mem_byte m) ppn va l).
    rewrite Pte32_IsValid_spec, Pte32_IsLeaf_spec.
    set (pte := PageTable.entry _ _ _ _ _). set (addr := PageTable.slot _ _ _ _) in *.
    destruct l as [|l']; [eexists; split; [| eapply (walk_level PageTable.sv32 _ _ _ O _ _ addr Mmu.WalkFault); eauto] |].
    { fold pte. by destruct (negb _), (PageTable.leaf pte). }
    destruct l' as [|]; [| lia].
    destruct (IH O ltac:(lia) (PageTable.ppn PageTable.sv32 pte) ltac:(lia)) as (k & Hk & Hmatch).
    cbn [Nat.eqb] in Hk.
    replace (Pte32.GetPpn pte) with (PageTable.ppn PageTable.sv32 pte)
      by (unfold Pte32.GetPpn; by rewrite bitcrop_spec by lia).
    rewrite Hk. eexists; split; [| eapply (walk_level PageTable.sv32 _ _ _ 1 _ _ addr k); eauto].
    fold pte. by destruct (negb _), (PageTable.leaf pte).
  Qed.

  (** What a walk yields is a value of the entry's width at a level that exists. *)
Lemma walk_range fmt m va l root lv a pte :
    mem_ok m ->
    PageTable.walk fmt (mem_byte m) va root l = Some (lv, a, pte) ->
    (lv <= l)%nat /\ in_u (nbits (PageTable.pte_width fmt)) pte.
  Proof.
    intros Hm. revert root. induction l as [|l IH]; intros root; cbn [PageTable.walk];
      destruct (negb _); try done; destruct (PageTable.leaf _); try done.
    1, 2: intros [= <- <- <-]; split; [lia | apply mem_load_range, Hm].
    intros Hw. destruct (IH _ Hw). split; [lia | done].
  Qed.

  (** The two ways a translation ends. *)
Definition faulted (u : Mmu.t) (va : Z) : Mmu.t := Mmu.set_fault true va u.

Definition implements fmt (root va : Z) (write : bool) (s : Mmu.t * M) (r : res (Z * (Mmu.t * M))) : Prop :=
    match PageTable.translate fmt (mem_byte s.2) root va with
    | None => r = Ok (va, (faulted s.1 va, s.2))
    | Some (pa, a, pte) =>
        exists m', r = Ok (pa, (s.1, m')) /\ mem_ok m' /\
          forall b, mem_byte m' b = PageTable.touch fmt (mem_byte s.2) write a pte b
    end.

Lemma touched_range w write pte : 8 <= w -> in_u w pte -> in_u w (PageTable.touched write pte).
  Proof.
    intros. apply in_u_lor; [lia | done |]. apply (in_u_mono 8); [lia |]. destruct write; unfold in_u; lia.
  Qed.

  (** Writing the leaf entry back through the interface. *)
Lemma write_entry fmt m write addr a pte :
    mem_ok m -> in_u 64 addr -> addr mod Z.of_nat (nbytes (PageTable.pte_width fmt)) = 0 ->
    addr mod 2 ^ 32 = a -> in_u (nbits (PageTable.pte_width fmt)) pte ->
    exists m', mem_write (PageTable.pte_width fmt) m addr (PageTable.touched write pte) = Ok m' /\
      mem_ok m' /\ forall b, mem_byte m' b = PageTable.touch fmt (mem_byte m) write a pte b.
  Proof.
    intros Hm Ha Hal <- Hp.
    destruct (mem_write_spec (PageTable.pte_width fmt) m addr (PageTable.touched write pte))
      as (m' & E & Hm' & Hb); [done | done | | done |].
    { apply touched_range; [| done]. unfold nbits. destruct (PageTable.pte_width fmt); cbn; lia. }
    exists m'. split; [done |]. split; [done |]. intros b. rewrite Hb. unfold PageTable.touch.
    apply store_congr. by rewrite Z.mod_mod.
  Qed.

Lemma VirtualToPhysical64_spec va satp write s :
    mem_ok s.2 -> bitcrop satp 4 60 = 8 ->
    implements PageTable.sv39 (satp mod 2 ^ 44) va write s (Mmu.VirtualToPhysical64 va satp write s).
  Proof.
    intros Hm Hmode. destruct s as [u m]. cbn [snd] in Hm.
    unfold implements, PageTable.translate, Mmu.VirtualToPhysical64. cbn [fst snd].
    rewrite Hmode. change (u8 8) with 8. cbn [Z.eqb Pos.eqb negb]. cbv zeta.
    rewrite (bitcrop_low satp 44) by lia.
    destruct (walk64_spec m va 2 (satp mod 2 ^ 44) (satp mod 2 ^ 44)) as (r & E & Hmatch); [done | lia | done |].
    rewrite (st_bind_run _ _ _ r (u, m)) by (unfold mem_get; cbn [snd Nat.sub]; by rewrite E).
    change (PageTable.top_level PageTable.sv39) with 2%nat.
    destruct (PageTable.walk _ _ _ _ _) as [[[lv a] pte]|] eqn:Ew;
      destruct r as [|lv' pte' addr]; try done.
    destruct Hmatch as (-> & -> & Ha & Hr & Hal).
    destruct (walk_range _ _ _ _ _ _ _ _ Hm Ew) as [Hl Hp].
    rewrite sv39_aligned by done. destruct (PageTable.aligned _ lv pte) eqn:Ealn; cbn [negb]; [| done].
    rewrite Pte64_touched.
    destruct (write_entry PageTable.sv39 m write addr a pte) as (m' & Ew' & Hm' & Hb); try done.
    unfold mbind, st_bind, mem_put. cbn [snd fst]. unfold Pte64.GetValue.
    change W64 with (PageTable.pte_width PageTable.sv39). rewrite Ew'.
    exists m'. split; [| done]. unfold mret, st_ret. do 3 f_equal.
    rewrite <- sv39_physical by done. cbv zeta.
    unfold Pte64.GetPpn0, Pte64.GetPpn1, Pte64.GetPpn2. by rewrite !crop_touched by lia.
  Qed.

Lemma VirtualToPhysical32_spec va satp write s :
    mem_ok s.2 -> bitcrop satp 1 31 = 1 ->
    implements PageTable.sv32 (satp mod 2 ^ 22) va write s (Mmu.VirtualToPhysical32 va satp write s).
  Proof.
    intros Hm Hmode. destruct s as [u m]. cbn [snd] in Hm.
    unfold implements, PageTable.translate, Mmu.VirtualToPhysical32. cbn [fst snd].
    rewrite Hmode. change (u8 1) with 1. cbn [Z.eqb Pos.eqb negb]. cbv zeta.
    replace (u32 (bitcrop satp 22 0)) with (satp mod 2 ^ 22).
    2:{ rewrite uint_small by (apply (in_u_mono 22); [lia | apply bitcrop_range; lia]).
        by rewrite bitcrop_low by lia. }
    destruct (walk32_spec m va 1 (satp mod 2 ^ 22)) as (r & E & Hmatch); [done | lia |].
    cbn [Nat.eqb] in E.
    rewrite (st_bind_run _ _ _ r (u, m))
      by (unfold mem_get; cbn [snd Nat.sub Mmu.kMmuLevels]; by rewrite E).
    change (PageTable.top_level PageTable.sv32) with 1%nat.
    destruct (PageTable.walk _ _ _ _ _) as [[[lv a] pte]|] eqn:Ew;
      destruct r as [|lv' pte' addr]; try done.
    destruct Hmatch as (-> & -> & Ha & Hr & Hal).
    destruct (walk_range _ _ _ _ _ _ _ _ Hm Ew) as [Hl Hp].
    rewrite sv32_aligned by done. destruct (PageTable.aligned _ lv pte) eqn:Ealn; cbn [negb]; [| done].
    rewrite Pte32_touched.
    destruct (write_entry PageTable.sv32 m write addr a pte) as (m' & Ew' & Hm' & Hb); try done.
    unfold mbind, st_bind, mem_put. cbn [snd fst]. unfold Pte32.GetValue.
    change W32 with (PageTable.pte_width PageTable.sv32). rewrite Ew'.
    exists m'. split; [| done]. unfold mret, st_ret. do 3 f_equal.
    rewrite <- sv32_physical by done. cbv zeta.
    unfold Pte32.GetPpn0, Pte32.GetPpn1. by rewrite !crop_touched by lia.
  Qed.

  (** Which translation the mode bits of [satp] and the privilege select. *)
Inductive regime : Type := Bare | Paged (fmt : PageTable.format) (root : Z) | Unsupported.

Definition regime_of (u : Mmu.t) (satp : Z) : regime :=
    if decide (Mmu.privilege_ u = MACHINE_MODE) then Bare
    else if Mmu.mxl_ u =? 1 then
      if Z.testbit satp 31 then Paged PageTable.sv32 (satp mod 2 ^ 22) else Bare
    else let mode := (satp / 2 ^ 60) mod 2 ^ 4 in
      if mode =? 0 then Bare
      else if mode =? 8 then Paged PageTable.sv39 (satp mod 2 ^ 44) else Unsupported.

  (** The MMU with the fault latch cleared, as every translation begins. *)
Definition cleared (u : Mmu.t) : Mmu.t := Mmu.set_fault false 0 u.

Definition translates (u : Mmu.t) (m : M) (va satp : Z) (write : bool)
      (r : res (Z * (Mmu.t * M))) : Prop :=
    match regime_of u satp with
    | Bare => r = Ok (va, (cleared u, m))
    | Unsupported => r = Ok (va, (faulted (cleared u) va, m))
    | Paged fmt root => implements fmt root va write (cleared u, m) r
    end.

Lemma VirtualToPhysical_spec u m va satp write :
    mem_ok m -> translates u m va satp write (Mmu.VirtualToPhysical va satp write (u, m)).
  Proof.
    intros Hm. unfold translates, regime_of, Mmu.VirtualToPhysical.
    unfold mbind, st_bind, modify, gets. cbn [fst snd prod_map id].
    change (Mmu.privilege_ (Mmu.set_fault false 0 u)) with (Mmu.privilege_ u).
    change (Mmu.mxl_ (Mmu.set_fault false 0 u)) with (Mmu.mxl_ u).
    destruct (decide (Mmu.privilege_ u = MACHINE_MODE)); [done |].
    destruct (Mmu.mxl_ u =? 1).
    - destruct (Z.testbit satp 31) eqn:Eb.
      + apply VirtualToPhysical32_spec; [done |]. by rewrite bitcrop_bit, Eb by lia.
      + unfold Mmu.VirtualToPhysical32. by rewrite bitcrop_bit, Eb by lia.
    - destruct (Z.eqb_spec ((satp / 2 ^ 60) mod 2 ^ 4) 0) as [E0|E0].
      + unfold Mmu.VirtualToPhysical64. rewrite bitcrop_spec by lia. unfold uint at 2. by rewrite E0.
      + destruct (Z.eqb_spec ((satp / 2 ^ 60) mod 2 ^ 4) 8) as [E8|E8].
        * apply VirtualToPhysical64_spec; [done |]. by rewrite bitcrop_spec by lia.
        * unfold Mmu.VirtualToPhysical64. rewrite bitcrop_spec by lia. cbv zeta.
          rewrite (uint_small 8) by (apply (in_u_mono 4); [lia | apply uint_range; lia]).
          unfold uint. destruct (Z.eqb_spec ((satp / 2 ^ 60) mod 2 ^ 4) 0); [done |].
          by destruct (Z.eqb_spec ((satp / 2 ^ 60) mod 2 ^ 4) 8).
  Qed.
End Refinement.

(* ------------------------------------------------------------------ *)
(** ** The specification itself: access bits do not change a translation *)

Lemma touched_bit write pte i :
  0 <= i < 6 -> Z.testbit (PageTable.touched write pte) i = Z.testbit pte i.
Proof.
  intros Hi. unfold PageTable.touched. rewrite Z.lor_spec.
  replace (Z.testbit (if write then 0xC0 else 0x40) i) with false; [apply orb_false_r |].
  assert (i = 0 \/ i = 1 \/ i = 2 \/ i = 3 \/ i = 4 \/ i = 5) as Hc by lia.
  destruct write; destruct_or! Hc; by subst.
Qed.

Lemma touched_flags write pte :
  PageTable.valid (PageTable.touched write pte) = PageTable.valid pte /\
  PageTable.leaf (PageTable.touched write pte) = PageTable.leaf pte.
Proof.
  unfold PageTable.valid, PageTable.leaf. by rewrite <- !Z.bit0_odd, !touched_bit by lia.
Qed.

Section Stability.
  Context (fmt : PageTable.format).
Let n : Z := Z.of_nat (nbytes (PageTable.pte_width fmt)).
  Implicit Types f g : ByteMem.t.

Lemma entry_ext f g root va l :
    (forall b, f b = g b) -> PageTable.entry fmt f root va l = PageTable.entry fmt g root va l.
  Proof. intros E. unfold PageTable.entry. apply ByteMem.load_ext. intros. apply E. Qed.

Lemma walk_ext f g va root l :
    (forall b, f b = g b) -> PageTable.walk fmt f va root l = PageTable.walk fmt g va root l.
  Proof.
    intros E. revert root. induction l as [|l IH]; intros root; cbn [PageTable.walk];
      rewrite (entry_ext f g) by done; repeat case_match; congruence || apply IH.
  Qed.

Lemma translate_ext f g root va :
    (forall b, f b = g b) -> PageTable.translate fmt f root va = PageTable.translate fmt g root va.
  Proof. intros E. unfold PageTable.translate. by rewrite (walk_ext f g). Qed.

Lemma slot_bounds root va l :
    0 <= PageTable.slot fmt root va l < 2 ^ 32 /\ PageTable.slot fmt root va l mod n = 0.
  Proof.
    split; [apply Z.mod_pos_bound; lia |]. unfold PageTable.slot. fold n.
    generalize (PageTable.vpn fmt va l). intros v. subst n.
    destruct (PageTable.pte_width fmt); cbn [nbytes]; zlia.
  Qed.

Lemma walk_leaf f va root l lv a pte :
    PageTable.walk fmt f va root l = Some (lv, a, pte) ->
    pte = ByteMem.load (nbytes (PageTable.pte_width fmt)) f a /\ PageTable.leaf pte = true /\
    PageTable.valid pte = true /\ 0 <= a < 2 ^ 32 /\ a mod n = 0.
  Proof.
    revert root. induction l as [|l IH]; intros root; cbn [PageTable.walk];
      destruct (PageTable.valid (PageTable.entry _ _ _ _ _)) eqn:Ev; cbn [negb]; try done;
      destruct (PageTable.leaf (PageTable.entry _ _ _ _ _)) eqn:El; try done; try apply IH.
    all: intros [= <- <- <-]; repeat split; auto; apply slot_bounds.
  Qed.

Lemma touched_ppn write pte :
    0 <= PageTable.ppn_bits fmt <= 64 ->
    PageTable.ppn fmt (PageTable.touched write pte) = PageTable.ppn fmt pte.
  Proof.
    intros. unfold PageTable.ppn. pose proof (crop_touched write pte (PageTable.ppn_bits fmt) 10) as E.
    rewrite !bitcrop_spec in E by lia. apply E; lia.
  Qed.

  (** An entry elsewhere keeps its value; the touched one is what was written. *)
Lemma entry_touch f write a pte root va l :
    (forall b, in_u 8 (f b)) -> pte = ByteMem.load (nbytes (PageTable.pte_width fmt)) f a ->
    0 <= a < 2 ^ 32 -> a mod n = 0 ->
    PageTable.entry fmt (PageTable.touch fmt f write a pte) root va l =
      if decide (PageTable.slot fmt root va l = a) then PageTable.touched write pte
      else PageTable.entry fmt f root va l.
  Proof.
    intros Hf -> Ha Hal. destruct (slot_bounds root va l) as [Hs Hsal].
    unfold PageTable.entry, PageTable.touch. case_decide as E.
    - rewrite E, ByteMem.load_store_same by (destruct (PageTable.pte_width fmt); cbn; lia).
      apply uint_small. apply touched_range; [destruct (PageTable.pte_width fmt); cbn; lia |].
      unfold in_u. rewrite Z.pow_mul_r by lia. by apply ByteMem.load_range.
    - apply ByteMem.load_store_other. intros i Hi. subst n.
      destruct (PageTable.pte_width fmt); cbn [nbytes] in *; zlia.
  Qed.

  (** Touching a leaf disturbs no walk, through whatever tables it goes. *)
Lemma walk_touch f write a pte va root l :
    (forall b, in_u 8 (f b)) -> 0 <= PageTable.ppn_bits fmt <= 64 ->
    pte = ByteMem.load (nbytes (PageTable.pte_width fmt)) f a -> PageTable.leaf pte = true ->
    0 <= a < 2 ^ 32 -> a mod n = 0 ->
    PageTable.walk fmt (PageTable.touch fmt f write a pte) va root l =
      option_map (fun '(lv, a', pte') => (lv, a', if decide (a' = a) then PageTable.touched write pte' else pte'))
        (PageTable.walk fmt f va root l).
  Proof.
    intros Hf Hb Hp Hleaf Ha Hal. destruct (touched_flags write pte) as [Ev El].
    revert root. induction l as [|l IH]; intros root; cbn [PageTable.walk];
      rewrite (entry_touch f write a pte) by done;
      destruct (decide (PageTable.slot fmt root va _ = a)) as [E|E].
    1, 3: assert (Ee : PageTable.entry fmt f root va _ = pte) by (unfold PageTable.entry; rewrite E; symmetry; exact Hp);
      rewrite Ee, Ev, El, Hleaf; destruct (PageTable.valid pte); [| done]; cbn [negb option_map];
      by rewrite decide_True by done.
    all: destruct (PageTable.valid (PageTable.entry fmt f _ _ _)); [| done]; cbn [negb];
      destruct (PageTable.leaf (PageTable.entry fmt f _ _ _)); cbn [option_map]; [by rewrite decide_False by done |].
    - done.
    - apply IH.
  Qed.

Lemma translate_leaf f root va pa a pte :
    PageTable.translate fmt f root va = Some (pa, a, pte) ->
    pte = ByteMem.load (nbytes (PageTable.pte_width fmt)) f a /\ PageTable.leaf pte = true /\
    0 <= a < 2 ^ 32 /\ a mod n = 0.
  Proof.
    unfold PageTable.translate. destruct (PageTable.walk fmt f va root _) as [[[lv a'] pte']|] eqn:Hw; [| done].
    case_match; [| done]. intros [= <- <- <-]. by destruct (walk_leaf _ _ _ _ _ _ _ Hw) as (? & ? & _ & ? & ?).
  Qed.

  (** Nor does it change the translation of any address. *)
Lemma translate_touch f write root va pa a pte va' :
    (forall b, in_u 8 (f b)) -> 0 <= PageTable.ppn_bits fmt <= 64 ->
    PageTable.translate fmt f root va = Some (pa, a, pte) ->
    PageTable.translate fmt (PageTable.touch fmt f write a pte) root va' =
      option_map (fun '(pa', a', pte') => (pa', a', if decide (a' = a) then PageTable.touched write pte' else pte'))
        (PageTable.translate fmt f root va').
  Proof.
    intros Hf Hb T. destruct (translate_leaf _ _ _ _ _ _ T) as (Hp & Hleaf & Ha & Hal). unfold PageTable.translate.
    rewrite (walk_touch f write a pte) by done.
    destruct (PageTable.walk fmt f va' root _) as [[[lv b] p]|]; [| done]. cbn [option_map].
    assert (E : PageTable.ppn fmt (if decide (b = a) then PageTable.touched write p else p) = PageTable.ppn fmt p)
      by (case_match; [by apply touched_ppn | done]).
    unfold PageTable.aligned, PageTable.physical. rewrite E. by destruct (_ =? 0).
  Qed.
End Stability.

(* ------------------------------------------------------------------ *)
(** ** Properties *)

Section Properties.
  Context {M : Type} `{GuestMemoryLaws M}.

  (** C7: [Mmu::VirtualToPhysical] implements the Sv32/Sv39 specification: on every
      memory, address, [satp], privilege and access kind it ends without a failed
      assertion; in M-mode or with translation off it is the identity; with an
      unsupported mode it latches a fault; otherwise it latches a fault and leaves
      memory alone exactly when the specified walk fails, and on success returns
      the specified address and changes memory by setting A (and D on a write) in
      the leaf entry only. *)
Theorem VirtualToPhysical_refines (u : Mmu.t) (m : M) (va satp : Z) (write : bool) :
    mem_ok m -> translates u m va satp write (Mmu.VirtualToPhysical va satp write (u, m)).
  Proof. apply VirtualToPhysical_spec. Qed.

  (** C38: translations do not disturb each other: whatever address, access kind and
      memory a first translation had, any other address translates after it as it
      would have before, to the same address or the same fault, although the first
      wrote accessed and dirty bits, and even where page tables overlap. *)
Theorem retranslation_stable (u u1 : Mmu.t) (m m1 : M) (va satp pa va' : Z) (write write' write'' : bool) :
    mem_ok m ->
    Mmu.VirtualToPhysical va satp write (u, m) = Ok (pa, (u1, m1)) ->
    exists pa' u2 m2 u3 m3,
      Mmu.VirtualToPhysical va' satp write' (u, m) = Ok (pa', (u2, m2)) /\
      Mmu.VirtualToPhysical va' satp write'' (u1, m1) = Ok (pa', (u3, m3)) /\
      Mmu.page_fault_ u2 = Mmu.page_fault_ u3.
  Proof.
    intros Hm E. pose proof (VirtualToPhysical_spec u m va satp write Hm) as H1. rewrite E in H1.
    pose proof (VirtualToPhysical_spec u m va' satp write' Hm) as H2.
    assert (H3 : mem_ok m1 -> regime_of u1 satp = regime_of u satp ->
       translates u1 m1 va' satp write'' (Mmu.VirtualToPhysical va' satp write'' (u1, m1)))
      by (intros; by apply VirtualToPhysical_spec).
    unfold translates, implements in *. destruct (regime_of u satp) as [|fmt root|] eqn:R.
    - injection H1 as -> -> ->. specialize (H3 Hm R).
      rewrite (R : regime_of (cleared u) satp = Bare) in H3. rewrite H2, H3. eauto 10.
    - cbn [fst snd] in *. destruct (PageTable.translate _ _ _ va) as [[[pa1 a] pte]|] eqn:T.
      + destruct H1 as (m' & [= -> -> ->] & Hm' & Hb). specialize (H3 Hm' R).
        rewrite (R : regime_of (cleared u) satp = _) in H3.
        rewrite (translate_ext _ _ _ _ _ Hb) in H3.
        assert (Hbits : 0 <= PageTable.ppn_bits fmt <= 64) by
          (revert R; unfold regime_of; repeat case_match; intros [= <- _]; cbn; lia).
        rewrite (translate_touch fmt _ write _ _ _ _ _ va' (fun b => mem_byte_range m b Hm) Hbits T) in H3.
        destruct (PageTable.translate _ _ _ va') as [[[pa' a'] pte']|]; cbn [option_map] in H3.
        * destruct H2 as (m2 & -> & _), H3 as (m3 & -> & _). eauto 10.
        * rewrite H2, H3. eauto 10.
      + injection H1 as -> -> ->. specialize (H3 Hm R).
        change (regime_of (faulted (cleared u) va) satp) with (regime_of u satp) in H3. rewrite R in H3.
        destruct (PageTable.translate _ _ _ va') as [[[pa' a'] pte']|].
        * destruct H2 as (m2 & -> & _), H3 as (m3 & -> & _). eauto 10.
        * rewrite H2, H3. eauto 10.
    - injection H1 as -> -> ->. specialize (H3 Hm R).
      change (regime_of (faulted (cleared u) va) satp) with (regime_of u satp) in H3. rewrite R in H3.
      rewrite H2, H3. eauto 10.
  Qed.

  (** Translation never changes the offset in the page. *)
Theorem page_offset_preserved (u u1 : Mmu.t) (m m1 : M) (va satp pa : Z) (write : bool) :
    mem_ok m ->
    Mmu.VirtualToPhysical va satp write (u, m) = Ok (pa, (u1, m1)) ->
    pa mod 2 ^ 12 = va mod 2 ^ 12.
  Proof.
    intros Hm E. pose proof (VirtualToPhysical_spec u m va satp write Hm) as H1. rewrite E in H1.
    unfold translates, implements in H1. destruct (regime_of u satp) as [|fmt root|] eqn:R;
      [by injection H1 as -> | | by injection H1 as ->].
    destruct (PageTable.translate _ _ _ _) as [[[pa' a] pte]|] eqn:T; [| by injection H1 as ->].
    destruct H1 as (m' & [= -> -> ->] & _). revert T. unfold PageTable.translate.
    destruct (PageTable.walk _ _ _ _ _) as [[[lv a'] pte']|] eqn:Hw; [| done]. case_match; [| done].
    intros [= <- -> ->]. unfold PageTable.physical, PageTable.span.
    assert (Hf : fmt = PageTable.sv39 \/ fmt = PageTable.sv32) by
      (revert R; unfold regime_of; repeat case_match; intros [= <- _]; auto).
    assert (Hs : forall k, 0 <= k -> va mod 2 ^ (12 + k) mod 2 ^ 12 = va mod 2 ^ 12) by
      (intros; rewrite Z.pow_add_r by lia; apply mod_mod_field; lia).
    destruct Hf as [-> | ->]; cbn [PageTable.pa_bits PageTable.vpn_bits PageTable.sv39 PageTable.sv32];
      [change (2 ^ 56) with (2 ^ 12 * 2 ^ 44) | change (2 ^ 32) with (2 ^ 12 * 2 ^ 20)];
      rewrite mod_mod_field by lia; change 4096 with (2 ^ 12);
      rewrite Z.add_comm, Z.mod_add, Hs by lia; done.
  Qed.
End Properties.

(** A three-level Sv39 tree at page 1 that maps the 2 MiB superpage at 0x40000000
    to 0x80200000 and the 4 KiB page at 0x40200000 to 0x80401000. *)
Definition sample_tables : list (width * Z * Z) :=
  [(W64, 0x1008, 0x801); (W64, 0x2000, 0x200800CF); (W64, 0x2008, 0xC01); (W64, 0x3000, 0x2010040F)].

Definition sample_memory : MemoryWrapper.t :=
  match write_all MemoryWrapper.MemoryWrapper sample_tables with
  | Ok m => m | Err _ => MemoryWrapper.MemoryWrapper end.

Definition sample_satp : Z := 2 ^ 63 + 1.
Definition sample_mmu : Mmu.t := Mmu.mk 2 false 0 SUPERVISOR_MODE.

Lemma sample_memory_ok : mem_ok sample_memory.
Proof.
  apply (write_all_ok MemoryWrapper.MemoryWrapper _ sample_tables);
    [exact MemoryWrapper_init_ok | apply (bool_decide_unpack _); by vm_compute | vm_compute; reflexivity].
Qed.

Abbreviation run_sample va write :=
  (Mmu.VirtualToPhysical va sample_satp write (sample_mmu, sample_memory)).

Example sample_superpage :
  option_map fst (match run_sample 0x40012345 false with Ok r => Some r | _ => None end) = Some 0x80212345.
Proof. vm_compute. reflexivity. Qed.


Lemma VirtualToPhysical_refines_witness :
  regime_of sample_mmu sample_satp = Paged PageTable.sv39 1 /\
  PageTable.translate PageTable.sv39 (mem_byte sample_memory) 1 0x40200ABC = Some (0x80401ABC, 0x3000, 0x2010040F) /\
  translates sample_mmu sample_memory 0x40200ABC sample_satp true (run_sample 0x40200ABC true).
Proof.
  split; [reflexivity |]. split; [vm_compute; reflexivity |].
  apply (VirtualToPhysical_refines sample_mmu sample_memory 0x40200ABC sample_satp true sample_memory_ok).
Defined.

(** The state a run from the sample state ends in. *)
Definition sample_after (va : Z) (write : bool) : Mmu.t * MemoryWrapper.t :=
  match run_sample va write with Ok (_, s) => s | Err _ => (sample_mmu, sample_memory) end.

(** A read through the superpage, then a write to the small page. *)
Lemma retranslation_stable_witness :
  exists pa' u2 m2 u3 m3,
    Mmu.VirtualToPhysical 0x40200ABC sample_satp true (sample_mmu, sample_memory) = Ok (pa', (u2, m2)) /\
    Mmu.VirtualToPhysical 0x40200ABC sample_satp false
      ((sample_after 0x40012345 true).1, (sample_after 0x40012345 true).2) = Ok (pa', (u3, m3)) /\
    Mmu.page_fault_ u2 = Mmu.page_fault_ u3.
Proof.
  apply (retranslation_stable sample_mmu _ sample_memory _ 0x40012345 sample_satp 0x80212345 0x40200ABC
           true true false sample_memory_ok); vm_compute; reflexivity.
Defined.

Lemma page_offset_preserved_witness : 0x80401ABC mod 2 ^ 12 = 0x40200ABC mod 2 ^ 12.
Proof.
  apply (page_offset_preserved sample_mmu (sample_after 0x40200ABC false).1 sample_memory
           (sample_after 0x40200ABC false).2 0x40200ABC sample_satp 0x80401ABC false sample_memory_ok).
  vm_compute; reflexivity.
Defined.
