(* ===== verification/CpuState.v ===== *)
(** * RISCV_cpu.h / RISCV_cpu.cc: the state of the processor

    The members of [RiscvCpu], its constructor and the small accessors.  The
    objects it owns (MMU, devices) are members; the guest memory all three point
    to is threaded beside the object, in the second component of the state. *)

From S2P Require Import Prelude BitTools Memory Isa Mmu Peripheral Syscall.

Module Cpu.

(** [reg_] and [csrs_] are arrays that start at zero.  [openHandles] is the
    global variable of system_call_emulator.cpp. *)
(* RISCV_cpu.h:16-210 RiscvCpu *)
Record t : Type := mk {
  xlen_ : Z;
  mxl_ : Z;
  reg_ : zvec;
  pc_ : Z;
  timer_interrupt_ : bool;
  ir_ : Z;
  next_pc_ : Z;
  mstatus_ : Z;
  mie_ : Z;
  mip_ : Z;
  privilege_ : PrivilegeMode;
  csrs_ : zvec;
  ctype_ : bool;
  page_fault_ : bool;
  prev_page_fault_ : bool;
  prev_faulting_address_ : Z;
  error_flag_ : bool;
  end_flag_ : bool;
  faulting_address_ : Z;
  mmu_ : Mmu.t;
  peripheral_ : Peripheral.t;
  ecall_emulation_ : bool;
  host_emulation_ : bool;
  peripheral_emulation_ : bool;
  virtio_interrupt_ : bool;
  uart_interrupt_ : bool;
  disable_machine_interrupt_delegation_ : bool;
  top_ : Z;
  bottom_ : Z;
  brk_ : Z;
  openHandles : Z
}.

#[global] Instance t_settable : Settable t := fun x => mk (xlen_ x) (mxl_ x) (reg_ x) (pc_ x)
  (timer_interrupt_ x) (ir_ x) (next_pc_ x) (mstatus_ x) (mie_ x) (mip_ x) (privilege_ x)
  (csrs_ x) (ctype_ x) (page_fault_ x) (prev_page_fault_ x) (prev_faulting_address_ x)
  (error_flag_ x) (end_flag_ x) (faulting_address_ x) (mmu_ x) (peripheral_ x)
  (ecall_emulation_ x) (host_emulation_ x) (peripheral_emulation_ x) (virtio_interrupt_ x)
  (uart_interrupt_ x) (disable_machine_interrupt_delegation_ x) (top_ x) (bottom_ x) (brk_ x)
  (openHandles x).
#[global] Instance set_xlen_ : Setter xlen_ := ltac:(mk_setter xlen_).
#[global] Instance set_mxl_ : Setter mxl_ := ltac:(mk_setter mxl_).
#[global] Instance set_reg_ : Setter reg_ := ltac:(mk_setter reg_).
#[global] Instance set_pc_ : Setter pc_ := ltac:(mk_setter pc_).
#[global] Instance set_timer_interrupt_ : Setter timer_interrupt_ := ltac:(mk_setter timer_interrupt_).
#[global] Instance set_ir_ : Setter ir_ := ltac:(mk_setter ir_).
#[global] Instance set_next_pc_ : Setter next_pc_ := ltac:(mk_setter next_pc_).
#[global] Instance set_mstatus_ : Setter mstatus_ := ltac:(mk_setter mstatus_).
#[global] Instance set_mie_ : Setter mie_ := ltac:(mk_setter mie_).
#[global] Instance set_mip_ : Setter mip_ := ltac:(mk_setter mip_).
#[global] Instance set_privilege_ : Setter privilege_ := ltac:(mk_setter privilege_).
#[global] Instance set_csrs_ : Setter csrs_ := ltac:(mk_setter csrs_).
#[global] Instance set_ctype_ : Setter ctype_ := ltac:(mk_setter ctype_).
#[global] Instance set_page_fault_ : Setter page_fault_ := ltac:(mk_setter page_fault_).
#[global] Instance set_prev_page_fault_ : Setter prev_page_fault_ := ltac:(mk_setter prev_page_fault_).
#[global] Instance set_prev_faulting_address_ : Setter prev_faulting_address_ := ltac:(mk_setter prev_faulting_address_).
#[global] Instance set_error_flag_ : Setter error_flag_ := ltac:(mk_setter error_flag_).
#[global] Instance set_end_flag_ : Setter end_flag_ := ltac:(mk_setter end_flag_).
#[global] Instance set_faulting_address_ : Setter faulting_address_ := ltac:(mk_setter faulting_address_).
#[global] Instance set_mmu_ : Setter mmu_ := ltac:(mk_setter mmu_).
#[global] Instance set_peripheral_ : Setter peripheral_ := ltac:(mk_setter peripheral_).
#[global] Instance set_ecall_emulation_ : Setter ecall_emulation_ := ltac:(mk_setter ecall_emulation_).
#[global] Instance set_host_emulation_ : Setter host_emulation_ := ltac:(mk_setter host_emulation_).
#[global] Instance set_peripheral_emulation_ : Setter peripheral_emulation_ := ltac:(mk_setter peripheral_emulation_).
#[global] Instance set_virtio_interrupt_ : Setter virtio_interrupt_ := ltac:(mk_setter virtio_interrupt_).
#[global] Instance set_uart_interrupt_ : Setter uart_interrupt_ := ltac:(mk_setter uart_interrupt_).
#[global] Instance set_disable_machine_interrupt_delegation_ : Setter disable_machine_interrupt_delegation_ := ltac:(mk_setter disable_machine_interrupt_delegation_).
#[global] Instance set_top_ : Setter top_ := ltac:(mk_setter top_).
#[global] Instance set_bottom_ : Setter bottom_ := ltac:(mk_setter bottom_).
#[global] Instance set_brk_ : Setter brk_ := ltac:(mk_setter brk_).
#[global] Instance set_openHandles : Setter openHandles := ltac:(mk_setter openHandles).

(* RISCV_cpu.h:17-19 RiscvCpu *)
Definition kCsrSize : Z := 4096.
Definition kRegSize : Z := 32.
Definition kRegNum : Z := 32.

(* RISCV_cpu.h:125-126 kInterrupt *)
Definition kInterrupt : bool := true.
Definition kException : bool := false.

(* RISCV_cpu.h:155-156 kUipMask *)
Definition kUipMask : Z := 0x111.
Definition kSipMask : Z := 0x333.
(* RISCV_cpu.h:161-162 kUieMask *)
Definition kUieMask : Z := 0x111.
Definition kSieMask : Z := 0x333.

(** [csrs_[index]] and [csrs_[index] = value]: the index is below [kCsrSize]
    wherever the emulator uses it. *)
Definition csr (s : t) (index : Z) : Z := zget (csrs_ s) index.
Definition put_csr (index value : Z) (s : t) : t := s <| csrs_ := zset (csrs_ s) index value |>.

(** [reg_[num]] and [reg_[num] = value]. *)
Definition reg (s : t) (num : Z) : Z := zget (reg_ s) num.
Definition put_reg (num value : Z) (s : t) : t := s <| reg_ := zset (reg_ s) num value |>.

(* RISCV_cpu.cc:1200-1203 kSstatusMask_32 *)
Definition kSstatusMask_32 : Z := 0xDE133.
Definition kUstatusMask_32 : Z := 0xDE011.
Definition kSstatusMask_64 : Z := 0x3000DE133.
Definition kUstatusMask_64 : Z := 0xDE011.

(* RISCV_cpu.cc:1205-1213 RiscvCpu::ApplyMstatusToCsr *)
Definition ApplyMstatusToCsr (s : t) : t :=
  let ustatus_mask := if mxl_ s =? 1 then kUstatusMask_32 else kUstatusMask_64 in
  let sstatus_mask := if mxl_ s =? 1 then kSstatusMask_32 else kSstatusMask_64 in
  let s := put_csr USTATUS (mstatus_ s .& ustatus_mask) s in
  let s := put_csr SSTATUS (mstatus_ s .& sstatus_mask) s in
  put_csr MSTATUS (mstatus_ s) s.

(** A left shift of an [int]: in 64-bit mode [mxl_ << (xlen_ - 2)] shifts a 32-bit
    [int] by 62, whose value the language leaves undefined; [misa_shift] is the
    value the platform gives it. *)
(* RISCV_cpu.cc:32-43 RiscvCpu::InitializeCsrs *)
Definition InitializeCsrs (misa_shift : Z) (s : t) : t :=
  let s := s <| csrs_ := ∅ |> in
  let extensions := 0x142100 in
  let shifted := if xlen_ s - 2 <? 32 then s32 (mxl_ s <<. (xlen_ s - 2)) else misa_shift in
  let s := put_csr MISA (u32 shifted .| extensions) s in
  if mxl_ s =? 2 then
    let s := s <| mstatus_ := u64 (mxl_ s <<. 34) .| u64 (mxl_ s <<. 32) |> in
    ApplyMstatusToCsr s
  else s.

(* RISCV_cpu.cc:30-30 RiscvCpu::ClearTimerInterruptFlag *)
Definition ClearTimerInterruptFlag (s : t) : t := s <| timer_interrupt_ := false |>.

(** Members without an initialiser ([pc_], [ir_], [ctype_], [faulting_address_],
    the two flags) start at zero here; each is written before it is read, except
    [error_flag_] and [end_flag_], which [RunCpu] resets. *)
(* RISCV_cpu.cc:15-26 RiscvCpu::RiscvCpu *)
Definition RiscvCpu (misa_shift : Z) (en64bit : bool) : t :=
  let mxl := if en64bit then 2 else 1 in
  let xlen := if en64bit then 64 else 32 in
  let s := mk xlen mxl ∅ 0 false 0 0 0 0 0 MACHINE_MODE ∅ false false false 0 false false 0
             Mmu.init (Peripheral.PeripheralEmulator mxl) false false false false false false
             0x80000000 0x40000000 0x40000000 0 in
  ClearTimerInterruptFlag (InitializeCsrs misa_shift s).

(* RISCV_cpu.cc:110-110 RiscvCpu::SetRegister *)
Definition SetRegister (num value : Z) (s : t) : t := put_reg num value s.
(* RISCV_cpu.cc:112-112 RiscvCpu::ReadRegister *)
Definition ReadRegister (s : t) (num : Z) : Z := reg s num.
(* RISCV_cpu.cc:114-114 RiscvCpu::SetCsr *)
Definition SetCsr (index value : Z) (s : t) : t := put_csr index value s.
(* RISCV_cpu.cc:116-116 RiscvCpu::ReadCsr *)
Definition ReadCsr (s : t) (index : Z) : Z := csr s index.
(* RISCV_cpu.cc:118-121 RiscvCpu::SetWorkMemory *)
Definition SetWorkMemory (top bottom : Z) (s : t) : t := s <| top_ := top |> <| bottom_ := bottom |>.
(* RISCV_cpu.h:170-172 SetEcallEmulationEnable *)
Definition SetEcallEmulationEnable (enable : bool) (s : t) : t := s <| ecall_emulation_ := enable |>.
(* RISCV_cpu.h:174-176 DisableMachineInterruptDelegation *)
Definition DisableMachineInterruptDelegation (disable : bool) (s : t) : t :=
  s <| disable_machine_interrupt_delegation_ := disable |>.
(* RISCV_cpu.h:179-182 SetHostEmulationEnable *)
Definition SetHostEmulationEnable (enable : bool) (s : t) : t :=
  let s := s <| host_emulation_ := enable |> in
  s <| peripheral_ := Peripheral.SetHostEmulationEnable enable (peripheral_ s) |>.
(* RISCV_cpu.h:184-187 SetDeviceEmulationEnable *)
Definition SetDeviceEmulationEnable (enable : bool) (s : t) : t :=
  let s := s <| peripheral_emulation_ := enable |> in
  s <| peripheral_ := Peripheral.SetDeviceEmulationEnable enable (peripheral_ s) |>.
(* RISCV_cpu.cc:52-55 RiscvCpu::SetDiskImage *)
Definition SetDiskImage (disk_image : option disk) (s : t) : t :=
  s <| peripheral_ := Peripheral.SetDiskImage disk_image (peripheral_ s) |>.

(* RISCV_cpu.cc:280-280 kUpper32bitMask *)
Definition kUpper32bitMask : Z := 0xFFFFFFFF00000000.

(* RISCV_cpu.cc:282-288 RiscvCpu::Sext32bit *)
Definition Sext32bit (data32bit : Z) : Z :=
  if negb (((data32bit >>. 31) .& 1) =? 0) then data32bit .| kUpper32bitMask
  else data32bit .& ~64 kUpper32bitMask.

(* RISCV_cpu.cc:1324-1335 RiscvCpu::IntToPrivilegeMode *)
Definition IntToPrivilegeMode (value : Z) : res PrivilegeMode :=
  if value =? 0 then Ok USER_MODE
  else if value =? 1 then Ok SUPERVISOR_MODE
  else if value =? 3 then Ok MACHINE_MODE
  else Err Exception.

(* RISCV_cpu.cc:1337-1348 RiscvCpu::PriviledgeToInt *)
Definition PriviledgeToInt (priv : PrivilegeMode) : Z :=
  match priv with USER_MODE => 0 | SUPERVISOR_MODE => 1 | MACHINE_MODE => 3 end.

End Cpu.

(** The monad of the methods of [RiscvCpu]. *)
Abbreviation CPU M := (ST (Cpu.t * M)).

Section Access.
  Context {M : Type}.

  (** Reads and writes of the register file, the CSRs and the whole object. *)
Definition get_reg (num : Z) : CPU M Z := gets (fun s => Cpu.reg s.1 num).
Definition set_reg (num value : Z) : CPU M unit := modify (fun s => (Cpu.put_reg num value s.1, s.2)).
Definition get_csr (index : Z) : CPU M Z := gets (fun s => Cpu.csr s.1 index).
Definition set_csr (index value : Z) : CPU M unit := modify (fun s => (Cpu.put_csr index value s.1, s.2)).
Definition upd (f : Cpu.t -> Cpu.t) : CPU M unit := modify (fun s => (f s.1, s.2)).

  (** Calls of the MMU's and the devices' methods: the same memory, another object. *)
Definition on_mmu {A} (m : ST (Mmu.t * M) A) : CPU M A :=
    zoom (fun s => (Cpu.mmu_ s.1, s.2)) (fun t s => (s.1 <| Cpu.mmu_ := t.1 |>, t.2)) m.
Definition on_peripheral {A} (m : ST (Peripheral.t * M) A) : CPU M A :=
    zoom (fun s => (Cpu.peripheral_ s.1, s.2)) (fun t s => (s.1 <| Cpu.peripheral_ := t.1 |>, t.2)) m.
Definition on_device (f : Peripheral.t -> Peripheral.t) : CPU M unit :=
    upd (fun s => s <| Cpu.peripheral_ := f (Cpu.peripheral_ s) |>).
End Access.
