(* ===== verification/Alu.v ===== *)
(** * RISCV_cpu.cc: arithmetic and logic

    The register-to-register, immediate, shift, multiply/divide and branch
    instructions.  The value each computes is a function of its operands
    ([*_result]); the method reads the registers, writes [rd] and is what the
    interpreter calls.  Undefined C++ operations are [Err Undefined]. *)

From S2P Require Import Prelude BitTools Memory Isa CpuState.
Import Cpu.

(** Signed 64-bit arithmetic that the language leaves undefined on overflow. *)
Definition mul_s64 (x y : Z) : res Z :=
  if (- 2 ^ 63 <=? x * y) && (x * y <? 2 ^ 63) then Ok (x * y) else Err Undefined.
Definition quot_s64 (x y : Z) : res Z :=
  if (y =? 0) || ((x =? - 2 ^ 63) && (y =? -1)) then Err Undefined else Ok (Z.quot x y).
Definition rem_s64 (x y : Z) : res Z :=
  if (y =? 0) || ((x =? - 2 ^ 63) && (y =? -1)) then Err Undefined else Ok (Z.rem x y).
Definition quot_u64 (x y : Z) : res Z := if y =? 0 then Err Undefined else Ok (x / y).
Definition rem_u64 (x y : Z) : res Z := if y =? 0 then Err Undefined else Ok (x mod y).

(** A shift by [n] of a [w]-bit operand is undefined unless [0 <= n < w]. *)
Definition check_shift (w n : Z) (v : Z) : res Z := if (0 <=? n) && (n <? w) then Ok v else Err Undefined.

(* RISCV_cpu.cc:346-396 RiscvCpu::OperationInstruction *)
Definition operation_result (xlen : Z) (instruction : instruction) (a b : Z) : res Z :=
  let w_instruction :=
    (instruction =? INST_ADDW) || (instruction =? INST_SUBW) || (instruction =? INST_SLLW)
    || (instruction =? INST_SRLW) || (instruction =? INST_SRAW) in
  let shift_mask := if (xlen =? 32) || w_instruction then 0x1F else 0x3F in
  temp64 ←
    (match instruction with
     | INST_ADD | INST_ADDW => mret (u64 (a + b))
     | INST_SUB | INST_SUBW => mret (u64 (a - b))
     | INST_AND => mret (a .& b)
     | INST_OR => mret (a .| b)
     | INST_XOR => mret (a .^ b)
     | INST_SLL | INST_SLLW => mret (u64 (a <<. (b .& shift_mask)))
     | INST_SRL | INST_SRLW =>
         let temp64 := a in
         let temp64 := if (xlen =? 32) || (instruction =? INST_SRLW) then temp64 .& 0xFFFFFFFF else temp64 in
         mret (temp64 >>. (b .& shift_mask))
     | INST_SRA => mret (u64 (s64 a >>. (b .& shift_mask)))
     | INST_SRAW => mret (Sext32bit a >>. (b .& shift_mask))
     | _ => Err Assert_failed
     end);
  mret (if (xlen =? 32) || w_instruction then Sext32bit temp64 else temp64).

(* RISCV_cpu.cc:398-423 RiscvCpu::ImmediateInstruction *)
Definition immediate_result (xlen : Z) (instruction : instruction) (a imm12 : Z) : res Z :=
  temp64 ←
    (match instruction with
     | INST_ADDI | INST_ADDIW => mret (u64 (a + imm12))
     | INST_ANDI => mret (a .& u64 imm12)
     | INST_ORI => mret (a .| u64 imm12)
     | INST_XORI => mret (a .^ u64 imm12)
     | _ => Err Assert_failed
     end);
  mret (if (xlen =? 32) || (instruction =? INST_ADDIW) then Sext32bit temp64 else temp64).

(** A shift amount of 32 or more where five bits are meant; the callers ignore the
    result, so that only the message depends on it. *)
(* RISCV_cpu.cc:77-85 RiscvCpu::CheckShiftSign *)
Definition CheckShiftSign (xlen shamt : Z) (instruction : instruction) : bool :=
  if (xlen =? 32) || (instruction =? INST_SLLIW) || (instruction =? INST_SRAIW) || (instruction =? INST_SRLIW)
  then negb (shamt >>. 5 =? 0) else false.

(** Without the messages of [CheckShiftSign]; [None]: an instruction that leaves
    [rd] alone. *)
(* RISCV_cpu.cc:425-469 RiscvCpu::ImmediateShiftInstruction *)
Definition shift_result (xlen : Z) (instruction : instruction) (a shamt : Z) : res (option Z) :=
  match instruction with
  | INST_SLLI =>
      temp64 ← check_shift 64 shamt (u64 (a <<. shamt));
      mret (Some (if xlen =? 32 then Sext32bit temp64 else temp64))
  | INST_SLLIW =>
      temp64 ← check_shift 64 shamt (u64 (a <<. shamt) .& 0xFFFFFFFF);
      mret (Some (Sext32bit temp64))
  | INST_SRLI =>
      let temp64 := if xlen =? 32 then a .& ~64 kUpper32bitMask else a in
      temp64 ← check_shift 64 shamt (temp64 >>. shamt);
      mret (Some (if xlen =? 32 then Sext32bit temp64 else temp64))
  | INST_SRLIW =>
      temp64 ← check_shift 64 shamt ((a .& 0xFFFFFFFF) >>. shamt);
      mret (Some (Sext32bit temp64))
  | INST_SRAI => temp64 ← check_shift 64 shamt (u64 (s64 a >>. shamt)); mret (Some temp64)
  | INST_SRAIW => temp64 ← check_shift 32 shamt (u64 (s32 a >>. shamt)); mret (Some temp64)
  | _ => mret None
  end.

(* RISCV_cpu.cc:320-344 RiscvCpu::BranchInstruction *)
Definition branch_taken (instruction : instruction) (a b : Z) : bool :=
  match instruction with
  | INST_BEQ => a =? b
  | INST_BGE => s64 b <=? s64 a
  | INST_BGEU => b <=? a
  | INST_BLT => s64 a <? s64 b
  | INST_BLTU => a <? b
  | INST_BNE => negb (a =? b)
  | _ => false
  end.

(* RISCV_cpu.cc:608-623 GetMulh64 *)
Definition GetMulh64 (op1 op2 : Z) : Z :=
  let a := op1 >>. 32 in
  let b := u64 (op1 .& 0xFFFFFFFF) in
  let c := op2 >>. 32 in
  let d := u64 (op2 .& 0xFFFFFFFF) in
  let ac := s64 (a * c) in
  let ad := s64 (u64 (u64 a * d)) in
  let bc := s64 (u64 (b * u64 c)) in
  let bd := u64 (b * d) in
  let d32 := u64 (u64 (s64 ((ad .& 0xFFFFFFFF) + (bc .& 0xFFFFFFFF))) + (bd >>. 32)) in
  let upper := s64 (u64 (s64 (s64 (ac + (ad >>. 32)) + (bc >>. 32)) + (d32 >>. 32))) in
  u64 upper.

(* RISCV_cpu.cc:625-640 GetMulhsu64 *)
Definition GetMulhsu64 (op1 op2 : Z) : Z :=
  let a := op1 >>. 32 in
  let b := u64 (op1 .& 0xFFFFFFFF) in
  let c := op2 >>. 32 in
  let d := op2 .& 0xFFFFFFFF in
  let ac := s64 (u64 (u64 a * c)) in
  let ad := s64 (u64 (u64 a * d)) in
  let bc := u64 (b * c) in
  let bd := u64 (b * d) in
  let d32 := u64 (u64 ((ad .& 0xFFFFFFFF) + (bc .& 0xFFFFFFFF)) + (bd >>. 32)) in
  let upper := s64 (u64 (u64 (s64 (ac + (ad >>. 32)) + (bc >>. 32)) + (d32 >>. 32))) in
  u64 upper.

(* RISCV_cpu.cc:642-657 GetMulhu64 *)
Definition GetMulhu64 (op1 op2 : Z) : Z :=
  let a := op1 >>. 32 in
  let b := op1 .& 0xFFFFFFFF in
  let c := op2 >>. 32 in
  let d := op2 .& 0xFFFFFFFF in
  let ac := u64 (a * c) in
  let ad := u64 (a * d) in
  let bc := u64 (b * c) in
  let bd := u64 (b * d) in
  let d32 := u64 (u64 ((ad .& 0xFFFFFFFF) + (bc .& 0xFFFFFFFF)) + (bd >>. 32)) in
  u64 (u64 (u64 (ac + (ad >>. 32)) + (bc >>. 32)) + (d32 >>. 32)).

(* RISCV_cpu.cc:659-777 RiscvCpu::MultInstruction *)
Definition mult_result (xlen : Z) (instruction : instruction) (a b : Z) : res Z :=
  let largest_negative := u64 (1 <<. (xlen - 1)) in
  let low x := x .& 0xFFFFFFFF in
  '(sign_extend_en, temp64) ←
    (match instruction with
     | INST_MUL => mret (xlen =? 32, u64 (a * b))
     | INST_MULW => mret (true, u64 (a * b))
     | INST_MULH =>
         if xlen =? 32 then p ← mul_s64 (s64 a) (s64 b); mret (xlen =? 32, u64 (p >>. 32))
         else mret (xlen =? 32, GetMulh64 (s64 a) (s64 b))
     | INST_MULHSU =>
         if xlen =? 32 then mret (xlen =? 32, u64 (u64 (s64 a) * low b) >>. 32)
         else mret (xlen =? 32, GetMulhsu64 (s64 a) b)
     | INST_MULHU =>
         if xlen =? 32 then mret (xlen =? 32, u64 (low a * low b) >>. 32)
         else mret (xlen =? 32, GetMulhu64 a b)
     | INST_DIV =>
         if b =? 0 then mret (xlen =? 32, u64 (-1))
         else if (s64 b =? -1) && (a =? largest_negative) then mret (xlen =? 32, largest_negative)
         else q ← quot_s64 (s64 a) (s64 b); mret (xlen =? 32, u64 q)
     | INST_DIVU =>
         if b =? 0 then mret (xlen =? 32, u64 (-1))
         else if xlen =? 32 then q ← quot_u64 (low a) (low b); mret (xlen =? 32, q)
         else q ← quot_u64 a b; mret (xlen =? 32, q)
     | INST_DIVUW =>
         if b =? 0 then mret (true, u64 (-1))
         else q ← quot_u64 (low a) (low b); mret (true, q)
     | INST_DIVW =>
         if b =? 0 then mret (true, u64 (-1))
         else if (s64 b =? -1) && (a =? 2 ^ 31) then mret (true, 2 ^ 31)
         else q ← quot_s64 (s64 (SignExtend 64 a 32)) (s64 (SignExtend 64 b 32)); mret (true, u64 q)
     | INST_REM =>
         if b =? 0 then mret (xlen =? 32, a)
         else if (s64 b =? -1) && (a =? largest_negative) then mret (xlen =? 32, 0)
         else r ← rem_s64 (s64 a) (s64 b); mret (xlen =? 32, u64 r)
     | INST_REMU =>
         if b =? 0 then mret (xlen =? 32, a)
         else if xlen =? 32 then r ← rem_u64 (low a) (low b); mret (xlen =? 32, r)
         else r ← rem_u64 a b; mret (xlen =? 32, r)
     | INST_REMUW =>
         if b =? 0 then mret (true, a)
         else r ← rem_u64 (low a) (low b); mret (true, r)
     | INST_REMW =>
         if b =? 0 then mret (true, a)
         else if (s64 b =? -1) && (a =? 2 ^ 31) then mret (true, 0)
         else r ← rem_s64 (s64 (SignExtend 64 a 32)) (s64 (SignExtend 64 b 32)); mret (true, u64 r)
     | _ => Err Assert_failed
     end : res (bool * Z));
  mret (if sign_extend_en : bool then Sext32bit temp64 else temp64).

(* ------------------------------------------------------------------ *)
(** ** The methods *)

Section Methods.
  Context {M : Type}.

(* RISCV_cpu.cc:346-396 RiscvCpu::OperationInstruction *)
Definition OperationInstruction (instruction : instruction) (rd rs1 rs2 : Z) : CPU M unit :=
  xlen ← field xlen_; a ← get_reg rs1; b ← get_reg rs2;
  temp64 ← lift (operation_result xlen instruction a b);
  set_reg rd temp64.

(* RISCV_cpu.cc:398-423 RiscvCpu::ImmediateInstruction *)
Definition ImmediateInstruction (instruction : instruction) (rd rs1 imm12 : Z) : CPU M unit :=
  xlen ← field xlen_; a ← get_reg rs1;
  temp64 ← lift (immediate_result xlen instruction a imm12);
  set_reg rd temp64.

(* RISCV_cpu.cc:425-469 RiscvCpu::ImmediateShiftInstruction *)
Definition ImmediateShiftInstruction (instruction : instruction) (rd rs1 shamt : Z) : CPU M unit :=
  xlen ← field xlen_; a ← get_reg rs1;
  temp64 ← lift (shift_result xlen instruction a shamt);
  match temp64 with Some v => set_reg rd v | None => mret tt end.

(* RISCV_cpu.cc:659-777 RiscvCpu::MultInstruction *)
Definition MultInstruction (instruction : instruction) (rd rs1 rs2 : Z) : CPU M unit :=
  xlen ← field xlen_; a ← get_reg rs1; b ← get_reg rs2;
  temp64 ← lift (mult_result xlen instruction a b);
  set_reg rd temp64.

(** The next program counter. *)
(* RISCV_cpu.cc:320-344 RiscvCpu::BranchInstruction *)
Definition BranchInstruction (instruction : instruction) (rs1 rs2 imm13 : Z) : CPU M Z :=
  a ← get_reg rs1; b ← get_reg rs2; pc ← field pc_; next ← field next_pc_;
  mret (if branch_taken instruction a b then u64 (pc + imm13) else next).

(** The comparisons of RunCpu: SLT, SLTU, SLTI, SLTIU. *)
(* RISCV_cpu.cc:994-1005 RiscvCpu::RunCpu *)
Definition compare_result (instruction : instruction) (a b imm : Z) : Z :=
  match instruction with
  | INST_SLT => if s64 a <? s64 b then 1 else 0
  | INST_SLTU => if a <? b then 1 else 0
  | INST_SLTI => if s64 a <? imm then 1 else 0
  | INST_SLTIU => if a <? u64 imm then 1 else 0
  | _ => 0
  end.

End Methods.

(* ------------------------------------------------------------------ *)
(** ** Specification: the ISA manual's arithmetic, for both register widths

    [x], [y] are unsigned [xlen]-bit register values; the emulator keeps the
    sign extension of a register to 64 bits ([embed]). *)

Module Isa_spec.

Definition embed (xlen x : Z) : Z := u64 (sint xlen x).

Definition word (xlen x : Z) : Z := uint xlen (sint 32 x).

Definition operation (xlen : Z) (i : instruction) (x y : Z) : option Z :=
  match i with
  | INST_ADD => Some (uint xlen (x + y))
  | INST_SUB => Some (uint xlen (x - y))
  | INST_AND => Some (x .& y)
  | INST_OR => Some (x .| y)
  | INST_XOR => Some (x .^ y)
  | INST_SLL => Some (uint xlen (x * 2 ^ (y mod xlen)))
  | INST_SRL => Some (x / 2 ^ (y mod xlen))
  | INST_SRA => Some (uint xlen (sint xlen x / 2 ^ (y mod xlen)))
  | INST_ADDW => Some (word xlen (x + y))
  | INST_SUBW => Some (word xlen (x - y))
  | INST_SLLW => Some (word xlen (x * 2 ^ (y mod 32)))
  | INST_SRLW => Some (word xlen (x mod 2 ^ 32 / 2 ^ (y mod 32)))
  | INST_SRAW => Some (word xlen (sint 32 x / 2 ^ (y mod 32)))
  | _ => None
  end.

Definition immediate (xlen : Z) (i : instruction) (x imm : Z) : option Z :=
  match i with
  | INST_ADDI => Some (uint xlen (x + imm))
  | INST_ANDI => Some (x .& uint xlen imm)
  | INST_ORI => Some (x .| uint xlen imm)
  | INST_XORI => Some (x .^ uint xlen imm)
  | INST_ADDIW => Some (word xlen (x + imm))
  | INST_SLLI => Some (uint xlen (x * 2 ^ imm))
  | INST_SRLI => Some (x / 2 ^ imm)
  | INST_SRAI => Some (uint xlen (sint xlen x / 2 ^ imm))
  | INST_SLLIW => Some (word xlen (x * 2 ^ imm))
  | INST_SRLIW => Some (word xlen (x mod 2 ^ 32 / 2 ^ imm))
  | INST_SRAIW => Some (word xlen (sint 32 x / 2 ^ imm))
  | _ => None
  end.

(** Division rounds towards zero; the two special cases of the manual. *)
Definition div_s (w x y : Z) : Z :=
  if sint w y =? 0 then uint w (-1) else uint w (Z.quot (sint w x) (sint w y)).
Definition rem_s (w x y : Z) : Z := if sint w y =? 0 then uint w x else uint w (Z.rem (sint w x) (sint w y)).
Definition div_u (w x y : Z) : Z := if uint w y =? 0 then uint w (-1) else uint w x / uint w y.
Definition rem_u (w x y : Z) : Z := if uint w y =? 0 then uint w x else uint w x mod uint w y.

Definition multiply (xlen : Z) (i : instruction) (x y : Z) : option Z :=
  match i with
  | INST_MUL => Some (uint xlen (x * y))
  | INST_MULH => Some (uint xlen (sint xlen x * sint xlen y / 2 ^ xlen))
  | INST_MULHSU => Some (uint xlen (sint xlen x * y / 2 ^ xlen))
  | INST_MULHU => Some (x * y / 2 ^ xlen)
  | INST_DIV => Some (div_s xlen x y)
  | INST_DIVU => Some (div_u xlen x y)
  | INST_REM => Some (rem_s xlen x y)
  | INST_REMU => Some (rem_u xlen x y)
  | INST_MULW => Some (word xlen (x * y))
  | INST_DIVW => Some (word xlen (div_s 32 x y))
  | INST_DIVUW => Some (word xlen (div_u 32 x y))
  | INST_REMW => Some (word xlen (rem_s 32 x y))
  | INST_REMUW => Some (word xlen (rem_u 32 x y))
  | _ => None
  end.

(** Whether a conditional branch is taken, and the comparisons into a register. *)
Definition taken (xlen : Z) (i : instruction) (x y : Z) : bool :=
  match i with
  | INST_BEQ => x =? y
  | INST_BNE => negb (x =? y)
  | INST_BLT => sint xlen x <? sint xlen y
  | INST_BGE => sint xlen y <=? sint xlen x
  | INST_BLTU => x <? y
  | INST_BGEU => y <=? x
  | _ => false
  end.

Definition compare (xlen : Z) (i : instruction) (x y imm : Z) : bool :=
  match i with
  | INST_SLT => sint xlen x <? sint xlen y
  | INST_SLTU => x <? y
  | INST_SLTI => sint xlen x <? imm
  | INST_SLTIU => x <? uint xlen imm
  | _ => false
  end.

(** The W forms exist in 64-bit mode only. *)
Definition is_w (i : instruction) : bool :=
  match i with
  | INST_ADDW | INST_SUBW | INST_SLLW | INST_SRLW | INST_SRAW | INST_ADDIW | INST_SLLIW | INST_SRLIW
  | INST_SRAIW | INST_MULW | INST_DIVW | INST_DIVUW | INST_REMW | INST_REMUW => true
  | _ => false
  end.

Definition supported (xlen : Z) (i : instruction) : Prop := xlen = 64 \/ xlen = 32 /\ is_w i = false.
End Isa_spec.

(* ------------------------------------------------------------------ *)
(** ** Values of registers *)

Import Isa_spec.

Lemma bit_set_test z i : 0 <= i -> negb (((z >>. i) .& 1) =? 0) = Z.testbit z i.
Proof.
  intros. change 1 with (Z.ones 1) at 1. rewrite land_mask by lia. unfold uint. change (2 ^ 1) with 2.
  rewrite <- Z.bit0_mod, Z.shiftr_spec by lia. change (0 + i) with i. by destruct (Z.testbit z i).
Qed.

Lemma Sext32bit_spec z : in_u 64 z -> Sext32bit z = u64 (s32 z).
Proof.
  intros Hz. unfold Sext32bit. replace (negb (((z >>. 31) .& 1) =? 0)) with (Z.testbit z 31).
  2: symmetry; apply bit_set_test; lia.
  apply (bits_eq_below 64); [lia | | auto with rv |].
  { destruct (Z.testbit z 31); [apply in_u_lor; [lia | done | decide_it] | apply in_u_land; auto with rv; lia]. }
  apply Forall_forall. intros i Hi%elem_of_seqZ. rewrite testbit_uint, testbit_sint by lia.
  destruct (Z.ltb_spec i 64); [| lia]. cbn [andb].
  assert (Hk : Z.testbit kUpper32bitMask i = negb (i <? 32)).
  { change kUpper32bitMask with (Z.ones 32 <<. 32). rewrite Z.shiftl_spec by lia.
    destruct (Z.ltb_spec i 32); [by rewrite Z.testbit_neg_r by lia | by rewrite Z.ones_spec_low by lia]. }
  destruct (Z.testbit z 31) eqn:E.
  - rewrite Z.lor_spec, Hk. change (32 - 1) with 31. destruct (i <? 32); [apply orb_false_r | by rewrite orb_true_r].
  - rewrite Z.land_spec, testbit_uint, Z.lnot_spec, Hk by lia. change (32 - 1) with 31.
    destruct (Z.ltb_spec i 64); [| lia]. destruct (i <? 32); cbn; [apply andb_true_r | by rewrite andb_false_r].
Qed.

Lemma embed_range xlen x : in_u 64 (embed xlen x).
Proof. apply uint_range; lia. Qed.

Lemma embed64 x : in_u 64 x -> embed 64 x = x.
Proof. intros. unfold embed. rewrite uint_sint by lia. by apply uint_small. Qed.

(** The signed value of a register, at its own width and at 64 bits. *)
Lemma s64_embed xlen x : 0 < xlen <= 64 -> s64 (embed xlen x) = sint xlen x.
Proof. intros. unfold embed. rewrite sint_uint by lia. apply sint_sint_ge; lia. Qed.

Lemma embed_eqm w xlen x : 0 < w <= xlen -> xlen <= 64 -> eqm w (embed xlen x) x.
Proof. intros. unfold embed. rewrite uint_eqm, sint_eqm by lia. done. Qed.

Lemma low_embed32 x : in_u 32 x -> embed 32 x .& 0xFFFFFFFF = x.
Proof.
  intros. change 0xFFFFFFFF with (Z.ones 32). rewrite land_mask by lia.
  rewrite (embed_eqm 32 32 x) by lia. by apply uint_small.
Qed.

Lemma low_spec x : x .& 0xFFFFFFFF = u32 x.
Proof. apply (land_mask x 32). lia. Qed.

(** A 32-bit result, however it is computed at 64 bits. *)
Lemma Sext32_embed z x : in_u 64 z -> eqm 32 z x -> Sext32bit z = embed 32 x.
Proof. intros Hz E. rewrite Sext32bit_spec by done. unfold embed. by rewrite E. Qed.

Lemma Sext32_word z x : in_u 64 z -> eqm 32 z x -> Sext32bit z = embed 64 (word 64 x).
Proof.
  intros Hz E. rewrite (Sext32_embed z x) by done. unfold word. rewrite embed64 by auto with rv. done.
Qed.

(** The register value of a result that was reduced to 32 bits. *)
Lemma embed32_uint x : embed 32 (u32 x) = embed 32 x.
Proof. unfold embed. by rewrite sint_uint by lia. Qed.

(** Shift amounts. *)
Lemma shamt5 x xlen : 32 <= xlen <= 64 -> embed xlen x .& 0x1F = x mod 32.
Proof.
  intros. change 0x1F with (Z.ones 5). rewrite land_mask by lia.
  by rewrite (embed_eqm 5 xlen x) by lia.
Qed.

Lemma shamt6 x : embed 64 x .& 0x3F = x mod 64.
Proof.
  change 0x3F with (Z.ones 6). rewrite land_mask by lia. by rewrite (embed_eqm 6 64 x) by lia.
Qed.

Lemma shift_eqm w a b k : 0 <= k -> eqm w a b -> eqm w (a <<. k) (b * 2 ^ k).
Proof. intros Hk E. rewrite Z.shiftl_mul_pow2 by lia. by rewrite E. Qed.

Lemma in_u_bitop w a b :
  0 <= w -> in_u w a -> in_u w b -> in_u w (a .& b) /\ in_u w (a .| b) /\ in_u w (a .^ b).
Proof. intros. split; [apply in_u_land; auto | split; auto with rv]. Qed.

Lemma in_u_div w a b : in_u w a -> 0 < b -> in_u w (a / b).
Proof.
  unfold in_u. intros. split; [apply Z.div_pos; lia |]. apply Z.le_lt_trans with a; [| lia].
  apply Z.div_le_upper_bound; nia.
Qed.

#[export] Hint Resolve embed_range in_u_div : rv.

(** The low half of an arithmetic shift does not need the bits above 64. *)
Lemma shiftr_eqm v k : 0 <= k <= 32 -> eqm 32 (u64 v >>. k) (v / 2 ^ k).
Proof.
  intros. rewrite <- Z.shiftr_div_pow2 by lia. apply eqm_bits; [lia |]. intros i Hi.
  rewrite !Z.shiftr_spec, testbit_uint by lia. destruct (Z.ltb_spec (i + k) 64); [done | lia].
Qed.

Lemma mod_32_bounds y : 0 <= y mod 32 < 32.
Proof. apply Z.mod_pos_bound. lia. Qed.

Lemma mod_64_bounds y : 0 <= y mod 64 < 64.
Proof. apply Z.mod_pos_bound. lia. Qed.

(** How a 32-bit result reaches the register at either width. *)
Lemma Ok_Sext32_word z x : in_u 64 z -> eqm 32 z x -> Ok (Sext32bit z) = Ok (embed 64 (word 64 x)).
Proof. intros. f_equal. by apply Sext32_word. Qed.

Lemma Ok_Sext32_embed z x : in_u 64 z -> eqm 32 z x -> Ok (Sext32bit z) = Ok (embed 32 x).
Proof. intros. f_equal. by apply Sext32_embed. Qed.

Lemma Ok_embed64 z x : in_u 64 x -> z = x -> Ok z = Ok (embed 64 x).
Proof. intros ? ->. by rewrite embed64. Qed.

#[export] Hint Resolve in_u_land : rv.

Lemma shift_range w z k : 0 <= k -> in_u w z -> in_u w (z / 2 ^ k).
Proof. intros. apply in_u_div; [done | apply Z.pow_pos_nonneg; lia]. Qed.

#[export] Hint Resolve shift_range : rv.

(** Symbolic execution of a [*_result] on a known instruction. *)
Ltac run_alu := cbv delta [code_instruction mret mbind res_bind res_ret] beta iota;
  cbn [Z.eqb Pos.eqb Z.compare Pos.compare orb andb].

Section Operations.
  Context (x y z : Z).

Lemma operation_64 i :
    in_u 64 x -> in_u 64 y -> operation 64 i x y = Some z ->
    operation_result 64 i (embed 64 x) (embed 64 y) = Ok (embed 64 z).
  Proof using.
    intros Hx Hy. pose proof (mod_64_bounds y). pose proof (mod_32_bounds y).
    pose proof (shamt5 y 64 ltac:(lia)) as H5. pose proof (shamt6 y) as H6. rewrite !embed64 in * by done.
    unfold operation_result, operation.
    destruct i; try discriminate; intros [= <-]; run_alu;
      rewrite ?H5, ?H6, ?low_spec, ?Z.shiftr_div_pow2, ?Z.shiftl_mul_pow2 by lia;
      first [apply Ok_embed64; auto with rv; done
            | apply Ok_Sext32_word; [auto with rv | try by rewrite ?uint_eqm by lia]].
    - apply in_u_mono with 32; auto with rv.
    - rewrite Sext32bit_spec by done. auto with rv.
    - rewrite Sext32bit_spec, <- Z.shiftr_div_pow2 by (done || lia). apply shiftr_eqm. lia.
  Qed.

Lemma operation_32 i :
    in_u 32 x -> in_u 32 y -> is_w i = false -> operation 32 i x y = Some z ->
    operation_result 32 i (embed 32 x) (embed 32 y) = Ok (embed 32 z).
  Proof using.
    intros Hx Hy Hw. pose proof (mod_32_bounds y).
    pose proof (shamt5 y 32 ltac:(lia)) as H5. pose proof (low_embed32 x Hx) as Hl.
    pose proof (embed_range 32 x). pose proof (embed_range 32 y).
    unfold operation_result, operation.
    destruct i; try discriminate; intros [= <-]; run_alu;
      rewrite ?H5, ?Hl, ?s64_embed, ?Z.shiftr_div_pow2, ?Z.shiftl_mul_pow2 by lia;
      apply Ok_Sext32_embed; auto with rv; rewrite ?uint_eqm, ?embed_eqm by lia; try done.
    apply in_u_mono with 32; auto with rv.
  Qed.

Lemma operation_ok xlen i :
    supported xlen i -> in_u xlen x -> in_u xlen y -> operation xlen i x y = Some z ->
    operation_result xlen i (embed xlen x) (embed xlen y) = Ok (embed xlen z).
  Proof using. intros [-> | [-> Hw]]; [apply operation_64 | intros ??; by apply operation_32]. Qed.
End Operations.

(** The shifts by an immediate, and the amounts an encoding may hold. *)
Definition shift_imm (i : instruction) : bool :=
  match i with
  | INST_SLLI | INST_SLLIW | INST_SRLI | INST_SRLIW | INST_SRAI | INST_SRAIW => true
  | _ => false
  end.

Definition shamt_ok (xlen : Z) (i : instruction) (shamt : Z) : Prop :=
  0 <= shamt < (if is_w i then 32 else xlen).

(** [CheckShiftSign] notices exactly the shift amounts the manual excludes. *)
Lemma CheckShiftSign_spec xlen i shamt :
  supported xlen i -> shift_imm i = true -> 0 <= shamt < 64 ->
  CheckShiftSign xlen shamt i = false <-> shamt_ok xlen i shamt.
Proof.
  intros Hx Hi Hs. unfold CheckShiftSign, shamt_ok. rewrite Z.shiftr_div_pow2 by lia.
  assert (Hbig : negb (shamt / 2 ^ 5 =? 0) = false <-> 0 <= shamt < 32).
  { rewrite negb_false_iff, Z.eqb_eq. zlia. }
  destruct Hx as [-> | [-> Hw]]; destruct i; try discriminate; try exact Hbig; by split.
Qed.

Lemma check_shift_ok w n v : 0 <= n < w -> check_shift w n v = Ok v.
Proof. intros. unfold check_shift. by destruct (Z.leb_spec 0 n), (Z.ltb_spec n w); try lia. Qed.

Lemma low_kUpper z : z .& ~64 kUpper32bitMask = u32 z.
Proof. change (~64 kUpper32bitMask) with (Z.ones 32). apply land_mask. lia. Qed.

Lemma Ok_Some {A} (a b : A) : Ok a = Ok b -> Ok (Some a) = Ok (Some b).
Proof. by intros [= ->]. Qed.

Lemma in_s_div w v k : 0 < w -> 0 <= k -> in_s w v -> in_s w (v / 2 ^ k).
Proof.
  unfold in_s. intros Hw Hk Hv. pose proof (Z.pow_pos_nonneg 2 k ltac:(lia) Hk) as Hp.
  pose proof (Z.pow_pos_nonneg 2 (w - 1) ltac:(lia) ltac:(lia)) as Hq.
  generalize dependent (2 ^ k). generalize dependent (2 ^ (w - 1)). intros q Hv Hq p Hp.
  split; [apply Z.div_le_lower_bound; nia | apply Z.div_lt_upper_bound; nia].
Qed.

#[export] Hint Resolve in_s_div : rv.

Section Immediates.
  Context (x imm z : Z).

Lemma immediate_result_ok xlen i :
    supported xlen i -> in_u xlen x -> shift_imm i = false -> immediate xlen i x imm = Some z ->
    immediate_result xlen i (embed xlen x) imm = Ok (embed xlen z).
  Proof using.
    intros [-> | [-> Hw]] Hx Hs; unfold immediate_result, immediate.
    - rewrite embed64 by done. destruct i; try discriminate; intros [= <-]; run_alu;
        first [apply Ok_embed64; auto with rv; done
              | apply Ok_Sext32_word; [auto with rv | by rewrite ?uint_eqm by lia]].
    - pose proof (embed_range 32 x).
      destruct i; try discriminate; intros [= <-]; run_alu;
        apply Ok_Sext32_embed; auto with rv; by rewrite ?uint_eqm, ?embed_eqm by lia.
  Qed.

Lemma shift_result_ok xlen i :
    supported xlen i -> in_u xlen x -> shamt_ok xlen i imm -> shift_imm i = true ->
    immediate xlen i x imm = Some z ->
    shift_result xlen i (embed xlen x) imm = Ok (Some (embed xlen z)).
  Proof using.
    unfold shamt_ok. intros [-> | [-> Hw]] Hx Hsh Hs; unfold shift_result, immediate.
    - rewrite embed64 by done.
      destruct i; try discriminate; cbn [is_w] in Hsh; intros [= <-]; rewrite check_shift_ok by lia; run_alu;
        apply Ok_Some; rewrite ?low_spec, ?Z.shiftr_div_pow2, ?Z.shiftl_mul_pow2 by lia;
        first [apply Ok_embed64; auto with rv; done
              | apply Ok_Sext32_word; [auto with rv | try by rewrite ?uint_eqm by lia] | idtac].
      + apply in_u_mono with 32; auto with rv.
      + apply in_u_mono with 32; auto with rv.
      + f_equal. unfold word. rewrite embed64 by auto with rv. f_equal.
        symmetry. apply sint_small; auto with rv.
    - pose proof (embed_range 32 x). pose proof (low_embed32 x Hx) as Hl.
      destruct i; try discriminate; intros [= <-]; cbn [is_w] in Hsh;
        rewrite check_shift_ok by lia; run_alu; apply Ok_Some;
        rewrite ?low_kUpper, ?Z.shiftr_div_pow2, ?Z.shiftl_mul_pow2 by lia.
      + apply Ok_Sext32_embed; auto with rv; by rewrite ?uint_eqm, ?embed_eqm by lia.
      + rewrite <- low_spec, Hl. apply Ok_Sext32_embed; [apply in_u_mono with 32; auto with rv | done].
      + f_equal. unfold embed at 2. rewrite s64_embed, sint_uint by lia. f_equal. symmetry. apply sint_small; auto with rv.
  Qed.
End Immediates.

(* ------------------------------------------------------------------ *)
(** ** Multiplication and division *)

(** Splitting a 64 x 64 product into 32 x 32 products. *)
Lemma split32 z : z = z / 2 ^ 32 * 2 ^ 32 + u32 z.
Proof. unfold uint. change (2 ^ 32) with 4294967296. zlia. Qed.

Lemma mul_high x y :
  let a := x / 2 ^ 32 in let b := u32 x in let c := y / 2 ^ 32 in let d := u32 y in
  x * y / 2 ^ 64
  = a * c + a * d / 2 ^ 32 + b * c / 2 ^ 32 + (u32 (a * d) + u32 (b * c) + b * d / 2 ^ 32) / 2 ^ 32.
Proof.
  intros a b c d. replace (x * y) with (a * c * 2 ^ 64 + (a * d + b * c) * 2 ^ 32 + b * d).
  2:{ rewrite (split32 x), (split32 y). fold a b c d. change (2 ^ 64) with (2 ^ 32 * 2 ^ 32). ring. }
  generalize (a * c) (a * d) (b * c) (b * d). unfold uint. clear.
  change (2 ^ 64) with (4294967296 * 4294967296). change (2 ^ 32) with 4294967296. zlia.
Qed.

Lemma half_u64 z : in_u 64 z -> 0 <= z / 2 ^ 32 <= 4294967295.
Proof. unfold in_u. change (2 ^ 64) with (2 ^ 32 * 2 ^ 32). change (2 ^ 32) with 4294967296. zlia. Qed.

Lemma half_s64 z : in_s 64 z -> - 2147483648 <= z / 2 ^ 32 <= 2147483647.
Proof. unfold in_s. change (2 ^ (64 - 1)) with (2147483648 * 4294967296). change (2 ^ 32) with 4294967296. zlia. Qed.

Lemma low32_range z : 0 <= u32 z <= 4294967295.
Proof. pose proof (uint_range 32 ltac:(lia) z) as H. unfold in_u in H. lia. Qed.

Lemma s64_exact z : - 9223372036854775808 <= z <= 9223372036854775807 -> s64 z = z.
Proof. intros. apply sint_small; [lia | unfold in_s; lia]. Qed.
Lemma u64_exact z : 0 <= z <= 18446744073709551615 -> u64 z = z.
Proof. intros. apply uint_small. unfold in_u. lia. Qed.

Lemma div32_bounds lo hi z : lo * 4294967296 <= z < (hi + 1) * 4294967296 -> lo <= z / 2 ^ 32 <= hi.
Proof. change (2 ^ 32) with 4294967296. zlia. Qed.

(** The four partial products of two 64-bit words, and that no step of the
    long multiplication overflows. *)
Ltac exact_words := repeat first [rewrite s64_exact by lia | rewrite u64_exact by lia].
Ltac partial_products a b c d :=
  rewrite ?(uint_le 32 64) by lia;
  pose proof (low32_range (a * d)); pose proof (low32_range (b * c));
  pose proof (div32_bounds (-4294967295) 4294967294 (a * d) ltac:(nia));
  pose proof (div32_bounds (-4294967295) 4294967294 (b * c) ltac:(nia));
  pose proof (div32_bounds 0 4294967294 (b * d) ltac:(nia));
  pose proof (div32_bounds 0 3 (u32 (a * d) + u32 (b * c) + b * d / 2 ^ 32) ltac:(lia)).

(** The middle column of the long multiplication, and the columns added up. *)
Lemma middle_exact l l' h :
  0 <= l <= 4294967295 -> 0 <= l' <= 4294967295 -> 0 <= h <= 4294967294 -> u64 (u64 (l + l') + h) = l + l' + h.
Proof. intros. by rewrite (u64_exact (l + l')), u64_exact by lia. Qed.

Lemma columns_u64 p q r t : in_u 64 (p + q + r + t) -> u64 (u64 (u64 (p + q) + r) + t) = p + q + r + t.
Proof.
  intros H. transitivity (u64 (p + q + r + t)); [| by apply uint_small].
  by rewrite (uint_eqm 64 64 (u64 _ + r)), (uint_eqm 64 64 (p + q)) by lia.
Qed.

Lemma product_in_u64 x y : in_u 64 x -> in_u 64 y -> in_u 64 (x * y / 2 ^ 64).
Proof.
  unfold in_u. intros. split; [apply Z.div_pos; nia | apply Z.div_lt_upper_bound; nia].
Qed.

Lemma GetMulhu64_spec x y : in_u 64 x -> in_u 64 y -> GetMulhu64 x y = x * y / 2 ^ 64.
Proof.
  intros Hx Hy. pose proof (product_in_u64 x y Hx Hy) as Hr. revert Hr.
  rewrite mul_high. unfold GetMulhu64. rewrite !low_spec, !Z.shiftr_div_pow2 by lia.
  generalize (half_u64 x Hx) (half_u64 y Hy) (low32_range x) (low32_range y).
  generalize (x / 2 ^ 32) (y / 2 ^ 32) (u32 x) (u32 y). clear. intros a c b d Ha Hc Hb Hd Hr.
  partial_products a b c d.
  rewrite (u64_exact (a * c)), (u64_exact (a * d)), (u64_exact (b * c)), (u64_exact (b * d)) by nia.
  rewrite (middle_exact (u32 (a * d))) by lia. by apply columns_u64.
Qed.

(** A partial product computed through unsigned words. *)
Lemma signed_partial a d :
  - 2147483648 <= a <= 2147483647 -> 0 <= d <= 4294967295 -> s64 (u64 (u64 a * d)) = a * d.
Proof.
  intros. rewrite sint_uint, (uint_eqm 64 64 a) by lia. apply s64_exact. nia.
Qed.

Lemma signed_partial' a d :
  - 2147483648 <= a <= 2147483647 -> 0 <= d <= 4294967295 -> s64 (u64 (d * u64 a)) = d * a.
Proof. intros. rewrite !(Z.mul_comm d). by apply signed_partial. Qed.

Lemma GetMulh64_spec x y : in_s 64 x -> in_s 64 y -> GetMulh64 x y = u64 (x * y / 2 ^ 64).
Proof.
  intros Hx Hy. rewrite mul_high. unfold GetMulh64. rewrite !low_spec, !Z.shiftr_div_pow2 by lia.
  generalize (half_s64 x Hx) (half_s64 y Hy) (low32_range x) (low32_range y).
  generalize (x / 2 ^ 32) (y / 2 ^ 32) (u32 x) (u32 y). clear. intros a c b d Ha Hc Hb Hd.
  partial_products a b c d.
  rewrite (u64_exact b), (u64_exact d), (s64_exact (a * c)), (u64_exact (b * d)) by (clear -Ha Hc Hb Hd; nia).
  rewrite (signed_partial a d), (signed_partial' c b) by done.
  rewrite (s64_exact (u32 (a * d) + u32 (b * c))) by lia. rewrite (u64_exact (u32 (a * d) + u32 (b * c))) by lia.
  rewrite (u64_exact (_ + b * d / _)) by lia.
  rewrite uint_sint, uint_uint by lia. by rewrite !(sint_eqm 64 64) by lia.
Qed.

Lemma GetMulhsu64_spec x y : in_s 64 x -> in_u 64 y -> GetMulhsu64 x y = u64 (x * y / 2 ^ 64).
Proof.
  intros Hx Hy. rewrite mul_high. unfold GetMulhsu64. rewrite !low_spec, !Z.shiftr_div_pow2 by lia.
  generalize (half_s64 x Hx) (half_u64 y Hy) (low32_range x) (low32_range y).
  generalize (x / 2 ^ 32) (y / 2 ^ 32) (u32 x) (u32 y). clear. intros a c b d Ha Hc Hb Hd.
  partial_products a b c d.
  rewrite (u64_exact b), (u64_exact (b * c)), (u64_exact (b * d)) by (clear -Ha Hc Hb Hd; nia).
  rewrite (signed_partial a d), (signed_partial a c) by done.
  rewrite (middle_exact (u32 (a * d))) by lia.
  rewrite uint_sint, uint_uint by lia.
  by rewrite (uint_eqm 64 64 (s64 _ + _)), (sint_eqm 64 64) by lia.
Qed.

(** Zero operands, seen from either width. *)
Lemma uint_zero_test w y : 0 < w -> in_u w y -> (uint w y =? 0) = (y =? 0).
Proof. intros. by rewrite uint_small. Qed.

Lemma sint_zero_test w y : 0 < w -> (sint w y =? 0) = (uint w y =? 0).
Proof.
  intros Hw. destruct (Z.eqb_spec (uint w y) 0) as [E|E].
  - rewrite <- sint_uint, E by lia. apply Z.eqb_eq, sint_small; [lia |]. unfold in_s.
    pose proof (Z.pow_pos_nonneg 2 (w - 1)). lia.
  - apply Z.eqb_neq. intros E'. apply E. rewrite <- uint_sint, E' by lia. done.
Qed.

Lemma embed_zero_test y : in_u 32 y -> (embed 32 y =? 0) = (y =? 0).
Proof.
  intros Hy. destruct (Z.eqb_spec y 0) as [->|E]; [done |].
  apply Z.eqb_neq. intros E'. apply E. rewrite <- (low_embed32 y Hy), E'. done.
Qed.

(** 32-bit signed division never overflows at 64 bits. *)
Lemma quot_s64_ok x y :
  y <> 0 -> (x <> - 2 ^ 63 \/ y <> -1) -> quot_s64 x y = Ok (Z.quot x y) /\ rem_s64 x y = Ok (Z.rem x y).
Proof.
  intros Hy Ho. unfold quot_s64, rem_s64. destruct (Z.eqb_spec y 0); [done |].
  destruct (Z.eqb_spec x (- 2 ^ 63)), (Z.eqb_spec y (-1)); cbn; try done; lia.
Qed.

Lemma s32_not_min z : s32 z <> - 2 ^ 63.
Proof. pose proof (sint_range 32 ltac:(lia) z). unfold in_s in *. lia. Qed.

Lemma quot_u64_ok x y : y <> 0 -> quot_u64 x y = Ok (x / y) /\ rem_u64 x y = Ok (x mod y).
Proof. intros. unfold quot_u64, rem_u64. by destruct (Z.eqb_spec y 0). Qed.

Lemma in_u_mod w x y : in_u w x -> 0 < y -> in_u w (x mod y).
Proof. unfold in_u. intros. pose proof (Z.mod_pos_bound x y). pose proof (Z.mod_le x y). lia. Qed.

#[export] Hint Resolve in_u_mod : rv.

(** The 32-bit divisions of 64-bit mode test the whole register for zero but
    divide by its low half. *)
Definition divisor_ok (i : instruction) (y : Z) : Prop :=
  match i with
  | INST_DIVW | INST_DIVUW | INST_REMW | INST_REMUW => y = 0 \/ u32 y <> 0
  | _ => True
  end.

#[export] Instance divisor_ok_dec i y : Decision (divisor_ok i y).
Proof. destruct i; cbn [divisor_ok]; apply _. Defined.

Section Multiplication.
  Context (x y z : Z).

Lemma mul_64 i :
    in_u 64 x -> in_u 64 y -> i ∈ [INST_MUL; INST_MULH; INST_MULHSU; INST_MULHU; INST_MULW] ->
    multiply 64 i x y = Some z -> mult_result 64 i (embed 64 x) (embed 64 y) = Ok (embed 64 z).
  Proof using.
    intros Hx Hy Hi. rewrite !embed64 by done. unfold mult_result, multiply.
    repeat (apply elem_of_cons in Hi as [-> | Hi]; [intros [= <-]; run_alu |]); [.. | by apply not_elem_of_nil in Hi].
    - apply Ok_embed64; auto with rv.
    - apply Ok_embed64; [auto with rv |]. apply GetMulh64_spec; auto with rv.
    - apply Ok_embed64; [auto with rv |]. apply GetMulhsu64_spec; auto with rv.
    - apply Ok_embed64; [by apply product_in_u64 |]. by apply GetMulhu64_spec.
    - apply Ok_Sext32_word; [auto with rv | by rewrite uint_eqm by lia].
  Qed.

Lemma mul_s64_ok a b : in_s 32 a -> in_s 32 b -> mul_s64 a b = Ok (a * b).
  Proof using.
    unfold in_s, mul_s64. intros. destruct (Z.leb_spec (- 2 ^ 63) (a * b)); [| nia].
    by destruct (Z.ltb_spec (a * b) (2 ^ 63)); [| nia].
  Qed.

Lemma mul_32 i :
    in_u 32 x -> in_u 32 y -> i ∈ [INST_MUL; INST_MULH; INST_MULHSU; INST_MULHU] ->
    multiply 32 i x y = Some z -> mult_result 32 i (embed 32 x) (embed 32 y) = Ok (embed 32 z).
  Proof using.
    intros Hx Hy Hi. pose proof (low_embed32 x Hx) as Hlx. pose proof (low_embed32 y Hy) as Hly.
    unfold mult_result, multiply.
    repeat (apply elem_of_cons in Hi as [-> | Hi]; [intros [= <-]; run_alu |]); [.. | by apply not_elem_of_nil in Hi];
      rewrite ?Hlx, ?Hly, ?s64_embed by lia.
    - apply Ok_Sext32_embed; [auto with rv |]. by rewrite !uint_eqm, !embed_eqm by lia.
    - rewrite mul_s64_ok by auto with rv. run_alu. rewrite Z.shiftr_div_pow2 by lia.
      apply Ok_Sext32_embed; [auto with rv |]. by rewrite !uint_eqm by lia.
    - apply Ok_Sext32_embed; [auto with rv |].
      rewrite (uint_eqm 32 32), (uint_eqm 64 64 (sint 32 x)) by lia. apply shiftr_eqm. lia.
    - apply Ok_Sext32_embed; [auto with rv |]. apply shiftr_eqm. lia.
  Qed.

Lemma div_64 i :
    in_u 64 x -> in_u 64 y -> i ∈ [INST_DIV; INST_DIVU; INST_REM; INST_REMU] ->
    multiply 64 i x y = Some z -> mult_result 64 i (embed 64 x) (embed 64 y) = Ok (embed 64 z).
  Proof using.
    intros Hx Hy Hi. rewrite !embed64 by done. unfold mult_result, multiply, div_s, div_u, rem_s, rem_u.
    rewrite !sint_zero_test, !uint_zero_test by (done || lia). rewrite !(uint_small 64 x), !(uint_small 64 y) by done.
    assert (Hs : s64 y = -1 -> x <> 2 ^ 63 -> s64 x <> - 2 ^ 63).
    { intros _ Hne E. apply Hne. rewrite <- (uint_small 64 x Hx), <- uint_sint, E by lia. done. }
    assert (Hy0 : y <> 0 -> s64 y <> 0).
    { intros Hne E. apply Hne. rewrite <- (uint_small 64 y Hy), <- uint_sint, E by lia. done. }
    repeat (apply elem_of_cons in Hi as [-> | Hi]; [intros [= <-] |]); [.. | by apply not_elem_of_nil in Hi];
      (destruct (Z.eqb_spec y 0) as [-> | E]; [run_alu; apply Ok_embed64; auto with rv; try done|]).
    all: cbv delta [code_instruction mret mbind res_bind res_ret] beta iota; change (64 =? 32) with false; cbv iota.
    all: change (u64 (1 <<. (64 - 1))) with (2 ^ 63).
    1, 3: destruct (Z.eqb_spec (s64 y) (-1)) as [E1|E1], (Z.eqb_spec x (2 ^ 63)) as [-> | E2]; cbn [andb].
    1, 5: rewrite E1; apply Ok_embed64; [auto with rv | done].
    all: try (match goal with |- context [quot_s64 ?a ?b] => destruct (quot_s64_ok a b) as [-> _]
                         | |- context [rem_s64 ?a ?b] => destruct (quot_s64_ok a b) as [_ ->] end; [by auto | tauto |]).
    all: try (destruct (quot_u64_ok x y E) as [Hu Hv]; rewrite ?Hu, ?Hv).
    all: apply Ok_embed64; auto with rv.
    all: first [apply in_u_div | apply in_u_mod]; [done | unfold in_u in *; lia].
  Qed.

Lemma div_32 i :
    in_u 32 x -> in_u 32 y -> i ∈ [INST_DIV; INST_DIVU; INST_REM; INST_REMU] ->
    multiply 32 i x y = Some z -> mult_result 32 i (embed 32 x) (embed 32 y) = Ok (embed 32 z).
  Proof using.
    intros Hx Hy Hi. pose proof (low_embed32 x Hx) as Hlx. pose proof (low_embed32 y Hy) as Hly.
    unfold mult_result, multiply, div_s, div_u, rem_s, rem_u.
    rewrite !sint_zero_test, !uint_zero_test, embed_zero_test, !s64_embed, Hlx, Hly by (done || lia).
    rewrite !(uint_small 32 x), !(uint_small 32 y) by done.
    assert (Hy0 : y <> 0 -> s32 y <> 0).
    { intros Hne E. apply Hne. rewrite <- (uint_small 32 y Hy), <- uint_sint, E by lia. done. }
    assert (Hm : (embed 32 x =? u64 (1 <<. (32 - 1))) = false).
    { apply Z.eqb_neq. intros E. pose proof (s64_embed 32 x ltac:(lia)) as H. rewrite E in H.
      change (s64 (u64 (1 <<. (32 - 1)))) with (2 ^ 31) in H. pose proof (sint_range 32 ltac:(lia) x) as Hr.
      unfold in_s in Hr. lia. }
    rewrite Hm, andb_false_r.
    repeat (apply elem_of_cons in Hi as [-> | Hi]; [intros [= <-] |]); [.. | by apply not_elem_of_nil in Hi];
      (destruct (Z.eqb_spec y 0) as [-> | E]; [run_alu; apply Ok_Sext32_embed; auto with rv; by rewrite ?embed_eqm by lia|]).
    all: destruct (quot_s64_ok (s32 x) (s32 y)) as [Hq Hr]; [by auto | by left; apply s32_not_min |].
    all: destruct (quot_u64_ok x y E) as [Hu Hv]; rewrite ?Hu, ?Hv, ?Hq, ?Hr; run_alu; apply Ok_Sext32_embed; auto with rv.
    all: try done. all: try (by rewrite !uint_eqm by lia).
    all: apply in_u_mono with 32; [lia |]; first [apply in_u_div | apply in_u_mod]; [done | unfold in_u in *; lia].
  Qed.

Lemma div_w_64 i :
    in_u 64 x -> in_u 64 y -> i ∈ [INST_DIVW; INST_DIVUW; INST_REMW; INST_REMUW] -> divisor_ok i y ->
    multiply 64 i x y = Some z -> mult_result 64 i (embed 64 x) (embed 64 y) = Ok (embed 64 z).
  Proof using.
    intros Hx Hy Hi Hd. assert (Hd' : y = 0 \/ u32 y <> 0).
    { by repeat (apply elem_of_cons in Hi as [-> | Hi]; [exact Hd |]); apply not_elem_of_nil in Hi. }
    rewrite !embed64 by done. unfold mult_result, multiply, div_s, div_u, rem_s, rem_u.
    rewrite !sint_zero_test, !low_spec, !SignExtend_spec, !sint_uint, !sint_sint_ge by lia.
    assert (Hy0 : u32 y <> 0 -> s32 y <> 0).
    { intros Hne E. apply Hne. rewrite <- uint_sint, E by lia. done. }
    assert (Hm : s64 y = -1 -> s32 y = -1).
    { intros E. rewrite <- (sint_sint_le 32 64), E by lia. done. }
    destruct (Z.eqb_spec y 0) as [-> | E].
    { change (u32 0 =? 0) with true.
      repeat (apply elem_of_cons in Hi as [-> | Hi]; [intros [= <-]; run_alu; apply Ok_Sext32_word; auto with rv;
        by rewrite ?uint_eqm by lia |]). by apply not_elem_of_nil in Hi. }
    destruct Hd' as [|Hd']; [done |]. destruct (Z.eqb_spec (u32 y) 0); [done |].
    destruct (quot_s64_ok (s32 x) (s32 y)) as [Hq Hr]; [by auto | by left; apply s32_not_min |].
    destruct (quot_u64_ok (u32 x) (u32 y)) as [Hu Hv]; [done |].
    rewrite Hq, Hr, Hu, Hv.
    assert (0 < u32 y) by (pose proof (low32_range y); lia).
    repeat (apply elem_of_cons in Hi as [-> | Hi]; [intros [= <-] |]); [.. | by apply not_elem_of_nil in Hi].
    1, 3: destruct (Z.eqb_spec (s64 y) (-1)) as [E1|E1], (Z.eqb_spec x (2 ^ 31)) as [-> | E2]; cbn [andb].
    all: run_alu; apply Ok_Sext32_word; [auto with rv | rewrite ?uint_eqm by lia; try done].
    all: try by (rewrite Hm by done).
    1: decide_it.
    all: apply in_u_mono with 32; auto with rv.
  Qed.

Lemma mult_result_ok xlen i :
    supported xlen i -> in_u xlen x -> in_u xlen y -> divisor_ok i y -> multiply xlen i x y = Some z ->
    mult_result xlen i (embed xlen x) (embed xlen y) = Ok (embed xlen z).
  Proof using.
    intros [-> | [-> Hw]] Hx Hy Hd Hz.
    - destruct i; try discriminate Hz;
        first [by apply mul_64; [.. | repeat constructor |] | by apply div_64; [.. | repeat constructor |]
              | by apply div_w_64; [.. | repeat constructor | |]].
    - destruct i; try discriminate; first [by apply mul_32; [.. | repeat constructor |] | by apply div_32; [.. | repeat constructor |]].
  Qed.
End Multiplication.

(* ------------------------------------------------------------------ *)
(** ** The instructions follow the manual *)

Section Refinement.
  Context {M : Type} (s : Cpu.t) (m : M).

  (** A write to [rd] is all that these methods do. *)
Lemma run_to_reg rd (r : res Z) v :
    r = Ok v -> (temp ← lift r; set_reg rd temp) (s, m) = Ok (tt, (put_reg rd v s, m)).
  Proof using. by intros ->. Qed.

Lemma undefined_run rd (r : res Z) :
    r = Err Undefined -> (temp ← lift r; set_reg rd temp) (s, m) = Err Undefined.
  Proof using. by intros ->. Qed.
End Refinement.

(** C22: for every register-to-register arithmetic, logic and shift instruction, in
    32- and 64-bit mode, [OperationInstruction] on sign-extended register values
    writes the sign extension of the result the ISA manual defines (modulo the
    register width, shift amounts taken modulo the width, the W forms on the low
    32 bits) into [rd] and leaves the rest of the processor and memory alone. *)
Theorem OperationInstruction_refines {M} (s : Cpu.t) (m : M) (i : instruction) (rd rs1 rs2 x y z : Z) :
  supported (xlen_ s) i -> in_u (xlen_ s) x -> in_u (xlen_ s) y ->
  reg s rs1 = embed (xlen_ s) x -> reg s rs2 = embed (xlen_ s) y ->
  operation (xlen_ s) i x y = Some z ->
  OperationInstruction i rd rs1 rs2 (s, m) = Ok (tt, (put_reg rd (embed (xlen_ s) z) s, m)).
Proof.
  intros Hs Hx Hy H1 H2 Hz. apply run_to_reg. cbn. rewrite H1, H2. by apply operation_ok.
Qed.

Lemma OperationInstruction_refines_witness :
  let s := put_reg 2 65 (put_reg 1 (u64 (-8)) (RiscvCpu 0 true)) in
  OperationInstruction INST_SRA 3 1 2 (s, tt) = Ok (tt, (put_reg 3 (u64 (-4)) s, tt)).
Proof.
  intros s.
  apply (OperationInstruction_refines s tt INST_SRA 3 1 2 (u64 (-8)) 65 (u64 (-4))); [left; done | | | done ..];
    decide_it.
Defined.

(** Likewise for the immediate forms: [ImmediateInstruction] and, for shift
    amounts an encoding of that width may hold, [ImmediateShiftInstruction] write
    the manual's result into [rd]. *)
Theorem ImmediateInstruction_refines {M} (s : Cpu.t) (m : M) (i : instruction) (rd rs1 x imm z : Z) :
  supported (xlen_ s) i -> in_u (xlen_ s) x -> reg s rs1 = embed (xlen_ s) x ->
  (shift_imm i = true -> shamt_ok (xlen_ s) i imm) ->
  immediate (xlen_ s) i x imm = Some z ->
  (if shift_imm i then ImmediateShiftInstruction i rd rs1 imm else ImmediateInstruction i rd rs1 imm) (s, m)
  = Ok (tt, (put_reg rd (embed (xlen_ s) z) s, m)).
Proof.
  intros Hs Hx H1 Hsh Hz. destruct (shift_imm i) eqn:E.
  - unfold ImmediateShiftInstruction, mbind, st_bind, field, get_reg, gets, lift. cbn [fst].
    rewrite H1, (shift_result_ok x imm z) by auto. done.
  - apply run_to_reg. cbn. rewrite H1. by apply immediate_result_ok.
Qed.

Lemma ImmediateInstruction_refines_witness :
  let s := put_reg 1 (embed 32 0x80000000) (RiscvCpu 0 false) in
  ImmediateShiftInstruction INST_SRLI 3 1 4 (s, tt) = Ok (tt, (put_reg 3 0x08000000 s, tt)).
Proof.
  intros s.
  apply (ImmediateInstruction_refines s tt INST_SRLI 3 1 0x80000000 4 0x08000000);
    [right; done | decide_it | done | intros _; split; done | done].
Defined.

(** A divisor whose low half is zero but which is not: the emulator divides by
    zero where the manual asks for all ones (or the dividend). *)
Lemma word_division_by_zero (x y : Z) (i : instruction) :
  in_u 64 y -> ~ divisor_ok i y -> mult_result 64 i x y = Err Undefined.
Proof.
  intros Hr Hd.
  assert (Hy : y <> 0 /\ u32 y = 0).
  { destruct (Z.eq_dec y 0), (Z.eq_dec (u32 y) 0); destruct i; cbn in Hd; tauto. }
  destruct Hy as [Hy Hl].
  assert (Hs : s32 y = 0) by (rewrite <- (sint_uint 32), Hl by lia; done).
  assert (Hone : (s64 y =? -1) = false).
  { apply Z.eqb_neq. intros E. rewrite <- (sint_sint_le 32 64), E in Hs by lia. discriminate Hs. }
  unfold mult_result. rewrite low_spec, !SignExtend_spec, !sint_uint, !sint_sint_ge by lia.
  rewrite Hl, Hs, Hone. apply Z.eqb_neq in Hy. rewrite Hy.
  by destruct i; try (exfalso; exact (Hd I)).
Qed.

(** C21: for the M extension, in both modes, [MultInstruction] writes the manual's
    product, high product (signed, unsigned, mixed), quotient or remainder, division
    by zero and signed overflow included, with one exception, the theorem's second
    case: DIVW, DIVUW, REMW and REMUW with a divisor register that is not zero but
    has a zero low half.  There the manual asks for the result of a division by zero
    and the code, which tests the whole register, does divide by zero: undefined
    behaviour of the host program. *)
Theorem MultInstruction_refines {M} (s : Cpu.t) (m : M) (i : instruction) (rd rs1 rs2 x y z : Z) :
  supported (xlen_ s) i -> in_u (xlen_ s) x -> in_u (xlen_ s) y ->
  reg s rs1 = embed (xlen_ s) x -> reg s rs2 = embed (xlen_ s) y ->
  multiply (xlen_ s) i x y = Some z ->
  MultInstruction i rd rs1 rs2 (s, m) =
    if bool_decide (divisor_ok i y) then Ok (tt, (put_reg rd (embed (xlen_ s) z) s, m)) else Err Undefined.
Proof.
  intros Hs Hx Hy H1 H2 Hz. case_bool_decide as Hd.
  - apply run_to_reg. cbn. rewrite H1, H2. by apply mult_result_ok.
  - destruct Hs as [E | [_ E]]; [| by destruct i; try discriminate E; destruct Hd].
    apply undefined_run. cbn. rewrite H2, E, embed64 in * by congruence. apply word_division_by_zero; congruence.
Qed.

(** The signed overflow, and a DIVUW by 2^32. *)
Lemma MultInstruction_refines_witness :
  let s := put_reg 2 (u64 (-1)) (put_reg 1 (2 ^ 63) (RiscvCpu 0 true)) in
  MultInstruction INST_DIV 3 1 2 (s, tt) = Ok (tt, (put_reg 3 (2 ^ 63) s, tt)) /\
  MultInstruction INST_DIVUW 3 1 2 (put_reg 2 (2 ^ 32) s, tt) = Err Undefined.
Proof.
  intros s. split.
  - apply (MultInstruction_refines s tt INST_DIV 3 1 2 (2 ^ 63) (u64 (-1)) (2 ^ 63));
      [left; done | decide_it | decide_it | done ..].
  - apply (MultInstruction_refines (put_reg 2 (2 ^ 32) s) tt INST_DIVUW 3 1 2 (2 ^ 63) (2 ^ 32) (u64 (-1)));
      [left; done | decide_it | decide_it | done ..].
Defined.

(** Branches and comparisons: signed and unsigned order of sign-extended values
    is the order of the values themselves. *)
Lemma embed_unfold x : in_u 32 x -> embed 32 x = if x <? 2 ^ 31 then x else x + (2 ^ 64 - 2 ^ 32).
Proof.
  intros Hx. unfold embed. rewrite (sint_unfold 32 ltac:(lia) x Hx). change (32 - 1) with 31. unfold in_u in Hx.
  destruct (Z.ltb_spec x (2 ^ 31)); [apply u64_exact; lia |].
  unfold uint. replace (x - 2 ^ 32) with (x + (2 ^ 64 - 2 ^ 32) + -1 * 2 ^ 64) by lia.
  rewrite Z.mod_add by lia. apply Z.mod_small. lia.
Qed.

Lemma embed_order xlen x y :
  xlen = 32 \/ xlen = 64 -> in_u xlen x -> in_u xlen y ->
  (embed xlen x =? embed xlen y) = (x =? y) /\ (embed xlen x <? embed xlen y) = (x <? y)
  /\ (embed xlen x <=? embed xlen y) = (x <=? y).
Proof.
  intros [-> | ->] Hx Hy; [| by rewrite !embed64 by done].
  rewrite !embed_unfold by done. unfold in_u in *.
  destruct (Z.ltb_spec x (2 ^ 31)), (Z.ltb_spec y (2 ^ 31)); repeat split;
    apply eq_true_iff_eq; rewrite ?Z.eqb_eq, ?Z.ltb_lt, ?Z.leb_le; lia.
Qed.

Lemma branch_taken_ok xlen i x y :
  xlen = 32 \/ xlen = 64 -> in_u xlen x -> in_u xlen y ->
  branch_taken i (embed xlen x) (embed xlen y) = taken xlen i x y.
Proof.
  intros Hs Hx Hy. destruct (embed_order xlen x y Hs Hx Hy) as (E1 & E2 & _).
  destruct (embed_order xlen y x Hs Hy Hx) as (_ & _ & E3).
  destruct i; try done; cbn [branch_taken taken]; rewrite ?s64_embed, ?E1, ?E2, ?E3 by lia; done.
Qed.

(** In 32- and 64-bit mode every conditional branch is taken exactly when the
    manual's signed or unsigned comparison of the two registers holds, and then
    the next program counter is the branch's target, else the following
    instruction; a branch changes nothing. *)
Theorem BranchInstruction_refines {M} (s : Cpu.t) (m : M) (i : instruction) (rs1 rs2 imm x y : Z) :
  (xlen_ s = 32 \/ xlen_ s = 64) -> in_u (xlen_ s) x -> in_u (xlen_ s) y ->
  reg s rs1 = embed (xlen_ s) x -> reg s rs2 = embed (xlen_ s) y ->
  BranchInstruction i rs1 rs2 imm (s, m)
  = Ok (if taken (xlen_ s) i x y then u64 (pc_ s + imm) else next_pc_ s, (s, m)).
Proof.
  intros Hs Hx Hy H1 H2. unfold BranchInstruction, mbind, st_bind, field, get_reg, gets. cbn [fst].
  by rewrite H1, H2, branch_taken_ok.
Qed.

Lemma BranchInstruction_refines_witness :
  let s := (put_reg 2 5 (put_reg 1 (embed 32 0xFFFFFFFF) (RiscvCpu 0 false))) <| pc_ := 0x100 |> in
  BranchInstruction INST_BLT 1 2 (-16) (s, tt) = Ok (0xF0, (s, tt)).
Proof.
  intros s. apply (BranchInstruction_refines s tt INST_BLT 1 2 (-16) 0xFFFFFFFF 5);
    [left; done | decide_it | decide_it | done | done].
Defined.

Lemma compare_result_ok xlen i x y imm :
  xlen = 32 \/ xlen = 64 -> in_u xlen x -> in_u xlen y -> in_s 32 imm ->
  compare_result i (embed xlen x) (embed xlen y) imm = Z.b2z (compare xlen i x y imm).
Proof.
  intros Hs Hx Hy Hi. destruct (embed_order xlen x y Hs Hx Hy) as (_ & E2 & _).
  assert (Himm : u64 imm = embed xlen (uint xlen imm)).
  { unfold embed. rewrite sint_uint by lia. f_equal. symmetry. apply sint_small; [lia |].
    unfold in_s in *. destruct Hs; subst; lia. }
  destruct (embed_order xlen x (uint xlen imm) Hs Hx ltac:(apply uint_range; lia)) as (_ & E3 & _).
  destruct i; try done; cbn [compare_result compare]; rewrite ?s64_embed, ?E2, ?Himm, ?E3 by lia;
    by destruct (_ <? _).
Qed.
