(* ===== verification/Csr.v ===== *)
(** * RISCV_cpu.cc: control and status registers

    The CSR instructions and the registers that are views of one another:
    USTATUS and SSTATUS of MSTATUS, UIP and SIP of MIP, UIE and SIE of MIE.  The
    object keeps the full values in [mstatus_], [mip_] and [mie_] and copies the
    views into the CSR file.  All of it is the processor's own state. *)

From S2P Require Import Prelude BitTools Memory Isa CpuState.
Import Cpu.

(* RISCV_cpu.cc:1230-1250 RiscvCpu::UpdateMstatus *)
Definition UpdateMstatus (csr_index : Z) (s : Cpu.t) : Cpu.t :=
  let ustatus_mask := if mxl_ s =? 1 then kUstatusMask_32 else kUstatusMask_64 in
  let sstatus_mask := if mxl_ s =? 1 then kSstatusMask_32 else kSstatusMask_64 in
  let s :=
    if csr_index =? USTATUS then
      let ustatus := csr s USTATUS .& ustatus_mask in
      s <| mstatus_ := (mstatus_ s .& ~64 ustatus_mask) .| ustatus |>
    else if csr_index =? SSTATUS then
      let sstatus := csr s SSTATUS .& sstatus_mask in
      s <| mstatus_ := (mstatus_ s .& ~64 sstatus_mask) .| sstatus |>
    else if csr_index =? MSTATUS then s <| mstatus_ := csr s MSTATUS |>
    else s in
  let sd_xs_fs_mask := u64 (1 <<. (xlen_ s - 1)) .| 0x1E000 in
  let s := s <| mstatus_ := mstatus_ s .& ~64 sd_xs_fs_mask |> in
  let s :=
    if mxl_ s =? 2 then
      s <| mstatus_ := (mstatus_ s .& ~64 (0xF <<. 32)) .| (0xA <<. 32) |>
    else s in
  ApplyMstatusToCsr s.

(* RISCV_cpu.cc:1252-1256 RiscvCpu::ApplyInterruptPending *)
Definition ApplyInterruptPending (s : Cpu.t) : Cpu.t :=
  let s := put_csr UIP (mip_ s .& kUipMask) s in
  let s := put_csr SIP (mip_ s .& kSipMask) s in
  put_csr MIP (mip_ s) s.

(* RISCV_cpu.cc:1258-1271 RiscvCpu::UpdateInterruptPending *)
Definition UpdateInterruptPending (csr_index : Z) (s : Cpu.t) : Cpu.t :=
  if csr_index =? MIP then ApplyInterruptPending (s <| mip_ := csr s MIP |>)
  else if csr_index =? UIP then
    let uip := csr s UIP .& kUipMask in
    ApplyInterruptPending (s <| mip_ := (mip_ s .& ~64 kUipMask) .| uip |>)
  else if csr_index =? SIP then
    let sip := csr s SIP .& kSipMask in
    ApplyInterruptPending (s <| mip_ := (mip_ s .& ~64 kSipMask) .| sip |>)
  else s.

(* RISCV_cpu.cc:1273-1277 RiscvCpu::ApplyInterruptEnable *)
Definition ApplyInterruptEnable (s : Cpu.t) : Cpu.t :=
  let s := put_csr UIE (mie_ s .& kUieMask) s in
  let s := put_csr SIE (mie_ s .& kSieMask) s in
  put_csr MIE (mie_ s) s.

(* RISCV_cpu.cc:1279-1292 RiscvCpu::UpdateInterruptEnable *)
Definition UpdateInterruptEnable (csr_index : Z) (s : Cpu.t) : Cpu.t :=
  if csr_index =? MIE then ApplyInterruptEnable (s <| mie_ := csr s MIE |>)
  else if csr_index =? UIE then
    let uie := csr s UIE .& kUieMask in
    ApplyInterruptEnable (s <| mie_ := (mie_ s .& ~64 kUieMask) .| uie |>)
  else if csr_index =? SIE then
    let sie := csr s SIE .& kSieMask in
    ApplyInterruptEnable (s <| mie_ := (mie_ s .& ~64 kSieMask) .| sie |>)
  else s.

(* RISCV_cpu.cc:1215-1218 in *)
Definition in_ (obj : Z) (target : list Z) : bool := existsb (Z.eqb obj) target.

(* RISCV_cpu.cc:1220-1228 RiscvCpu::UpdateStatus *)
Definition UpdateStatus (csr_index : Z) (s : Cpu.t) : Cpu.t :=
  if in_ csr_index [USTATUS : Z; SSTATUS : Z; MSTATUS : Z] then UpdateMstatus csr_index s
  else if in_ csr_index [UIP : Z; SIP : Z; MIP : Z] then UpdateInterruptPending csr_index s
  else if in_ csr_index [UIE : Z; SIE : Z; MIE : Z] then UpdateInterruptEnable csr_index s
  else s.

(** The value a CSR instruction writes; [rs1] is the register's number, and the
    immediate of the I forms (a [uint32_t]). *)
(* RISCV_cpu.cc:290-318 RiscvCpu::CsrsInstruction *)
Definition csr_value (i : instruction) (t source rs1 : Z) : Z :=
  match i with
  | INST_CSRRC => t .& ~64 source
  | INST_CSRRCI => t .& ~32 rs1
  | INST_CSRRS => t .| source
  | INST_CSRRSI => t .| rs1
  | INST_CSRRW => source
  | INST_CSRRWI => rs1
  | _ => t
  end.

(* RISCV_cpu.cc:290-318 RiscvCpu::CsrsInstruction *)
Definition CsrsInstruction (i : instruction) (csr_index rd rs1 : Z) (s : Cpu.t) : Cpu.t :=
  let t := csr s csr_index in
  let new_t := csr_value i t (reg s rs1) rs1 in
  let s := put_csr csr_index new_t s in
  let s := put_reg rd t s in
  UpdateStatus csr_index s.

(* ------------------------------------------------------------------ *)
(** ** Views *)

Definition umask (s : Cpu.t) : Z := if mxl_ s =? 1 then kUstatusMask_32 else kUstatusMask_64.
Definition smask (s : Cpu.t) : Z := if mxl_ s =? 1 then kSstatusMask_32 else kSstatusMask_64.

Definition status_coherent (s : Cpu.t) : Prop :=
  csr s USTATUS = mstatus_ s .& umask s /\ csr s SSTATUS = mstatus_ s .& smask s /\ csr s MSTATUS = mstatus_ s.
Definition enable_coherent (s : Cpu.t) : Prop :=
  csr s UIE = mie_ s .& kUieMask /\ csr s SIE = mie_ s .& kSieMask /\ csr s MIE = mie_ s.
Definition pending_coherent (s : Cpu.t) : Prop :=
  csr s UIP = mip_ s .& kUipMask /\ csr s SIP = mip_ s .& kSipMask /\ csr s MIP = mip_ s.

Lemma csr_put_csr s i v j : csr (put_csr i v s) j = if decide (i = j) then v else csr s j.
Proof. unfold csr, put_csr. rsimpl. apply zget_zset. Qed.

Lemma csr_put_csr_eq s i v : csr (put_csr i v s) i = v.
Proof. rewrite csr_put_csr. by case_decide. Qed.

Lemma csr_put_csr_ne s i v j : i <> j -> csr (put_csr i v s) j = csr s j.
Proof. intros. rewrite csr_put_csr. by case_decide. Qed.

Lemma reg_put_reg s i v j : reg (put_reg i v s) j = if decide (i = j) then v else reg s j.
Proof. unfold reg, put_reg. rsimpl. apply zget_zset. Qed.

(** The numbers of two named CSRs differ. *)
Ltac csr_ne := let E := fresh in intros E; vm_compute in E; discriminate E.

(** Evaluate reads of the CSR file and of members through updates. *)
Ltac csr_simpl :=
  repeat first
    [ rewrite csr_put_csr_eq
    | rewrite csr_put_csr_ne by first [done | congruence | csr_ne]
    | progress (unfold put_csr at 1; rsimpl) ].

(** Members other than the CSR file survive a write to it. *)
Lemma put_csr_fields i v s :
  mstatus_ (put_csr i v s) = mstatus_ s /\ mie_ (put_csr i v s) = mie_ s /\ mip_ (put_csr i v s) = mip_ s
  /\ mxl_ (put_csr i v s) = mxl_ s /\ xlen_ (put_csr i v s) = xlen_ s /\ reg_ (put_csr i v s) = reg_ s.
Proof. done. Qed.

Lemma ApplyMstatusToCsr_coherent s : status_coherent (ApplyMstatusToCsr s).
Proof.
  unfold ApplyMstatusToCsr, status_coherent. rewrite !csr_put_csr.
  repeat (rewrite decide_True by done || rewrite decide_False by csr_ne). done.
Qed.

Lemma ApplyMstatusToCsr_frame s (j : Z) :
  j <> USTATUS -> j <> SSTATUS -> j <> MSTATUS -> csr (ApplyMstatusToCsr s) j = csr s j.
Proof. intros. unfold ApplyMstatusToCsr. by rewrite !csr_put_csr_ne by congruence. Qed.

Lemma ApplyInterruptPending_coherent s : pending_coherent (ApplyInterruptPending s).
Proof.
  unfold ApplyInterruptPending, pending_coherent. rewrite !csr_put_csr.
  repeat (rewrite decide_True by done || rewrite decide_False by csr_ne). done.
Qed.

Lemma ApplyInterruptPending_frame s (j : Z) :
  j <> UIP -> j <> SIP -> j <> MIP -> csr (ApplyInterruptPending s) j = csr s j.
Proof. intros. unfold ApplyInterruptPending. by rewrite !csr_put_csr_ne by congruence. Qed.

Lemma ApplyInterruptEnable_coherent s : enable_coherent (ApplyInterruptEnable s).
Proof.
  unfold ApplyInterruptEnable, enable_coherent. rewrite !csr_put_csr.
  repeat (rewrite decide_True by done || rewrite decide_False by csr_ne). done.
Qed.

Lemma ApplyInterruptEnable_frame s (j : Z) :
  j <> UIE -> j <> SIE -> j <> MIE -> csr (ApplyInterruptEnable s) j = csr s j.
Proof. intros. unfold ApplyInterruptEnable. by rewrite !csr_put_csr_ne by congruence. Qed.

(** ** The writes, as updates of the full register *)

(** What [UpdateMstatus] leaves in [mstatus_]. *)
Definition hardwire (s : Cpu.t) (v : Z) : Z :=
  let v := v .& ~64 (u64 (1 <<. (xlen_ s - 1)) .| 0x1E000) in
  if mxl_ s =? 2 then (v .& ~64 (0xF <<. 32)) .| (0xA <<. 32) else v.

Definition merge (mask old new : Z) : Z := (old .& ~64 mask) .| (new .& mask).

Definition status_csr (c : Z) : Prop := c = USTATUS \/ c = SSTATUS \/ c = MSTATUS.
Definition pending_csr (c : Z) : Prop := c = UIP \/ c = SIP \/ c = MIP.
Definition enable_csr (c : Z) : Prop := c = UIE \/ c = SIE \/ c = MIE.

(** The bits a view gives access to. *)
Definition status_mask (s : Cpu.t) (c : Z) : Z :=
  if c =? USTATUS then umask s else if c =? SSTATUS then smask s else Z.ones 64.
Definition interrupt_mask (c : Z) : Z :=
  if (c =? UIP) || (c =? UIE) then kUipMask else if (c =? SIP) || (c =? SIE) then kSipMask else Z.ones 64.

Lemma merge_full old new : in_u 64 old -> in_u 64 new -> merge (Z.ones 64) old new = new.
Proof.
  intros Ho Hn. unfold merge. rewrite land_mask, (uint_small 64 new) by (lia || done).
  change (~64 Z.ones 64) with 0. by rewrite Z.land_0_r.
Qed.

Lemma merge_range mask old new : in_u 64 old -> 0 <= mask -> in_u 64 new -> in_u 64 (merge mask old new).
Proof. intros. unfold merge. apply in_u_lor; [lia | apply in_u_land; auto with rv; lia | by apply in_u_land_l]. Qed.

Lemma hardwire_range s v : in_u 64 v -> in_u 64 (hardwire s v).
Proof.
  intros. unfold hardwire. destruct (mxl_ s =? 2); [apply in_u_lor; [lia | | decide_it] |];
    repeat apply in_u_land; auto with rv; lia.
Qed.

Lemma UpdateStatus_status s c :
  status_csr c -> in_u 64 (mstatus_ s) -> in_u 64 (csr s c) ->
  UpdateStatus c s = ApplyMstatusToCsr (s <| mstatus_ := hardwire s (merge (status_mask s c) (mstatus_ s) (csr s c)) |>).
Proof.
  intros [-> | [-> | ->]] Hm Hv.
  3: change (status_mask s MSTATUS) with (Z.ones 64); rewrite merge_full by done.
  all: unfold hardwire; destruct (mxl_ s =? 2) eqn:E.
  all: match goal with |- UpdateStatus ?c ?s = _ => change (UpdateStatus c s) with (UpdateMstatus c s) end.
  all: unfold UpdateMstatus; cbv zeta.
  all: cbv delta [code_CsrsAddresses] beta iota; cbn [Z.eqb Pos.eqb].
  all: rsimpl; rewrite ?E; reflexivity.
Qed.

Lemma UpdateStatus_pending s c :
  pending_csr c -> in_u 64 (mip_ s) -> in_u 64 (csr s c) ->
  UpdateStatus c s = ApplyInterruptPending (s <| mip_ := merge (interrupt_mask c) (mip_ s) (csr s c) |>).
Proof.
  intros [-> | [-> | ->]] Hm Hv; try reflexivity.
  change (interrupt_mask MIP) with (Z.ones 64). by rewrite merge_full.
Qed.

Lemma UpdateStatus_enable s c :
  enable_csr c -> in_u 64 (mie_ s) -> in_u 64 (csr s c) ->
  UpdateStatus c s = ApplyInterruptEnable (s <| mie_ := merge (interrupt_mask c) (mie_ s) (csr s c) |>).
Proof.
  intros [-> | [-> | ->]] Hm Hv; try reflexivity.
  change (interrupt_mask MIE) with (Z.ones 64). by rewrite merge_full.
Qed.

Lemma UpdateStatus_other s c :
  ~ status_csr c -> ~ pending_csr c -> ~ enable_csr c -> UpdateStatus c s = s.
Proof.
  unfold status_csr, pending_csr, enable_csr, UpdateStatus, in_. intros.
  assert (F : forall x y : Z, x <> y -> (x =? y) = false) by (intros; by apply Z.eqb_neq).
  cbn [existsb]. rewrite !F by tauto. done.
Qed.

Lemma csr_classes (c : Z) :
  status_csr c \/ pending_csr c \/ enable_csr c \/ (~ status_csr c /\ ~ pending_csr c /\ ~ enable_csr c).
Proof.
  unfold status_csr, pending_csr, enable_csr.
  destruct (decide (c = USTATUS \/ c = SSTATUS \/ c = MSTATUS)); [tauto |].
  destruct (decide (c = UIP \/ c = SIP \/ c = MIP)); [tauto |].
  destruct (decide (c = UIE \/ c = SIE \/ c = MIE)); tauto.
Qed.

(* ------------------------------------------------------------------ *)
(** ** The CSR instructions *)

Definition mode_ok (s : Cpu.t) : Prop := mxl_ s = 1 /\ xlen_ s = 32 \/ mxl_ s = 2 /\ xlen_ s = 64.

(** Every register, CSR and shadow is a 64-bit word. *)
Record words_ok (s : Cpu.t) : Prop := {
  ok_mode : mode_ok s;
  ok_csrs : zvec_wf 64 (csrs_ s);
  ok_regs : zvec_wf 64 (reg_ s);
  ok_mstatus : in_u 64 (mstatus_ s);
  ok_mip : in_u 64 (mip_ s);
  ok_mie : in_u 64 (mie_ s)
}.

(** ... and the views of MSTATUS and MIE agree with them. *)
Record csr_ok (s : Cpu.t) : Prop := {
  ok_words : words_ok s;
  ok_status : status_coherent s;
  ok_enable : enable_coherent s
}.

(** Bits of MSTATUS that read as constants: SD, FS and XS as zero, and in 64-bit
    mode SXL = UXL = 2. *)
Definition hardwired (mxl i : Z) : option bool :=
  if (i =? (if mxl =? 2 then 63 else 31)) || (13 <=? i) && (i <=? 16) then Some false
  else if (mxl =? 2) && (32 <=? i) && (i <=? 35) then Some (Z.odd i)
  else None.

Lemma merge_testbit mask old new i :
  0 <= i < 64 -> Z.testbit (merge mask old new) i = if Z.testbit mask i then Z.testbit new i else Z.testbit old i.
Proof.
  intros. unfold merge. rewrite Z.lor_spec, !Z.land_spec, testbit_uint, Z.lnot_spec by lia.
  destruct (Z.ltb_spec i 64); [| lia]. destruct (Z.testbit mask i); cbn;
    rewrite ?andb_false_r, ?andb_true_r, ?orb_false_r; done.
Qed.

(** A property of the bits of a word, one by one. *)
Lemma by_bit (n : nat) (P : Z -> Prop) : Forall P (seqZ 0 (Z.of_nat n)) -> forall i, 0 <= i < Z.of_nat n -> P i.
Proof. intros HF i Hi. rewrite Forall_forall in HF. apply HF, elem_of_seqZ. lia. Qed.

Lemma hardwire_testbit s v i :
  mode_ok s -> 0 <= i < 64 ->
  Z.testbit (hardwire s v) i = match hardwired (mxl_ s) i with Some b => b | None => Z.testbit v i end.
Proof.
  intros [[Hm Hx] | [Hm Hx]] Hi; unfold hardwire; rewrite Hm, Hx; cbn [Z.eqb Pos.eqb]; revert i Hi;
    apply (by_bit 64); change (Z.of_nat 64) with 64;
    repeat match goal with |- context [~64 ?x] => let k := eval vm_compute in (~64 x) in change (~64 x) with k end;
    repeat match goal with |- context [?x <<. ?y] => let k := eval vm_compute in (x <<. y) in change (x <<. y) with k end;
    let l := eval vm_compute in (seqZ 0 64) in change (seqZ 0 64) with l;
    repeat (apply Forall_cons; split;
      [rewrite ?Z.lor_spec, !Z.land_spec;
       match goal with |- context [hardwired ?m ?i] => let k := eval vm_compute in (hardwired m i) in change (hardwired m i) with k end;
       repeat match goal with |- context [Z.testbit ?z ?j] =>
         lazymatch z with Zpos _ => idtac end;
         let k := eval vm_compute in (Z.testbit z j) in change (Z.testbit z j) with k end;
       cbv iota; rewrite ?andb_false_r, ?andb_true_r, ?orb_false_r, ?orb_true_r; reflexivity |]);
    apply Forall_nil_2.
Qed.

Lemma umask_range s : in_u 64 (umask s).
Proof. unfold umask. destruct (mxl_ s =? 1); decide_it. Qed.
Lemma smask_range s : in_u 64 (smask s).
Proof. unfold smask. destruct (mxl_ s =? 1); decide_it. Qed.
Lemma status_mask_range s c : in_u 64 (status_mask s c).
Proof. unfold status_mask. destruct (c =? USTATUS), (c =? SSTATUS); auto using umask_range, smask_range; decide_it. Qed.
Lemma interrupt_mask_range c : in_u 64 (interrupt_mask c).
Proof. unfold interrupt_mask. destruct (_ || _); [decide_it |]. destruct (_ || _); decide_it. Qed.
#[export] Hint Resolve umask_range smask_range status_mask_range interrupt_mask_range : rv.

#[export] Hint Resolve in_u_land : rv.

Lemma words_put_csr s c v : words_ok s -> in_u 64 v -> words_ok (put_csr c v s).
Proof. intros [] ?. split; try done. by apply zvec_wf_zset. Qed.

Lemma words_put_reg s r v : words_ok s -> in_u 64 v -> words_ok (put_reg r v s).
Proof. intros [] ?. split; try done. by apply zvec_wf_zset. Qed.

Lemma words_mstatus s v : words_ok s -> in_u 64 v -> words_ok (s <| mstatus_ := v |>).
Proof. by intros [] ?. Qed.
Lemma words_mip s v : words_ok s -> in_u 64 v -> words_ok (s <| mip_ := v |>).
Proof. by intros [] ?. Qed.
Lemma words_mie s v : words_ok s -> in_u 64 v -> words_ok (s <| mie_ := v |>).
Proof. by intros [] ?. Qed.

Lemma csr_put_reg s r v j : csr (put_reg r v s) j = csr s j.
Proof. done. Qed.

(** Each [Apply*] re-establishes its own views and keeps the others. *)
Lemma ApplyMstatusToCsr_ok s : words_ok s -> enable_coherent s -> csr_ok (ApplyMstatusToCsr s).
Proof.
  intros Hw (E1 & E2 & E3). pose proof Hw as []. split.
  - unfold ApplyMstatusToCsr. fold (umask s) (smask s).
    apply words_put_csr; [apply words_put_csr; [apply words_put_csr |] |]; auto with rv.
  - apply ApplyMstatusToCsr_coherent.
  - unfold enable_coherent. rewrite !ApplyMstatusToCsr_frame by csr_ne. done.
Qed.

Lemma ApplyInterruptPending_ok s : words_ok s -> status_coherent s -> enable_coherent s -> csr_ok (ApplyInterruptPending s).
Proof.
  intros Hw S E. pose proof Hw as []. split.
  - unfold ApplyInterruptPending.
    apply words_put_csr; [apply words_put_csr; [apply words_put_csr |] |]; auto with rv; apply in_u_land_l; (done || lia).
  - unfold status_coherent. rewrite !ApplyInterruptPending_frame by csr_ne. exact S.
  - unfold enable_coherent. rewrite !ApplyInterruptPending_frame by csr_ne. exact E.
Qed.

Lemma ApplyInterruptEnable_ok s : words_ok s -> status_coherent s -> csr_ok (ApplyInterruptEnable s).
Proof.
  intros Hw S. pose proof Hw as []. split.
  - unfold ApplyInterruptEnable.
    apply words_put_csr; [apply words_put_csr; [apply words_put_csr |] |]; auto with rv; apply in_u_land_l; (done || lia).
  - unfold status_coherent. rewrite !ApplyInterruptEnable_frame by csr_ne. exact S.
  - apply ApplyInterruptEnable_coherent.
Qed.

(** A CSR that is no view. *)
Lemma csr_ok_put_csr s c v :
  csr_ok s -> in_u 64 v -> ~ status_csr c -> ~ enable_csr c -> csr_ok (put_csr c v s).
Proof.
  unfold status_csr, enable_csr. intros [Hw S E] Hv Hs He. split; [by apply words_put_csr | |].
  - unfold status_coherent. rewrite !csr_put_csr_ne by tauto. exact S.
  - unfold enable_coherent. rewrite !csr_put_csr_ne by tauto. exact E.
Qed.

Lemma csr_ok_put_reg s r v : csr_ok s -> in_u 64 v -> csr_ok (put_reg r v s).
Proof. intros [Hw S E] Hv. split; [by apply words_put_reg | exact S | exact E]. Qed.

Lemma csr_value_range i t source rs1 :
  in_u 64 t -> in_u 64 source -> in_u 5 rs1 -> in_u 64 (csr_value i t source rs1).
Proof.
  intros Ht Hs Hr. apply (in_u_mono 5 64) in Hr; [| lia].
  destruct i; cbn [csr_value]; auto with rv. apply in_u_land_l; [lia | done |].
  pose proof (uint_range 32 ltac:(lia) (Z.lnot rs1)) as H. unfold in_u in H. lia.
Qed.

(** The register a CSR number is a view of (itself when it is none). *)
Definition full_csr (c : Z) : Z :=
  if in_ c [USTATUS : Z; SSTATUS : Z; MSTATUS : Z] then MSTATUS
  else if in_ c [UIP : Z; SIP : Z; MIP : Z] then MIP
  else if in_ c [UIE : Z; SIE : Z; MIE : Z] then MIE
  else c.

(** What a write of [new] to the CSR [c] does, bit by bit on the full register. *)
Record csr_effect (s s' : Cpu.t) (c new : Z) : Prop := {
  effect_status : status_csr c -> forall i, 0 <= i < 64 ->
    Z.testbit (csr s' MSTATUS) i =
    match hardwired (mxl_ s) i with
    | Some b => b
    | None => if Z.testbit (status_mask s c) i then Z.testbit new i else Z.testbit (mstatus_ s) i
    end;
  effect_pending : pending_csr c -> pending_coherent s' /\ forall i, 0 <= i < 64 ->
    Z.testbit (csr s' MIP) i = if Z.testbit (interrupt_mask c) i then Z.testbit new i else Z.testbit (mip_ s) i;
  effect_enable : enable_csr c -> forall i, 0 <= i < 64 ->
    Z.testbit (csr s' MIE) i = if Z.testbit (interrupt_mask c) i then Z.testbit new i else Z.testbit (mie_ s) i;
  effect_other : full_csr c = c -> full_csr c <> MSTATUS -> full_csr c <> MIP -> full_csr c <> MIE -> csr s' c = new;
  effect_frame : forall j, full_csr j <> full_csr c -> csr s' j = csr s j
}.

Lemma full_csr_spec c :
  (status_csr c /\ full_csr c = MSTATUS) \/ (pending_csr c /\ full_csr c = MIP) \/ (enable_csr c /\ full_csr c = MIE)
  \/ (~ status_csr c /\ ~ pending_csr c /\ ~ enable_csr c /\ full_csr c = c).
Proof.
  destruct (csr_classes c) as [H | [H | [H | H]]].
  - left. split; [done |]. by destruct H as [-> | [-> | ->]].
  - right; left. split; [done |]. by destruct H as [-> | [-> | ->]].
  - do 2 right; left. split; [done |]. by destruct H as [-> | [-> | ->]].
  - do 3 right. destruct H as (H1 & H2 & H3). repeat split; try done. unfold full_csr, in_. cbn [existsb].
    unfold status_csr, pending_csr, enable_csr in *.
    assert (F : forall x y : Z, x <> y -> (x =? y) = false) by (intros; by apply Z.eqb_neq).
    rewrite !F by tauto. done.
Qed.

(** The classes are disjoint, and a class is left alone by writes outside it. *)
Lemma classes_disjoint c :
  (status_csr c -> ~ enable_csr c) /\ (status_csr c -> ~ pending_csr c) /\ (pending_csr c -> ~ enable_csr c).
Proof.
  repeat split; intros [-> | [-> | ->]] [E | [E | E]]; vm_compute in E; discriminate E.
Qed.

Lemma enable_coherent_put s c v : ~ enable_csr c -> enable_coherent s -> enable_coherent (put_csr c v s).
Proof. unfold enable_csr, enable_coherent. intros N (E1 & E2 & E3). rewrite !csr_put_csr_ne by tauto. done. Qed.

Lemma status_coherent_put s c v : ~ status_csr c -> status_coherent s -> status_coherent (put_csr c v s).
Proof. unfold status_csr, status_coherent. intros N (E1 & E2 & E3). rewrite !csr_put_csr_ne by tauto. done. Qed.

Lemma outside_class j (r : Z) : full_csr j <> r -> ~ (status_csr j /\ r = MSTATUS) /\ ~ (pending_csr j /\ r = MIP)
  /\ ~ (enable_csr j /\ r = MIE).
Proof.
  intros N. repeat split; intros [H ->]; apply N; by destruct H as [-> | [-> | ->]].
Qed.

(** The whole write of one CSR. *)
Definition write_csr (c new : Z) (s : Cpu.t) : Cpu.t := UpdateStatus c (put_csr c new s).

Section Write.
  Context (s : Cpu.t) (c new : Z) (Hok : csr_ok s) (Hn : in_u 64 new).

Lemma words : words_ok (put_csr c new s).
  Proof using Hok Hn. apply words_put_csr; [apply Hok | done]. Qed.

Lemma write_status : status_csr c -> csr_ok (write_csr c new s) /\ csr_effect s (write_csr c new s) c new.
  Proof using Hok Hn.
    intros Hc. destruct (classes_disjoint c) as (D1 & D2 & D3). pose proof words as [].
    pose proof Hok as [Hw S E]. pose proof Hw as [].
    unfold write_csr. rewrite UpdateStatus_status; [| done | done | by rewrite csr_put_csr_eq].
    rewrite csr_put_csr_eq. change (mstatus_ (put_csr c new s)) with (mstatus_ s).
    change (hardwire (put_csr c new s)) with (hardwire s). change (status_mask (put_csr c new s) c) with (status_mask s c).
    set (v := hardwire s _).
    assert (Hv : in_u 64 v) by (apply hardwire_range, merge_range; auto with rv; apply status_mask_range).
    split.
    - apply ApplyMstatusToCsr_ok; [by apply words_mstatus |].
      apply (enable_coherent_put s c new); tauto.
    - split; try tauto.
      + intros _ i Hi. destruct (ApplyMstatusToCsr_coherent ((put_csr c new s) <| mstatus_ := v |>)) as (_ & _ & ->).
        change (mstatus_ (ApplyMstatusToCsr _)) with v. subst v. rewrite hardwire_testbit, merge_testbit by done. done.
      + destruct (full_csr_spec c) as [[_ ->] | ?]; [done | tauto].
      + intros j Hj. assert (Fc : full_csr c = MSTATUS) by (by destruct Hc as [-> | [-> | ->]]).
        rewrite Fc in Hj. destruct (outside_class j _ Hj) as (N & _). unfold status_csr in *.
        rewrite ApplyMstatusToCsr_frame by tauto. apply csr_put_csr_ne. intros ->. tauto.
  Qed.

Lemma write_pending : pending_csr c -> csr_ok (write_csr c new s) /\ csr_effect s (write_csr c new s) c new.
  Proof using Hok Hn.
    intros Hc. destruct (classes_disjoint c) as (D1 & D2 & D3). pose proof words as [].
    pose proof Hok as [Hw S E]. pose proof Hw as [].
    unfold write_csr. rewrite UpdateStatus_pending; [| done | done | by rewrite csr_put_csr_eq].
    rewrite csr_put_csr_eq. change (mip_ (put_csr c new s)) with (mip_ s). set (v := merge _ _ _).
    assert (Hv : in_u 64 v) by (apply merge_range; auto with rv; apply interrupt_mask_range).
    split.
    - apply ApplyInterruptPending_ok; [by apply words_mip | |].
      + apply (status_coherent_put s c new); tauto.
      + apply (enable_coherent_put s c new); tauto.
    - pose proof (ApplyInterruptPending_coherent ((put_csr c new s) <| mip_ := v |>)) as Hp. split; try tauto.
      + intros _. split; [exact Hp |]. intros i Hi. destruct Hp as (_ & _ & ->).
        change (mip_ (ApplyInterruptPending _)) with v. subst v. by rewrite merge_testbit.
      + destruct (full_csr_spec c) as [[? _] | [[_ ->] | ?]]; [tauto | done | tauto].
      + intros j Hj. assert (Fc : full_csr c = MIP) by (by destruct Hc as [-> | [-> | ->]]).
        rewrite Fc in Hj. destruct (outside_class j _ Hj) as (_ & N & _). unfold pending_csr in *.
        rewrite ApplyInterruptPending_frame by tauto. apply csr_put_csr_ne. intros ->. tauto.
  Qed.

Lemma write_enable : enable_csr c -> csr_ok (write_csr c new s) /\ csr_effect s (write_csr c new s) c new.
  Proof using Hok Hn.
    intros Hc. destruct (classes_disjoint c) as (D1 & D2 & D3). pose proof words as [].
    pose proof Hok as [Hw S E]. pose proof Hw as [].
    unfold write_csr. rewrite UpdateStatus_enable; [| done | done | by rewrite csr_put_csr_eq].
    rewrite csr_put_csr_eq. change (mie_ (put_csr c new s)) with (mie_ s). set (v := merge _ _ _).
    assert (Hv : in_u 64 v) by (apply merge_range; auto with rv; apply interrupt_mask_range).
    split.
    - apply ApplyInterruptEnable_ok; [by apply words_mie |]. apply (status_coherent_put s c new); tauto.
    - pose proof (ApplyInterruptEnable_coherent ((put_csr c new s) <| mie_ := v |>)) as Hp. split; try tauto.
      + intros _ i Hi. destruct Hp as (_ & _ & ->).
        change (mie_ (ApplyInterruptEnable _)) with v. subst v. by rewrite merge_testbit.
      + destruct (full_csr_spec c) as [[? _] | [[? _] | [[_ ->] | ?]]]; [tauto | tauto | done | tauto].
      + intros j Hj. assert (Fc : full_csr c = MIE) by (by destruct Hc as [-> | [-> | ->]]).
        rewrite Fc in Hj. destruct (outside_class j _ Hj) as (_ & _ & N). unfold enable_csr in *.
        rewrite ApplyInterruptEnable_frame by tauto. apply csr_put_csr_ne. intros ->. tauto.
  Qed.

Lemma write_csr_effect : csr_ok (write_csr c new s) /\ csr_effect s (write_csr c new s) c new.
  Proof using Hok Hn.
    destruct (csr_classes c) as [Hc | [Hc | [Hc | (N1 & N2 & N3)]]];
      [by apply write_status | by apply write_pending | by apply write_enable |].
    unfold write_csr. rewrite UpdateStatus_other by done. split; [by apply csr_ok_put_csr |].
    split; try tauto; [intros; apply csr_put_csr_eq |].
    intros j Hj. apply csr_put_csr_ne. by intros ->.
  Qed.
End Write.

Lemma CsrsInstruction_write i c rd rs1 s :
  CsrsInstruction i c rd rs1 s
  = write_csr c (csr_value i (csr s c) (reg s rs1) rs1) (put_reg rd (csr s c) s).
Proof. done. Qed.

Lemma UpdateStatus_regs c s : reg_ (UpdateStatus c s) = reg_ s.
Proof.
  unfold UpdateStatus. destruct (in_ c [USTATUS : Z; _; _]).
  { unfold UpdateMstatus. destruct (c =? USTATUS), (c =? SSTATUS), (c =? MSTATUS), (mxl_ s =? 2) eqn:E;
      cbv zeta; rsimpl; by rewrite ?E. }
  destruct (in_ c [UIP : Z; _; _]).
  { unfold UpdateInterruptPending. by destruct (c =? MIP), (c =? UIP), (c =? SIP). }
  destruct (in_ c [UIE : Z; _; _]); [| done].
  unfold UpdateInterruptEnable. by destruct (c =? MIE), (c =? UIE), (c =? SIE).
Qed.

Lemma write_csr_regs c new s r : reg (write_csr c new s) r = reg s r.
Proof. unfold write_csr, reg. by rewrite UpdateStatus_regs. Qed.


(** A closed array of words is well formed when its entries are. *)
Lemma zvec_wf_entries w v : 0 <= w -> map_Forall (fun _ x => in_u w x) v -> zvec_wf w v.
Proof.
  intros Hw H i. unfold zget. destruct (v !! i) as [x|] eqn:E; [exact (H i x E) |].
  exact (zvec_wf_empty w Hw i).
Qed.

(** A fresh processor is well formed. *)
Lemma RiscvCpu_csr_ok b : csr_ok (RiscvCpu 0 b).
Proof.
  destruct b; (split; [split | |]); try decide_it; try apply zvec_wf_entries; try lia; try decide_it;
    unfold mode_ok; first [by left | by right | done].
Qed.


(** The immediate of CSRRCI is complemented at 32 bits: it clears the upper half
    of the CSR whatever the immediate. *)
Lemma CSRRCI_clears_high t source rs1 :
  in_u 5 rs1 -> in_u 64 t -> csr_value INST_CSRRCI t source rs1 / 2 ^ 32 = 0.
Proof.
  intros Hr Ht. cbn [csr_value]. apply Z.div_small.
  assert (in_u 32 (~32 rs1 .& t)) as H; [| rewrite Z.land_comm; exact H].
  apply in_u_land_l; [lia | auto with rv |]. unfold in_u in Ht. lia.
Qed.
