(* ===== verification/Trap.v ===== *)
(** * RISCV_cpu.cc: traps, interrupts and returns

    [Trap], [Mret], [Sret], [Ecall], and what raises and clears the pending
    interrupts.  All of it acts on the processor alone. *)

From S2P Require Import Prelude BitTools Memory Isa Mmu Peripheral CpuState Csr.
Import Cpu.

(* RISCV_cpu.cc:902-906 RiscvCpu::SetInterruptPending *)
Definition SetInterruptPending (cause : Z) (s : Cpu.t) : Cpu.t :=
  let kSet := 1 in
  let s := s <| mip_ := bitset 64 (mip_ s) 1 cause kSet |> in
  ApplyInterruptEnable s.

(* RISCV_cpu.cc:908-912 RiscvCpu::ClearInterruptPending *)
Definition ClearInterruptPending (cause : Z) (s : Cpu.t) : Cpu.t :=
  let kClear := 0 in
  let s := s <| mip_ := bitset 64 (mip_ s) 1 cause kClear |> in
  ApplyInterruptPending s.

(** The causes [Trap] accepts. *)
(* RISCV_cpu.cc:162-170 RiscvCpu::Trap *)
Definition trap_supported (cause : Z) (interrupt : bool) : bool :=
  (interrupt && ((cause =? MACHINE_TIMER_INTERRUPT) || (cause =? SUPERVISOR_SOFTWARRE_INTERRUPT)
                 || (cause =? SUPERVISOR_EXTERNAL_INTERRUPT)))
  || (negb interrupt
      && ((cause =? INSTRUCTION_PAGE_FAULT) || (cause =? LOAD_PAGE_FAULT) || (cause =? STORE_PAGE_FAULT)
          || (cause =? ECALL_UMODE) || (cause =? ECALL_SMODE) || (cause =? ECALL_MMODE))).

Definition page_fault_cause (cause : Z) : bool :=
  (cause =? INSTRUCTION_PAGE_FAULT) || (cause =? LOAD_PAGE_FAULT) || (cause =? STORE_PAGE_FAULT).

(** The bookkeeping of repeated page faults. *)
(* RISCV_cpu.cc:179-190 RiscvCpu::Trap *)
Definition trap_page_fault (cause : Z) (interrupt : bool) (s : Cpu.t) : Cpu.t :=
  if negb interrupt && page_fault_cause cause then
    let s :=
      if prev_page_fault_ s && (prev_faulting_address_ s =? faulting_address_ s) then s <| error_flag_ := true |> else s in
    let s := s <| prev_page_fault_ := page_fault_ s |> in
    let s := s <| prev_faulting_address_ := faulting_address_ s |> in
    s <| page_fault_ := false |>
  else s.

(* RISCV_cpu.cc:192-206 RiscvCpu::Trap *)
Definition trap_delegated (cause : Z) (interrupt : bool) (s : Cpu.t) : bool :=
  let sv_delegation :=
    bool_decide (privilege_ s = USER_MODE) || bool_decide (privilege_ s = SUPERVISOR_MODE) in
  if interrupt then
    let mideleg_mask := if disable_machine_interrupt_delegation_ s then 0x666 else 0xfff in
    let mideleg := csr s MIDELEG .& mideleg_mask in
    sv_delegation && (bitcrop mideleg 1 cause =? 1)
  else sv_delegation && (bitcrop (csr s MEDELEG) 1 cause =? 1).

(* RISCV_cpu.cc:208-216 RiscvCpu::Trap *)
Definition trap_tval (cause : Z) (interrupt : bool) (s : Cpu.t) : Z :=
  if negb interrupt then
    if page_fault_cause cause then faulting_address_ s
    else if cause =? ILLEGAL_INSTRUCTION then ir_ s
    else 0
  else 0.

(** The address of the handler, from the trap vector and the cause register. *)
(* RISCV_cpu.cc:227-233 RiscvCpu::Trap *)
Definition trap_vector (interrupt : bool) (tvec xcause xlen : Z) : Z :=
  let mode := u8 (tvec .& 3) in
  if (mode =? 0) || interrupt then tvec .& ~64 3
  else u64 ((tvec .& ~64 3) + u64 (4 * (xcause .& GenMask 64 (xlen - 1) 0))).

(* RISCV_cpu.cc:221-247 RiscvCpu::Trap *)
Definition trap_to_supervisor (cause : Z) (interrupt : bool) (tval cause_mask : Z) (global_sie : bool) (s : Cpu.t) : Cpu.t :=
  let s := put_csr SCAUSE (cause .| cause_mask) s in
  let s := put_csr SEPC (pc_ s) s in
  let s := s <| next_pc_ := trap_vector interrupt (csr s STVEC) (csr s SCAUSE) (xlen_ s) |> in
  let s := put_csr STVAL tval s in
  let s := s <| mstatus_ := bitset 64 (mstatus_ s) 1 5 (Z.b2z global_sie) |> in
  let kNewSie := 0 in
  let s := s <| mstatus_ := bitset 64 (mstatus_ s) 1 1 kNewSie |> in
  let new_mpp := PriviledgeToInt (privilege_ s) in
  let s := s <| mstatus_ := bitset 64 (mstatus_ s) 1 8 new_mpp |> in
  let s := ApplyMstatusToCsr s in
  s <| privilege_ := SUPERVISOR_MODE |>.

(* RISCV_cpu.cc:248-272 RiscvCpu::Trap *)
Definition trap_to_machine (cause : Z) (interrupt : bool) (tval cause_mask : Z) (global_mie : bool) (s : Cpu.t) : Cpu.t :=
  let s := put_csr MCAUSE (cause .| cause_mask) s in
  let s := put_csr MEPC (pc_ s) s in
  let s := s <| next_pc_ := trap_vector interrupt (csr s MTVEC) (csr s MCAUSE) (xlen_ s) |> in
  let s := put_csr MTVAL tval s in
  let s := s <| mstatus_ := bitset 64 (mstatus_ s) 1 7 (Z.b2z global_mie) |> in
  let kNewMie := 0 in
  let s := s <| mstatus_ := bitset 64 (mstatus_ s) 1 3 kNewMie |> in
  let new_mpp := PriviledgeToInt (privilege_ s) in
  let s := s <| mstatus_ := bitset 64 (mstatus_ s) 2 11 new_mpp |> in
  let s := ApplyMstatusToCsr s in
  s <| privilege_ := MACHINE_MODE |>.

(* RISCV_cpu.cc:162-278 RiscvCpu::Trap *)
Definition Trap (cause : Z) (interrupt : bool) (s : Cpu.t) : res Cpu.t :=
  if negb (trap_supported cause interrupt) then Err Assert_failed
  else
    let global_mie :=
      (bool_decide (privilege_ s = MACHINE_MODE) && (bitcrop (mstatus_ s) 1 3 =? 1))
      || negb (bool_decide (privilege_ s = MACHINE_MODE)) in
    let global_sie :=
      (bool_decide (privilege_ s = SUPERVISOR_MODE) && (bitcrop (mstatus_ s) 1 1 =? 1))
      || bool_decide (privilege_ s = USER_MODE) in
    let s := trap_page_fault cause interrupt s in
    let sv_delegation := trap_delegated cause interrupt s in
    let tval := trap_tval cause interrupt s in
    let interrupt_cause_mask := if interrupt then u64 (1 <<. (xlen_ s - 1)) else 0 in
    let s :=
      if sv_delegation then trap_to_supervisor cause interrupt tval interrupt_cause_mask global_sie s
      else trap_to_machine cause interrupt tval interrupt_cause_mask global_mie s in
    let s :=
      if interrupt && negb (cause =? SUPERVISOR_SOFTWARRE_INTERRUPT) && negb (cause =? MACHINE_SOFTWARE_INTERRUPT)
      then ClearInterruptPending cause s else s in
    Ok (ApplyMstatusToCsr s).

(* RISCV_cpu.cc:1350-1365 RiscvCpu::Mret *)
Definition Mret (s : Cpu.t) : res Cpu.t :=
  let mpp := bitcrop (mstatus_ s) 2 11 in
  privilege ← IntToPrivilegeMode (s32 mpp);
  let s := s <| privilege_ := privilege |> in
  let mpie := bitcrop (mstatus_ s) 1 7 in
  let s := s <| mstatus_ := bitset 64 (mstatus_ s) 1 3 mpie |> in
  let kNewMpie := 1 in
  let s := s <| mstatus_ := bitset 64 (mstatus_ s) 1 7 kNewMpie |> in
  let kNewMpp := 0 in
  let s := s <| mstatus_ := bitset 64 (mstatus_ s) 2 11 kNewMpp |> in
  let s := ApplyMstatusToCsr s in
  mret (s <| next_pc_ := csr s MEPC |>).

(* RISCV_cpu.cc:1367-1383 RiscvCpu::Sret *)
Definition Sret (s : Cpu.t) : res Cpu.t :=
  let spp := bitcrop (mstatus_ s) 1 8 in
  privilege ← IntToPrivilegeMode (s32 spp);
  let s := s <| privilege_ := privilege |> in
  let spie := bitcrop (mstatus_ s) 1 5 in
  let s := s <| mstatus_ := bitset 64 (mstatus_ s) 1 1 spie |> in
  let kNewSpie := 1 in
  let s := s <| mstatus_ := bitset 64 (mstatus_ s) 1 5 kNewSpie |> in
  let kNewSpp := 0 in
  let s := s <| mstatus_ := bitset 64 (mstatus_ s) 2 8 kNewSpp |> in
  let s := put_csr MSTATUS (mstatus_ s) s in
  let s := ApplyMstatusToCsr s in
  mret (s <| next_pc_ := csr s SEPC |>).

(* RISCV_cpu.cc:1183-1198 RiscvCpu::Ecall *)
Definition Ecall (s : Cpu.t) : res Cpu.t :=
  let cause : Z :=
    match privilege_ s with
    | MACHINE_MODE => ECALL_MMODE
    | SUPERVISOR_MODE => ECALL_SMODE
    | USER_MODE => ECALL_UMODE
    end in
  Trap cause kException s.

(* RISCV_cpu.cc:1138-1159 RiscvCpu::CheckPendingInterrupt *)
Definition CheckPendingInterrupt (s : Cpu.t) : res (bool * Cpu.t) :=
  let interrupt_status := mip_ s .& mie_ s in
  let mstatus_mie := negb (bool_decide (privilege_ s = MACHINE_MODE)) || (bitcrop (mstatus_ s) 1 3 =? 1) in
  let mstatus_sie :=
    bool_decide (privilege_ s = USER_MODE)
    || (bool_decide (privilege_ s = SUPERVISOR_MODE) && (bitcrop (mstatus_ s) 1 1 =? 1)) in
  let trap cause := s ← Trap cause kInterrupt s; mret (true, s) in
  if mstatus_sie && (bitcrop interrupt_status 1 1 =? 1) then trap SUPERVISOR_SOFTWARRE_INTERRUPT
  else if mstatus_mie && (bitcrop interrupt_status 1 3 =? 1) then trap MACHINE_SOFTWARE_INTERRUPT
  else if mstatus_sie && (bitcrop interrupt_status 1 5 =? 1) then trap SUPERVIOR_TIMER_INTERRUPT
  else if mstatus_mie && (bitcrop interrupt_status 1 7 =? 1) then trap MACHINE_TIMER_INTERRUPT
  else if mstatus_sie && (bitcrop interrupt_status 1 9 =? 1) then trap SUPERVISOR_EXTERNAL_INTERRUPT
  else if mstatus_mie && (bitcrop interrupt_status 1 11 =? 1) then trap MACHINE_EXTERNAL_INTERRUPT
  else mret (false, s).

(* RISCV_cpu.cc:886-892 RiscvCpu::DiskInterruptCheck *)
Definition DiskInterruptCheck (s : Cpu.t) : Cpu.t :=
  if virtio_interrupt_ s then
    let s := s <| virtio_interrupt_ := false |> in
    let kSupervisorExternalInterrupt := 9 in
    SetInterruptPending kSupervisorExternalInterrupt s
  else s.

(* RISCV_cpu.cc:894-900 RiscvCpu::UartInterruptCheck *)
Definition UartInterruptCheck (s : Cpu.t) : Cpu.t :=
  if uart_interrupt_ s then
    let s := s <| uart_interrupt_ := false |> in
    let kSupervisorExternalInterrupt := 9 in
    SetInterruptPending kSupervisorExternalInterrupt s
  else s.

(* RISCV_cpu.cc:881-884 RiscvCpu::InterruptCheck *)
Definition InterruptCheck (s : Cpu.t) : Cpu.t := UartInterruptCheck (DiskInterruptCheck s).

(* ------------------------------------------------------------------ *)
(** ** Specification *)

(** The registers and MSTATUS fields of a trap to one level. *)
Record trap_level : Type := Level {
  l_priv : PrivilegeMode; l_cause : CsrsAddresses; l_epc : CsrsAddresses; l_tvec : CsrsAddresses; l_tval : CsrsAddresses;
  l_ie : Z; l_pie : Z; l_pp : Z; l_pp_width : Z
}.

Definition machine_level : trap_level := Level MACHINE_MODE MCAUSE MEPC MTVEC MTVAL 3 7 11 2.
Definition supervisor_level : trap_level := Level SUPERVISOR_MODE SCAUSE SEPC STVEC STVAL 1 5 8 1.

(** Interrupts of a level are enabled below it, and at it when its bit is set. *)
Definition enabled_at (l : trap_level) (s : Cpu.t) : bool :=
  (code_PrivilegeMode (privilege_ s) <? code_PrivilegeMode (l_priv l))
  || (bool_decide (privilege_ s = l_priv l) && Z.testbit (mstatus_ s) (l_ie l)).

Definition delegated (cause : Z) (interrupt : bool) (s : Cpu.t) : bool :=
  negb (bool_decide (privilege_ s = MACHINE_MODE))
  && (if interrupt
      then Z.testbit (if disable_machine_interrupt_delegation_ s then 0x666 else 0xFFF) cause
           && Z.testbit (csr s MIDELEG) cause
      else Z.testbit (csr s MEDELEG) cause).

Definition target (cause : Z) (interrupt : bool) (s : Cpu.t) : trap_level :=
  if delegated cause interrupt s then supervisor_level else machine_level.

(** The handler: a vectored table is used for exceptions. *)
Definition handler (cause : Z) (interrupt : bool) (tvec : Z) : Z :=
  let base := tvec - tvec mod 4 in
  if (tvec mod 4 =? 0) || interrupt then base else u64 (base + 4 * cause).

(** A taken timer or external interrupt is no longer pending. *)
Definition acknowledged (cause : Z) (interrupt : bool) : bool :=
  interrupt && negb (cause =? SUPERVISOR_SOFTWARRE_INTERRUPT).

(** The state of the processor after a trap. *)
Record trap_effect (cause : Z) (interrupt : bool) (s s' : Cpu.t) : Prop := {
  te_priv : privilege_ s' = l_priv (target cause interrupt s);
  te_pc : next_pc_ s' = handler cause interrupt (csr s (l_tvec (target cause interrupt s)));
  te_epc : csr s' (l_epc (target cause interrupt s)) = pc_ s;
  te_cause : csr s' (l_cause (target cause interrupt s)) = cause + (if interrupt then 2 ^ (xlen_ s - 1) else 0);
  te_tval : csr s' (l_tval (target cause interrupt s))
            = if negb interrupt && page_fault_cause cause then faulting_address_ s else 0;
  te_mstatus : forall i, 0 <= i < 64 ->
    Z.testbit (mstatus_ s') i =
    let l := target cause interrupt s in
    if i =? l_ie l then false
    else if i =? l_pie l then enabled_at l s
    else if (l_pp l <=? i) && (i <? l_pp l + l_pp_width l) then Z.testbit (code_PrivilegeMode (privilege_ s)) (i - l_pp l)
    else Z.testbit (mstatus_ s) i;
  te_mip : forall i, 0 <= i < 64 ->
    Z.testbit (mip_ s') i
    = if interrupt && (i =? cause) && negb (cause =? SUPERVISOR_SOFTWARRE_INTERRUPT) then false
      else Z.testbit (mip_ s) i;
  te_regs : reg_ s' = reg_ s;
  te_mie : mie_ s' = mie_ s;
  te_csrs : forall c, ~ status_csr c -> (acknowledged cause interrupt = true -> ~ pending_csr c) ->
    c <> l_cause (target cause interrupt s) -> c <> l_epc (target cause interrupt s) ->
    c <> l_tval (target cause interrupt s) -> csr s' c = csr s c
}.

(** The members of the object that a trap has no business with. *)
Definition bystanders (s : Cpu.t) :=
  ((xlen_ s, mxl_ s, reg_ s, pc_ s, timer_interrupt_ s, ir_ s, mie_ s, ctype_ s, end_flag_ s, faulting_address_ s),
   (mmu_ s, peripheral_ s, ecall_emulation_ s, host_emulation_ s, peripheral_emulation_ s, virtio_interrupt_ s),
   (uart_interrupt_ s, disable_machine_interrupt_delegation_ s, top_ s, bottom_ s, brk_ s, openHandles s)).

(** The record of page faults: the fault is no longer pending, it becomes the
    previous one, and two in a row at one address are an error. *)
Definition fault_record (s : Cpu.t) := (page_fault_ s, prev_page_fault_ s, prev_faulting_address_ s, error_flag_ s).

Definition fault_recorded (s : Cpu.t) :=
  (false, page_fault_ s, faulting_address_ s,
   error_flag_ s || (prev_page_fault_ s && (prev_faulting_address_ s =? faulting_address_ s))).

(** A processor whose every register is a word of its width. *)
Record cpu_ok (s : Cpu.t) : Prop := {
  cpu_csr : csr_ok s;
  cpu_pc : in_u 64 (pc_ s);
  cpu_next : in_u 64 (next_pc_ s);
  cpu_fault : in_u 64 (faulting_address_ s);
  cpu_ir : in_u 32 (ir_ s)
}.

(* ------------------------------------------------------------------ *)
(** ** Traps *)

Lemma bit_crop v i : 0 <= i -> bitcrop v 1 i = Z.b2z (Z.testbit v i).
Proof.
  intros. rewrite bitcrop_spec by lia. unfold uint. change (2 ^ 1) with 2.
  rewrite <- Z.shiftr_div_pow2, <- Z.bit0_mod, Z.shiftr_spec by lia. by rewrite Z.add_0_l.
Qed.

Lemma bit_crop_test v i : 0 <= i -> (bitcrop v 1 i =? 1) = Z.testbit v i.
Proof. intros. rewrite bit_crop by done. by destruct (Z.testbit v i). Qed.

(** The page-fault bookkeeping only touches four members. *)
Lemma trap_page_fault_frame cause interrupt s :
  exists a b c d, trap_page_fault cause interrupt s
    = s <| error_flag_ := a |> <| prev_page_fault_ := b |> <| prev_faulting_address_ := c |> <| page_fault_ := d |>.
Proof.
  unfold trap_page_fault. destruct s. destruct (_ && _); [destruct (_ && _) |]; do 4 eexists; reflexivity.
Qed.

Lemma trap_delegated_spec cause interrupt s : 0 <= cause -> trap_delegated cause interrupt s = delegated cause interrupt s.
Proof.
  intros. unfold trap_delegated, delegated. rewrite !bit_crop_test, Z.land_spec by done.
  assert (bool_decide (privilege_ s = USER_MODE) || bool_decide (privilege_ s = SUPERVISOR_MODE)
          = negb (bool_decide (privilege_ s = MACHINE_MODE))) as -> by by destruct (privilege_ s).
  destruct interrupt; [| done]. by rewrite (andb_comm (Z.testbit (csr s MIDELEG) cause)).
Qed.

Lemma low2_spec tvec : in_u 64 tvec -> tvec .& ~64 3 = tvec - tvec mod 4.
Proof.
  intros Ht. replace (tvec - tvec mod 4) with ((tvec >>. 2) <<. 2).
  2:{ rewrite Z.shiftl_mul_pow2, Z.shiftr_div_pow2 by lia. change (2 ^ 2) with 4. zlia. }
  apply Z.bits_inj'. intros i Hi. rewrite Z.land_spec, testbit_uint, Z.lnot_spec, Z.shiftl_spec by lia.
  change 3 with (Z.ones 2). destruct (Z.ltb_spec i 64).
  - destruct (Z.ltb_spec i 2).
    + rewrite Z.ones_spec_low, (Z.testbit_neg_r _ (i - 2)) by lia. apply andb_false_r.
    + rewrite Z.ones_spec_high, Z.shiftr_spec by lia. cbn. rewrite andb_true_r. f_equal. lia.
  - rewrite (testbit_above 64 tvec i Ht), Z.shiftr_spec by lia.
    by rewrite (testbit_above 64 tvec (i - 2 + 2) Ht) by lia.
Qed.

Lemma handler_range cause interrupt tvec : in_u 64 tvec -> in_u 64 (handler cause interrupt tvec).
Proof.
  intros Ht. unfold handler. destruct (_ || _); [| auto with rv]. unfold in_u in *.
  pose proof (Z.mod_pos_bound tvec 4). pose proof (Z.mod_le tvec 4). lia.
Qed.

Lemma trap_vector_spec cause interrupt tvec xlen :
  in_u 64 tvec -> 0 <= cause < 16 -> xlen = 32 \/ xlen = 64 ->
  trap_vector interrupt tvec (cause .| (if interrupt then u64 (1 <<. (xlen - 1)) else 0)) xlen = handler cause interrupt tvec.
Proof.
  intros Ht Hc Hx. unfold trap_vector, handler. cbv zeta. rewrite low2_spec by done.
  replace (u8 (tvec .& 3)) with (tvec mod 4).
  2:{ change 3 with (Z.ones 2). rewrite land_mask by lia. symmetry.
      apply (uint_small 8), (in_u_mono 2); [lia | by apply uint_range]. }
  destruct ((tvec mod 4 =? 0) || interrupt) eqn:E; [done |].
  apply orb_false_iff in E as [_ ->]. rewrite Z.lor_0_r, GenMask_spec by lia.
  replace (cause .& uint 64 (uint 64 (Z.ones (xlen - 1)) <<. 0)) with cause.
  2:{ replace (uint 64 (uint 64 (Z.ones (xlen - 1)) <<. 0)) with (Z.ones (xlen - 1)) by (destruct Hx; by subst).
      rewrite land_mask by lia. symmetry. apply uint_small, (in_u_mono 4); [lia | done]. }
  by rewrite (uint_small 64 (4 * cause)) by (unfold in_u; lia).
Qed.

Lemma cause_value cause (interrupt : bool) xlen :
  0 <= cause < 16 -> xlen = 32 \/ xlen = 64 ->
  cause .| (if interrupt then u64 (1 <<. (xlen - 1)) else 0) = cause + (if interrupt then 2 ^ (xlen - 1) else 0).
Proof.
  intros Hc Hx. destruct interrupt; [| by rewrite Z.lor_0_r, Z.add_0_r].
  replace (u64 (1 <<. (xlen - 1))) with (1 <<. (xlen - 1)) by (destruct Hx; by subst).
  rewrite Z.lor_comm, lor_low; [lia | lia |]. apply (in_u_mono 4); [lia | exact Hc].
Qed.

Lemma trap_supported_cause cause interrupt : trap_supported cause interrupt = true -> 0 <= cause < 16.
Proof.
  unfold trap_supported. cbn [code_ExceptionCode].
  repeat rewrite ?orb_true_iff, ?andb_true_iff, ?Z.eqb_eq. lia.
Qed.

(** Both halves of [Trap] are one transition, parameterised by the level. *)
Definition trap_to (l : trap_level) (cause : Z) (interrupt : bool) (tval cause_mask : Z) (ie : bool) (s : Cpu.t) : Cpu.t :=
  let s := put_csr (l_cause l) (cause .| cause_mask) s in
  let s := put_csr (l_epc l) (pc_ s) s in
  let s := s <| next_pc_ := trap_vector interrupt (csr s (l_tvec l)) (csr s (l_cause l)) (xlen_ s) |> in
  let s := put_csr (l_tval l) tval s in
  let s := s <| mstatus_ := bitset 64 (mstatus_ s) 1 (l_pie l) (Z.b2z ie) |> in
  let s := s <| mstatus_ := bitset 64 (mstatus_ s) 1 (l_ie l) 0 |> in
  let s := s <| mstatus_ := bitset 64 (mstatus_ s) (l_pp_width l) (l_pp l) (PriviledgeToInt (privilege_ s)) |> in
  let s := ApplyMstatusToCsr s in
  s <| privilege_ := l_priv l |>.

Lemma trap_to_supervisor_level cause i tval m ie s :
  trap_to_supervisor cause i tval m ie s = trap_to supervisor_level cause i tval m ie s.
Proof. done. Qed.

Lemma trap_to_machine_level cause i tval m ie s :
  trap_to_machine cause i tval m ie s = trap_to machine_level cause i tval m ie s.
Proof. done. Qed.

Definition is_level (l : trap_level) : Prop := l = machine_level \/ l = supervisor_level.

Lemma trap_mstatus_bits l m ie p i :
  is_level l -> in_u 64 m -> 0 <= i < 64 ->
  Z.testbit (bitset 64 (bitset 64 (bitset 64 m 1 (l_pie l) (Z.b2z ie)) 1 (l_ie l) 0) (l_pp_width l) (l_pp l) p) i
  = if i =? l_ie l then false
    else if i =? l_pie l then ie
    else if (l_pp l <=? i) && (i <? l_pp l + l_pp_width l) then Z.testbit p (i - l_pp l)
    else Z.testbit m i.
Proof.
  intros Hl Hm Hi.
  assert (forall v w o x, in_u 64 (bitset 64 v w o x)) by (intros; apply bitset_range; lia).
  destruct Hl as [-> | ->]; cbn [l_pie l_ie l_pp l_pp_width machine_level supervisor_level];
    rewrite !bitset_testbit by (lia || done); cbn [Z.add Pos.add Pos.succ];
    repeat match goal with
           | |- context [?a <=? ?b] => destruct (Z.leb_spec a b); try lia
           | |- context [?a <? ?b] => destruct (Z.ltb_spec a b); try lia
           | |- context [?a =? ?b] => destruct (Z.eqb_spec a b); try lia
           end; cbn [andb]; try done; subst; try (by rewrite Z.testbit_0_l);
    try (replace (i - _) with 0 by lia); try (by destruct ie).
Qed.

Lemma clear_pending_bits s cause i :
  in_u 64 (mip_ s) -> 0 <= cause < 64 -> 0 <= i < 64 ->
  Z.testbit (mip_ (ClearInterruptPending cause s)) i = if i =? cause then false else Z.testbit (mip_ s) i.
Proof.
  intros Hm Hc Hi. change (mip_ (ClearInterruptPending cause s)) with (bitset 64 (mip_ s) 1 cause 0).
  rewrite bitset_testbit by (lia || done). rewrite Z.testbit_0_l.
  destruct (Z.eqb_spec i cause), (Z.leb_spec cause i), (Z.ltb_spec i (1 + cause)); cbn; try lia; done.
Qed.

(** Members outside the CSRs, shadows and registers do not matter to [csr_ok]. *)
Ltac csr_frame := let W := fresh in intros [W ? ?]; split; [destruct W; by split | done | done].

Lemma csr_ok_next_pc s v : csr_ok s -> csr_ok (s <| next_pc_ := v |>).
Proof. csr_frame. Qed.
Lemma csr_ok_privilege s v : csr_ok s -> csr_ok (s <| privilege_ := v |>).
Proof. csr_frame. Qed.

Lemma csr_ok_pc s v : csr_ok s -> csr_ok (s <| pc_ := v |>).
Proof. csr_frame. Qed.

Lemma csr_ok_mstatus s v : csr_ok s -> in_u 64 v -> csr_ok (ApplyMstatusToCsr (s <| mstatus_ := v |>)).
Proof. intros [W ? E] Hv. apply ApplyMstatusToCsr_ok; [by apply words_mstatus | exact E]. Qed.

Lemma csr_ok_Apply s : csr_ok s -> csr_ok (ApplyMstatusToCsr s).
Proof. intros [W ? E]. by apply ApplyMstatusToCsr_ok. Qed.

Lemma level_csrs l : is_level l ->
  Forall (fun c : CsrsAddresses => ~ status_csr c /\ ~ enable_csr c /\ ~ pending_csr c) [l_cause l; l_epc l; l_tval l].
Proof.
  intros [-> | ->]; repeat constructor; intros [E | [E | E]]; vm_compute in E; discriminate E.
Qed.

Lemma trap_to_ok l cause interrupt tval m ie s :
  is_level l -> cpu_ok s -> in_u 64 tval -> in_u 64 (cause .| m) ->
  csr_ok (trap_to l cause interrupt tval m ie s).
Proof.
  intros Hl [Hc Hpc _ _ _] Ht Hcm. pose proof (level_csrs l Hl) as HL. rewrite !Forall_cons in HL.
  destruct HL as ((A1 & A2 & _) & (B1 & B2 & _) & (C1 & C2 & _) & _).
  unfold trap_to. cbv zeta. apply csr_ok_privilege.
  set (X := put_csr (l_tval l) tval _).
  assert (HX : csr_ok X).
  { apply csr_ok_put_csr; [| done ..]. apply csr_ok_next_pc. repeat apply csr_ok_put_csr; done. }
  clearbody X. destruct HX as [W _ E].
  apply ApplyMstatusToCsr_ok; [| exact E].
  apply words_mstatus; [| apply bitset_range; lia]. do 2 (apply words_mstatus; [| apply bitset_range; lia]). exact W.
Qed.

Lemma csr_ok_clear_pending s cause : csr_ok s -> csr_ok (ClearInterruptPending cause s).
Proof.
  intros [W S E]. apply ApplyInterruptPending_ok; [apply words_mip; [done | apply bitset_range; lia] | exact S | exact E].
Qed.

Lemma csr_ok_set_pending s cause : csr_ok s -> csr_ok (SetInterruptPending cause s).
Proof.
  intros [W S E]. apply ApplyInterruptEnable_ok; [apply words_mip; [done | apply bitset_range; lia] | exact S].
Qed.

(** The processor that [Trap] hands to the level, and what follows it. *)
Definition trap_clear (cause : Z) (interrupt : bool) (s : Cpu.t) : Cpu.t :=
  if interrupt && negb (cause =? SUPERVISOR_SOFTWARRE_INTERRUPT) && negb (cause =? MACHINE_SOFTWARE_INTERRUPT)
  then ClearInterruptPending cause s else s.

Lemma enabled_at_spec l s :
  is_level l ->
  enabled_at l s =
  (if bool_decide (l_priv l = MACHINE_MODE)
   then (bool_decide (privilege_ s = MACHINE_MODE) && (bitcrop (mstatus_ s) 1 3 =? 1))
        || negb (bool_decide (privilege_ s = MACHINE_MODE))
   else (bool_decide (privilege_ s = SUPERVISOR_MODE) && (bitcrop (mstatus_ s) 1 1 =? 1))
        || bool_decide (privilege_ s = USER_MODE)).
Proof.
  intros [-> | ->]; unfold enabled_at; rewrite !bit_crop_test by lia; cbn [l_priv l_ie machine_level supervisor_level];
    destruct (privilege_ s); cbn; rewrite ?orb_false_r; done.
Qed.

Lemma is_level_target cause interrupt s : is_level (target cause interrupt s).
Proof. unfold target, is_level. destruct (delegated _ _ _); auto. Qed.

Lemma Trap_unfold cause interrupt s :
  trap_supported cause interrupt = true ->
  let s1 := trap_page_fault cause interrupt s in
  let l := target cause interrupt s in
  Trap cause interrupt s =
  Ok (ApplyMstatusToCsr (trap_clear cause interrupt
       (trap_to l cause interrupt (trap_tval cause interrupt s1)
          (if interrupt then u64 (1 <<. (xlen_ s - 1)) else 0) (enabled_at l s) s1))).
Proof.
  intros Hs s1 l. unfold Trap. rewrite Hs. cbn [negb]. fold s1.
  assert (0 <= cause) by (pose proof (trap_supported_cause cause interrupt Hs); lia).
  rewrite trap_delegated_spec by done.
  assert (delegated cause interrupt s1 = delegated cause interrupt s /\ xlen_ s1 = xlen_ s) as [-> ->].
  { subst s1. by destruct (trap_page_fault_frame cause interrupt s) as (a & b & c & d & ->). }
  assert (Hl : enabled_at l s = if delegated cause interrupt s then enabled_at supervisor_level s else enabled_at machine_level s).
  { subst l. unfold target. by destruct (delegated _ _ _). }
  rewrite Hl, !enabled_at_spec by (left; reflexivity) || (right; reflexivity). subst l. unfold target, trap_clear.
  rewrite trap_to_supervisor_level, trap_to_machine_level.
  destruct (delegated cause interrupt s); reflexivity.
Qed.

Lemma mode_xlen s : mode_ok s -> xlen_ s = 32 \/ xlen_ s = 64.
Proof. unfold mode_ok. tauto. Qed.

(** Reading a CSR through an update of another member. *)
Lemma csr_privilege s v c : csr (s <| privilege_ := v |>) c = csr s c.
Proof. done. Qed.
Lemma csr_mstatus s v c : csr (s <| mstatus_ := v |>) c = csr s c.
Proof. done. Qed.
Lemma csr_next_pc s v c : csr (s <| next_pc_ := v |>) c = csr s c.
Proof. done. Qed.
Lemma csr_mip s v c : csr (s <| mip_ := v |>) c = csr s c.
Proof. done. Qed.

Ltac csr_read :=
  repeat first
    [ rewrite csr_privilege | rewrite csr_mstatus | rewrite csr_next_pc | rewrite csr_mip
    | rewrite ApplyMstatusToCsr_frame by csr_ne
    | rewrite ApplyInterruptPending_frame by csr_ne
    | rewrite csr_put_csr_eq | rewrite csr_put_csr_ne by csr_ne ].

Lemma trap_to_csrs l cause interrupt tval m ie s :
  is_level l ->
  let s' := trap_to l cause interrupt tval m ie s in
  csr s' (l_cause l) = cause .| m /\ csr s' (l_epc l) = pc_ s /\ csr s' (l_tval l) = tval
  /\ next_pc_ s' = trap_vector interrupt (csr s (l_tvec l)) (cause .| m) (xlen_ s).
Proof.
  intros Hl s'. set (X := put_csr (l_epc l) (pc_ s) (put_csr (l_cause l) (cause .| m) s)).
  assert (Hx : csr X (l_tvec l) = csr s (l_tvec l) /\ csr X (l_cause l) = cause .| m).
  { subst X. destruct Hl as [-> | ->]; cbn [l_cause l_epc l_tvec machine_level supervisor_level]; split; by csr_read. }
  destruct Hx as [H1 H2].
  assert (Hn : next_pc_ s' = trap_vector interrupt (csr X (l_tvec l)) (csr X (l_cause l)) (xlen_ s)) by reflexivity.
  rewrite H1, H2 in Hn. clear X H1 H2. split_and!; try exact Hn.
  all: subst s'; clear Hn; destruct Hl as [-> | ->]; unfold trap_to;
    cbn [l_cause l_epc l_tval machine_level supervisor_level]; cbv zeta; by csr_read.
Qed.

Lemma trap_clear_csr cause interrupt s c :
  ~ pending_csr c -> csr (trap_clear cause interrupt s) c = csr s c.
Proof.
  unfold trap_clear, pending_csr. intros N. destruct (_ && _ && _); [| done].
  unfold ClearInterruptPending. rewrite ApplyInterruptPending_frame by tauto. done.
Qed.

Lemma trap_clear_acknowledged cause interrupt s c :
  trap_supported cause interrupt = true -> (acknowledged cause interrupt = true -> ~ pending_csr c) ->
  csr (trap_clear cause interrupt s) c = csr s c.
Proof.
  intros Hs N. destruct (acknowledged cause interrupt) eqn:E; [by apply trap_clear_csr, N |].
  unfold trap_clear. unfold acknowledged in E. by rewrite E.
Qed.

Lemma trap_clear_coherent cause interrupt s :
  trap_supported cause interrupt = true -> acknowledged cause interrupt = true ->
  pending_coherent (ApplyMstatusToCsr (trap_clear cause interrupt s)).
Proof.
  intros Hs Ha.
  assert (E : trap_clear cause interrupt s = ClearInterruptPending cause s).
  { unfold trap_clear. unfold acknowledged in Ha. rewrite Ha. revert Hs. unfold trap_supported.
    apply andb_true_iff in Ha as [-> _]. cbn [code_ExceptionCode negb andb orb].
    rewrite orb_false_r, !orb_true_iff, !Z.eqb_eq. intros Hc. destruct (Z.eqb_spec cause 3); [lia | done]. }
  rewrite E. pose proof (ApplyInterruptPending_coherent (s <| mip_ := bitset 64 (mip_ s) 1 cause 0 |>)) as Hp.
  unfold pending_coherent in *. fold (ClearInterruptPending cause s) in Hp. by rewrite !ApplyMstatusToCsr_frame by csr_ne.
Qed.

(** The CSRs of other levels and purposes. *)
Lemma trap_to_frame l cause interrupt tval m ie s c :
  ~ status_csr c -> c <> l_cause l -> c <> l_epc l -> c <> l_tval l ->
  csr (trap_to l cause interrupt tval m ie s) c = csr s c.
Proof.
  unfold status_csr. intros N N1 N2 N3. unfold trap_to. cbv zeta. rewrite csr_privilege.
  rewrite ApplyMstatusToCsr_frame, !csr_mstatus by tauto.
  rewrite csr_put_csr_ne, csr_next_pc, !csr_put_csr_ne by congruence. done.
Qed.

Lemma trap_clear_frame cause interrupt s :
  let s' := trap_clear cause interrupt s in
  privilege_ s' = privilege_ s /\ next_pc_ s' = next_pc_ s /\ mstatus_ s' = mstatus_ s /\ mie_ s' = mie_ s
  /\ reg_ s' = reg_ s /\ pc_ s' = pc_ s /\ faulting_address_ s' = faulting_address_ s /\ ir_ s' = ir_ s.
Proof. unfold trap_clear. by destruct (_ && _ && _). Qed.

Lemma csr_ok_trap_clear cause interrupt s : csr_ok s -> csr_ok (trap_clear cause interrupt s).
Proof. unfold trap_clear. destruct (_ && _ && _); auto using csr_ok_clear_pending. Qed.

Lemma trap_clear_mip cause interrupt s i :
  in_u 64 (mip_ s) -> trap_supported cause interrupt = true -> 0 <= i < 64 ->
  Z.testbit (mip_ (trap_clear cause interrupt s)) i =
  if interrupt && (i =? cause) && negb (cause =? SUPERVISOR_SOFTWARRE_INTERRUPT) then false else Z.testbit (mip_ s) i.
Proof.
  intros Hm Hs Hi. pose proof (trap_supported_cause _ _ Hs). unfold trap_clear.
  destruct interrupt; [| done]. cbn [andb].
  assert ((cause =? MACHINE_SOFTWARE_INTERRUPT) = false) as ->.
  { revert Hs. unfold trap_supported. cbn [code_ExceptionCode negb andb orb]. rewrite orb_false_r, !orb_true_iff, !Z.eqb_eq.
    intros. apply Z.eqb_neq. lia. }
  destruct (cause =? SUPERVISOR_SOFTWARRE_INTERRUPT); cbn [negb andb]; rewrite ?andb_false_r, ?andb_true_r; [done |].
  apply clear_pending_bits; (done || lia).
Qed.

Lemma trap_tval_range cause interrupt s : cpu_ok s -> in_u 64 (trap_tval cause interrupt s).
Proof.
  intros [_ _ _ Hf Hi]. unfold trap_tval. destruct (negb interrupt); [| decide_it].
  destruct (page_fault_cause cause); [done |]. destruct (cause =? _); [by apply (in_u_mono 32) | decide_it].
Qed.

Lemma trap_tval_spec cause interrupt s :
  trap_supported cause interrupt = true ->
  trap_tval cause interrupt s = if negb interrupt && page_fault_cause cause then faulting_address_ s else 0.
Proof.
  intros Hs. unfold trap_tval. destruct interrupt; [done |]. cbn [negb andb].
  destruct (page_fault_cause cause) eqn:E; [done |].
  revert Hs. unfold trap_supported. unfold page_fault_cause in E. rewrite E. cbn [negb andb orb code_ExceptionCode].
  rewrite !orb_true_iff, !Z.eqb_eq. intros H. destruct (Z.eqb_spec cause 2); [lia | done].
Qed.

Lemma cpu_ok_page_fault cause interrupt s : cpu_ok s -> cpu_ok (trap_page_fault cause interrupt s).
Proof.
  destruct (trap_page_fault_frame cause interrupt s) as (a & b & c & d & ->).
  intros [Hc ? ? ? ?]. split; try done. revert Hc. csr_frame.
Qed.

Lemma level_csrs_status l c : is_level l -> In c [l_cause l; l_epc l; l_tval l] -> ~ pending_csr c.
Proof.
  intros Hl Hc. pose proof (level_csrs l Hl) as H. rewrite Forall_forall in H.
  destruct (H c) as (_ & _ & P); [by apply list_elem_of_In | done].
Qed.

Lemma ApplyMstatus_csr_level l c s : is_level l -> In c [l_cause l; l_epc l; l_tval l] -> csr (ApplyMstatusToCsr s) c = csr s c.
Proof.
  intros Hl Hc. pose proof (level_csrs l Hl) as H. rewrite Forall_forall in H.
  destruct (H c) as (P & _ & _); [by apply list_elem_of_In |]. unfold status_csr in P.
  apply ApplyMstatusToCsr_frame; tauto.
Qed.

Lemma cause_word_range cause (interrupt : bool) xlen :
  0 <= cause < 16 -> xlen = 32 \/ xlen = 64 -> in_u 64 (cause .| (if interrupt then u64 (1 <<. (xlen - 1)) else 0)).
Proof.
  intros Hc Hx. apply in_u_lor; [lia | apply (in_u_mono 4); [lia | exact Hc] |].
  destruct interrupt; [auto with rv | decide_it].
Qed.

Lemma Trap_correct (cause : Z) (interrupt : bool) (s : Cpu.t) :
  cpu_ok s -> trap_supported cause interrupt = true ->
  exists s', Trap cause interrupt s = Ok s' /\ csr_ok s' /\ trap_effect cause interrupt s s'.
Proof.
  intros Hok Hs. pose proof (trap_supported_cause _ _ Hs) as Hc.
  pose proof (is_level_target cause interrupt s) as Hl. rewrite Trap_unfold by done. cbv zeta.
  eexists; split; [reflexivity |].
  set (s1 := trap_page_fault cause interrupt s). set (l := target cause interrupt s) in *.
  set (m := if interrupt then _ else 0). set (ie := enabled_at l s). set (tval := trap_tval cause interrupt s1).
  assert (Hok1 : cpu_ok s1) by by apply cpu_ok_page_fault.
  assert (Hf : privilege_ s1 = privilege_ s /\ mstatus_ s1 = mstatus_ s /\ pc_ s1 = pc_ s /\ mip_ s1 = mip_ s
    /\ csrs_ s1 = csrs_ s /\ reg_ s1 = reg_ s /\ mie_ s1 = mie_ s /\ xlen_ s1 = xlen_ s).
  { subst s1. by destruct (trap_page_fault_frame cause interrupt s) as (a & b & c & d & ->). }
  destruct Hf as (F1 & F2 & F3 & F4 & F5 & F6 & F7 & F8).
  assert (Htv : tval = if negb interrupt && page_fault_cause cause then faulting_address_ s else 0).
  { subst tval s1. rewrite trap_tval_spec by done.
    by destruct (trap_page_fault_frame cause interrupt s) as (a & b & c & d & ->). }
  pose proof (mode_xlen s (ok_mode _ (ok_words _ (cpu_csr _ Hok)))) as Hx.
  pose proof (trap_to_ok l cause interrupt tval m ie s1 Hl Hok1 (trap_tval_range _ _ _ Hok1)
                (cause_word_range cause interrupt _ Hc Hx)) as Hok2.
  pose proof (trap_to_csrs l cause interrupt tval m ie s1 Hl) as (C1 & C2 & C3 & C4).
  set (s2 := trap_to l cause interrupt tval m ie s1) in *.
  destruct (trap_clear_frame cause interrupt s2) as (G1 & G2 & G3 & G4 & G5 & _).
  split; [by apply csr_ok_Apply, csr_ok_trap_clear |].
  assert (Hcsr : forall c, In c [l_cause l; l_epc l; l_tval l] ->
    csr (ApplyMstatusToCsr (trap_clear cause interrupt s2)) c = csr s2 c).
  { intros c Hin. rewrite (ApplyMstatus_csr_level l) by done. apply trap_clear_csr. by apply (level_csrs_status l). }
  split; fold l; try (change (mstatus_ (ApplyMstatusToCsr ?x)) with (mstatus_ x)).
  - exact G1.
  - change (next_pc_ (trap_clear cause interrupt s2) = handler cause interrupt (csr s (l_tvec l))).
    rewrite G2, C4, F8. unfold csr at 1. rewrite F5. apply trap_vector_spec; [apply Hok | done | done].
  - rewrite Hcsr by (cbn; auto). by rewrite C2.
  - rewrite Hcsr by (cbn; auto). rewrite C1. by apply cause_value.
  - rewrite Hcsr by (cbn; auto). by rewrite C3.
  - intros i Hi. change (mstatus_ (ApplyMstatusToCsr (trap_clear cause interrupt s2))) with (mstatus_ (trap_clear cause interrupt s2)).
    rewrite G3. cbv zeta.
    change (mstatus_ s2) with (bitset 64 (bitset 64 (bitset 64 (mstatus_ s1) 1 (l_pie l) (Z.b2z ie)) 1 (l_ie l) 0)
      (l_pp_width l) (l_pp l) (PriviledgeToInt (privilege_ s1))).
    rewrite trap_mstatus_bits, F1, F2 by (try done; rewrite F2; apply Hok). done.
  - intros i Hi. change (mip_ (ApplyMstatusToCsr (trap_clear cause interrupt s2))) with (mip_ (trap_clear cause interrupt s2)).
    rewrite trap_clear_mip by (try done; apply Hok2). change (mip_ s2) with (mip_ s1). by rewrite F4.
  - change (reg_ (trap_clear cause interrupt s2) = reg_ s). by rewrite G5.
  - change (mie_ (trap_clear cause interrupt s2) = mie_ s). by rewrite G4.
  - intros c Nc Np N1 N2 N3. unfold status_csr in Nc. rewrite ApplyMstatusToCsr_frame by tauto.
    rewrite trap_clear_acknowledged by done. unfold s2. rewrite trap_to_frame by done. unfold csr. by rewrite F5.
Qed.

(** The rest of the object. *)
Lemma Trap_frame cause interrupt s s' :
  Trap cause interrupt s = Ok s' ->
  bystanders s' = bystanders s /\
  fault_record s' = (if negb interrupt && page_fault_cause cause then fault_recorded s else fault_record s) /\
  (acknowledged cause interrupt = true -> pending_coherent s').
Proof.
  intros E. destruct (trap_supported cause interrupt) eqn:Hs; [| unfold Trap in E; by rewrite Hs in E].
  rewrite (Trap_unfold cause interrupt s Hs) in E. injection E as <-.
  split; [| split; [| intros Ha; by apply trap_clear_coherent]].
  - unfold trap_clear. destruct (trap_page_fault_frame cause interrupt s) as (a & b & c & d & ->).
    by destruct (_ && _ && _).
  - unfold trap_clear, fault_record, fault_recorded. unfold trap_page_fault.
    by destruct (_ && _ && negb (cause =? MACHINE_SOFTWARE_INTERRUPT)), (negb interrupt && page_fault_cause cause) eqn:Ep;
      try destruct (prev_page_fault_ s && _); rewrite ?orb_true_r, ?orb_false_r.
Qed.

(** The previous-enable bit after a trap. *)
Lemma trap_pie cause interrupt s s' :
  trap_effect cause interrupt s s' ->
  let l := target cause interrupt s in
  Z.testbit (mstatus_ s') (l_pie l) =
    if decide (privilege_ s = l_priv l) then Z.testbit (mstatus_ s) (l_ie l) else true.
Proof.
  intros [_ _ _ _ _ Hm _ _ _ _] l. fold l in Hm.
  assert (E : Z.testbit (mstatus_ s') (l_pie l) = enabled_at l s).
  { rewrite Hm; unfold l, target; by destruct (delegated _ _ _). }
  rewrite E. unfold l, enabled_at, target, delegated.
  destruct (privilege_ s) eqn:P; cbn [negb bool_decide andb]; by destruct (if interrupt then _ else _).
Qed.

(* ------------------------------------------------------------------ *)
(** ** Returns *)

Lemma return_mstatus_bits l m x i :
  is_level l -> in_u 64 m -> 0 <= i < 64 ->
  Z.testbit (bitset 64 (bitset 64 (bitset 64 m 1 (l_ie l) (Z.b2z x)) 1 (l_pie l) 1) 2 (l_pp l) 0) i
  = if i =? l_ie l then x
    else if i =? l_pie l then true
    else if (l_pp l <=? i) && (i <? l_pp l + 2) then false
    else Z.testbit m i.
Proof.
  intros Hl Hm Hi.
  assert (forall v w o x, in_u 64 (bitset 64 v w o x)) by (intros; apply bitset_range; lia).
  destruct Hl as [-> | ->]; cbn [l_pie l_ie l_pp machine_level supervisor_level];
    rewrite !bitset_testbit by (lia || done); cbn [Z.add Pos.add Pos.succ];
    repeat match goal with
           | |- context [?a <=? ?b] => destruct (Z.leb_spec a b); try lia
           | |- context [?a <? ?b] => destruct (Z.ltb_spec a b); try lia
           | |- context [?a =? ?b] => destruct (Z.eqb_spec a b); try lia
           end; cbn [andb]; try done; subst; try (by rewrite Z.testbit_0_l);
    try (replace (i - _) with 0 by lia); try (by destruct x).
Qed.

(** What a return from level [l] does to the processor. *)
Record return_effect (l : trap_level) (p : PrivilegeMode) (s s' : Cpu.t) : Prop := {
  re_priv : privilege_ s' = p;
  re_pc : next_pc_ s' = csr s (l_epc l);
  re_regs : reg_ s' = reg_ s;
  re_ok : csr_ok s';
  re_mstatus : forall i, 0 <= i < 64 ->
    Z.testbit (mstatus_ s') i =
    if i =? l_ie l then Z.testbit (mstatus_ s) (l_pie l)
    else if i =? l_pie l then true
    else if (l_pp l <=? i) && (i <? l_pp l + 2) then false
    else Z.testbit (mstatus_ s) i
}.

Lemma Mret_spec s p :
  csr_ok s -> bitcrop (mstatus_ s) 2 11 = code_PrivilegeMode p ->
  exists s', Mret s = Ok s' /\ return_effect machine_level p s s'.
Proof.
  intros Hok Hp. unfold Mret. rewrite Hp.
  replace (IntToPrivilegeMode (s32 (code_PrivilegeMode p))) with (Ok p) by by destruct p.
  eexists; split; [reflexivity |]. split; try done.
  - cbv zeta. rsimpl. by csr_read.
  - apply csr_ok_next_pc. apply (csr_ok_mstatus (s <| privilege_ := p |>)); [by apply csr_ok_privilege | apply bitset_range; lia].
  - intros i Hi. pose proof (return_mstatus_bits machine_level (mstatus_ s) (Z.testbit (mstatus_ s) 7) i) as H.
    rewrite <- bit_crop in H by lia. apply H; [by left | apply Hok | done].
Qed.

Lemma Sret_spec s p :
  csr_ok s -> bitcrop (mstatus_ s) 1 8 = code_PrivilegeMode p ->
  exists s', Sret s = Ok s' /\ return_effect supervisor_level p s s'.
Proof.
  intros Hok Hp. unfold Sret. rewrite Hp.
  replace (IntToPrivilegeMode (s32 (code_PrivilegeMode p))) with (Ok p) by by destruct p.
  eexists; split; [reflexivity |]. split; try done.
  - cbv zeta. rsimpl. by csr_read.
  - apply csr_ok_next_pc. cbv zeta. destruct Hok as [W S E]. apply ApplyMstatusToCsr_ok.
    + assert (words_ok (s <| privilege_ := p |>)) by (destruct W; by split).
      apply words_put_csr; [repeat apply words_mstatus; try done |]; apply bitset_range; lia.
    + apply enable_coherent_put; [intros [H | [H | H]]; vm_compute in H; discriminate H | exact E].
  - intros i Hi. pose proof (return_mstatus_bits supervisor_level (mstatus_ s) (Z.testbit (mstatus_ s) 5) i) as H.
    rewrite <- bit_crop in H by lia. apply H; [by right | apply Hok | done].
Qed.

(** The previous-privilege field after a trap. *)
Lemma trap_pp cause interrupt s s' :
  trap_effect cause interrupt s s' ->
  let l := target cause interrupt s in
  (delegated cause interrupt s = true -> privilege_ s <> MACHINE_MODE) ->
  bitcrop (mstatus_ s') (l_pp_width l) (l_pp l) = code_PrivilegeMode (privilege_ s).
Proof.
  intros [_ _ _ _ _ Hm _ _ _ _] l Hd. subst l. unfold target in *.
  destruct (delegated cause interrupt s); cbn [l_pp l_pp_width l_ie l_pie machine_level supervisor_level] in *.
  - rewrite bit_crop, Hm by lia. by destruct (privilege_ s) eqn:E; [| | destruct (Hd eq_refl)].
  - apply (bits_eq_below 2); [lia | apply bitcrop_range; lia | by destruct (privilege_ s) |].
    change (seqZ 0 2) with [0; 1]. repeat constructor; rewrite bitcrop_testbit, Hm by lia; by destruct (privilege_ s).
Qed.

Lemma level_return cause interrupt s s' :
  csr_ok s' -> trap_effect cause interrupt s s' ->
  let l := target cause interrupt s in
  exists s'', (if delegated cause interrupt s then Sret s' else Mret s') = Ok s'' /\ return_effect l (privilege_ s) s' s''.
Proof.
  intros Hok He l. pose proof (trap_pp cause interrupt s s' He) as Hpp. cbv zeta in Hpp. fold l in Hpp.
  assert (Hd : delegated cause interrupt s = true -> privilege_ s <> MACHINE_MODE).
  { unfold delegated. intros D%andb_true_iff. destruct D as [D _]. apply negb_true_iff, bool_decide_eq_false in D. done. }
  specialize (Hpp Hd). subst l. unfold target in *.
  destruct (delegated cause interrupt s); [by apply Sret_spec | by apply Mret_spec].
Qed.

(** MSTATUS after both. *)
Lemma returned_mstatus cause interrupt s s' s'' :
  trap_effect cause interrupt s s' ->
  let l := target cause interrupt s in
  return_effect l (privilege_ s) s' s'' -> forall i, 0 <= i < 64 ->
  Z.testbit (mstatus_ s'') i =
    if i =? l_ie l then if decide (privilege_ s = l_priv l) then Z.testbit (mstatus_ s) (l_ie l) else true
    else if i =? l_pie l then true
    else if (l_pp l <=? i) && (i <? l_pp l + 2) then false
    else Z.testbit (mstatus_ s) i.
Proof.
  intros He l [_ _ _ _ R5] i Hi. pose proof (trap_pie _ _ _ _ He) as Hpie. cbv zeta in Hpie. fold l in Hpie.
  pose proof (te_mstatus _ _ _ _ He i Hi) as Em. cbv zeta in Em. fold l in Em.
  rewrite R5, Hpie by done. assert (Hl : is_level l) by apply is_level_target.
  revert Em. destruct Hl as [-> | ->]; cbn [l_ie l_pie l_pp l_pp_width machine_level supervisor_level];
    repeat match goal with
           | |- context [?a <=? ?b] => destruct (Z.leb_spec a b); try lia
           | |- context [?a <? ?b] => destruct (Z.ltb_spec a b); try lia
           | |- context [?a =? ?b] => destruct (Z.eqb_spec a b); try lia
           end; done.
Qed.

(** The interrupt [CheckPendingInterrupt] takes: the lowest-numbered one that is
    pending, enabled and not masked by the level it belongs to. *)
Definition takeable (s : Cpu.t) (cause : Z) : bool :=
  Z.testbit (mip_ s) cause && Z.testbit (mie_ s) cause
  && enabled_at (if (cause mod 4) =? 1 then supervisor_level else machine_level) s.

Definition interrupt_order : list Z := [1; 3; 5; 7; 9; 11].

Definition next_interrupt (s : Cpu.t) : option Z := List.find (takeable s) interrupt_order.

Lemma CheckPendingInterrupt_next s :
  CheckPendingInterrupt s =
  match next_interrupt s with
  | Some cause => match Trap cause true s with Ok s' => Ok (true, s') | Err f => Err f end
  | None => Ok (false, s)
  end.
Proof.
  unfold CheckPendingInterrupt, next_interrupt, interrupt_order, takeable.
  rewrite !bit_crop_test, !Z.land_spec by lia. cbn [List.find].
  change (1 mod 4 =? 1) with true. change (3 mod 4 =? 1) with false. change (5 mod 4 =? 1) with true.
  change (7 mod 4 =? 1) with false. change (9 mod 4 =? 1) with true. change (11 mod 4 =? 1) with false. cbv iota.
  assert (enabled_at supervisor_level s = bool_decide (privilege_ s = USER_MODE)
    || bool_decide (privilege_ s = SUPERVISOR_MODE) && Z.testbit (mstatus_ s) 1) as <-.
  { unfold enabled_at. cbn [l_priv l_ie supervisor_level]. by destruct (privilege_ s). }
  assert (enabled_at machine_level s = negb (bool_decide (privilege_ s = MACHINE_MODE)) || Z.testbit (mstatus_ s) 3) as <-.
  { unfold enabled_at. cbn [l_priv l_ie machine_level]. by destruct (privilege_ s). }
  set (a := enabled_at supervisor_level s). set (b := enabled_at machine_level s).
  destruct a, b; cbn [andb]; rewrite ?andb_true_r, ?andb_false_r;
    repeat (match goal with |- context [if ?x then _ else _] => destruct x end; [done |]); done.
Qed.

(** What the check does, as a predicate of its result. *)
Definition check_effect (s : Cpu.t) (r : res (bool * Cpu.t)) : Prop :=
  match next_interrupt s with
  | None => r = Ok (false, s)
  | Some cause =>
      takeable s cause = true
      /\ (forall c, In c interrupt_order -> c < cause -> takeable s c = false)
      /\ if (cause =? 1) || (cause =? 7) || (cause =? 9)
         then exists s', r = Ok (true, s') /\ csr_ok s' /\ trap_effect cause true s s'
         else r = Err Assert_failed
  end.

Lemma CheckPendingInterrupt_effect s : cpu_ok s -> check_effect s (CheckPendingInterrupt s).
Proof.
  intros Hok. rewrite CheckPendingInterrupt_next. unfold check_effect, next_interrupt, interrupt_order. cbn [List.find].
  repeat match goal with
         | |- context [if takeable s ?c then _ else _] =>
             let E := fresh "E" in destruct (takeable s c) eqn:E;
             [split; [exact E |]; split;
              [cbn [In]; intros c' Hin Hlt; repeat (destruct Hin as [<- | Hin]; [try done; lia |]); done |];
              cbn [Z.eqb Pos.eqb orb];
              try (destruct (Trap_correct c true s Hok eq_refl) as (s' & -> & ? & ?); by exists s'); done |]
         end.
  done.
Qed.

(* ------------------------------------------------------------------ *)
(** ** Properties *)

(** C11: every trap of a supported cause ends without a fault and leaves a
    well-formed processor in the handler: the target is supervisor mode exactly when
    the trap comes from below machine mode and the cause is delegated; the target's
    cause, EPC and TVAL registers hold the cause (top bit set for an interrupt), the
    interrupted pc and the faulting address; its interrupt-enable bit is cleared and
    its previous-privilege field holds the old mode; the pending bit of a taken timer
    or external interrupt (and no other) is cleared.  The previous-enable bit gets
    the old enable bit when the trap comes from the target mode itself; a trap from
    below sets it, whatever the enable bit was: there the code does not follow its
    comment (or the manual), "copy old MIE to MPIE".  Nothing else changes: no other
    bit of MSTATUS or MIP, no other CSR (the views of the two apart), no other member
    of the object, the record of page faults apart, which is updated by a page fault
    and kept by everything else. *)
Theorem Trap_spec (cause : Z) (interrupt : bool) (s : Cpu.t) :
  cpu_ok s -> trap_supported cause interrupt = true ->
  let l := target cause interrupt s in
  exists s', Trap cause interrupt s = Ok s' /\ csr_ok s' /\ trap_effect cause interrupt s s' /\
    Z.testbit (mstatus_ s') (l_pie l) =
      (if decide (privilege_ s = l_priv l) then Z.testbit (mstatus_ s) (l_ie l) else true) /\
    bystanders s' = bystanders s /\
    fault_record s' = (if negb interrupt && page_fault_cause cause then fault_recorded s else fault_record s) /\
    (acknowledged cause interrupt = true -> pending_coherent s').
Proof.
  intros Hok Hs l. destruct (Trap_correct cause interrupt s Hok Hs) as (s' & E & Hc & Ht).
  exists s'. split; [done |]. split; [done |]. split; [done |]. split; [by apply trap_pie | by apply Trap_frame].
Qed.

Lemma sample_cpu_ok : cpu_ok (RiscvCpu 0 true).
Proof. split; [apply RiscvCpu_csr_ok | decide_it ..]. Qed.

Definition sample_user : Cpu.t :=
  put_csr MIDELEG 0x222 (put_csr STVEC 0x80000100 ((RiscvCpu 0 true) <| privilege_ := USER_MODE |> <| pc_ := 0x1234 |>)).

Lemma sample_user_ok : cpu_ok sample_user.
Proof.
  assert (N : forall c, c = 0x303 \/ c = 0x105 -> ~ status_csr c /\ ~ enable_csr c).
  { intros c [-> | ->]; split; intros [H | [H | H]]; vm_compute in H; discriminate H. }
  split; [| decide_it ..]. unfold sample_user.
  apply csr_ok_put_csr; [| decide_it | apply (N 0x303); by left | apply (N 0x303); by left].
  apply csr_ok_put_csr; [| decide_it | apply (N 0x105); by right | apply (N 0x105); by right].
  apply csr_ok_pc, csr_ok_privilege, RiscvCpu_csr_ok.
Qed.

Lemma Trap_spec_witness :
  exists s', Trap 9 true sample_user = Ok s' /\ privilege_ s' = SUPERVISOR_MODE /\ next_pc_ s' = 0x80000100
    /\ csr s' SEPC = 0x1234.
Proof.
  destruct (Trap_spec 9 true sample_user sample_user_ok eq_refl) as (s' & H & _ & E & _).
  exists s'. split; [exact H |]. destruct E as [E1 E2 E3 _ _ _ _ _ _ _]. split; [exact E1 |]. split; [exact E2 | exact E3].
Defined.

(** C30: a trap followed by the matching return (MRET, or SRET when the trap was
    delegated) resumes the interrupted code: same privilege mode, next pc the
    interrupted pc, same registers, and the interrupts of either level are let
    through exactly if they were before.  Of MSTATUS only the level's fields differ:
    previous-enable is set, the two bits of previous-privilege are cleared, and the
    interrupt-enable bit itself is restored when the trap came from the level's own
    mode; after a trap from below, where the bit masks nothing, it comes back set,
    whatever it was (the trap does not "copy old MIE to MPIE", as its comment says). *)
Theorem trap_return_roundtrip (cause : Z) (interrupt : bool) (s : Cpu.t) :
  cpu_ok s -> trap_supported cause interrupt = true ->
  let l := target cause interrupt s in
  exists s' s'', Trap cause interrupt s = Ok s'
    /\ (if delegated cause interrupt s then Sret s' else Mret s') = Ok s''
    /\ privilege_ s'' = privilege_ s /\ next_pc_ s'' = pc_ s /\ reg_ s'' = reg_ s /\ csr_ok s''
    /\ (forall l', is_level l' -> enabled_at l' s'' = enabled_at l' s)
    /\ forall i, 0 <= i < 64 ->
         Z.testbit (mstatus_ s'') i =
         if i =? l_ie l then if decide (privilege_ s = l_priv l) then Z.testbit (mstatus_ s) (l_ie l) else true
         else if i =? l_pie l then true
         else if (l_pp l <=? i) && (i <? l_pp l + 2) then false
         else Z.testbit (mstatus_ s) i.
Proof.
  intros Hok Hs l. destruct (Trap_correct cause interrupt s Hok Hs) as (s' & H1 & Hok' & He).
  destruct (level_return cause interrupt s s' Hok' He) as (s'' & H2 & Hr). exists s', s''. fold l in Hr.
  pose proof (returned_mstatus cause interrupt s s' s'' He Hr) as Hm. fold l in Hm.
  destruct Hr as [R1 R2 R3 R4 _]. pose proof (te_epc _ _ _ _ He) as E3. fold l in E3.
  split; [done |]. split; [done |]. split; [done |]. split; [by rewrite R2, E3 |].
  split; [rewrite R3; exact (te_regs _ _ _ _ He) |]. split; [done |]. split; [| exact Hm].
  intros l' Hl'. unfold enabled_at. rewrite R1. destruct (decide (privilege_ s = l_priv l')) as [Ep | Ep].
  - rewrite Hm by (destruct Hl' as [-> | ->]; cbn; lia). f_equal. f_equal. rewrite Ep.
    destruct Hl' as [-> | ->], (is_level_target cause interrupt s) as [E | E]; fold l in E; rewrite E; done.
  - by rewrite bool_decide_false.
Qed.

Lemma trap_return_roundtrip_witness :
  exists s' s'', Trap 9 true sample_user = Ok s' /\ Sret s' = Ok s'' /\ privilege_ s'' = USER_MODE /\ next_pc_ s'' = 0x1234.
Proof.
  destruct (trap_return_roundtrip 9 true sample_user sample_user_ok eq_refl) as (s' & s'' & H1 & H2 & H3 & H4 & _).
  exists s', s''. split; [exact H1 |]. split; [exact H2 |]. split; [exact H3 | exact H4].
Defined.

(** [CheckPendingInterrupt] on a well-formed processor: without an interrupt
    that is pending in MIP, enabled in MIE and let through by the current mode it
    changes nothing; otherwise it takes the lowest-numbered such interrupt: a
    supervisor software, machine timer or supervisor external interrupt traps with
    the effect of [Trap], and any other one (3, 5, 11) fails the assertion of
    [Trap]. *)
Theorem CheckPendingInterrupt_spec (s : Cpu.t) :
  cpu_ok s ->
  match next_interrupt s with
  | None => CheckPendingInterrupt s = Ok (false, s)
  | Some cause =>
      takeable s cause = true
      /\ (forall c, In c interrupt_order -> c < cause -> takeable s c = false)
      /\ if (cause =? 1) || (cause =? 7) || (cause =? 9)
         then exists s', CheckPendingInterrupt s = Ok (true, s') /\ csr_ok s' /\ trap_effect cause true s s'
         else CheckPendingInterrupt s = Err Assert_failed
  end.
Proof.
  apply CheckPendingInterrupt_effect.
Qed.

Lemma cpu_ok_interrupts s p e :
  cpu_ok s -> in_u 64 p -> in_u 64 e -> cpu_ok (ApplyInterruptEnable (s <| mip_ := p |> <| mie_ := e |>)).
Proof.
  intros [[W S E] ? ? ? ?] Hp He. split; try done.
  apply ApplyInterruptEnable_ok; [| exact S].
  apply (words_mie (s <| mip_ := p |>)); [by apply words_mip | done].
Qed.

Lemma CheckPendingInterrupt_spec_witness :
  let s := sample_user <| mip_ := 0x200 |> <| mie_ := 0x200 |> in
  exists s', CheckPendingInterrupt (ApplyInterruptEnable s) = Ok (true, s') /\ privilege_ s' = SUPERVISOR_MODE.
Proof.
  intros s. assert (H : cpu_ok (ApplyInterruptEnable s)).
  { apply cpu_ok_interrupts; [exact sample_user_ok | decide_it | decide_it]. }
  pose proof (CheckPendingInterrupt_spec _ H) as HC.
  destruct HC as (_ & _ & s' & E & _ & T). exists s'. split; [exact E |]. exact (te_priv _ _ _ _ T).
Defined.

(** Setting a pending bit refreshes the MIE views, not the MIP views: the CSR
    still reads as before, and the next write to SIP (or UIP) rebuilds the pending
    register from that stale value, so an external interrupt can be lost. *)
Lemma SetInterruptPending_stale cause s :
  csr (SetInterruptPending cause s) MIP = csr s MIP /\ csr (SetInterruptPending cause s) SIP = csr s SIP.
Proof. split; unfold SetInterruptPending; by rewrite ApplyInterruptEnable_frame by csr_ne. Qed.

Lemma pending_interrupt_lost :
  let s := SetInterruptPending 9 (RiscvCpu 0 true) in
  mip_ s = 0x200 /\ mip_ (CsrsInstruction INST_CSRRS SIP 0 0 s) = 0.
Proof. split; vm_compute; reflexivity. Qed.

(** The previous-enable bit does not copy the enable bit when the trap comes from
    a lower mode. *)
Lemma trap_mpie_not_copied :
  exists s', Trap ECALL_UMODE false sample_user = Ok s' /\ Z.testbit (mstatus_ sample_user) 3 = false
    /\ Z.testbit (mstatus_ s') 7 = true.
Proof. eexists. split; [vm_compute; reflexivity | split; vm_compute; reflexivity]. Qed.
