(* ===== verification/LoadStore.v ===== *)
(** * RISCV_cpu.cc: memory accesses of the processor

    Address translation as the processor sets it up, loads, stores, atomic
    read-modify-writes and the instruction fetch, over any guest memory. *)

From S2P Require Import Prelude BitTools Memory Isa Pte Mmu Peripheral CpuState Csr Trap.
Import Cpu.

Section Accesses.
  Context {M : Type} `{GuestMemory M}.

(** A method that only changes the processor, and may fail. *)
Definition upd_res (f : Cpu.t -> res Cpu.t) : CPU M unit :=
  fun s => match f s.1 with Ok c => Ok (tt, (c, s.2)) | Err e => Err e end.

(** The mode whose rules a data access follows: MPRV substitutes MPP. *)
(* RISCV_cpu.cc:57-66 RiscvCpu::VirtualToPhysical *)
Definition effective_privilege (s : Cpu.t) : res PrivilegeMode :=
  let privilege := privilege_ s in
  if bool_decide (privilege = MACHINE_MODE) then
    let mprv := u32 (bitcrop (csr s MSTATUS) 1 17) in
    if mprv =? 1 then
      let mpp := u32 (bitcrop (csr s MSTATUS) 2 11) in
      IntToPrivilegeMode (s32 mpp)
    else mret privilege
  else mret privilege.

(* RISCV_cpu.cc:57-74 RiscvCpu::VirtualToPhysical *)
Definition VirtualToPhysical (virtual_address : Z) (write_access : bool) : CPU M Z :=
  upd (fun s => s <| mmu_ := Mmu.SetMxl (mxl_ s) (mmu_ s) |>);;
  s ← gets fst;
  privilege ← lift (effective_privilege s);
  upd (fun s => s <| mmu_ := Mmu.SetPrivilege privilege (mmu_ s) |>);;
  satp ← get_csr SATP;
  physical_address ← on_mmu (Mmu.VirtualToPhysical virtual_address satp write_access);
  mmu ← field mmu_;
  when (Mmu.GetPageFault mmu) (
    page_fault_ ::= true;;
    faulting_address_ ::= Mmu.GetFaultingAddress mmu);;
  mret physical_address.

(** [mem.ReadN(a)] and [mem.WriteN(a, v)]. *)
Definition Read (w : width) (a : Z) : CPU M Z := mem_get (fun m => mem_read w m a).
Definition Write (w : width) (a v : Z) : CPU M unit := mem_put (fun m => mem_write w m a v).

(** The byte loops; [offset] counts up from 0 to [width]. *)
(* RISCV_cpu.cc:137-142 RiscvCpu::LoadWd *)
Fixpoint load_bytes (physical_address : Z) (n : nat) (offset result : Z) : CPU M Z :=
  match n with
  | O => mret result
  | S n' =>
      loaded_byte ← Read W8 (u64 (physical_address + offset));
      load_bytes physical_address n' (offset + 1) (result .| u64 (loaded_byte <<. (offset * 8)))
  end.

(* RISCV_cpu.cc:129-145 RiscvCpu::LoadWd *)
Definition LoadWd (physical_address width : Z) : CPU M Z :=
  lift (assert_that ((1 <=? width) && (width <=? 8)));;
  if (width =? 4) && ((physical_address .& 3) =? 0) then Read W32 physical_address
  else if (width =? 8) && ((physical_address .& 7) =? 0) then Read W64 physical_address
  else load_bytes physical_address (Z.to_nat width) 0 0.

(* RISCV_cpu.cc:155-159 RiscvCpu::StoreWd *)
Fixpoint store_bytes (physical_address data : Z) (n : nat) (offset : Z) : CPU M unit :=
  match n with
  | O => mret tt
  | S n' =>
      Write W8 (u64 (physical_address + offset)) ((data >>. (offset * 8)) .& 0xFF);;
      store_bytes physical_address data n' (offset + 1)
  end.

(* RISCV_cpu.cc:147-160 RiscvCpu::StoreWd *)
Definition StoreWd (physical_address data width : Z) : CPU M unit :=
  lift (assert_that ((1 <=? width) && (width <=? 8)));;
  if (width =? 4) && ((physical_address .& 3) =? 0) then Write W32 physical_address (u32 data)
  else if (width =? 8) && ((physical_address .& 7) =? 0) then Write W64 physical_address data
  else store_bytes physical_address data (Z.to_nat width) 0.

(* RISCV_cpu.cc:471-493 RiscvCpu::GetLoadWidth *)
Definition GetLoadWidth (i : instruction) : res Z :=
  match i with
  | INST_LB | INST_LBU => Ok 1
  | INST_LH | INST_LHU => Ok 2
  | INST_LW | INST_LWU => Ok 4
  | INST_LD => Ok 8
  | _ => Err Assert_failed
  end.

(* RISCV_cpu.cc:526-545 RiscvCpu::GetStoreWidth *)
Definition GetStoreWidth (i : instruction) : res Z :=
  match i with
  | INST_SB => Ok 1
  | INST_SH => Ok 2
  | INST_SW => Ok 4
  | INST_SD => Ok 8
  | _ => Err Assert_failed
  end.

(* RISCV_cpu.cc:547-555 RiscvCpu::GetAccessWidth *)
Definition GetAccessWidth (width address : Z) : Z :=
  let burst_overflow := negb (u64 ((address .& 7) + width - 1) >>. 3 =? 0) in
  if burst_overflow then
    let mask := if width =? 2 then 1 else if width =? 4 then 3 else if width =? 8 then 7 else 0 in
    s32 (width - (address .& mask))
  else width.

(* RISCV_cpu.cc:495-524 RiscvCpu::LoadInstruction *)
Definition LoadInstruction (i : instruction) (rd rs1 imm12 : Z) : CPU M unit :=
  on_peripheral Peripheral.MemoryMappedValueUpdate;;
  a ← get_reg rs1;
  let source_address := u64 (a + imm12) in
  address ← VirtualToPhysical source_address false;
  fault ← field page_fault_;
  if fault : bool then upd_res (Trap LOAD_PAGE_FAULT kException)
  else
    width ← lift (GetLoadWidth i);
    let access_width := GetAccessWidth width address in
    let next_width := width - access_width in
    load_data ← LoadWd address access_width;
    let finish load_data :=
      let load_data :=
        match i with
        | INST_LB | INST_LH | INST_LW => SignExtend 64 load_data (width * 8)
        | INST_LWU => load_data .& 0xFFFFFFFF
        | _ => load_data
        end in
      on_device (Peripheral.CheckDeviceRead address width);;
      set_reg rd load_data in
    if 0 <? next_width then
      next_address ← VirtualToPhysical (u64 (address + access_width)) false;
      fault ← field page_fault_;
      if fault : bool then upd_res (Trap LOAD_PAGE_FAULT kException)
      else
        load_data_high ← LoadWd next_address next_width;
        finish (load_data .| u64 (load_data_high <<. (access_width * 8)))
    else finish load_data.

(* RISCV_cpu.cc:557-580 RiscvCpu::StoreInstruction *)
Definition StoreInstruction (i : instruction) (rd rs1 rs2 imm12_stype : Z) : CPU M unit :=
  a ← get_reg rs1;
  let dst_address := u64 (a + imm12_stype) in
  address ← VirtualToPhysical dst_address true;
  fault ← field page_fault_;
  if fault : bool then upd_res (Trap STORE_PAGE_FAULT kException)
  else
    width ← lift (GetStoreWidth i);
    let access_width := GetAccessWidth width dst_address in
    let next_width := width - access_width in
    b ← get_reg rs2;
    let data := b .& u64 (GenerateBitMask (access_width * 8)) in
    StoreWd address data access_width;;
    let finish := on_device (Peripheral.CheckDeviceWrite address width b) in
    if 0 <? next_width then
      next_address ← VirtualToPhysical (u64 (dst_address + access_width)) true;
      fault ← field page_fault_;
      if fault : bool then upd_res (Trap STORE_PAGE_FAULT kException)
      else
        let next_data := b >>. (access_width * 8) in
        StoreWd next_address next_data next_width;;
        finish
    else finish.

(* RISCV_cpu.cc:93-108 RiscvCpu::LoadCmd *)
Definition LoadCmd (pc : Z) : CPU M Z :=
  physical_address ← VirtualToPhysical pc false;
  let dram_address := u64 ((physical_address >>. 2) <<. 2) in
  cmd ← Read W32 dram_address;
  let cmd := if (pc .& 2) =? 2 then (cmd >>. 16) .& 0xFFFF else cmd in
  fault ← field page_fault_;
  cmd ←
    (if negb fault && ((pc .& 2) =? 2) && ((cmd .& 3) =? 3) then
       physical_address_upper ← VirtualToPhysical (u64 (pc + 2)) false;
       cmd_upper ← Read W32 (u64 ((physical_address_upper >>. 2) <<. 2));
       mret ((cmd .& 0xFFFF) .| u32 ((cmd_upper .& 0xFFFF) <<. 16))
     else mret cmd);
  mret (if (cmd .& 3) =? 3 then cmd else cmd .& 0xFFFF).

(* RISCV_cpu.cc:779-782 max *)
Definition max (a b : Z) : Z := if b <? a then a else b.
(* RISCV_cpu.cc:784-787 min *)
Definition min (a b : Z) : Z := if a <? b then a else b.

(* RISCV_cpu.cc:792-796 RiscvCpu::AmoInstruction *)
Definition amo_width (i : instruction) : Z :=
  match i with
  | INST_AMOADDD | INST_AMOANDD | INST_AMOMAXD | INST_AMOMAXUD | INST_AMOMIND | INST_AMOMINUD
  | INST_AMOORD | INST_AMOXORD | INST_AMOSWAPD => 8
  | _ => 4
  end.

(** The value written back, from the (sign-extended) old value and the operand. *)
(* RISCV_cpu.cc:801-862 RiscvCpu::AmoInstruction *)
Definition amo_value (i : instruction) (t b : Z) : res Z :=
  match i with
  | INST_AMOADDD => Ok (u64 (t + b))
  | INST_AMOADDW => Ok (SignExtend 64 (u64 (t + b)) 32)
  | INST_AMOANDD => Ok (t .& b)
  | INST_AMOANDW => Ok (SignExtend 64 (t .& b) 32)
  | INST_AMOMAXD => Ok (u64 (max (s64 t) (s64 b)))
  | INST_AMOMAXW => Ok (SignExtend 64 (u64 (max (s32 (SignExtend 64 t 32)) (s32 (SignExtend 64 b 32)))) 32)
  | INST_AMOMAXUD => Ok (max t b)
  | INST_AMOMAXUW => Ok (SignExtend 64 (max (u32 t) (u32 b)) 32)
  | INST_AMOMIND => Ok (u64 (min (s64 t) (s64 b)))
  | INST_AMOMINW => Ok (SignExtend 64 (u64 (min (s32 (SignExtend 64 t 32)) (s32 (SignExtend 64 b 32)))) 32)
  | INST_AMOMINUD => Ok (min t b)
  | INST_AMOMINUW => Ok (SignExtend 64 (min (u32 t) (u32 b)) 32)
  | INST_AMOORD => Ok (t .| b)
  | INST_AMOORW => Ok (SignExtend 64 (t .| b) 32)
  | INST_AMOXORD => Ok (t .^ b)
  | INST_AMOXORW => Ok (SignExtend 64 (t .^ b) 32)
  | INST_AMOSWAPD | INST_AMOSWAPW => Ok b
  | _ => Err Assert_failed
  end.

(* RISCV_cpu.cc:789-868 RiscvCpu::AmoInstruction *)
Definition AmoInstruction (i : instruction) (rd rs1 rs2 : Z) : CPU M unit :=
  virtual_address ← get_reg rs1;
  physical_address ← VirtualToPhysical virtual_address false;
  let word_width := amo_width i in
  t ← LoadWd physical_address word_width;
  let t := if word_width =? 4 then SignExtend 64 t 32 else t in
  b ← get_reg rs2;
  new_value ← lift (amo_value i t b);
  let kWriteAccess := true in
  physical_address ← VirtualToPhysical virtual_address kWriteAccess;
  StoreWd physical_address new_value word_width;;
  set_reg rd t.

(** The result ([true]: an interrupt became pending) is not used. *)
(* RISCV_cpu.cc:870-879 RiscvCpu::TimerTick *)
Definition TimerTick : CPU M bool :=
  on_peripheral Peripheral.TimerTick;;
  p ← field peripheral_;
  if Peripheral.GetTimerInterrupt p =? 0 then mret false
  else
    on_device Peripheral.ClearTimerInterrupt;;
    let kMachineTimerInterrupt := 7 in
    upd (SetInterruptPending kMachineTimerInterrupt);;
    mret true.

End Accesses.

(* ------------------------------------------------------------------ *)
(** ** Loads and stores of up to eight bytes *)

Lemma aligned_4 a : ((a .& 3) =? 0) = (a mod 4 =? 0).
Proof. change 3 with (Z.ones 2). by rewrite land_mask. Qed.

Lemma aligned_8 a : ((a .& 7) =? 0) = (a mod 8 =? 0).
Proof. change 7 with (Z.ones 3). by rewrite land_mask. Qed.

Lemma append_byte off res b :
  0 <= off <= 7 -> in_u (8 * off) res -> in_u 8 b ->
  res .| u64 (b <<. (off * 8)) = res + 2 ^ (8 * off) * b /\ in_u (8 * (off + 1)) (res + 2 ^ (8 * off) * b).
Proof.
  intros Ho Hr Hb.
  assert (Hp : 0 < 2 ^ (8 * off)) by (apply Z.pow_pos_nonneg; lia).
  assert (Hin : in_u (8 * (off + 1)) (res + 2 ^ (8 * off) * b)).
  { unfold in_u in *. replace (8 * (off + 1)) with (8 * off + 8) by lia. rewrite Z.pow_add_r by lia.
    change (2 ^ 8) with 256 in *. nia. }
  split; [| exact Hin]. rewrite (uint_small 64).
  - rewrite Z.lor_comm, lor_low by (lia || (replace (off * 8) with (8 * off) by lia; done)).
    replace (off * 8) with (8 * off) by lia. lia.
  - apply (in_u_mono (8 * (off + 1))); [lia |]. rewrite Z.shiftl_mul_pow2 by lia.
    replace (off * 8) with (8 * off) by lia. unfold in_u in *. nia.
Qed.

Section Words.
  Context {M : Type} `{GuestMemoryLaws M}.
  Implicit Types (s : Cpu.t) (m : M).

Lemma cpu_Read_run w a s m :
    mem_ok m -> in_u 64 a -> a mod Z.of_nat (nbytes w) = 0 ->
    Read w a (s, m) = Ok (ByteMem.load (nbytes w) (mem_byte m) a, (s, m)).
  Proof. intros Hm Ha Hal. unfold Read, mem_get. cbn [snd]. by rewrite mem_read_spec, Hal by done. Qed.

Lemma cpu_Write_run w a v s m :
    mem_ok m -> in_u 64 a -> in_u (nbits w) v -> a mod Z.of_nat (nbytes w) = 0 ->
    exists m', Write w a v (s, m) = Ok (tt, (s, m')) /\ mem_ok m' /\
      forall b, mem_byte m' b = ByteMem.store (nbytes w) (mem_byte m) a v b.
  Proof.
    intros Hm Ha Hv Hal. destruct (mem_write_spec w m a v) as (m' & E & ? & ?); try done.
    exists m'. split; [| done]. unfold Write, mem_put. cbn [fst snd]. by rewrite E.
  Qed.

Lemma wrap_mod32 a : u64 a mod 2 ^ 32 = a mod 2 ^ 32.
  Proof. exact (uint_le 32 64 a ltac:(lia)). Qed.

Lemma Read8_run a s m : mem_ok m -> Read W8 (u64 a) (s, m) = Ok (mem_byte m a, (s, m)).
  Proof.
    intros Hm. rewrite cpu_Read_run by (auto with rv; by rewrite Z.mod_1_r). do 2 f_equal.
    cbn [nbytes ByteMem.load]. rewrite Z.mul_0_r, Z.add_0_r.
    by rewrite <- (mem_byte_period m (u64 a)), wrap_mod32, mem_byte_period.
  Qed.

Lemma load_bytes_run pa s m n off res :
    mem_ok m -> 0 <= off -> off + Z.of_nat n <= 8 -> in_u (8 * off) res ->
    load_bytes pa n off res (s, m)
    = Ok (res + 2 ^ (8 * off) * ByteMem.load n (mem_byte m) (pa + off), (s, m)).
  Proof.
    intros Hm. revert off res. induction n as [|n IH]; intros off res Ho Hn Hr; cbn [load_bytes ByteMem.load].
    { unfold mret, st_ret. do 2 f_equal. lia. }
    rewrite (st_bind_run _ _ _ _ _ (Read8_run (pa + off) s m Hm)).
    destruct (append_byte off res (mem_byte m (pa + off))) as [-> Hin]; [lia | done | by apply mem_byte_range |].
    rewrite IH by (lia || done). do 2 f_equal. rewrite Z.add_assoc.
    replace (8 * (off + 1)) with (8 * off + 8) by lia. rewrite Z.pow_add_r by lia. change (2 ^ 8) with 256. lia.
  Qed.

  (** [LoadWd] reads [width] little-endian bytes, whatever the alignment. *)
Lemma LoadWd_run pa width s m :
    mem_ok m -> in_u 64 pa -> 1 <= width <= 8 ->
    LoadWd pa width (s, m) = Ok (ByteMem.load (Z.to_nat width) (mem_byte m) pa, (s, m)).
  Proof.
    intros Hm Ha Hw. unfold LoadWd.
    assert (assert_that ((1 <=? width) && (width <=? 8)) = Ok tt) as ->.
    { by destruct (Z.leb_spec 1 width), (Z.leb_spec width 8); try lia. }
    cbn [lift]. rewrite (st_bind_run _ _ _ tt (s, m)) by done.
    rewrite aligned_4, aligned_8.
    destruct (Z.eqb_spec width 4) as [-> | ]; cbn [andb].
    { destruct (Z.eqb_spec (pa mod 4) 0); [by apply (cpu_Read_run W32) |].
      change (4 =? 8) with false. cbn [andb]. rewrite load_bytes_run by (done || decide_it).
      rewrite Z.add_0_r. do 2 f_equal. lia. }
    destruct (Z.eqb_spec width 8) as [-> | ]; cbn [andb].
    { destruct (Z.eqb_spec (pa mod 8) 0); [by apply (cpu_Read_run W64) |].
      rewrite load_bytes_run by (done || decide_it). rewrite Z.add_0_r. do 2 f_equal. lia. }
    rewrite load_bytes_run by (done || decide_it || lia). rewrite Z.add_0_r. do 2 f_equal. lia.
  Qed.

Lemma store_byte f a v b : ByteMem.store 1 f (u64 a) (v .& 0xFF) b = ByteMem.store 1 f a v b.
  Proof using.
    rewrite (store_congr 1 f (u64 a) a) by apply (uint_le 32 64 a ltac:(lia)).
    unfold ByteMem.store. cbv zeta. destruct (Z.ltb_spec ((b - a) mod 2 ^ 32) (Z.of_nat 1)); [| done].
    assert ((b - a) mod 2 ^ 32 = 0) as -> by zlia. rewrite Z.mul_0_r, !Z.shiftr_0_r.
    change 0xFF with (Z.ones 8). rewrite land_mask by lia. by apply uint_uint.
  Qed.

Lemma store_bytes_run pa data s m n off :
    mem_ok m -> 0 <= off -> off + Z.of_nat n <= 8 ->
    exists m', store_bytes pa data n off (s, m) = Ok (tt, (s, m')) /\ mem_ok m' /\
      forall b, mem_byte m' b = ByteMem.store n (mem_byte m) (pa + off) (data >>. (8 * off)) b.
  Proof.
    revert off m. induction n as [|n IH]; intros off m Hm Ho Hn; cbn [store_bytes].
    { exists m. split; [done |]. split; [done |]. intros b. unfold ByteMem.store. cbv zeta.
      destruct (Z.ltb_spec ((b - (pa + off)) mod 2 ^ 32) (Z.of_nat 0)); [zlia | done]. }
    destruct (cpu_Write_run W8 (u64 (pa + off)) ((data >>. (off * 8)) .& 0xFF) s m Hm) as (m1 & E1 & Hm1 & Hb1);
      [auto with rv | change 0xFF with (Z.ones 8); rewrite land_mask by lia; apply uint_range; cbn; lia | by rewrite Z.mod_1_r |].
    rewrite (st_bind_run _ _ _ _ _ E1). destruct (IH (off + 1) m1 Hm1) as (m2 & E2 & Hm2 & Hb2); [lia | lia |].
    exists m2. split; [done |]. split; [done |]. intros b. rewrite Hb2.
    change (S n) with (1 + n)%nat. rewrite ByteMem.store_app by lia.
    rewrite Z.shiftr_shiftr by lia. replace (8 * off + 8 * Z.of_nat 1) with (8 * (off + 1)) by lia.
    replace (pa + off + Z.of_nat 1) with (pa + (off + 1)) by lia.
    apply ByteMem.store_ext. rewrite Hb1. cbn [nbytes]. rewrite store_byte. by replace (off * 8) with (8 * off) by lia.
  Qed.

(** A store of [n] bytes takes the low [8 n] bits of the value. *)
Lemma store_low n f a v v' b :
  eqm (8 * Z.of_nat n) v v' -> ByteMem.store n f a v b = ByteMem.store n f a v' b.
Proof using.
  intros E. rewrite eqm_bits in E by lia.
  unfold ByteMem.store. cbv zeta. destruct (Z.ltb_spec ((b - a) mod 2 ^ 32) (Z.of_nat n)) as [Hd|]; [| done].
  assert (0 <= (b - a) mod 2 ^ 32) by (apply Z.mod_pos_bound; lia).
  set (d := (b - a) mod 2 ^ 32) in *. clearbody d. apply Z.bits_inj'. intros i Hi.
  rewrite !testbit_uint, !Z.shiftr_spec by lia.
  destruct (Z.ltb_spec i 8); cbn; [apply E; lia | done].
Qed.

Lemma store_u32 f a v b : ByteMem.store 4 f a (u32 v) b = ByteMem.store 4 f a v b.
Proof using. apply store_low, uint_eqm. cbn. lia. Qed.

  (** [StoreWd] replaces [width] bytes, whatever the alignment. *)
Lemma StoreWd_run pa data width s m :
    mem_ok m -> in_u 64 pa -> in_u 64 data -> 1 <= width <= 8 ->
    exists m', StoreWd pa data width (s, m) = Ok (tt, (s, m')) /\ mem_ok m' /\
      forall b, mem_byte m' b = ByteMem.store (Z.to_nat width) (mem_byte m) pa data b.
  Proof.
    intros Hm Ha Hd Hw. unfold StoreWd.
    assert (assert_that ((1 <=? width) && (width <=? 8)) = Ok tt) as ->.
    { by destruct (Z.leb_spec 1 width), (Z.leb_spec width 8); try lia. }
    cbn [lift]. rewrite (st_bind_run _ _ _ tt (s, m)) by done. rewrite aligned_4, aligned_8.
    assert (Hbytes : exists m', store_bytes pa data (Z.to_nat width) 0 (s, m) = Ok (tt, (s, m')) /\ mem_ok m' /\
      forall b, mem_byte m' b = ByteMem.store (Z.to_nat width) (mem_byte m) pa data b).
    { destruct (store_bytes_run pa data s m (Z.to_nat width) 0) as (m' & E & Hm' & Hb); [done | lia | lia |].
      exists m'. split; [done |]. split; [done |]. intros b. by rewrite Hb, Z.add_0_r, Z.mul_0_r, Z.shiftr_0_r. }
    destruct (Z.eqb_spec width 4) as [-> | ]; cbn [andb].
    { destruct (Z.eqb_spec (pa mod 4) 0); [| exact Hbytes].
      destruct (cpu_Write_run W32 pa (u32 data) s m) as (m' & E & Hm' & Hb); [done | done | by apply uint_range | done |].
      exists m'. split; [done |]. split; [done |]. intros b. rewrite Hb. apply store_u32. }
    destruct (Z.eqb_spec width 8) as [-> | ]; cbn [andb]; [| exact Hbytes].
    destruct (Z.eqb_spec (pa mod 8) 0); [| exact Hbytes].
    exact (cpu_Write_run W64 pa data s m Hm Ha Hd e).
  Qed.
End Words.

(** An access is cut at a multiple of eight bytes. *)
Lemma GetAccessWidth_spec width address :
  width ∈ [1; 2; 4; 8] -> GetAccessWidth width address = Z.min width (8 - address mod 8).
Proof.
  intros Hw. unfold GetAccessWidth.
  assert (E7 : address .& 7 = address mod 8) by (change 7 with (Z.ones 3); by rewrite land_mask).
  assert (E3 : address .& 3 = (address mod 8) mod 4) by (change 3 with (Z.ones 2); rewrite land_mask by lia; unfold uint; zlia).
  assert (E1 : address .& 1 = (address mod 8) mod 2) by (change 1 with (Z.ones 1); rewrite land_mask by lia; unfold uint; zlia).
  rewrite E7. cbv zeta. pose proof (Z.mod_pos_bound address 8 ltac:(lia)) as Hk.
  assert (Hc : address mod 8 = 0 \/ address mod 8 = 1 \/ address mod 8 = 2 \/ address mod 8 = 3
    \/ address mod 8 = 4 \/ address mod 8 = 5 \/ address mod 8 = 6 \/ address mod 8 = 7) by lia.
  rewrite !elem_of_cons, elem_of_nil in Hw.
  destruct Hw as [-> | [-> | [-> | [-> | []]]]]; cbn [Z.eqb Pos.eqb]; rewrite ?Z.land_0_r, ?E7, ?E3, ?E1; clear -Hc;
    destruct Hc as [-> | [-> | [-> | [-> | [-> | [-> | [-> | ->]]]]]]]; reflexivity.
Qed.

Lemma GetLoadWidth_cases i w : GetLoadWidth i = Ok w -> w ∈ [1; 2; 4; 8].
Proof. destruct i; intros [= <-]; rewrite !elem_of_cons; tauto. Qed.
Lemma GetStoreWidth_cases i w : GetStoreWidth i = Ok w -> w ∈ [1; 2; 4; 8].
Proof. destruct i; intros [= <-]; rewrite !elem_of_cons; tauto. Qed.

Lemma width_bounds w : w ∈ [1; 2; 4; 8] -> 1 <= w <= 8.
Proof. rewrite !elem_of_cons, elem_of_nil. intros [-> | [-> | [-> | [-> | []]]]]; lia. Qed.

Lemma access_bounds w a : w ∈ [1; 2; 4; 8] -> 1 <= GetAccessWidth w a <= w.
Proof.
  intros Hw. rewrite GetAccessWidth_spec by done. pose proof (width_bounds w Hw).
  pose proof (Z.mod_pos_bound a 8). lia.
Qed.

(** The two halves of a split load. *)
Lemma join_halves lo hi k n :
  0 <= k -> 0 <= n -> k + n <= 8 -> in_u (8 * k) lo -> in_u (8 * n) hi ->
  lo .| u64 (hi <<. (k * 8)) = lo + 2 ^ (8 * k) * hi.
Proof.
  intros Hk Hn Hs Hlo Hhi. replace (k * 8) with (8 * k) by lia. rewrite (uint_small 64).
  - rewrite Z.lor_comm, lor_low by (lia || done). lia.
  - apply (in_u_mono (8 * (k + n))); [lia |]. rewrite Z.shiftl_mul_pow2 by lia. unfold in_u in *.
    replace (8 * (k + n)) with (8 * n + 8 * k) by lia. rewrite Z.pow_add_r by lia.
    assert (0 < 2 ^ (8 * k)) by (apply Z.pow_pos_nonneg; lia). nia.
Qed.

(** What a load leaves in the register. *)
Definition load_value (i : instruction) (v : Z) : Z :=
  match i with
  | INST_LB => u64 (sint 8 v)
  | INST_LH => u64 (sint 16 v)
  | INST_LW => u64 (sint 32 v)
  | _ => v
  end.

Lemma load_value_ok i w v :
  GetLoadWidth i = Ok w -> in_u (8 * w) v ->
  match i with
  | INST_LB | INST_LH | INST_LW => SignExtend 64 v (w * 8)
  | INST_LWU => v .& 0xFFFFFFFF
  | _ => v
  end = load_value i v.
Proof.
  intros Hw Hv. destruct i; try discriminate; injection Hw as <-; try done; cbn [load_value Z.mul Pos.mul];
    try (apply SignExtend_spec; lia).
  change 0xFFFFFFFF with (Z.ones 32). rewrite land_mask by lia. by apply uint_small.
Qed.

Section Bare.
  Context {M : Type} `{GuestMemoryLaws M}.
  Implicit Types (s : Cpu.t) (m : M).

  (** No translation: machine mode without MPRV, and no fault pending. *)
Definition bare (s : Cpu.t) : Prop :=
    privilege_ s = MACHINE_MODE /\ Z.testbit (csr s MSTATUS) 17 = false /\ page_fault_ s = false.

Definition bare_mmu (s : Cpu.t) : Cpu.t :=
    s <| mmu_ := Mmu.set_fault false 0 (Mmu.SetPrivilege MACHINE_MODE (Mmu.SetMxl (mxl_ s) (mmu_ s))) |>.

Lemma VirtualToPhysical_bare va w s m :
    bare s -> VirtualToPhysical va w (s, m) = Ok (va, (bare_mmu s, m)).
  Proof.
    intros (Hp & Hm & _). unfold VirtualToPhysical.
    rewrite (st_bind_run _ _ _ tt (s <| mmu_ := Mmu.SetMxl (mxl_ s) (mmu_ s) |>, m)) by done.
    set (s1 := s <| mmu_ := _ |>). rewrite (st_bind_run _ _ _ s1 (s1, m)) by done.
    assert (effective_privilege s1 = Ok MACHINE_MODE) as ->.
    { unfold effective_privilege. change (privilege_ s1) with (privilege_ s). change (csr s1) with (csr s).
      rewrite Hp, bit_crop, Hm by lia. done. }
    subst s1. reflexivity.
  Qed.

  (** What the interrupts of the next turns depend on. *)
Definition alarms (s : Cpu.t) :=
    (mie_ s, mip_ s, (virtio_interrupt_ s, uart_interrupt_ s), timer (peripheral_ s)).

  (** The members that decide how the next instructions run. *)
Definition settings (s : Cpu.t) :=
    (xlen_ s, mxl_ s, privilege_ s, mstatus_ s, alarms s,
     (host_emulation_ s, peripheral_emulation_ s, ecall_emulation_ s, error_flag_ s, end_flag_ s, page_fault_ s),
     (prev_page_fault_ s, prev_faulting_address_ s), disable_machine_interrupt_delegation_ s).

Lemma settings_alarms s s' : settings s' = settings s -> alarms s' = alarms s.
  Proof using. unfold settings. generalize (alarms s) (alarms s'). intros a a' E. by injection E. Qed.

Lemma settings_device c p :
    timer p = timer (peripheral_ c) -> settings (c <| peripheral_ := p |>) = settings c.
  Proof using. intros E. unfold settings, alarms. rsimpl. by rewrite E. Qed.

Lemma bare_bare_mmu s : bare s -> bare (bare_mmu s).
  Proof using. done. Qed.

Lemma MemoryMappedValueUpdate_run s m :
    mem_ok m -> in_u 64 (Peripheral.elapsed_cycles_ (peripheral_ s)) ->
    exists m', on_peripheral Peripheral.MemoryMappedValueUpdate (s, m) = Ok (tt, (s, m')) /\ mem_ok m'
      /\ forall b, mem_byte m' b
           = ByteMem.store 8 (mem_byte m) Peripheral.kTimerMtime (Peripheral.elapsed_cycles_ (peripheral_ s)) b.
  Proof.
    intros Hm He. destruct (mem_write_spec W64 m Peripheral.kTimerMtime (Peripheral.elapsed_cycles_ (peripheral_ s)))
      as (m' & E & Hm' & Hb); [done | decide_it | done | done |].
    exists m'. split; [| done]. unfold on_peripheral, zoom, Peripheral.MemoryMappedValueUpdate, Peripheral.Write, mem_put,
      mbind, st_bind, field. cbn [fst snd]. rewrite E. by destruct s.
  Qed.

Lemma load_bare i rd rs1 imm w s m :
    bare s -> mem_ok m -> in_u 64 (Peripheral.elapsed_cycles_ (peripheral_ s)) ->
    GetLoadWidth i = Ok w ->
    let a := u64 (reg s rs1 + imm) in
    exists s' m', LoadInstruction i rd rs1 imm (s, m) = Ok (tt, (s', m'))
      /\ mem_ok m' /\ bare s'
      /\ (forall b, mem_byte m' b
            = ByteMem.store 8 (mem_byte m) Peripheral.kTimerMtime (Peripheral.elapsed_cycles_ (peripheral_ s)) b)
      /\ reg_ s' = zset (reg_ s) rd (load_value i (ByteMem.load (Z.to_nat w) (mem_byte m') a))
      /\ csrs_ s' = csrs_ s /\ pc_ s' = pc_ s /\ next_pc_ s' = next_pc_ s /\ settings s' = settings s.
  Proof.
    intros Hb Hm He Hw a. pose proof (GetLoadWidth_cases i w Hw) as Hc. pose proof (width_bounds w Hc) as Hwb.
    pose proof (access_bounds w a Hc) as Hac.
    unfold LoadInstruction.
    destruct (MemoryMappedValueUpdate_run s m Hm He) as (m' & E & Hm' & Hbytes). rewrite (st_bind_run _ _ _ _ _ E).
    rewrite (st_bind_run _ _ _ (reg s rs1) (s, m')) by done. cbv zeta. fold a.
    rewrite (st_bind_run _ _ _ _ _ (VirtualToPhysical_bare a false s m' Hb)).
    rewrite (st_bind_run _ _ _ false (bare_mmu s, m')) by (unfold field; cbn [fst]; by destruct Hb as (_ & _ & <-)).
    rewrite Hw. cbn [lift]. rewrite (st_bind_run _ _ _ w (bare_mmu s, m')) by done.
    set (k := GetAccessWidth w a) in *.
    assert (Ha : in_u 64 a) by (apply uint_range; lia).
    rewrite (st_bind_run _ _ _ _ _ (LoadWd_run a k (bare_mmu s) m' Hm' Ha ltac:(lia))).
    set (v := ByteMem.load (Z.to_nat w) (mem_byte m') a).
    assert (Hv : in_u (8 * w) v).
    { replace (8 * w) with (8 * Z.of_nat (Z.to_nat w)) by lia. by apply mem_load_range. }
    pose proof (load_value_ok i w v Hw Hv) as Hval.
    assert (Hfin : forall c, bare c -> reg_ c = reg_ s -> csrs_ c = csrs_ s -> pc_ c = pc_ s -> next_pc_ c = next_pc_ s ->
      settings c = settings s -> forall lo, lo = v -> exists s' m1, (on_device (Peripheral.CheckDeviceRead a w);;
        set_reg rd (match i with
          | INST_LB | INST_LH | INST_LW => SignExtend 64 lo (w * 8) | INST_LWU => lo .& 0xFFFFFFFF | _ => lo end))
        (c, m') = Ok (tt, (s', m1)) /\ m1 = m' /\ bare s' /\ reg_ s' = zset (reg_ s) rd (load_value i v)
        /\ csrs_ s' = csrs_ s /\ pc_ s' = pc_ s /\ next_pc_ s' = next_pc_ s /\ settings s' = settings s).
    { intros c Hbc Hr H1 H2 H3 H4 lo ->. rewrite Hval. eexists _, m'. split; [reflexivity |].
      rewrite <- Hr, <- H1, <- H2, <- H3, <- H4. split; [done |]. split; [apply Hbc |].
      repeat (split; [done |]). apply settings_device, CheckDeviceRead_timer. }
    assert (Hb1 : bare (bare_mmu s)) by done.
    destruct (Z.ltb_spec 0 (w - k)) as [Hlt | Hge].
    - rewrite (st_bind_run _ _ _ _ _ (VirtualToPhysical_bare _ false _ m' Hb1)).
      rewrite (st_bind_run _ _ _ false (bare_mmu (bare_mmu s), m')) by (unfold field; cbn [fst]; by destruct Hb as (_ & _ & <-)).
      rewrite (st_bind_run _ _ _ _ _ (LoadWd_run (u64 (a + k)) (w - k) _ m' Hm' ltac:(apply uint_range; lia) ltac:(lia))).
      destruct (Hfin (bare_mmu (bare_mmu s)) Hb1 eq_refl eq_refl eq_refl eq_refl eq_refl
        (ByteMem.load (Z.to_nat k) (mem_byte m') a .| u64 (ByteMem.load (Z.to_nat (w - k)) (mem_byte m') (u64 (a + k)) <<. (k * 8))))
        as (s' & m1 & E1 & -> & ? & ? & ? & ? & ? & ?); [| exists s', m'; by rewrite E1].
      rewrite (join_halves _ _ k (w - k)) by (lia ||
        (replace (8 * k) with (8 * Z.of_nat (Z.to_nat k)) by lia; by apply mem_load_range) ||
        (replace (8 * (w - k)) with (8 * Z.of_nat (Z.to_nat (w - k))) by lia; by apply mem_load_range)).
      subst v. replace (Z.to_nat w) with (Z.to_nat k + Z.to_nat (w - k))%nat by lia. rewrite ByteMem.load_app.
      rewrite !Z2Nat.id by lia. rewrite Z.pow_mul_r by lia. change (2 ^ 8) with 256. do 2 f_equal.
      apply mem_load_congr. exact (uint_le 32 64 (a + k) ltac:(lia)).
    - assert (k = w) as Hk by lia.
      destruct (Hfin (bare_mmu s) Hb1 eq_refl eq_refl eq_refl eq_refl eq_refl (ByteMem.load (Z.to_nat k) (mem_byte m') a))
        as (s' & m1 & E1 & -> & ? & ? & ? & ? & ? & ?); [by rewrite Hk |]. exists s', m'. by rewrite E1.
Qed.

(** The mask of a store covers the bytes it stores. *)
Lemma store_mask k b : 1 <= k <= 8 -> eqm (8 * k) (b .& u64 (GenerateBitMask (k * 8))) b.
Proof using.
  intros Hk.
  assert (E : eqm (8 * k) (u64 (GenerateBitMask (k * 8))) (-1)).
  { assert (Hc : k = 1 \/ k = 2 \/ k = 3 \/ k = 4 \/ k = 5 \/ k = 6 \/ k = 7 \/ k = 8) by lia.
    destruct Hc as [-> | [-> | [-> | [-> | [-> | [-> | [-> | ->]]]]]]]; vm_compute; reflexivity. }
  rewrite E. by rewrite Z.land_m1_r.
Qed.

Lemma store_bare i rd rs1 rs2 imm w s m :
  bare s -> mem_ok m -> in_u 64 (reg s rs2) -> GetStoreWidth i = Ok w ->
  let a := u64 (reg s rs1 + imm) in
  exists s' m', StoreInstruction i rd rs1 rs2 imm (s, m) = Ok (tt, (s', m'))
    /\ mem_ok m' /\ bare s'
    /\ (forall b, mem_byte m' b = ByteMem.store (Z.to_nat w) (mem_byte m) a (reg s rs2) b)
    /\ reg_ s' = reg_ s /\ csrs_ s' = csrs_ s /\ pc_ s' = pc_ s /\ next_pc_ s' = next_pc_ s
    /\ peripheral_ s' = Peripheral.CheckDeviceWrite a w (reg s rs2) (peripheral_ s) /\ settings s' = settings s.
Proof.
  intros Hb Hm Hd Hw a. pose proof (GetStoreWidth_cases i w Hw) as Hc. pose proof (width_bounds w Hc) as Hwb.
  pose proof (access_bounds w a Hc) as Hac.
  assert (Ha : in_u 64 a) by (apply uint_range; lia).
  unfold StoreInstruction. rewrite (st_bind_run _ _ _ (reg s rs1) (s, m)) by done. cbv zeta. fold a.
  rewrite (st_bind_run _ _ _ _ _ (VirtualToPhysical_bare a true s m Hb)).
  rewrite (st_bind_run _ _ _ false (bare_mmu s, m)) by (unfold field; cbn [fst]; by destruct Hb as (_ & _ & <-)).
  rewrite Hw. cbn [lift]. rewrite (st_bind_run _ _ _ w (bare_mmu s, m)) by done.
  set (k := GetAccessWidth w a) in *.
  rewrite (st_bind_run _ _ _ (reg s rs2) (bare_mmu s, m)) by done. set (v := reg s rs2) in *.
  destruct (StoreWd_run a (v .& u64 (GenerateBitMask (k * 8))) k (bare_mmu s) m Hm Ha) as (m1 & E1 & Hm1 & Hb1);
    [auto with rv | lia |]. rewrite (st_bind_run _ _ _ _ _ E1).
  assert (Hfirst : forall b, mem_byte m1 b = ByteMem.store (Z.to_nat k) (mem_byte m) a v b).
  { intros b. rewrite Hb1. apply store_low. rewrite Z2Nat.id by lia. apply store_mask. lia. }
  assert (Hb2 : bare (bare_mmu s)) by done.
  destruct (Z.ltb_spec 0 (w - k)) as [Hlt | Hge].
  - rewrite (st_bind_run _ _ _ _ _ (VirtualToPhysical_bare _ true _ m1 Hb2)).
    rewrite (st_bind_run _ _ _ false (bare_mmu (bare_mmu s), m1)) by (unfold field; cbn [fst]; by destruct Hb as (_ & _ & <-)).
    destruct (StoreWd_run (u64 (a + k)) (v >>. (k * 8)) (w - k) (bare_mmu (bare_mmu s)) m1 Hm1) as (m2 & E2 & Hm2 & Hb3);
      [auto with rv | apply in_u_shiftr; [lia | done] | lia |]. rewrite (st_bind_run _ _ _ _ _ E2).
    eexists _, m2. split; [reflexivity |]. split; [done |]. split; [done |]. split; [| repeat (split; [done |]); apply (settings_device (bare_mmu (bare_mmu s))), CheckDeviceWrite_timer].
    intros b. rewrite Hb3. rewrite (store_congr _ _ (u64 (a + k)) (a + k)) by exact (uint_le 32 64 (a + k) ltac:(lia)).
    replace (Z.to_nat w) with (Z.to_nat k + Z.to_nat (w - k))%nat by lia. rewrite ByteMem.store_app by lia.
    rewrite Z2Nat.id by lia. replace (k * 8) with (8 * k) by lia. by apply ByteMem.store_ext.
  - replace w with k by lia. eexists _, m1. split; [reflexivity |]. split; [done |]. split; [done |].
    split; [exact Hfirst | repeat (split; [done |]); apply (settings_device (bare_mmu s)), CheckDeviceWrite_timer].
Qed.

(** ** Properties *)

(** C19: in machine mode without address translation a load instruction of any
    width and alignment, also one that crosses a multiple of eight bytes, writes to
    [rd] the little-endian value at [rs1 + imm], sign- or zero-extended as the
    instruction asks; memory changes only in that MTIME is refreshed first, and no
    CSR, program counter, mode or flag changes. *)
Theorem LoadInstruction_refines (i : instruction) (rd rs1 imm w : Z) (s : Cpu.t) (m : M) :
  bare s -> mem_ok m -> in_u 64 (Peripheral.elapsed_cycles_ (peripheral_ s)) -> GetLoadWidth i = Ok w ->
  let a := u64 (reg s rs1 + imm) in
  exists s' m', LoadInstruction i rd rs1 imm (s, m) = Ok (tt, (s', m'))
    /\ mem_ok m' /\ bare s'
    /\ (forall b, mem_byte m' b
          = ByteMem.store 8 (mem_byte m) Peripheral.kTimerMtime (Peripheral.elapsed_cycles_ (peripheral_ s)) b)
    /\ reg_ s' = zset (reg_ s) rd (load_value i (ByteMem.load (Z.to_nat w) (mem_byte m') a))
    /\ csrs_ s' = csrs_ s /\ pc_ s' = pc_ s /\ next_pc_ s' = next_pc_ s /\ settings s' = settings s.
Proof. apply load_bare. Qed.

(** C20: likewise a store instruction replaces exactly the bytes of its width at
    [rs1 + imm], tells the devices, and changes no register. *)
Theorem StoreInstruction_refines (i : instruction) (rd rs1 rs2 imm w : Z) (s : Cpu.t) (m : M) :
  bare s -> mem_ok m -> in_u 64 (reg s rs2) -> GetStoreWidth i = Ok w ->
  let a := u64 (reg s rs1 + imm) in
  exists s' m', StoreInstruction i rd rs1 rs2 imm (s, m) = Ok (tt, (s', m'))
    /\ mem_ok m' /\ bare s'
    /\ (forall b, mem_byte m' b = ByteMem.store (Z.to_nat w) (mem_byte m) a (reg s rs2) b)
    /\ reg_ s' = reg_ s /\ csrs_ s' = csrs_ s /\ pc_ s' = pc_ s /\ next_pc_ s' = next_pc_ s
    /\ peripheral_ s' = Peripheral.CheckDeviceWrite a w (reg s rs2) (peripheral_ s) /\ settings s' = settings s.
Proof. apply store_bare. Qed.

(** The bytes an access touches are not those of the MTIME register. *)
Definition apart (a w : Z) : Prop := forall k, 0 <= k < w -> 8 <= (a + k - Peripheral.kTimerMtime) mod 2 ^ 32.

(** C33: a load executed after a store of the same width to the same address (not
    the MTIME register) returns the stored value, extended as the load asks, at
    every alignment. *)
Theorem store_load_roundtrip (st ld : instruction) (rd rs1 rs2 imm w : Z) (s : Cpu.t) (m : M) :
  bare s -> mem_ok m -> in_u 64 (reg s rs2) -> in_u 64 (Peripheral.elapsed_cycles_ (peripheral_ s)) ->
  GetStoreWidth st = Ok w -> GetLoadWidth ld = Ok w -> apart (u64 (reg s rs1 + imm)) w ->
  exists s' m', (StoreInstruction st 0 rs1 rs2 imm;; LoadInstruction ld rd rs1 imm) (s, m) = Ok (tt, (s', m'))
    /\ reg s' rd = load_value ld (uint (8 * w) (reg s rs2)).
Proof.
  intros Hb Hm Hv He Hst Hld Hap. pose proof (width_bounds w (GetStoreWidth_cases st w Hst)) as Hw.
  destruct (store_bare st 0 rs1 rs2 imm w s m Hb Hm Hv Hst) as (s1 & m1 & E1 & Hm1 & Hb1 & Hbytes1 & Hr1 & _ & _ & _ & Hp1 & _).
  rewrite (st_bind_run _ _ _ _ _ E1).
  assert (He1 : in_u 64 (Peripheral.elapsed_cycles_ (peripheral_ s1))).
  { rewrite Hp1. unfold Peripheral.CheckDeviceWrite. repeat case_match; exact He. }
  assert (Ha : reg s1 rs1 = reg s rs1) by (unfold reg; by rewrite Hr1).
  destruct (load_bare ld rd rs1 imm w s1 m1 Hb1 Hm1 He1 Hld) as (s2 & m2 & E2 & _ & _ & Hbytes2 & Hr2 & _).
  exists s2, m2. split; [exact E2 |]. unfold reg at 1. rewrite Hr2, zget_zset_eq, Ha. f_equal.
  set (a := u64 (reg s rs1 + imm)) in *.
  transitivity (ByteMem.load (Z.to_nat w) (ByteMem.store (Z.to_nat w) (mem_byte m) a (reg s rs2)) a).
  - apply ByteMem.load_ext. intros b Hbd. rewrite Hbytes2. unfold ByteMem.store at 1. cbv zeta.
    specialize (Hap (b - a) ltac:(lia)). replace (a + (b - a)) with b in Hap by lia.
    destruct (Z.ltb_spec ((b - Peripheral.kTimerMtime) mod 2 ^ 32) (Z.of_nat 8)); [lia | apply Hbytes1].
  - rewrite ByteMem.load_store_same by lia. f_equal. lia.
Qed.
End Bare.

(** An access is split so that neither part crosses a multiple of eight bytes:
    the first part has at least one byte and ends at the boundary (or at the end of
    the access), the rest starts there. *)
Theorem GetAccessWidth_splits (width address : Z) :
  width ∈ [1; 2; 4; 8] -> 0 <= address ->
  let k := GetAccessWidth width address in
  1 <= k <= width /\ address / 8 = (address + k - 1) / 8
  /\ (k < width -> (address + k) mod 8 = 0 /\ (address + k) / 8 = (address + width - 1) / 8).
Proof.
  intros Hw Ha k. pose proof (width_bounds width Hw). subst k. rewrite GetAccessWidth_spec by done.
  split; [zlia |]. split; [zlia |]. zlia.
Qed.

Lemma GetAccessWidth_splits_witness : GetAccessWidth 4 0x1006 = 2 /\ (0x1006 + 2) mod 8 = 0.
Proof.
  destruct (GetAccessWidth_splits 4 0x1006 ltac:(decide_it) ltac:(lia)) as (_ & _ & H).
  split; [reflexivity | exact (proj1 (H eq_refl))].
Defined.

(** *** Witnesses *)

Lemma sample_bare : bare (put_reg 2 0x1122334455667788 (put_reg 1 0x2003 (RiscvCpu 0 true))).
Proof. repeat split. Qed.

Lemma init_mem_ok : mem_ok (M := MemoryWrapper.t) MemoryWrapper.MemoryWrapper.
Proof. exact MemoryWrapper_init_ok. Qed.

Lemma LoadInstruction_refines_witness :
  exists s' m', LoadInstruction INST_LD 5 1 2 (put_reg 1 0x2003 (RiscvCpu 0 true), MemoryWrapper.MemoryWrapper)
    = Ok (tt, (s', m')) /\ pc_ s' = 0.
Proof.
  destruct (LoadInstruction_refines INST_LD 5 1 2 8 (put_reg 1 0x2003 (RiscvCpu 0 true)) MemoryWrapper.MemoryWrapper
    ltac:(repeat split) init_mem_ok ltac:(decide_it) eq_refl) as (s' & m' & E & _ & _ & _ & _ & _ & H & _).
  exists s', m'. split; [exact E | exact H].
Defined.

Lemma StoreInstruction_refines_witness :
  exists s' m', StoreInstruction INST_SW 0 1 2 4
      (put_reg 2 0x1122334455667788 (put_reg 1 0x2003 (RiscvCpu 0 true)), MemoryWrapper.MemoryWrapper)
    = Ok (tt, (s', m')) /\ pc_ s' = 0.
Proof.
  destruct (StoreInstruction_refines INST_SW 0 1 2 4 4 _ MemoryWrapper.MemoryWrapper
    sample_bare init_mem_ok ltac:(decide_it) eq_refl) as (s' & m' & E & _ & _ & _ & _ & _ & H & _).
  exists s', m'. split; [exact E | exact H].
Defined.

Lemma store_load_roundtrip_witness :
  exists s' m', (StoreInstruction INST_SD 0 1 2 0;; LoadInstruction INST_LD 5 1 0)
      (put_reg 2 0x1122334455667788 (put_reg 1 0x2003 (RiscvCpu 0 true)), MemoryWrapper.MemoryWrapper)
    = Ok (tt, (s', m')) /\ reg s' 5 = 0x1122334455667788.
Proof.
  destruct (store_load_roundtrip INST_SD INST_LD 5 1 2 0 8 _ MemoryWrapper.MemoryWrapper
    sample_bare init_mem_ok ltac:(decide_it) ltac:(decide_it) eq_refl eq_refl) as (s' & m' & E & H).
  - intros k Hk. change (u64 _) with 0x2003. change Peripheral.kTimerMtime with 0x200bff8. zlia.
  - exists s', m'. split; [exact E | exact H].
Defined.
