(* ===== verification/Cpu.v ===== *)
(** * RISCV_cpu.cc: instruction execution and the main loop

    System calls and system instructions, the dispatch of [RunCpu], one turn of
    its loop ([step]) and the loop itself ([RunCpu], with fuel).  The trace and
    register dumps of a verbose run are output and are not modelled. *)

From S2P Require Import Prelude BitTools Memory Isa Encdec Decode Pte Mmu Peripheral Syscall CpuState Alu Csr Trap LoadStore.
Import Cpu.

Section Execution.
  Context {M : Type} `{GuestMemory M} `{HostOs M}.

(** The registers, the break and the open-file count are what the system calls
    work on. *)
(* RISCV_cpu.cc:127-127 RiscvCpu::SystemCall *)
Definition SystemCall : CPU M (bool * bool) :=
  top ← field top_;
  zoom (fun s => (Syscall.mk (reg_ s.1) (brk_ s.1) (openHandles s.1), s.2))
       (fun t s => (s.1 <| reg_ := Syscall.reg t.1 |> <| brk_ := Syscall.brk t.1 |>
                        <| openHandles := Syscall.openHandles t.1 |>, t.2))
       (Syscall.SystemCallEmulation top).

(* RISCV_cpu.cc:582-606 RiscvCpu::SystemInstruction *)
Definition SystemInstruction (i : instruction) (rd imm : Z) : CPU M unit :=
  if imm =? 0 then
    emulation ← field ecall_emulation_;
    if emulation : bool then
      '(error, end_) ← SystemCall;
      error_flag_ ::= error;;
      end_flag_ ::= end_
    else upd_res Ecall
  else if imm =? 1 then mret tt
  else if imm =? 0x302 then upd_res Mret
  else if imm =? 0x102 then upd_res Sret
  else if ((imm >>. 5) =? 9) && (rd =? 0) then mret tt
  else error_flag_ ::= true.

(* RISCV_cpu.cc:1014-1020 RiscvCpu::RunCpu *)
Definition Jal (rd imm : Z) : CPU M unit :=
  next ← field next_pc_;
  set_reg rd next;;
  pc ← field pc_;
  next_pc_ ::= u64 (pc + imm);;
  next ← field next_pc_;
  when (next =? pc) (error_flag_ ::= true).

(* RISCV_cpu.cc:1021-1030 RiscvCpu::RunCpu *)
Definition Jalr (rd rs1 imm : Z) : CPU M unit :=
  t ← field next_pc_;
  a ← get_reg rs1;
  next_pc_ ::= u64 (a + imm) .& ~64 1;;
  set_reg rd t;;
  a ← get_reg rs1;
  when ((rd =? ZERO) && (rs1 =? RA) && (a =? 0) && (imm =? 0)) (end_flag_ ::= true).

(** LUI and AUIPC: the upper immediate, added to [base]. *)
(* RISCV_cpu.cc:1046-1059 RiscvCpu::RunCpu *)
Definition UpperImmediate (rd base imm : Z) : CPU M unit :=
  xlen ← field xlen_;
  let temp64 := u64 (base + imm) in
  set_reg rd (if xlen =? 32 then Sext32bit temp64 else temp64).

(* RISCV_cpu.cc:994-1005 RiscvCpu::RunCpu *)
Definition SetCompare (i : instruction) (rd rs1 rs2 imm : Z) : CPU M unit :=
  a ← get_reg rs1; b ← get_reg rs2;
  set_reg rd (compare_result i a b imm).

(** The [switch] of the main loop. *)
(* RISCV_cpu.cc:962-1116 RiscvCpu::RunCpu *)
Definition execute (i : instruction) (csr_index rd rs1 rs2 imm : Z) : CPU M unit :=
  match i with
  | INST_ADD | INST_ADDW | INST_AND | INST_SUB | INST_SUBW | INST_OR | INST_XOR | INST_SLL
  | INST_SLLW | INST_SRL | INST_SRLW | INST_SRA | INST_SRAW => OperationInstruction i rd rs1 rs2
  | INST_ADDI | INST_ADDIW | INST_ANDI | INST_ORI | INST_XORI => ImmediateInstruction i rd rs1 imm
  | INST_SLLI | INST_SLLIW | INST_SRLI | INST_SRLIW | INST_SRAI | INST_SRAIW =>
      ImmediateShiftInstruction i rd rs1 (u32 imm)
  | INST_SLT | INST_SLTU | INST_SLTI | INST_SLTIU => SetCompare i rd rs1 rs2 imm
  | INST_BEQ | INST_BGE | INST_BGEU | INST_BLT | INST_BLTU | INST_BNE =>
      next ← BranchInstruction i rs1 rs2 imm; next_pc_ ::= next
  | INST_JAL => Jal rd imm
  | INST_JALR => Jalr rd rs1 imm
  | INST_LB | INST_LBU | INST_LH | INST_LHU | INST_LW | INST_LWU | INST_LD => LoadInstruction i rd rs1 imm
  | INST_SB | INST_SH | INST_SW | INST_SD => StoreInstruction i rd rs1 rs2 imm
  | INST_LUI => UpperImmediate rd 0 imm
  | INST_AUIPC => pc ← field pc_; UpperImmediate rd pc imm
  | INST_SYSTEM => SystemInstruction i rd imm
  | INST_CSRRC | INST_CSRRCI | INST_CSRRS | INST_CSRRSI | INST_CSRRW | INST_CSRRWI =>
      upd (CsrsInstruction i csr_index rd rs1)
  | INST_FENCE | INST_FENCEI => mret tt
  | INST_MUL | INST_MULH | INST_MULHSU | INST_MULHU | INST_MULW | INST_DIV | INST_DIVU | INST_DIVUW
  | INST_DIVW | INST_REM | INST_REMU | INST_REMUW | INST_REMW => MultInstruction i rd rs1 rs2
  | INST_AMOADDD | INST_AMOADDW | INST_AMOANDD | INST_AMOANDW | INST_AMOMAXD | INST_AMOMAXW
  | INST_AMOMAXUD | INST_AMOMAXUW | INST_AMOMIND | INST_AMOMINW | INST_AMOMINUD | INST_AMOMINUW
  | INST_AMOORD | INST_AMOORW | INST_AMOXORD | INST_AMOXORW | INST_AMOSWAPD | INST_AMOSWAPW =>
      AmoInstruction i rd rs1 rs2
  | INST_ERROR => error_flag_ ::= true
  end.

(** Host and device emulation after an instruction. *)
(* RISCV_cpu.cc:1163-1181 RiscvCpu::PeripheralEmulations *)
Definition PeripheralEmulations : CPU M unit :=
  on_peripheral Peripheral.Emulation;;
  p ← field peripheral_;
  when (Peripheral.GetHostEndFlag p) (
    set_reg A0 (Peripheral.GetHostValue p);;
    error ← field error_flag_;
    error_flag_ ::= (error || Peripheral.GetHostErrorFlag p);;
    end_flag_ ::= true);;
  when (Peripheral.GetInterruptStatus p) (
    on_device Peripheral.ClearInterruptStatus;;
    virtio_interrupt_ ::= true);;
  when (Peripheral.GetUartInterruptStatus p) (
    on_device Peripheral.ClearUartInterruptStatus;;
    uart_interrupt_ ::= true);;
  when (Peripheral.GetUartBreak p) (end_flag_ ::= true).

(** Decoding the fetched word and executing it. *)
(* RISCV_cpu.cc:944-1130 RiscvCpu::RunCpu *)
Definition decode_and_execute : CPU M unit :=
  ir ← field ir_; mxl ← field mxl_; pc ← field pc_;
  let ctype := negb ((ir .& 3) =? 3) in
  ctype_ ::= ctype;;
  let csr_index := s16 (GetCsr ir) in
  next_pc_ ::= u64 (pc + (if ctype then 2 else 4));;
  let d := decode ir mxl ctype in
  execute (instruction_out d) csr_index (rd_out d) (rs1_out d) (rs2_out d) (imm_out d);;
  next ← field next_pc_;
  when (pc =? next) (error_flag_ ::= true);;
  set_reg ZERO 0;;
  host ← field host_emulation_; device ← field peripheral_emulation_;
  when (host || device) PeripheralEmulations.

(** One turn of the loop; a [continue] ends the turn. *)
(* RISCV_cpu.cc:930-1130 RiscvCpu::RunCpu *)
Definition step : CPU M unit :=
  next ← field next_pc_;
  pc_ ::= next;;
  TimerTick;;
  upd InterruptCheck;;
  interrupted ← (fun s => match CheckPendingInterrupt s.1 with Ok (b, c) => Ok (b, (c, s.2)) | Err e => Err e end);
  if interrupted : bool then mret tt
  else
    pc ← field pc_;
    ir ← LoadCmd pc;
    ir_ ::= ir;;
    fault ← field page_fault_;
    if fault : bool then upd_res (Trap INSTRUCTION_PAGE_FAULT kException)
    else decode_and_execute.

(** [None]: out of fuel. *)
(* RISCV_cpu.cc:929-1132 RiscvCpu::RunCpu *)
Fixpoint run_loop (fuel : nat) : CPU M (option Z) :=
  match fuel with
  | O => mret None
  | S fuel' =>
      step;;
      error ← field error_flag_; end_ ← field end_flag_;
      if negb error && negb end_ then run_loop fuel' else mret (Some (Z.b2z error))
  end.

(* RISCV_cpu.cc:925-1136 RiscvCpu::RunCpu *)
Definition RunCpu (fuel : nat) (start_pc : Z) : CPU M (option Z) :=
  error_flag_ ::= false;;
  end_flag_ ::= false;;
  next_pc_ ::= start_pc;;
  run_loop fuel.

(* RISCV_cpu.cc:45-50 RiscvCpu::DeviceInitialization *)
Definition DeviceInitialization (input : list Z) : CPU M unit :=
  device ← field peripheral_emulation_;
  when device (on_peripheral (Peripheral.Initialize input)).

End Execution.
