(* ===== verification/Invariant.v ===== *)
(** * The well-formedness invariant of the whole machine

    Every register, CSR, device member and memory byte keeps its width, the views
    of MSTATUS and MIE stay coherent and x0 stays zero, through every handler and
    every turn of the main loop.  The proofs follow the programs with the rules
    of [returns]; one rule per operation, in the hint database [machine]. *)

From S2P Require Import Prelude BitTools Memory Isa Encdec Decode Pte Mmu Peripheral Syscall CpuState Alu Csr Trap LoadStore Cpu.

Create HintDb machine.

(** Side conditions: ranges of words, by the hints or, for a constant, by evaluation. *)
Ltac closed_term v := tryif (match v with context [?x] => is_var x end) then fail else tryif has_evar v then fail else idtac.

Ltac in_range :=
  cbn [nbits nbytes Z.of_nat Z.mul Pos.of_succ_nat Pos.succ Pos.mul] in *;
  lazymatch goal with
  | |- in_u ?w ?v => first [ assumption | solve [auto 3 with rv] | closed_term v; decide_it ]
  end.

(** Follow a program to its actions. *)
Ltac walk_step :=
  lazymatch goal with
  | |- returns _ _ (mbind _ _) => eapply returns_bind; [| intros ? ?]
  | |- returns _ _ (when _ _) => apply returns_when; intros ?
  | |- returns _ _ (raise _) => apply returns_raise
  | |- returns _ _ (let _ := _ in _) => cbv zeta
  | |- returns _ _ (let '(_, _) := ?x in _) => destruct x
  | |- returns _ _ (if ?b then _ else _) => destruct b eqn:?
  | |- returns _ _ (match ?x with _ => _ end) => destruct x
  end.

(* ------------------------------------------------------------------ *)
(** ** The devices *)

Record device_ok (p : Peripheral.t) : Prop := {
  dev_elapsed : in_u 64 (Peripheral.elapsed_cycles_ p);
  dev_next : in_u 64 (Peripheral.next_cycle_ p);
  dev_host : in_u 64 (Peripheral.host_value_ p);
  dev_uart : in_u 8 (Peripheral.uart_write_value_ p);
  dev_disk : forall d, Peripheral.disk_image_ p = Some d -> disk_ok d
}.

Section Devices.
Context {M : Type} `{GuestMemoryLaws M}.
Import Peripheral.

Definition device_inv (s : Peripheral.t * M) : Prop := device_ok s.1 /\ mem_ok s.2.

Lemma device_Read w a : in_u 64 a -> returns device_inv (in_u (nbits w)) (Peripheral.Read w a).
Proof.
  intros Ha [p m] v s' [Hp Hm]. unfold Read, mem_get. cbn [snd] in *. rewrite mem_read_spec by done.
  destruct (_ =? 0); [| done]. intros [= <- <-]. split; [done |]. by apply mem_load_range.
Qed.

Lemma device_Write w a v : in_u 64 a -> in_u (nbits w) v -> keeps device_inv (Peripheral.Write w a v).
Proof.
  intros Ha Hv [p m] [] s' [Hp Hm]. unfold Write, mem_put. cbn [fst snd] in *.
  destruct (mem_write w m a v) as [m'|] eqn:E; [| done]. intros [= <-].
  by destruct (mem_write_inv w m m' a v E Hm Ha Hv) as (? & _).
Qed.

Lemma device_elapsed : returns device_inv (in_u 64) (field elapsed_cycles_).
Proof. apply returns_field. by intros s [[] _]. Qed.
Lemma device_uart_value : returns device_inv (in_u 8) (field uart_write_value_).
Proof. apply returns_field. by intros s [[] _]. Qed.
Lemma device_field {T} (f : Peripheral.t -> T) : keeps device_inv (field f).
Proof. by apply returns_field. Qed.

(** A member that the invariant does not mention. *)
Lemma device_assign {T} (f : Peripheral.t -> T) `{Setter _ T f} (v : T) :
  (forall p, device_ok p -> device_ok (p <| f := v |>)) -> keeps device_inv (f ::= v).
Proof. intros Hf. apply returns_assign. intros s [Hp Hm]. split; [by apply Hf | done]. Qed.

Lemma device_lift {A} (r : res A) : returns device_inv (fun a => r = Ok a) (lift r).
Proof. by apply returns_lift. Qed.
End Devices.

#[export] Hint Resolve device_Read device_Write device_elapsed device_uart_value device_lift : machine.
#[export] Hint Resolve device_field | 50 : machine.
#[export] Hint Extern 3 (returns device_inv _ (_ ::= _)) =>
  apply device_assign; intros ? []; split; rsimpl; first [assumption | in_range] : machine.
#[export] Hint Extern 3 (in_u _ _) => in_range : machine.
#[export] Hint Extern 2 (returns _ _ (mret _)) => refine (returns_ret _ (fun _ => True) _ I) : machine.

(** A whole method. *)
Ltac walk := repeat walk_step; eauto with machine.

Section DeviceMethods.
Context {M : Type} `{GuestMemoryLaws M}.
Import Peripheral.

Lemma device_MemoryMappedValueUpdate : keeps device_inv (MemoryMappedValueUpdate (M := M)).
Proof. unfold MemoryMappedValueUpdate. walk. Qed.

Lemma device_TimerTick : keeps device_inv (Peripheral.TimerTick (M := M)).
Proof. unfold TimerTick. walk. Qed.

Lemma device_Read_mxl (b : bool) a : in_u 64 a -> returns device_inv (in_u 64) (if b then Read W32 a else Read (M := M) W64 a).
Proof.
  intros Ha. destruct b; [| by apply device_Read].
  apply (returns_weaken _ _ _ _ (device_Read W32 a Ha)). intros x Hx. by apply (in_u_mono 32).
Qed.

Lemma device_HostEmulation : keeps device_inv (HostEmulation (M := M)).
Proof.
  unfold HostEmulation. walk_step; [walk |]. walk_step; [walk |]. walk_step; [walk |].
  walk_step.
  - eapply returns_bind; [apply device_Read_mxl; decide_it | intros payload Hp]. walk.
  - walk_step; [walk |]. apply (returns_bind _ (fun x => in_u 64 x.1.1)).
    + destruct (_ =? 1).
      * eapply returns_bind; [apply (device_Read W32); decide_it | intros p Hp]. apply returns_ret. by apply (in_u_mono 32).
      * eapply returns_bind; [apply (device_Read W64); decide_it | intros p Hp]. by apply returns_ret.
    + intros [[p d] c] Hp. cbn [fst] in Hp. apply (returns_bind _ (fun _ => True)); [walk | walk].
Qed.

Lemma device_screen {A} (f : Screen.t -> A * Screen.t) : keeps device_inv (screen (M := M) f).
Proof. unfold screen. walk. Qed.

Lemma device_SetUartBuffer key : keeps device_inv (SetUartBuffer (M := M) key).
Proof. unfold SetUartBuffer. walk. Qed.
Lemma device_ClearUartBuffer : keeps device_inv (ClearUartBuffer (M := M)).
Proof. unfold ClearUartBuffer. walk. Qed.
Lemma device_UartInterrupt : keeps device_inv (UartInterrupt (M := M)).
Proof. unfold UartInterrupt. walk. Qed.
Lemma device_UartInit input : keeps device_inv (UartInit (M := M) input).
Proof. unfold UartInit. walk. Qed.
Lemma device_VirtioInit : keeps device_inv (VirtioInit (M := M)).
Proof. unfold VirtioInit. walk. Qed.
End DeviceMethods.

#[export] Hint Resolve device_MemoryMappedValueUpdate device_TimerTick device_HostEmulation device_screen
  device_SetUartBuffer device_ClearUartBuffer device_UartInterrupt device_UartInit device_VirtioInit : machine.

Section Disk.
Context {M : Type} `{GuestMemoryLaws M}.
Import Peripheral.

Lemma device_UartEmulation : keeps device_inv (UartEmulation (M := M)).
Proof. unfold UartEmulation. walk. Qed.

Lemma device_read_desc a i : in_u 64 a -> returns device_inv (fun d => in_u 64 (addr d)) (read_desc (M := M) a i).
Proof. intros Ha. unfold read_desc. repeat walk_step; [eauto with machine .. |]. by apply returns_ret. Qed.

Lemma device_read_outhdr a : in_u 64 a -> keeps device_inv (read_outhdr (M := M) a).
Proof. intros Ha. unfold read_outhdr. walk. Qed.

Lemma device_get_desc_index a : in_u 64 a -> returns device_inv (in_u 16) (get_desc_index (M := M) a).
Proof.
  intros Ha. unfold get_desc_index. repeat walk_step; [eauto with machine .. |]. apply (device_Read W16); in_range.
Qed.

Lemma disk_set_keeps d i v d' : disk_ok d -> in_u 8 v -> disk_set d i v = Ok d' -> disk_ok d'.
Proof.
  intros [Hs Hb] Hv. unfold disk_set. destruct (_ && _); [| done]. intros [= <-].
  split; [done | by apply zvec_wf_zset].
Qed.

Lemma disk_get_range d i b : disk_ok d -> disk_get d i = Ok b -> in_u 8 b.
Proof. intros [_ Hb]. unfold disk_get. destruct (_ && _); [| done]. intros [= <-]. apply Hb. Qed.

Lemma device_with_disk {A} (P : A -> Prop) (f : disk -> res (A * disk)) :
  (forall d a d', disk_ok d -> f d = Ok (a, d') -> P a /\ disk_ok d') -> returns device_inv P (with_disk (M := M) f).
Proof.
  intros Hf s a s' [Hp Hm]. unfold with_disk, mbind, st_bind, field, lift, raise.
  destruct (disk_image_ s.1) as [d|] eqn:Hd; [| done].
  destruct (f d) as [[b d']|] eqn:E; [| done]. unfold assign, mret, st_ret. intros [= <- <-].
  destruct (Hf d b d' (dev_disk _ Hp d Hd) E) as [HP Hd']. split; [| done]. split; [| done].
  destruct Hp. split; rsimpl; try done. by intros ? [= <-].
Qed.

Lemma device_disk_write sec buf n off : keeps device_inv (disk_write_loop (M := M) sec buf n off).
Proof.
  revert off. induction n as [|n IH]; intros off; cbn [disk_write_loop]; [by apply returns_ret |].
  eapply returns_bind; [apply (device_Read W8); in_range | intros b Hb].
  eapply returns_bind; [| intros _ _; apply IH]. apply (device_with_disk (fun _ => True)). intros d [] d' Hd E. split; [done |].
  revert E. destruct (disk_set d _ b) as [d1|] eqn:E1; [| done]. intros [= <-]. by eapply disk_set_keeps.
Qed.

Lemma device_disk_read sec buf n off : keeps device_inv (disk_read_loop (M := M) sec buf n off).
Proof.
  revert off. induction n as [|n IH]; intros off; cbn [disk_read_loop]; [by apply returns_ret |].
  apply (returns_bind _ (in_u 8)).
  - apply device_with_disk. intros d b d' Hd E. revert E. destruct (disk_get d _) as [b1|] eqn:E1; [| done].
    intros [= <- <-]. split; [by eapply disk_get_range | done].
  - intros b Hb. eapply returns_bind; [apply (device_Write W8); in_range | intros _ _; apply IH].
Qed.

Lemma device_disc_access sec buf len write : keeps device_inv (disc_access (M := M) sec buf len write).
Proof. unfold disc_access. repeat walk_step; [apply device_disk_write | apply device_disk_read]. Qed.
End Disk.

#[export] Hint Resolve device_UartEmulation device_read_desc device_read_outhdr device_get_desc_index device_disc_access : machine.

Section Virtio.
Context {M : Type} `{GuestMemoryLaws M}.
Import Peripheral.

Lemma device_process_disc_access a i : in_u 64 a -> keeps device_inv (process_disc_access (M := M) a i).
Proof. intros Ha. unfold process_disc_access. walk. Qed.

Lemma device_process_used_buffer a i : in_u 64 a -> in_u 32 i -> keeps device_inv (process_used_buffer (M := M) a i).
Proof. intros Ha Hi. unfold process_used_buffer. walk. Qed.

Lemma device_VirtioDiskAccess a : in_u 64 a -> keeps device_inv (VirtioDiskAccess (M := M) a).
Proof.
  intros Ha. unfold VirtioDiskAccess. repeat walk_step; [eauto using device_process_disc_access with machine .. |].
  apply device_process_used_buffer; [in_range | by apply (in_u_mono 16)].
Qed.

Lemma device_VirtioEmulation : keeps device_inv (VirtioEmulation (M := M)).
Proof.
  unfold VirtioEmulation. repeat walk_step; eauto with machine.
  - apply (device_Write W32); [decide_it | by destruct (_ =? 0); decide_it].
  - apply device_VirtioDiskAccess. apply (in_u_mono 32); [lia | by apply uint_range].
Qed.

#[local] Hint Resolve device_VirtioEmulation : machine.

Lemma device_Initialize input : keeps device_inv (Initialize (M := M) input).
Proof. unfold Initialize. walk. Qed.

Lemma device_Emulation : keeps device_inv (Emulation (M := M)).
Proof. unfold Emulation. walk. Qed.
End Virtio.

#[export] Hint Resolve device_Initialize device_Emulation : machine.

(* ------------------------------------------------------------------ *)
(** ** Ranges of the computed values *)

Import Cpu.

Lemma Sext32bit_range z : in_u 64 z -> in_u 64 (Sext32bit z).
Proof. intros. unfold Sext32bit. destruct (negb _); [apply in_u_lor; [lia | done | decide_it] | auto with rv]. Qed.

Lemma in_u_if w (b : bool) x y : in_u w x -> in_u w y -> in_u w (if b then x else y).
Proof. by destruct b. Qed.

Lemma SignExtend_range v width : in_u 64 (SignExtend 64 v width).
Proof. unfold SignExtend. destruct (Z.odd _); apply uint_range; lia. Qed.

(** A shift by a masked amount. *)
Lemma in_u_shiftr_mask w a b m : 0 <= m -> in_u w a -> in_u w (a >>. (b .& m)).
Proof. intros. apply in_u_shiftr; [apply Z.land_nonneg; lia | done]. Qed.

#[export] Hint Resolve Sext32bit_range SignExtend_range in_u_if in_u_shiftr_mask : rv.

Lemma operation_result_range xlen i a b r :
  in_u 64 a -> in_u 64 b -> operation_result xlen i a b = Ok r -> in_u 64 r.
Proof.
  intros Ha Hb E. apply bind_Ok in E as (t & E & [= <-]). apply in_u_if; [apply Sext32bit_range |]; revert E;
    (destruct i; intros [= <-]; auto 8 with rv; apply in_u_shiftr_mask; auto 8 with rv; by destruct (_ || _)).
Qed.

Lemma immediate_result_range xlen i a imm r :
  in_u 64 a -> immediate_result xlen i a imm = Ok r -> in_u 64 r.
Proof.
  intros Ha E. apply bind_Ok in E as (t & E & [= <-]). apply in_u_if; [apply Sext32bit_range |]; revert E;
    (destruct i; intros [= <-]; auto 8 with rv).
Qed.

Lemma check_shift_Ok w n v t : check_shift w n v = Ok t -> 0 <= n < w /\ t = v.
Proof. unfold check_shift. destruct (Z.leb_spec 0 n), (Z.ltb_spec n w); intros [= <-]; lia. Qed.

Lemma shift_result_range xlen i a n r :
  in_u 64 a -> shift_result xlen i a n = Ok (Some r) -> in_u 64 r.
Proof.
  intros Ha. unfold shift_result. destruct i; try discriminate; intros E;
    apply bind_Ok in E as (t & E & [= <-]); apply check_shift_Ok in E as [Hn ->];
    auto 8 with rv; repeat apply in_u_if; try apply Sext32bit_range; apply in_u_shiftr; auto 8 with rv; lia.
Qed.

Lemma quot_u64_range a b r : in_u 64 a -> 0 <= b -> quot_u64 a b = Ok r -> in_u 64 r.
Proof. intros Ha Hb. unfold quot_u64. destruct (Z.eqb_spec b 0); [done |]. intros [= <-]. apply in_u_div; [done | lia]. Qed.

Lemma rem_u64_range a b r : 0 <= a -> in_u 64 b -> rem_u64 a b = Ok r -> in_u 64 r.
Proof.
  intros Ha Hb. unfold rem_u64. destruct (Z.eqb_spec b 0); [done |]. intros [= <-].
  pose proof (Z.mod_pos_bound a b). unfold in_u in *. lia.
Qed.

Lemma Ok_pair {A B} (a c : A) (b d : B) : (mret (a, b) : res (A * B)) = Ok (c, d) -> d = b.
Proof. by intros [= _ ->]. Qed.

Lemma in_u_nonneg w x : in_u w x -> 0 <= x.
Proof. unfold in_u. lia. Qed.

(** The values of a computation that may fail, one goal each. *)
Ltac split_result :=
  repeat match goal with
  | |- (if ?b then _ else _) = Ok _ -> _ => destruct b
  | |- (_ ≫= _) = Ok _ -> _ => let E := fresh "E" in intros E; apply bind_Ok in E as (? & ? & E); revert E
  | |- _ = Ok (_, _) -> _ => let E := fresh "E" in intros E; apply Ok_pair in E; subst
  end.

Lemma mult_result_range xlen i a b r :
  in_u 64 a -> in_u 64 b -> mult_result xlen i a b = Ok r -> in_u 64 r.
Proof.
  intros Ha Hb E. apply bind_Ok in E as ((w & t) & E & [= <-]).
  assert (Hl : forall x, in_u 64 x -> in_u 64 (x .& 0xFFFFFFFF)) by auto with rv.
  assert (in_u 64 t); [| by destruct w; [apply Sext32bit_range |]].
  revert E. destruct i; try discriminate; cbv zeta; split_result;
    unfold GetMulh64, GetMulhsu64, GetMulhu64; cbv zeta;
    first [ assumption | apply uint_range; lia | apply in_u_shiftr; [lia | apply uint_range; lia] | split; lia
    | eapply quot_u64_range; [| | eassumption]; eauto using in_u_nonneg
    | eapply rem_u64_range; [| | eassumption]; eauto using in_u_nonneg ].
Qed.

(* ------------------------------------------------------------------ *)
(** ** The processor *)

Record machine_ok {M} `{GuestMemoryLaws M} (s : Cpu.t * M) : Prop := {
  mac_cpu : cpu_ok s.1;
  mac_mmu : in_u 64 (Mmu.faulting_address_ (mmu_ s.1));
  mac_dev : device_ok (peripheral_ s.1);
  mac_brk : in_u 64 (brk_ s.1);
  mac_mem : mem_ok s.2
}.

(** What the trap and CSR code leaves alone. *)
Definition outside (s : Cpu.t) := (pc_ s, ir_ s, faulting_address_ s, mmu_ s, peripheral_ s, brk_ s).

Section Processor.
Context {M : Type} `{GuestMemoryLaws M}.
Local Abbreviation I := (machine_ok (M := M)).

(** Memory accesses. *)
Lemma machine_Read w a : in_u 64 a -> returns I (in_u (nbits w)) (Read w a).
Proof.
  intros Ha [c m] v s' Hs. unfold Read, mem_get. cbn [snd]. pose proof (mac_mem _ Hs) as Hm. cbn [snd] in Hm.
  rewrite mem_read_spec by done. destruct (_ =? 0); [| done]. intros [= <- <-]. split; [done |]. by apply mem_load_range.
Qed.

Lemma machine_Write w a v : in_u 64 a -> in_u (nbits w) v -> keeps I (Write w a v).
Proof.
  intros Ha Hv [c m] [] s' [Hc Hu Hd Hb Hm]. unfold Write, mem_put. cbn [fst snd] in *.
  destruct (mem_write w m a v) as [m'|] eqn:E; [| done]. intros [= <-].
  by destruct (mem_write_inv w m m' a v E Hm Ha Hv) as (? & _).
Qed.

(** Registers and members. *)
Lemma machine_get_reg r : returns I (in_u 64) (get_reg r).
Proof. apply returns_gets. intros s [[[[]]]]. apply ok_regs. Qed.
Lemma machine_get_csr r : returns I (in_u 64) (get_csr r).
Proof. apply returns_gets. intros s [[[[]]]]. apply ok_csrs. Qed.
Lemma machine_pc : returns I (in_u 64) (field pc_).
Proof. apply returns_field. by intros s [[]]. Qed.
Lemma machine_next_pc : returns I (in_u 64) (field next_pc_).
Proof. apply returns_field. by intros s [[]]. Qed.
Lemma machine_peripheral : returns I device_ok (field peripheral_).
Proof. apply returns_field. by intros s []. Qed.
Lemma machine_mmu : returns I (fun u => in_u 64 (Mmu.faulting_address_ u)) (field mmu_).
Proof. apply returns_field. by intros s []. Qed.
Lemma machine_field {T} (f : Cpu.t -> T) : keeps I (field f).
Proof. by apply returns_field. Qed.

Lemma machine_upd f : (forall s, cpu_ok s -> cpu_ok (f s) /\ outside (f s) = outside s) -> keeps I (upd f).
Proof.
  intros Hf. apply returns_modify. intros [c m] [Hc Hu Hd Hb Hm]. cbn [fst snd] in *.
  destruct (Hf c Hc) as [Hc' [= E1 E2 E3 E4 E5 E6]]. split; cbn [fst snd]; rewrite ?E4, ?E5, ?E6; done.
Qed.

Lemma machine_upd_res f :
  (forall s s', cpu_ok s -> f s = Ok s' -> cpu_ok s' /\ outside s' = outside s) -> keeps I (upd_res f).
Proof.
  intros Hf [c m] [] s' [Hc Hu Hd Hb Hm]. unfold upd_res. cbn [fst snd] in *. destruct (f c) as [c'|] eqn:E; [| done].
  intros [= <-]. destruct (Hf c c' Hc E) as [Hc' [= E1 E2 E3 E4 E5 E6]]. split; [| done].
  split; cbn [fst snd]; rewrite ?E4, ?E5, ?E6; done.
Qed.

Lemma machine_set_reg r v : in_u 64 v -> keeps I (set_reg r v).
Proof.
  intros Hv. apply returns_modify. intros [c m] [[Hc] Hu Hd Hb Hm]. split; try done. cbn [fst]. split; try done.
  by apply csr_ok_put_reg.
Qed.
End Processor.
#[export] Hint Resolve machine_Read machine_Write machine_get_reg machine_get_csr machine_pc machine_next_pc
  machine_peripheral machine_mmu machine_set_reg : machine.
#[export] Hint Resolve machine_field | 50 : machine.

(** Assignment to a member that is none of the CSRs, shadows and registers. *)
Lemma csr_ok_same s s' :
  (xlen_ s', mxl_ s', reg_ s', csrs_ s', mstatus_ s', mip_ s', mie_ s') = (xlen_ s, mxl_ s, reg_ s, csrs_ s, mstatus_ s, mip_ s, mie_ s) ->
  csr_ok s -> csr_ok s'.
Proof.
  intros [= E1 E2 E3 E4 E5 E6 E7] [[] Hst Hen].
  split; [split; unfold mode_ok in *; rewrite ?E1, ?E2, ?E3, ?E4, ?E5, ?E6, ?E7; done | |];
    revert Hst Hen; unfold status_coherent, enable_coherent, umask, smask, csr; by rewrite ?E2, ?E4, ?E5, ?E7.
Qed.

Ltac machine_split :=
  let c := fresh in intros [c ?] [[Hcsr ? ? ? ?] ? ? ? ?]; split; cbn [fst snd] in *; rsimpl;
  [split; rsimpl; [apply (csr_ok_same c); [reflexivity | exact Hcsr] | ..] | ..]; first [assumption | in_range].

#[export] Hint Extern 3 (returns machine_ok _ (_ ::= _)) => apply returns_assign; machine_split : machine.

(* ------------------------------------------------------------------ *)
(** ** Traps, CSRs and interrupts *)

Lemma outside_page_fault cause interrupt s : outside (trap_page_fault cause interrupt s) = outside s.
Proof. by destruct (trap_page_fault_frame cause interrupt s) as (a & b & c & d & ->). Qed.

Lemma Trap_keeps cause interrupt s s' :
  cpu_ok s -> Trap cause interrupt s = Ok s' -> cpu_ok s' /\ outside s' = outside s.
Proof.
  intros Hok E. destruct (trap_supported cause interrupt) eqn:Hs; [| by unfold Trap in E; rewrite Hs in E].
  destruct (Trap_correct cause interrupt s Hok Hs) as (s1 & E1 & Hc & He). rewrite E1 in E. injection E as <-.
  assert (Ho : outside s1 = outside s).
  { rewrite <- (outside_page_fault cause interrupt s). rewrite Trap_unfold in E1 by done. injection E1 as <-.
    unfold trap_clear. by destruct (_ && _ && _). }
  split; [| done]. injection Ho as E2 E3 E4 _ _ _. destruct Hok.
  split; rewrite ?E2, ?E3, ?E4; try done. rewrite (te_pc _ _ _ _ He). apply handler_range.
  by apply ok_csrs, ok_words.
Qed.

(** A trap leaves the switches of the emulator alone, and the error flag unless it is
    a page fault at the address of the one before. *)
Definition switches (s : Cpu.t) := (host_emulation_ s, peripheral_emulation_ s, ecall_emulation_ s, end_flag_ s).
Definition repeated (a : Z) (s : Cpu.t) : bool := prev_page_fault_ s && (prev_faulting_address_ s =? a).

Lemma Trap_flags cause interrupt s s' :
  Trap cause interrupt s = Ok s' ->
  switches s' = switches s /\
  error_flag_ s' = error_flag_ s || negb interrupt && page_fault_cause cause && repeated (faulting_address_ s) s.
Proof.
  intros E. destruct (trap_supported cause interrupt) eqn:Hs; [| by unfold Trap in E; rewrite Hs in E].
  rewrite Trap_unfold in E by done. injection E as <-. unfold trap_clear, trap_page_fault, repeated.
  destruct (_ && negb (cause =? MACHINE_SOFTWARE_INTERRUPT)), (negb interrupt && page_fault_cause cause);
    destruct (prev_page_fault_ s && _) eqn:Er; rewrite ?orb_true_r, ?orb_false_r; try (split; [reflexivity |]); rewrite ?Er; reflexivity.
Qed.

Lemma Ecall_keeps s s' : cpu_ok s -> Ecall s = Ok s' -> cpu_ok s' /\ outside s' = outside s.
Proof. apply Trap_keeps. Qed.

(** Walk the [let]s of a method, forgetting each intermediate state but its frame. *)
Ltac frame_let :=
  repeat match goal with
  | |- (let x := ?v in @?b x) = Ok ?s' -> ?G =>
      change (b v = Ok s' -> G); cbv beta;
      lazymatch type of v with
      | Cpu.t => let H := fresh "Ho" in
          let r := lazymatch G with _ = ?r => r end in
          assert (H : outside v = r) by (first [done | etransitivity; [| eassumption]; done]); revert H; generalize v; intros ? ?
      | _ => generalize v; intros ?
      end
  end.

Lemma Mret_outside s s' : Mret s = Ok s' -> outside s' = outside s.
Proof.
  cbv beta delta [Mret]. frame_let. intros E.
  apply bind_Ok in E as (p & _ & E). revert E. cbv beta. frame_let. intros [= <-]. done.
Qed.

Lemma Sret_outside s s' : Sret s = Ok s' -> outside s' = outside s.
Proof.
  cbv beta delta [Sret]. frame_let. intros E.
  apply bind_Ok in E as (p & _ & E). revert E. cbv beta. frame_let. intros [= <-]. done.
Qed.

Lemma Mret_keeps s s' : cpu_ok s -> Mret s = Ok s' -> cpu_ok s' /\ outside s' = outside s.
Proof.
  intros [Hc] E. assert (exists p, bitcrop (mstatus_ s) 2 11 = code_PrivilegeMode p) as [p Hp].
  { revert E. unfold Mret, IntToPrivilegeMode. pose proof (bitcrop_range (mstatus_ s) 2 11 ltac:(lia)) as Hr.
    set (x := bitcrop _ 2 11) in *. clearbody x. unfold in_u in Hr.
    assert (x = 0 \/ x = 1 \/ x = 2 \/ x = 3) as [-> | [-> | [-> | ->]]] by lia; [by exists USER_MODE | by exists SUPERVISOR_MODE | done | by exists MACHINE_MODE]. }
  destruct (Mret_spec s p Hc Hp) as (s1 & E1 & He). rewrite E in E1. injection E1 as ->.
  pose proof (Mret_outside s s1 E) as Ho.
  split; [| done]. injection Ho as E2 E3 E4 _ _ _. destruct He as [_ re_pc _ re_ok _]. split; rewrite ?E2, ?E3, ?E4, ?re_pc; try done. apply ok_csrs, Hc.
Qed.

Lemma Sret_keeps s s' : cpu_ok s -> Sret s = Ok s' -> cpu_ok s' /\ outside s' = outside s.
Proof.
  intros [Hc] E. assert (exists p, bitcrop (mstatus_ s) 1 8 = code_PrivilegeMode p) as [p Hp].
  { pose proof (bitcrop_range (mstatus_ s) 1 8 ltac:(lia)) as Hr. set (x := bitcrop _ 1 8) in *. clearbody x. unfold in_u in Hr.
    assert (x = 0 \/ x = 1) as [-> | ->] by lia; [by exists USER_MODE | by exists SUPERVISOR_MODE]. }
  destruct (Sret_spec s p Hc Hp) as (s1 & E1 & He). rewrite E in E1. injection E1 as ->.
  pose proof (Sret_outside s s1 E) as Ho.
  split; [| done]. injection Ho as E2 E3 E4 _ _ _. destruct He as [_ re_pc _ re_ok _]. split; rewrite ?E2, ?E3, ?E4, ?re_pc; try done. apply ok_csrs, Hc.
Qed.

Lemma cpu_ok_csr_ok s s' : cpu_ok s -> csr_ok s' -> next_pc_ s' = next_pc_ s -> outside s' = outside s -> cpu_ok s'.
Proof. intros [] Hc En [= E2 E3 E4 _ _ _]. by split; rewrite ?E2, ?E3, ?E4, ?En. Qed.

Lemma outside_UpdateStatus c s : (outside (UpdateStatus c s), next_pc_ (UpdateStatus c s)) = (outside s, next_pc_ s).
Proof.
  unfold UpdateStatus. destruct (in_ c [USTATUS : Z; _; _]).
  { unfold UpdateMstatus. destruct (c =? USTATUS), (c =? SSTATUS), (c =? MSTATUS), (mxl_ s =? 2) eqn:E;
      cbv zeta; rsimpl; by rewrite ?E. }
  destruct (in_ c [UIP : Z; _; _]).
  { unfold UpdateInterruptPending. by destruct (c =? MIP), (c =? UIP), (c =? SIP). }
  destruct (in_ c [UIE : Z; _; _]); [| done].
  unfold UpdateInterruptEnable. by destruct (c =? MIE), (c =? UIE), (c =? SIE).
Qed.

Lemma CsrsInstruction_keeps i c rd rs1 s :
  in_u 5 rs1 -> cpu_ok s -> cpu_ok (CsrsInstruction i c rd rs1 s) /\ outside (CsrsInstruction i c rd rs1 s) = outside s.
Proof.
  intros Hr Hok. pose proof Hok as [Hc _ _ _ _]. pose proof (ok_words _ Hc) as [_ Hcsrs Hregs _ _ _].
  rewrite CsrsInstruction_write. unfold write_csr.
  pose proof (outside_UpdateStatus c (put_csr c (csr_value i (csr s c) (reg s rs1) rs1) (put_reg rd (csr s c) s))) as [= E1 E2 E3 E4 E5 E6 E7].
  assert (Ho : outside (UpdateStatus c (put_csr c (csr_value i (csr s c) (reg s rs1) rs1) (put_reg rd (csr s c) s))) = outside s)
    by (unfold outside; by rewrite E1, E2, E3, E4, E5, E6).
  split; [| exact Ho]. apply (cpu_ok_csr_ok s); [done | | by rewrite E7 | exact Ho].
  refine (proj1 (write_csr_effect _ c _ _ _)); [apply csr_ok_put_reg; [done | apply Hcsrs] |].
  apply csr_value_range; [apply Hcsrs | apply Hregs | done].
Qed.

Lemma SetInterruptPending_keeps cause s :
  cpu_ok s -> cpu_ok (SetInterruptPending cause s) /\ outside (SetInterruptPending cause s) = outside s.
Proof. intros Hok. split; [| done]. apply (cpu_ok_csr_ok s); try done. apply csr_ok_set_pending, Hok. Qed.

Lemma DiskInterruptCheck_keeps s : cpu_ok s -> cpu_ok (DiskInterruptCheck s) /\ outside (DiskInterruptCheck s) = outside s.
Proof.
  intros Hok. unfold DiskInterruptCheck. destruct (virtio_interrupt_ s); [| done].
  destruct (SetInterruptPending_keeps 9 (s <| virtio_interrupt_ := false |>)) as [H1 H2]; [by destruct Hok as [[[] ? ?]] |].
  split; [exact H1 | by rewrite H2].
Qed.

Lemma UartInterruptCheck_keeps s : cpu_ok s -> cpu_ok (UartInterruptCheck s) /\ outside (UartInterruptCheck s) = outside s.
Proof.
  intros Hok. unfold UartInterruptCheck. destruct (uart_interrupt_ s); [| done].
  destruct (SetInterruptPending_keeps 9 (s <| uart_interrupt_ := false |>)) as [H1 H2]; [by destruct Hok as [[[] ? ?]] |].
  split; [exact H1 | by rewrite H2].
Qed.

Lemma InterruptCheck_keeps s : cpu_ok s -> cpu_ok (InterruptCheck s) /\ outside (InterruptCheck s) = outside s.
Proof.
  intros Hok. unfold InterruptCheck. destruct (DiskInterruptCheck_keeps s Hok) as [H1 E1].
  destruct (UartInterruptCheck_keeps _ H1) as [H2 E2]. split; [done | by rewrite E2].
Qed.

Lemma CheckPendingInterrupt_keeps s b s' :
  cpu_ok s -> CheckPendingInterrupt s = Ok (b, s') -> cpu_ok s' /\ outside s' = outside s.
Proof.
  intros Hok. unfold CheckPendingInterrupt. cbv zeta.
  repeat match goal with |- (if ?b then _ else _) = _ -> _ => destruct b end;
    try (intros E; apply bind_Ok in E as (s1 & E & [= _ <-]); by eapply Trap_keeps).
  by intros [= _ <-].
Qed.

#[export] Hint Extern 3 (returns machine_ok _ (upd_res (Trap _ _))) => apply machine_upd_res; intros ? ?; apply Trap_keeps : machine.
#[export] Hint Extern 3 (returns machine_ok _ (upd_res Ecall)) => apply machine_upd_res, Ecall_keeps : machine.
#[export] Hint Extern 3 (returns machine_ok _ (upd_res Mret)) => apply machine_upd_res, Mret_keeps : machine.
#[export] Hint Extern 3 (returns machine_ok _ (upd_res Sret)) => apply machine_upd_res, Sret_keeps : machine.
#[export] Hint Extern 3 (returns machine_ok _ (upd InterruptCheck)) => apply machine_upd, InterruptCheck_keeps : machine.
#[export] Hint Extern 3 (returns machine_ok _ (upd (SetInterruptPending _))) => apply machine_upd, SetInterruptPending_keeps : machine.

(* ------------------------------------------------------------------ *)
(** ** Calls of the devices and the MMU *)

Section Calls.
Context {M : Type} `{GuestMemoryLaws M}.
Local Abbreviation I := (machine_ok (M := M)).

Lemma machine_on_peripheral {A} (P : A -> Prop) (m : ST (Peripheral.t * M) A) :
  returns device_inv P m -> returns I P (on_peripheral m).
Proof.
  intros Hm. apply (returns_zoom _ device_inv); [done | by intros s [] |].
  intros [c m0] [p m1] [[Hc ? ? ? ?] ? ? ? ?] [Hp Hm1]. split; try done. split; try done.
  apply (csr_ok_same c); [reflexivity | exact Hc].
Qed.

Lemma machine_on_device f : (forall p, device_ok p -> device_ok (f p)) -> keeps I (on_device f).
Proof.
  intros Hf. apply returns_modify. intros [c m0] [[Hc ? ? ? ?] ? Hp ? ?]. split; try done; [| by apply Hf]. split; try done.
  apply (csr_ok_same c); [reflexivity | exact Hc].
Qed.

Lemma mmu_VirtualToPhysical u m va satp write pa u' m' :
  mem_ok m -> in_u 64 va -> Mmu.VirtualToPhysical va satp write (u, m) = Ok (pa, (u', m')) ->
  in_u 64 (Mmu.faulting_address_ u') /\ mem_ok m' /\ in_u 64 pa.
Proof.
  intros Hm Ha E. pose proof (VirtualToPhysical_spec u m va satp write Hm) as HT. rewrite E in HT.
  unfold translates, implements in HT. assert (in_u 64 0) by decide_it.
  destruct (regime_of u satp) as [|fmt root|] eqn:R; [by injection HT as -> -> -> | | by injection HT as -> -> ->].
  destruct (PageTable.translate _ _ _ _) as [[[pa' a] pte]|] eqn:T; [| by injection HT as -> -> ->].
  destruct HT as (m1 & [= -> -> ->] & Hm1 & _). split; [done |]. split; [done |].
  revert T. unfold PageTable.translate. destruct (PageTable.walk _ _ _ _ _) as [[[lv a'] pte']|]; [| done].
  destruct (PageTable.aligned _ _ _); [| done]. intros [= <- _ _]. unfold PageTable.physical.
  assert (Hf : PageTable.pa_bits fmt = 56 \/ PageTable.pa_bits fmt = 32) by
    (revert R; unfold regime_of; repeat case_match; intros [= <- _]; auto).
  apply (in_u_mono (PageTable.pa_bits fmt)); [lia |]. unfold in_u. apply Z.mod_pos_bound, Z.pow_pos_nonneg; lia.
Qed.

Lemma machine_on_mmu va satp write : in_u 64 va -> returns I (in_u 64) (on_mmu (Mmu.VirtualToPhysical va satp write)).
Proof.
  intros Ha [c m] pa s' [[Hc ? ? ? ?] Hu Hd Hb Hm]. unfold on_mmu, zoom. cbn [fst snd] in *.
  destruct (Mmu.VirtualToPhysical va satp write (mmu_ c, m)) as [[b [u' m']]|] eqn:E; [| done]. intros [= <- <-].
  destruct (mmu_VirtualToPhysical _ _ _ _ _ _ _ _ Hm Ha E) as (? & ? & ?). split; [| done].
  split; try done. split; try done. apply (csr_ok_same c); [reflexivity | exact Hc].
Qed.

Lemma machine_set_mmu f :
  (forall u, Mmu.faulting_address_ (f u) = Mmu.faulting_address_ u) -> keeps I (upd (fun s => s <| mmu_ := f (mmu_ s) |>)).
Proof.
  intros Hf. apply returns_modify. intros [c m0] [[Hc ? ? ? ?] Hu Hd Hb Hm]. split; cbn [fst snd] in *; rsimpl; rewrite ?Hf; try done.
  split; try done. apply (csr_ok_same c); [reflexivity | exact Hc].
Qed.

Lemma machine_VirtualToPhysical va write : in_u 64 va -> returns I (in_u 64) (LoadStore.VirtualToPhysical va write).
Proof.
  intros Ha. unfold LoadStore.VirtualToPhysical.
  eapply returns_bind; [apply returns_modify | intros _ _].
  { intros s Hs. destruct (machine_set_mmu (Mmu.SetMxl (mxl_ s.1)) (fun u => eq_refl) s tt _ Hs eq_refl) as [H1 _]. exact H1. }
  eapply returns_bind; [by apply (returns_gets _ (fun _ => True)) | intros s _].
  eapply returns_bind; [by apply (returns_lift _ (fun _ => True)) | intros p _].
  eapply returns_bind; [by apply machine_set_mmu | intros _ _].
  eapply returns_bind; [apply machine_get_csr | intros satp _].
  eapply returns_bind; [by apply machine_on_mmu | intros pa Hpa].
  eapply returns_bind; [apply machine_mmu | intros u Hu]. cbn beta in Hu.
  apply (returns_bind _ (fun _ => True)); [| intros _ _; by apply returns_ret]. walk.
Qed.
End Calls.

#[export] Hint Resolve machine_VirtualToPhysical : machine.
#[export] Hint Extern 3 (returns machine_ok _ (on_device _)) =>
  apply machine_on_device; intros ? []; split; rsimpl; first [assumption | in_range] : machine.

(* ------------------------------------------------------------------ *)
(** ** Loads, stores and atomic operations *)

Lemma device_CheckDeviceRead a w p : device_ok p -> device_ok (Peripheral.CheckDeviceRead a w p).
Proof. intros []. unfold Peripheral.CheckDeviceRead. destruct (_ && _); by split. Qed.

Lemma device_CheckDeviceWrite a w v p : device_ok p -> device_ok (Peripheral.CheckDeviceWrite a w v p).
Proof.
  intros Hp. cbv beta delta [Peripheral.CheckDeviceWrite].
  repeat match goal with
  | |- device_ok (let x := ?v in @?b x) =>
      let H := fresh in assert (H : device_ok v); [| change (device_ok (b v)); cbv beta; revert H; generalize v; intros ? ?]
  | |- device_ok (if ?b then _ else _) => destruct b
  end; try assumption.
  all: repeat match goal with H : device_ok _ |- _ => destruct H end; split; rsimpl; try assumption; apply uint_range; lia.
Qed.

Section Accesses.
Context {M : Type} `{GuestMemoryLaws M}.
Local Abbreviation I := (machine_ok (M := M)).

Lemma machine_CheckDeviceRead a w : keeps I (on_device (Peripheral.CheckDeviceRead a w)).
Proof. apply machine_on_device. intros p. apply device_CheckDeviceRead. Qed.
Lemma machine_CheckDeviceWrite a w v : keeps I (on_device (Peripheral.CheckDeviceWrite a w v)).
Proof. apply machine_on_device. intros p. apply device_CheckDeviceWrite. Qed.

Lemma machine_load_bytes pa n off r : in_u 64 r -> returns I (in_u 64) (load_bytes pa n off r).
Proof.
  revert off r. induction n as [|n IH]; intros off r Hr; cbn [load_bytes]; [by apply returns_ret |].
  eapply returns_bind; [apply (machine_Read W8); in_range | intros b Hb]. apply IH. apply in_u_lor; auto with rv; lia.
Qed.

Lemma machine_LoadWd pa w : in_u 64 pa -> returns I (in_u 64) (LoadWd pa w).
Proof.
  intros Ha. unfold LoadWd. eapply returns_bind; [by apply (returns_lift _ (fun _ => True)) | intros _ _].
  destruct (_ && _).
  { eapply returns_weaken; [by apply (machine_Read W32) |]. intros v Hv. by apply (in_u_mono 32). }
  destruct (_ && _); [by apply (machine_Read W64) |]. apply machine_load_bytes. decide_it.
Qed.

Lemma machine_store_bytes pa v n off : keeps I (store_bytes pa v n off).
Proof.
  revert off. induction n as [|n IH]; intros off; cbn [store_bytes]; [by apply returns_ret |].
  eapply returns_bind; [| intros _ _; apply IH]. apply (machine_Write W8); [in_range |].
  change 0xFF with (Z.ones 8). rewrite land_mask by lia. apply uint_range. lia.
Qed.

Lemma machine_StoreWd pa v w : in_u 64 pa -> in_u 64 v -> keeps I (StoreWd pa v w).
Proof.
  intros Ha Hv. unfold StoreWd. eapply returns_bind; [by apply (returns_lift _ (fun _ => True)) | intros _ _].
  destruct (_ && _); [apply (machine_Write W32); in_range |].
  destruct (_ && _); [by apply (machine_Write W64) | apply machine_store_bytes].
Qed.
End Accesses.

#[export] Hint Resolve machine_CheckDeviceRead machine_CheckDeviceWrite machine_LoadWd machine_StoreWd machine_on_peripheral : machine.

Section Instructions.
Context {M : Type} `{GuestMemoryLaws M}.
Local Abbreviation I := (machine_ok (M := M)).

Lemma machine_LoadInstruction i rd rs1 imm : keeps I (LoadInstruction i rd rs1 imm).
Proof.
  unfold LoadInstruction.
  walk_step; [eauto with machine |]. walk_step; [eauto with machine |]. cbv zeta. walk_step; [eauto with machine |].
  walk_step; [eauto with machine |]. walk_step; [eauto with machine |].
  walk_step; [by apply (returns_lift _ (fun _ => True)) |]. walk_step; [eauto with machine |].
  assert (Hf : forall d, in_u 64 d -> keeps I (on_device (Peripheral.CheckDeviceRead a1 a3);;
     set_reg rd (match i with INST_LB | INST_LH | INST_LW => SignExtend 64 d (a3 * 8) | INST_LWU => d .& 0xFFFFFFFF | _ => d end))).
  { intros d Hd. walk_step; [eauto with machine |]. apply machine_set_reg. destruct i; auto with rv. }
  walk_step; [| by apply Hf]. walk_step; [eauto with machine |]. walk_step; [eauto with machine |].
  walk_step; [eauto with machine |]. walk_step; [eauto with machine |]. apply Hf. apply in_u_lor; auto with rv; lia.
Qed.

Lemma machine_StoreInstruction i rd rs1 rs2 imm : keeps I (StoreInstruction i rd rs1 rs2 imm).
Proof.
  unfold StoreInstruction. walk_step; [eauto with machine |]. cbv zeta. do 2 (walk_step; [eauto with machine |]).
  walk_step; [eauto with machine |]. apply (returns_bind _ (fun w => GetStoreWidth i = Ok w)); [by apply returns_lift |].
  intros w Hw. pose proof (access_bounds w (u64 (a + imm)) (GetStoreWidth_cases i w Hw)) as Hk.
  walk.
Qed.

Lemma machine_LoadCmd pc : in_u 64 pc -> returns I (in_u 32) (LoadCmd pc).
Proof.
  intros Hpc. unfold LoadCmd. walk_step; [eauto with machine |].
  eapply returns_bind; [apply (machine_Read W32); in_range | intros cmd Hc]. cbv zeta. cbn [nbits nbytes] in Hc.
  change (8 * Z.of_nat 4) with 32 in Hc. walk_step; [eauto with machine |].
  assert (Hc' : in_u 32 (if (pc .& 2) =? 2 then (cmd >>. 16) .& 0xFFFF else cmd)) by auto with rv.
  apply (returns_bind _ (in_u 32)); [| intros x Hx; apply returns_ret; auto with rv].
  walk_step; [| by apply returns_ret]. walk_step; [eauto with machine |].
  eapply returns_bind; [apply (machine_Read W32); in_range | intros up Hup].
  apply returns_ret. apply in_u_lor; auto with rv; lia.
Qed.

Lemma amo_value_range j t b v : in_u 64 t -> in_u 64 b -> amo_value j t b = Ok v -> in_u 64 v.
Proof.
  intros Ht Hb. unfold LoadStore.max, LoadStore.min. destruct j; try discriminate; cbn [amo_value]; intros E; injection E as <-;
    unfold LoadStore.max, LoadStore.min; auto with rv.
Qed.

Lemma machine_AmoInstruction i rd rs1 rs2 : keeps I (AmoInstruction i rd rs1 rs2).
Proof.
  unfold AmoInstruction. repeat walk_step; eauto with machine. apply returns_lift. intros v.
  apply amo_value_range; [| done]. destruct (_ =? 4); auto with rv.
Qed.

Lemma machine_TimerTick : keeps I (LoadStore.TimerTick (M := M)).
Proof. unfold LoadStore.TimerTick. walk. Qed.
End Instructions.

#[export] Hint Resolve machine_LoadInstruction machine_StoreInstruction machine_LoadCmd machine_AmoInstruction machine_TimerTick : machine.

(* ------------------------------------------------------------------ *)
(** ** System calls *)

Section Syscalls.
Context {M : Type} `{HostOsLaws M}.
Import Syscall.

Definition syscall_inv (s : Syscall.t * M) : Prop := zvec_wf 64 (Syscall.reg s.1) /\ in_u 64 (brk s.1) /\ mem_ok s.2.

Lemma syscall_reg_get r : returns syscall_inv (in_u 64) (reg_get r).
Proof.
  unfold reg_get. eapply returns_bind; [apply (returns_field _ (zvec_wf 64)); by intros s [] |].
  intros v Hv. by apply returns_ret.
Qed.

Lemma syscall_reg_put r v : in_u 64 v -> keeps syscall_inv (reg_put r v).
Proof.
  intros Hv. unfold reg_put. eapply returns_bind; [apply (returns_field _ (zvec_wf 64)); by intros s [] |].
  intros g Hg. apply returns_assign. intros s [Hr [Hb Hm]]. split; [by apply zvec_wf_zset | done].
Qed.

Lemma syscall_brk : returns syscall_inv (in_u 64) (field brk).
Proof. apply returns_field. by intros s (_ & ? & _). Qed.
Lemma syscall_set_brk v : in_u 64 v -> keeps syscall_inv (brk ::= v).
Proof. intros Hv. apply returns_assign. intros s (Hr & Hb & Hm). by split. Qed.
Lemma syscall_set_handles v : keeps syscall_inv (Syscall.openHandles ::= v).
Proof. apply returns_assign. intros s (Hr & Hb & Hm). by split. Qed.
Lemma syscall_field {T} (f : Syscall.t -> T) : keeps syscall_inv (field f).
Proof. by apply returns_field. Qed.

Lemma syscall_host {A} (f : M -> A * M) : (forall m, untouched m (f m).2) -> keeps syscall_inv (host f).
Proof.
  intros Hf [c m] a s' (Hr & Hb & Hm). unfold host. cbn [fst snd] in *. specialize (Hf m). destruct (f m) as [b m'].
  intros [= <- <-]. split; [| done]. split; [done |]. split; [done |]. by apply Hf.
Qed.

Lemma syscall_mem_get {A} (f : M -> res A) : keeps syscall_inv (mem_get f).
Proof. intros [c m] a s' Hs. unfold mem_get. destruct (f _); [| done]. by intros [= <- <-]. Qed.

Lemma syscall_write_bytes a l : in_u 64 a -> Forall (in_u 8) l -> keeps syscall_inv (write_bytes a l).
Proof.
  intros Ha Hl. revert a Ha. induction Hl as [|b l Hb Hl IH]; intros a Ha; cbn [write_bytes]; [by apply returns_ret |].
  apply (returns_bind _ (fun _ => True)); [| intros _ _; apply IH; in_range].
  intros [c m] [] s' (Hr & Hk & Hm). unfold mem_put. cbn [fst snd] in *.
  destruct (mem_write W8 m a b) as [m'|] eqn:E; [| done]. intros [= <-].
  split; [| done]. split; [done |]. split; [done |]. by apply (mem_write_inv W8 m m' a b E Hm Ha Hb).
Qed.

Lemma le_bytes_range n v : Forall (in_u 8) (le_bytes n v).
Proof. unfold le_bytes. apply Forall_map, Forall_true. intros k. apply uint_range. lia. Qed.
End Syscalls.

#[export] Hint Resolve syscall_reg_get syscall_reg_put syscall_brk syscall_set_brk syscall_set_handles syscall_mem_get
  syscall_write_bytes : machine.
#[export] Hint Resolve syscall_field | 50 : machine.
#[export] Hint Extern 3 (returns syscall_inv _ (Syscall.host _)) => apply syscall_host; intros ?;
  first [apply os_write_frame | apply os_read_frame | apply os_fstat_frame | apply os_close_frame | apply os_open_frame
        | apply os_lseek_frame] : machine.

Section Emulation.
Context {M : Type} `{HostOsLaws M}.
Import Syscall.

Lemma syscall_new_array n : keeps syscall_inv (new_array (M := M) n).
Proof. unfold new_array. walk_step. done. Qed.
#[local] Hint Resolve syscall_new_array : machine.

Lemma syscall_SystemCallEmulation top : keeps syscall_inv (SystemCallEmulation (M := M) top).
Proof.
  unfold SystemCallEmulation. walk_step; [eauto with machine |].
  repeat match goal with |- returns _ _ (if ?b then _ else _) => destruct b end;
    try (by apply returns_ret); (eapply returns_bind; [| intros _ _; by apply returns_ret]).
  - unfold sys_write. walk.
  - unfold sys_brk. walk.
  - unfold sys_read. repeat walk_step; eauto with machine.
    + apply syscall_reg_put. apply (in_u_mono 32); [lia | by apply uint_range].
    + apply syscall_write_bytes; [done |]. apply Forall_map, Forall_true. intros k. apply uint_range. lia.
  - unfold sys_fstat. repeat walk_step; eauto with machine. apply syscall_write_bytes; [done |].
    unfold stat_image. rewrite !Forall_app. repeat split; apply le_bytes_range.
  - unfold sys_close. walk.
  - unfold sys_open. walk.
  - unfold sys_lseek. walk.
Qed.
End Emulation.

(* ------------------------------------------------------------------ *)
(** ** The main loop *)

Section Loop.
Context {M : Type} `{HostOsLaws M}.
Local Abbreviation I := (machine_ok (M := M)).

Lemma machine_SystemCall : keeps I (SystemCall (M := M)).
Proof.
  unfold SystemCall. eapply returns_bind; [apply machine_field | intros top _].
  apply (returns_zoom _ syscall_inv); [apply syscall_SystemCallEmulation | |].
  - intros [c m] [[[[]]]]. by split.
  - intros [c m] [t m'] [[[[] S E] ? ? ? ?] ? ? ? ?] (Hr & Hb & Hm). by split.
Qed.

Lemma machine_set_result rd (r : res Z) :
  (forall v, r = Ok v -> in_u 64 v) -> keeps I (temp ← lift r; set_reg rd temp).
Proof.
  intros Hr. apply (returns_bind _ (in_u 64)); [by apply returns_lift |]. intros v Hv. by apply machine_set_reg.
Qed.

Lemma machine_arith i rd rs1 rs2 imm :
  keeps I (OperationInstruction i rd rs1 rs2) /\ keeps I (ImmediateInstruction i rd rs1 imm)
  /\ keeps I (ImmediateShiftInstruction i rd rs1 imm) /\ keeps I (MultInstruction i rd rs1 rs2).
Proof.
  split; [| split; [| split]].
  - unfold OperationInstruction. do 3 (walk_step; [eauto with machine |]). apply machine_set_result.
    intros v. by apply operation_result_range.
  - unfold ImmediateInstruction. do 2 (walk_step; [eauto with machine |]). apply machine_set_result.
    intros v. by apply immediate_result_range.
  - unfold ImmediateShiftInstruction. do 2 (walk_step; [eauto with machine |]).
    apply (returns_bind _ (fun o => forall v, o = Some v -> in_u 64 v)).
    + apply returns_lift. intros o E v ->. by eapply shift_result_range.
    + intros [v|] Hv; [by apply machine_set_reg, Hv | by apply returns_ret].
  - unfold MultInstruction. do 3 (walk_step; [eauto with machine |]). apply machine_set_result.
    intros v. by apply mult_result_range.
Qed.

Lemma compare_result_range i a b imm : in_u 64 (compare_result i a b imm).
Proof. unfold compare_result. destruct i; repeat case_match; split; lia. Qed.

Lemma machine_BranchInstruction i rs1 rs2 imm : returns I (in_u 64) (BranchInstruction i rs1 rs2 imm).
Proof.
  unfold BranchInstruction. do 4 (walk_step; [eauto with machine |]). apply returns_ret. destruct (branch_taken _ _ _); in_range.
Qed.

Lemma machine_CsrsInstruction i c rd rs1 : in_u 5 rs1 -> keeps I (upd (CsrsInstruction i c rd rs1)).
Proof. intros Hr. apply machine_upd. intros s. by apply CsrsInstruction_keeps. Qed.

#[local] Hint Resolve machine_SystemCall machine_BranchInstruction : machine.

Lemma machine_jumps rd rs1 imm base :
  in_u 64 base ->
  keeps I (Jal (M := M) rd imm) /\ keeps I (Jalr (M := M) rd rs1 imm) /\ keeps I (UpperImmediate (M := M) rd base imm).
Proof.
  intros Hb. split; [| split].
  - unfold Jal. walk.
  - unfold Jalr. walk.
  - unfold UpperImmediate. walk_step; [eauto with machine |]. apply machine_set_reg. destruct (_ =? 32); auto with rv.
Qed.

Lemma machine_SystemInstruction i rd imm : keeps I (SystemInstruction i rd imm).
Proof. unfold SystemInstruction. walk. Qed.

Lemma machine_SetCompare i rd rs1 rs2 imm : keeps I (SetCompare i rd rs1 rs2 imm).
Proof.
  unfold SetCompare. do 2 (walk_step; [eauto with machine |]). apply machine_set_reg, compare_result_range.
Qed.

Lemma machine_branch i rs1 rs2 imm : keeps I (next ← BranchInstruction i rs1 rs2 imm; next_pc_ ::= next).
Proof. walk. Qed.

Lemma machine_auipc rd imm : keeps I (pc ← field pc_; UpperImmediate rd pc imm).
Proof. walk_step; [eauto with machine |]. by apply (machine_jumps rd 0). Qed.

Lemma machine_error : keeps I (error_flag_ ::= true).
Proof. eauto with machine. Qed.

Lemma machine_execute i c rd rs1 rs2 imm : in_u 5 rs1 -> keeps I (execute i c rd rs1 rs2 imm).
Proof.
  intros Hr. destruct (machine_arith i rd rs1 rs2 imm) as (A1 & A2 & _ & A4).
  destruct (machine_arith i rd rs1 rs2 (u32 imm)) as (_ & _ & A3 & _).
  destruct (machine_jumps rd rs1 imm 0 ltac:(decide_it)) as (J1 & J2 & J3).
  unfold execute; destruct i;
    lazymatch goal with
    | |- returns _ _ (OperationInstruction _ _ _ _) => exact A1
    | |- returns _ _ (ImmediateInstruction _ _ _ _) => exact A2
    | |- returns _ _ (ImmediateShiftInstruction _ _ _ _) => exact A3
    | |- returns _ _ (MultInstruction _ _ _ _) => exact A4
    | |- returns _ _ (Jal _ _) => exact J1
    | |- returns _ _ (Jalr _ _ _) => exact J2
    | |- returns _ _ (UpperImmediate _ _ _) => exact J3
    | |- returns _ _ (SetCompare _ _ _ _ _) => apply machine_SetCompare
    | |- returns _ _ (LoadInstruction _ _ _ _) => apply machine_LoadInstruction
    | |- returns _ _ (StoreInstruction _ _ _ _ _) => apply machine_StoreInstruction
    | |- returns _ _ (AmoInstruction _ _ _ _) => apply machine_AmoInstruction
    | |- returns _ _ (SystemInstruction _ _ _) => apply machine_SystemInstruction
    | |- returns _ _ (upd _) => by apply machine_CsrsInstruction
    | |- returns _ _ (mbind _ (field _)) => apply machine_auipc
    | |- returns _ _ (mbind _ _) => apply machine_branch
    | |- returns _ _ (mret _) => by apply returns_ret
    | |- returns _ _ (_ ::= _) => apply machine_error
    end.
Qed.

Lemma machine_PeripheralEmulations : keeps I (PeripheralEmulations (M := M)).
Proof.
  unfold PeripheralEmulations. repeat walk_step; eauto with machine.
  match goal with H : device_ok _ |- _ => apply machine_set_reg, H end.
Qed.

Lemma machine_decode_and_execute : keeps I (decode_and_execute (M := M)).
Proof.
  unfold decode_and_execute. do 3 (walk_step; [eauto with machine |]). cbv zeta. do 2 (walk_step; [eauto with machine |]).
  eapply returns_bind; [apply machine_execute, ok_rs1, decode_ok | intros _ _].
  repeat walk_step; eauto using machine_PeripheralEmulations with machine.
Qed.

Lemma machine_CheckPendingInterrupt :
  keeps I (fun s => match CheckPendingInterrupt s.1 with Ok (b, c) => Ok (b, (c, s.2)) | Err e => Err e end).
Proof.
  intros [c m] b s' [Hc Hu Hd Hb Hm]. cbn [fst snd] in *. destruct (CheckPendingInterrupt c) as [[b' c']|] eqn:E; [| done].
  intros [= <- <-]. destruct (CheckPendingInterrupt_keeps _ _ _ Hc E) as [Hc' [= E1 E2 E3 E4 E5 E6]].
  split; [| done]. split; cbn [fst snd]; rewrite ?E4, ?E5, ?E6; done.
Qed.

Lemma machine_step : keeps I (step (M := M)).
Proof.
  unfold step. do 4 (walk_step; [eauto with machine |]).
  eapply returns_bind; [apply machine_CheckPendingInterrupt | intros b _]. walk_step; [by apply returns_ret |].
  do 3 (walk_step; [eauto with machine |]). walk_step; [eauto with machine |]. walk_step; [eauto with machine |].
  apply machine_decode_and_execute.
Qed.

Lemma machine_run_loop fuel : keeps I (run_loop (M := M) fuel).
Proof.
  induction fuel as [|n IH]; cbn [run_loop]; [by apply returns_ret |].
  eapply returns_bind; [apply machine_step | intros _ _]. do 2 (walk_step; [eauto with machine |]).
  walk_step; [exact IH | by apply returns_ret].
Qed.

Lemma machine_RunCpu fuel pc : in_u 64 pc -> keeps I (RunCpu (M := M) fuel pc).
Proof. intros Hpc. unfold RunCpu. repeat walk_step; eauto using machine_run_loop with machine. Qed.
End Loop.

(* ------------------------------------------------------------------ *)
(** ** Register x0 *)

Section Zero.
Context {M : Type} `{GuestMemory M} `{HostOs M}.

(** The part of a turn before decoding does not touch the register file [r]. *)
Definition regs_are (r : zvec) (s : Cpu.t * M) : Prop := reg_ s.1 = r.

Section Frame.
Context (r : zvec).
Local Abbreviation K := (regs_are r).

Lemma regs_field {T} (f : Cpu.t -> T) : keeps K (field f).
Proof. by apply returns_field. Qed.
Lemma regs_get_csr c : keeps K (get_csr c).
Proof. by apply returns_gets. Qed.
Lemma regs_Read w a : keeps K (Read w a).
Proof. intros [c m] v s' Hs. unfold Read, mem_get. destruct (mem_read w _ a); [| done]. by intros [= <- <-]. Qed.
Lemma regs_upd f : (forall s, reg_ (f s) = reg_ s) -> keeps K (upd f).
Proof. intros Hf. apply returns_modify. intros s Hs. unfold regs_are. cbn [fst]. by rewrite Hf. Qed.
Lemma regs_upd_res f : (forall s s', f s = Ok s' -> reg_ s' = reg_ s) -> keeps K (upd_res f).
Proof.
  intros Hf s a s' Hs. unfold upd_res. destruct (f s.1) as [c|] eqn:E; [| done]. intros [= _ <-].
  split; [| done]. unfold regs_are. cbn [fst]. by rewrite (Hf _ _ E).
Qed.
Lemma regs_on_mmu {A} (m : ST (Mmu.t * M) A) : keeps K (on_mmu m).
Proof. by apply (returns_zoom _ (fun _ => True)). Qed.
Lemma regs_on_peripheral {A} (m : ST (Peripheral.t * M) A) : keeps K (on_peripheral m).
Proof. by apply (returns_zoom _ (fun _ => True)). Qed.
Lemma regs_on_device f : keeps K (on_device f).
Proof. by apply regs_upd. Qed.
End Frame.
End Zero.

#[export] Hint Resolve regs_get_csr regs_Read regs_on_mmu regs_on_peripheral regs_on_device : machine.
#[export] Hint Resolve regs_field | 50 : machine.
#[export] Hint Extern 3 (returns (regs_are _) _ (_ ::= _)) => by apply returns_assign : machine.

Lemma Trap_regs cause interrupt s s' : Trap cause interrupt s = Ok s' -> reg_ s' = reg_ s.
Proof.
  destruct (trap_supported cause interrupt) eqn:Hs; [| by unfold Trap; rewrite Hs].
  rewrite Trap_unfold by done. intros [= <-]. transitivity (reg_ (trap_page_fault cause interrupt s)).
  - unfold trap_clear. by destruct (_ && _ && _).
  - by destruct (trap_page_fault_frame cause interrupt s) as (a & b & c & d & ->).
Qed.

Lemma CheckPendingInterrupt_regs s b s' : CheckPendingInterrupt s = Ok (b, s') -> reg_ s' = reg_ s.
Proof.
  unfold CheckPendingInterrupt. cbv zeta.
  repeat match goal with |- (if ?b then _ else _) = _ -> _ => destruct b end;
    try (intros E; apply bind_Ok in E as (s1 & E & [= _ <-]); by eapply Trap_regs).
  by intros [= _ <-].
Qed.

Lemma InterruptCheck_regs s : reg_ (InterruptCheck s) = reg_ s.
Proof.
  assert (Hd : reg_ (DiskInterruptCheck s) = reg_ s) by (unfold DiskInterruptCheck; by destruct (virtio_interrupt_ s)).
  rewrite <- Hd. unfold InterruptCheck, UartInterruptCheck. by destruct (uart_interrupt_ (DiskInterruptCheck s)).
Qed.

Section ZeroLoop.
Context {M : Type} `{GuestMemory M} `{HostOs M}.

Lemma regs_VirtualToPhysical r va write : keeps (regs_are r) (LoadStore.VirtualToPhysical (M := M) va write).
Proof.
  unfold LoadStore.VirtualToPhysical. eapply returns_bind; [by apply regs_upd | intros _ _].
  eapply returns_bind; [by apply (returns_gets _ (fun _ => True)) | intros s _].
  eapply returns_bind; [by apply (returns_lift _ (fun _ => True)) | intros p _].
  eapply returns_bind; [by apply regs_upd | intros _ _].
  eapply returns_bind; [apply regs_get_csr | intros satp _].
  eapply returns_bind; [by apply regs_on_mmu | intros pa _].
  eapply returns_bind; [apply regs_field | intros u _].
  apply (returns_bind _ (fun _ => True)); [| intros _ _; by apply returns_ret]. walk.
Qed.
#[local] Hint Resolve regs_VirtualToPhysical : machine.

Lemma regs_LoadCmd r pc : keeps (regs_are r) (LoadCmd (M := M) pc).
Proof. unfold LoadCmd. walk. Qed.

Lemma regs_TimerTick r : keeps (regs_are r) (LoadStore.TimerTick (M := M)).
Proof.
  unfold LoadStore.TimerTick. repeat walk_step; eauto with machine. by apply regs_upd.
Qed.

(** x0 reads zero. *)
Definition zero_ok (s : Cpu.t * M) : Prop := reg s.1 ZERO = 0.

Lemma zero_keeps {A} (P : A -> Prop) (m : CPU M A) : (forall r, returns (regs_are r) P m) -> returns zero_ok P m.
Proof. intros Hm s a s' Hs E. destruct (Hm (reg_ s.1) s a s' eq_refl E) as [H1 H2]. split; [| done]. unfold zero_ok, reg in *. by rewrite H1. Qed.

(** Whatever the instruction did. *)
Lemma zero_reset {A} (P : A -> Prop) (m : CPU M A) : (forall s, zero_ok s -> forall a s', m s = Ok (a, s') -> zero_ok s' /\ P a) -> returns zero_ok P m.
Proof. intros Hm s a s' Hs. by apply Hm. Qed.

Lemma zero_PeripheralEmulations : keeps zero_ok (PeripheralEmulations (M := M)).
Proof.
  assert (Hset : forall v, keeps zero_ok (set_reg (M := M) A0 v)).
  { intros v. apply returns_modify. intros s Hs. unfold zero_ok, reg, put_reg. cbn [fst]. rsimpl. by rewrite zget_zset_ne. }
  unfold PeripheralEmulations. repeat walk_step; first [ apply Hset | apply zero_keeps; intros; eauto with machine ].
Qed.

Lemma zero_decode_and_execute s a s' : decode_and_execute (M := M) s = Ok (a, s') -> zero_ok s'.
Proof.
  unfold decode_and_execute. cbv zeta. intros E.
  do 8 (apply st_bind_Ok in E as (? & ? & _ & E); cbv beta in E).
  apply st_bind_Ok in E as (u & s1 & Ez & E). assert (Hz : zero_ok s1).
  { injection Ez as _ <-. unfold zero_ok, reg, put_reg. cbn [fst]. rsimpl. by rewrite zget_zset_eq. }
  refine (proj1 ((_ : keeps zero_ok _) s1 a s' Hz E)).
  repeat walk_step; first [ apply zero_PeripheralEmulations | apply zero_keeps; intros; eauto with machine ].
Qed.

Lemma zero_step : keeps zero_ok (step (M := M)).
Proof.
  unfold step. do 4 (walk_step; [apply zero_keeps; intros; eauto using regs_TimerTick, regs_upd, InterruptCheck_regs with machine |]).
  apply (returns_bind _ (fun _ => True)).
  { apply zero_keeps. intros r s b s' Hs. destruct (CheckPendingInterrupt s.1) as [[b' c']|] eqn:E; [| done].
    intros [= <- <-]. split; [| done]. unfold regs_are in *. cbn [fst]. by rewrite (CheckPendingInterrupt_regs _ _ _ E). }
  intros b _. walk_step; [by apply returns_ret |].
  do 3 (walk_step; [apply zero_keeps; intros; eauto using regs_LoadCmd with machine |]).
  walk_step; [apply zero_keeps; intros; eauto with machine |]. walk_step.
  - apply zero_keeps. intros r. apply regs_upd_res. intros ? ?. apply Trap_regs.
  - intros s a' s' _ E. split; [by eapply zero_decode_and_execute | done].
Qed.

Lemma zero_run_loop fuel : keeps zero_ok (run_loop (M := M) fuel).
Proof.
  induction fuel as [|n IH]; cbn [run_loop]; [by apply returns_ret |].
  eapply returns_bind; [apply zero_step | intros _ _].
  do 2 (walk_step; [apply zero_keeps; intros; eauto with machine |]). walk_step; [exact IH | by apply returns_ret].
Qed.
End ZeroLoop.
