(* ===== verification/SyscallSpec.v ===== *)
(** * system_call_emulator.cpp: what the system calls promise the guest

    The bytes a call hands to the host are those of guest memory, the bytes it
    brings back land in the buffer the guest named, and everything else of the
    guest is left alone. *)

From S2P Require Import Prelude BitTools Memory Isa Syscall CpuState LoadStore Invariant.
Import Syscall.

(** A register of the guest. *)
Definition sreg (t : Syscall.t) (r : Z) : Z := zget (Syscall.reg t) r.

(** The [n] bytes of guest memory from [a] on; the address counts modulo 2^64. *)
Definition guest_bytes (f : ByteMem.t) (a : Z) (n : nat) : list Z := map (fun k => f (a + Z.of_nat k)) (seq 0 n).

(** The numbers of the calls that are emulated and let the run go on. *)
Definition continuing_calls : list Z := [64; 214; 63; 80; 57; 1024; 62].

(** The buffer a call may write in guest memory: address and length. *)
Definition written_buffer (t : Syscall.t) : Z * Z :=
  if sreg t A7 =? 63 then (sreg t A1, s32 (sreg t A2))
  else if sreg t A7 =? 80 then (sreg t A1, 88)
  else (0, 0).

(** [b] is one of the [n] addresses from [a] on, modulo 2^32. *)
Definition in_buffer (buffer : Z * Z) (b : Z) : Prop := exists k, 0 <= k < buffer.2 /\ (b - (buffer.1 + k)) mod 2 ^ 32 = 0.

Section Transfers.
Context {M : Type} `{GuestMemoryLaws M}.
Implicit Types (m : M).

Lemma byte_wrap m a : mem_byte m (u64 a) = mem_byte m a.
Proof. rewrite <- (mem_byte_period m (u64 a)), <- (mem_byte_period m a). f_equal. exact (uint_le 32 64 a ltac:(lia)). Qed.

Lemma next_address a : u64 (u64 a + 1) = u64 (a + 1).
Proof using. apply (eqm_add 64 (u64 a) a); [apply uint_eqm; lia | done]. Qed.

Lemma copy_guest_bytes m a n :
  mem_ok m -> MemoryWrapperCopy m (u64 a) n = Ok (guest_bytes (mem_byte m) a n).
Proof.
  intros Hm. revert a. induction n as [|n IH]; intros a; [done |]. cbn [MemoryWrapperCopy].
  rewrite mem_read_spec by (done || auto with rv). change (Z.of_nat (nbytes W8)) with 1. rewrite Z.mod_1_r. cbn [Z.eqb nbytes].
  cbn [mbind res_bind ByteMem.load]. rewrite Z.mul_0_r, Z.add_0_r, next_address, IH, byte_wrap.
  unfold guest_bytes. cbn [seq map mbind res_bind mret res_ret]. rewrite Z.add_0_r, <- seq_shift, map_map.
  do 2 f_equal. apply map_ext. intros k. f_equal. lia.
Qed.

Lemma write_bytes_run a l (t : Syscall.t) m :
  mem_ok m -> Forall (in_u 8) l ->
  exists m', write_bytes (u64 a) l (t, m) = Ok (tt, (t, m')) /\ mem_ok m' /\
    (Z.of_nat (length l) <= 2 ^ 32 -> guest_bytes (mem_byte m') a (length l) = l) /\
    (forall b, ~ in_buffer (a, Z.of_nat (length l)) b -> mem_byte m' b = mem_byte m b).
Proof.
  intros Hm Hl. revert a m Hm. induction Hl as [|v l Hv Hl IH]; intros a m Hm; cbn [write_bytes].
  { exists m. by repeat split. }
  destruct (mem_write_spec W8 m (u64 a) v Hm) as (m1 & E1 & Hm1 & Hb1); [auto with rv | done | by rewrite Z.mod_1_r |].
  destruct (IH (a + 1) m1 Hm1) as (m2 & E2 & Hm2 & Hin & Hout).
  exists m2. split.
  { rewrite (st_bind_run _ _ _ tt (t, m1)) by (unfold mem_put; cbn [fst snd]; by rewrite E1). by rewrite next_address. }
  split; [done |].
  assert (Hstore : forall b, (b - a) mod 2 ^ 32 <> 0 -> mem_byte m1 b = mem_byte m b).
  { intros b Hne. rewrite Hb1. cbn [nbytes]. rewrite (store_congr 1 _ (u64 a) a) by exact (uint_le 32 64 a ltac:(lia)).
    unfold ByteMem.store. cbv zeta. destruct (Z.ltb_spec ((b - a) mod 2 ^ 32) (Z.of_nat 1)); [zlia | done]. }
  split.
  - intros Hlen. unfold guest_bytes in *. cbn [length seq map] in *. rewrite Z.add_0_r. f_equal.
    + rewrite Hout.
      * rewrite Hb1. cbn [nbytes]. rewrite (store_congr 1 _ (u64 a) a) by exact (uint_le 32 64 a ltac:(lia)).
        unfold ByteMem.store. rewrite Z.sub_diag. cbn. rewrite Z.shiftr_0_r. by apply uint_small.
      * intros (k & Hk & E). cbn [fst snd] in *. zlia.
    + rewrite <- seq_shift, map_map. etransitivity; [| apply Hin; lia]. apply map_ext. intros k. f_equal. lia.
  - intros b Hb. rewrite Hout.
    + apply Hstore. intros E. apply Hb. exists 0. cbn [fst snd length]. rewrite Z.add_0_r. lia.
    + intros (k & Hk & E). apply Hb. exists (k + 1). cbn [fst snd length] in *. split; [lia |].
      by replace (b - (a + (k + 1))) with (b - (a + 1 + k)) by lia.
Qed.
End Transfers.

(* ------------------------------------------------------------------ *)
(** ** Everything else is left alone *)

Section Frame.
Context {M : Type} `{HostOsLaws M}.

(** Only A0, the break and the file count of the guest, and the bytes of [buffer],
    may differ from those of [t0] and [f0]. *)
Definition kept (t0 : Syscall.t) (f0 : ByteMem.t) (buffer : Z * Z) (s : Syscall.t * M) : Prop :=
  (forall r : Z, r <> A0 -> sreg s.1 r = sreg t0 r) /\ mem_ok s.2
  /\ forall b, ~ in_buffer buffer b -> mem_byte s.2 b = f0 b.

Section Rules.
Context (t0 : Syscall.t) (f0 : ByteMem.t) (buffer : Z * Z).
Local Abbreviation K := (kept t0 f0 buffer).

Lemma kept_put v : keeps K (reg_put A0 v).
Proof.
  intros [t m] [] s' (Hr & Hm & Hb). intros [= <-]. split; [| done]. split; [| done].
  intros r Hne. unfold sreg. cbn [fst]. rsimpl. rewrite zget_zset_ne; [by apply Hr | by intros <-].
Qed.

Lemma kept_get (r : Registers) : (r : Z) <> A0 -> returns K (eq (sreg t0 r)) (reg_get r).
Proof. intros Hr [t m] v s' Hs. intros [= <- <-]. split; [done |]. symmetry. by apply Hs. Qed.
Lemma kept_get_any r : keeps K (reg_get r).
Proof. intros [t m] v s' Hs. by intros [= <- <-]. Qed.
Lemma kept_brk v : keeps K (brk ::= v).
Proof. by apply returns_assign. Qed.
Lemma kept_handles v : keeps K (Syscall.openHandles ::= v).
Proof. by apply returns_assign. Qed.
Lemma kept_field {T} (f : Syscall.t -> T) : keeps K (field f).
Proof. by apply returns_field. Qed.
Lemma kept_mem_get {A} (f : M -> res A) : keeps K (mem_get f).
Proof. intros [c m] a s' Hs. unfold mem_get. destruct (f _); [| done]. by intros [= <- <-]. Qed.
Lemma kept_new_array n : returns K (fun _ => 0 <= n) (new_array (M := M) n).
Proof. unfold new_array. destruct (Z.ltb_spec n 0); cbn [when]; [done | by apply returns_ret]. Qed.

Lemma kept_host {A} (f : M -> A * M) : (forall m, untouched m (f m).2) -> keeps K (host f).
Proof.
  intros Hf [c m] a s' (Hr & Hm & Hb). unfold host. cbn [fst snd] in *. specialize (Hf m). destruct (f m) as [x m'].
  destruct Hf as [Hm' Hb']. cbn [snd] in *. intros [= <- <-]. split; [| done]. split; [done |]. split; [by apply Hm' |].
  intros b Hbb. cbn [snd]. by rewrite Hb', Hb.
Qed.

Lemma kept_write_bytes a l :
  in_u 64 a -> Forall (in_u 8) l -> buffer = (a, Z.of_nat (length l)) -> keeps K (write_bytes a l).
Proof.
  intros Ha Hl -> [t m] [] s' (Hr & Hm & Hb). cbn [fst snd] in *. destruct (write_bytes_run a l t m Hm Hl) as (m' & E & Hm' & _ & Hout).
  rewrite (uint_small 64 a Ha) in E. rewrite E. intros [= <-]. split; [| done]. split; [done |]. split; [done |].
  intros b Hbb. cbn [snd]. by rewrite Hout, Hb.
Qed.
End Rules.

Create HintDb kept.
#[local] Hint Resolve kept_put kept_get_any kept_brk kept_handles kept_mem_get kept_new_array : kept.
#[local] Hint Resolve kept_field | 50 : kept.
#[local] Hint Extern 2 (returns _ _ (mret _)) => refine (returns_ret _ (fun _ => True) _ I) : kept.
#[local] Hint Extern 3 (returns (kept _ _ _) _ (Syscall.host _)) => apply kept_host; intros ?;
  first [apply os_write_frame | apply os_read_frame | apply os_fstat_frame | apply os_close_frame | apply os_open_frame
        | apply os_lseek_frame] : kept.

Lemma stat_image_length g p : length (stat_image g p) = 88%nat.
Proof. unfold stat_image. by rewrite !length_app. Qed.

Lemma kept_SystemCallEmulation top t0 m0 :
  mem_ok m0 -> in_u 64 (sreg t0 A1) ->
  returns (fun s => kept t0 (mem_byte m0) (written_buffer t0) s)
    (fun r => r = (false, negb (bool_decide (sreg t0 A7 ∈ continuing_calls)))) (SystemCallEmulation (M := M) top).
Proof.
  intros Hm Ha. unfold SystemCallEmulation. eapply returns_bind; [by apply kept_get | intros a7 <-].
  assert (Hret : forall (m : ST (Syscall.t * M) unit), keeps (kept t0 (mem_byte m0) (written_buffer t0)) m ->
    sreg t0 A7 ∈ continuing_calls -> returns (kept t0 (mem_byte m0) (written_buffer t0))
      (fun r => r = (false, negb (bool_decide (sreg t0 A7 ∈ continuing_calls)))) (m;; mret (false, false))).
  { intros m Hk Hin. eapply returns_bind; [exact Hk | intros _ _]. apply returns_ret. by rewrite bool_decide_true. }
  unfold written_buffer in *.
  destruct (Z.eqb_spec (sreg t0 A7) 93) as [E | ?]; [by rewrite E; apply returns_ret |].
  destruct (Z.eqb_spec (sreg t0 A7) 64) as [E | ?].
  { apply Hret; [| rewrite E; decide_it]. unfold sys_write. repeat walk_step; eauto with kept. }
  destruct (Z.eqb_spec (sreg t0 A7) 214) as [E | ?].
  { apply Hret; [| rewrite E; decide_it]. unfold sys_brk. repeat walk_step; eauto with kept. }
  destruct (Z.eqb_spec (sreg t0 A7) 63) as [E | ?].
  { apply Hret; [| rewrite E; decide_it]. unfold sys_read. walk_step; [eauto with kept |].
    eapply returns_bind; [by apply kept_get | intros a2 <-]. cbv zeta.
    eapply returns_bind; [apply kept_new_array | intros ? Hlen]. cbn beta in Hlen. walk_step; [eauto with kept |].
    walk_step. walk_step; [eauto with kept |]. eapply returns_bind; [by apply kept_get | intros va <-].
    apply kept_write_bytes; [done | |].
    - apply Forall_map, Forall_true. intros k. apply uint_range. lia.
    - rewrite length_map, length_seqZ, Z2Nat.id by lia. done. }
  destruct (Z.eqb_spec (sreg t0 A7) 80) as [E | ?].
  { apply Hret; [| rewrite E; decide_it]. unfold sys_fstat. walk_step; [eauto with kept |]. walk_step; [eauto with kept |].
    walk_step. cbv zeta. eapply returns_bind; [by apply kept_get | intros va <-].
    apply (returns_bind _ (fun _ => True)); [| eauto with kept]. apply kept_write_bytes; [done | |].
    - unfold stat_image. rewrite !Forall_app. repeat split; apply le_bytes_range.
    - by rewrite stat_image_length. }
  destruct (Z.eqb_spec (sreg t0 A7) 57) as [E | ?].
  { apply Hret; [| rewrite E; decide_it]. unfold sys_close. repeat walk_step; eauto with kept. }
  destruct (Z.eqb_spec (sreg t0 A7) 1024) as [E | ?].
  { apply Hret; [| rewrite E; decide_it]. unfold sys_open. repeat walk_step; eauto with kept. }
  destruct (Z.eqb_spec (sreg t0 A7) 62) as [E | ?].
  { apply Hret; [| rewrite E; decide_it]. unfold sys_lseek. repeat walk_step; eauto with kept. }
  apply returns_ret. rewrite bool_decide_false; [done |]. unfold continuing_calls.
  rewrite !elem_of_cons, elem_of_nil. intuition congruence.
Qed.
End Frame.

(* ------------------------------------------------------------------ *)
(** ** Reads and writes *)

Section ReadWrite.
Context {M : Type} `{HostOsLaws M}.
Context (t : Syscall.t) (m : M) (n : nat) (Hm : mem_ok m) (Ha : in_u 64 (sreg t A1)) (Hn : s32 (sreg t A2) = Z.of_nat n).

Lemma new_array_run (s : Syscall.t * M) : new_array (Z.of_nat n) s = Ok (tt, s).
Proof using. unfold new_array. by destruct (Z.ltb_spec (Z.of_nat n) 0); [lia |]. Qed.

Lemma sys_write_run r m1 :
  os_write (s32 (sreg t A0)) (guest_bytes (mem_byte m) (sreg t A1) n) (Z.of_nat n) m = (r, m1) ->
  sys_write (t, m) = Ok (tt, (t <| Syscall.reg := zset (Syscall.reg t) A0 (u64 r) |>, m1)).
Proof.
  intros E. unfold sys_write. rewrite (st_bind_run _ _ _ (sreg t A0) (t, m)) by done.
  rewrite (st_bind_run _ _ _ (sreg t A1) (t, m)) by done. rewrite (st_bind_run _ _ _ (sreg t A2) (t, m)) by done. cbv zeta.
  rewrite Hn, Nat2Z.id. rewrite (st_bind_run _ _ _ _ _ (new_array_run (t, m))).
  rewrite (st_bind_run _ _ _ (guest_bytes (mem_byte m) (sreg t A1) n) (t, m)).
  - rewrite (st_bind_run _ _ _ r (t, m1)) by (unfold host; cbn [fst snd]; by rewrite E). done.
  - unfold mem_get. cbn [snd]. pose proof (copy_guest_bytes m (sreg t A1) n Hm) as Hc.
    rewrite (uint_small 64) in Hc by done. by rewrite Hc.
Qed.

Lemma sys_read_run r buffer m1 :
  os_read (s32 (sreg t A0)) (Z.of_nat n) m = ((r, buffer), m1) ->
  exists m2, sys_read (t, m) = Ok (tt, (t <| Syscall.reg := zset (Syscall.reg t) A0 (u32 r) |>, m2))
    /\ (Z.of_nat n <= 2 ^ 32 -> guest_bytes (mem_byte m2) (sreg t A1) n = map (fun i => u8 (buffer i)) (seqZ 0 (Z.of_nat n)))
    /\ forall b, ~ in_buffer (sreg t A1, Z.of_nat n) b -> mem_byte m2 b = mem_byte m b.
Proof.
  intros E. set (t1 := t <| Syscall.reg := zset (Syscall.reg t) A0 (u32 r) |>).
  set (l := map (fun i => u8 (buffer i)) (seqZ 0 (Z.of_nat n))).
  assert (Hl : length l = n) by (unfold l; rewrite length_map, length_seqZ; lia).
  destruct (os_read_frame (s32 (sreg t A0)) (Z.of_nat n) m) as [Hm1 Hsame]. rewrite E in Hm1, Hsame. cbn [snd] in *.
  destruct (write_bytes_run (sreg t A1) l t1 m1 (Hm1 Hm)) as (m2 & E2 & _ & Hin & Hout).
  { apply Forall_map, Forall_true. intros k. apply uint_range. lia. }
  rewrite Hl, (uint_small 64) in * by done. exists m2. split; [| split; [exact Hin | intros b Hb; by rewrite Hout, Hsame]].
  unfold sys_read. rewrite (st_bind_run _ _ _ (sreg t A0) (t, m)) by done.
  rewrite (st_bind_run _ _ _ (sreg t A2) (t, m)) by done. cbv zeta. rewrite Hn.
  rewrite (st_bind_run _ _ _ _ _ (new_array_run (t, m))).
  rewrite (st_bind_run _ _ _ (r, buffer) (t, m1)) by (unfold host; cbn [fst snd]; by rewrite E).
  rewrite (st_bind_run _ _ _ tt (t1, m1)) by done.
  rewrite (st_bind_run _ _ _ (sreg t A1) (t1, m1)); [exact E2 |].
  unfold reg_get, mbind, st_bind, field, mret, st_ret. cbn [fst]. subst t1. rsimpl. by rewrite zget_zset_ne.
Qed.
End ReadWrite.

(* ------------------------------------------------------------------ *)
(** ** Properties *)

(** C27: whatever call the guest makes and whatever the host answers, an emulated
    system call that ends without a fault leaves every register but A0 alone and
    every byte of guest memory outside the buffer of a read or fstat, never reports
    an error, and asks the run to end exactly when the number in A7 is exit or is
    not one of the seven supported calls. *)
Theorem SystemCallEmulation_frame {M} `{HostOsLaws M} (top : Z) (t t' : Syscall.t) (m m' : M) (error end_ : bool) :
  mem_ok m -> in_u 64 (sreg t A1) ->
  SystemCallEmulation top (t, m) = Ok ((error, end_), (t', m')) ->
  (forall r : Z, r <> A0 -> sreg t' r = sreg t r) /\ mem_ok m'
  /\ (forall b, ~ in_buffer (written_buffer t) b -> mem_byte m' b = mem_byte m b)
  /\ error = false /\ (end_ = false <-> sreg t A7 ∈ continuing_calls).
Proof.
  intros Hm Ha E. destruct (kept_SystemCallEmulation top t m Hm Ha (t, m) _ _ ltac:(by repeat split) E) as [(Hr & Hm' & Hb) [= -> ->]].
  repeat split; try done.
  - intros Hn%negb_false_iff%bool_decide_eq_true. done.
  - intros Hin. by rewrite bool_decide_true.
Qed.

(** C24: write hands the host exactly the bytes of guest memory from the address in A1,
    as many as A2 says, and returns the host's answer in A0; read leaves in guest
    memory exactly the bytes the host put in its buffer, at the address in A1. *)
Theorem SystemCallEmulation_transfers {M} `{HostOsLaws M} (top : Z) (t : Syscall.t) (m : M) :
  mem_ok m -> in_u 64 (sreg t A1) -> 0 <= s32 (sreg t A2) ->
  let fd := s32 (sreg t A0) in let a := sreg t A1 in let n := Z.to_nat (s32 (sreg t A2)) in
  (sreg t A7 = 64 ->
   SystemCallEmulation top (t, m) =
   let '(r, m1) := os_write fd (guest_bytes (mem_byte m) a n) (Z.of_nat n) m in
   Ok ((false, false), (t <| Syscall.reg := zset (Syscall.reg t) A0 (u64 r) |>, m1)))
  /\ (sreg t A7 = 63 ->
   let '((r, buffer), m1) := os_read fd (Z.of_nat n) m in
   exists m2, SystemCallEmulation top (t, m) = Ok ((false, false), (t <| Syscall.reg := zset (Syscall.reg t) A0 (u32 r) |>, m2))
     /\ guest_bytes (mem_byte m2) a n = map (fun i => u8 (buffer i)) (seqZ 0 (Z.of_nat n))
     /\ forall b, ~ in_buffer (a, Z.of_nat n) b -> mem_byte m2 b = mem_byte m b).
Proof.
  intros Hm Ha Hlen fd a n. assert (Hn : s32 (sreg t A2) = Z.of_nat n) by (subst n; by rewrite Z2Nat.id).
  assert (H32 : Z.of_nat n <= 2 ^ 32) by (rewrite <- Hn; pose proof (sint_range 32 ltac:(lia) (sreg t A2)) as Hr; unfold in_s in Hr; lia).
  split; intros E7; unfold SystemCallEmulation.
  - destruct (os_write _ _ _ _) as [r m1] eqn:E. rewrite (st_bind_run _ _ _ (sreg t A7) (t, m)) by done. rewrite E7. cbn [Z.eqb Pos.eqb].
    by rewrite (st_bind_run _ _ _ _ _ (sys_write_run t m n Hm Ha Hn r m1 E)).
  - destruct (os_read _ _ _) as [[r buffer] m1] eqn:E. destruct (sys_read_run t m n Hm Ha Hn r buffer m1 E) as (m2 & E2 & Hin & Hout).
    exists m2. split; [| auto]. rewrite (st_bind_run _ _ _ (sreg t A7) (t, m)) by done. rewrite E7. cbn [Z.eqb Pos.eqb].
    by rewrite (st_bind_run _ _ _ _ _ E2).
Qed.

(** Brk: zero asks for the break, an address below the top of the work memory
    becomes the break and is returned, any other is refused with -1; so the break
    never reaches the top. *)
Theorem SystemCallEmulation_brk {M} `{GuestMemory M} `{HostOs M} (top : Z) (t : Syscall.t) (m : M) :
  sreg t A7 = 214 -> in_u 64 (sreg t A0) -> brk t < top ->
  exists t', SystemCallEmulation top (t, m) = Ok ((false, false), (t', m)) /\ brk t' < top
    /\ (brk t', sreg t' A0) =
       if sreg t A0 =? 0 then (brk t, brk t)
       else if sreg t A0 <? top then (sreg t A0, sreg t A0)
       else (brk t, 2 ^ 64 - 1).
Proof.
  intros E7 Ha Hb. unfold SystemCallEmulation. rewrite (st_bind_run _ _ _ (sreg t A7) (t, m)) by done. rewrite E7. cbn [Z.eqb Pos.eqb].
  assert (Hput : forall v, sreg (t <| Syscall.reg := zset (Syscall.reg t) A0 v |>) A0 = v).
  { intros v. unfold sreg. rsimpl. apply zget_zset_eq. }
  assert (E : sys_brk top (t, m) = Ok (tt, (
    if sreg t A0 =? 0 then t <| Syscall.reg := zset (Syscall.reg t) A0 (brk t) |>
    else if sreg t A0 <? top then t <| brk := sreg t A0 |>
    else t <| Syscall.reg := zset (Syscall.reg t) A0 (u64 (-1)) |>, m))).
  { unfold sys_brk. rewrite (st_bind_run _ _ _ (sreg t A0) (t, m)) by done.
    destruct (Z.eqb_spec (sreg t A0) 0); [done |]. by destruct (Z.ltb_spec (sreg t A0) top). }
  rewrite (st_bind_run _ _ _ _ _ E). eexists. split; [reflexivity |].
  destruct (Z.eqb_spec (sreg t A0) 0); [| destruct (Z.ltb_spec (sreg t A0) top)]; rsimpl; rewrite ?Hput; done.
Qed.

(** *** Witnesses *)

(** A guest that calls [number] with three arguments. *)
Definition calling (number a0 a1 a2 : Z) : Syscall.t :=
  Syscall.mk (zset (zset (zset (zset ∅ A7 number) A0 a0) A1 a1) A2 a2) 0x40000000 0.

Lemma SystemCallEmulation_frame_witness :
  match SystemCallEmulation (H0 := console_host MemoryWrapper.t) 0x80000000 (calling 80 1 0x2000 0, MemoryWrapper.MemoryWrapper) with
  | Ok ((error, end_), (t', _)) => error = false /\ sreg t' A1 = 0x2000
  | Err _ => False
  end.
Proof.
  destruct (SystemCallEmulation (H0 := console_host MemoryWrapper.t) 0x80000000 (calling 80 1 0x2000 0, MemoryWrapper.MemoryWrapper))
    as [[[error end_] [t' m']]|] eqn:E; [| vm_compute in E; discriminate E].
  destruct (SystemCallEmulation_frame (H2 := console_host_laws MemoryWrapper.t) 0x80000000 (calling 80 1 0x2000 0) t'
    MemoryWrapper.MemoryWrapper m' error end_ init_mem_ok ltac:(decide_it) E) as (Hr & _ & _ & He & _).
  split; [exact He |]. rewrite Hr; [reflexivity | discriminate].
Defined.

Lemma SystemCallEmulation_transfers_witness :
  SystemCallEmulation (H0 := console_host MemoryWrapper.t) 0x80000000 (calling 64 1 0x2000 3, MemoryWrapper.MemoryWrapper)
  = Ok ((false, false), ((calling 64 1 0x2000 3) <| Syscall.reg := zset (Syscall.reg (calling 64 1 0x2000 3)) A0 3 |>, MemoryWrapper.MemoryWrapper)).
Proof.
  exact (proj1 (SystemCallEmulation_transfers (H2 := console_host_laws MemoryWrapper.t) 0x80000000 (calling 64 1 0x2000 3)
    MemoryWrapper.MemoryWrapper init_mem_ok ltac:(decide_it) ltac:(decide_it)) eq_refl).
Defined.

Lemma SystemCallEmulation_brk_witness :
  exists t', SystemCallEmulation (H0 := console_host MemoryWrapper.t) 0x80000000 (calling 214 0x40001000 0 0, MemoryWrapper.MemoryWrapper)
    = Ok ((false, false), (t', MemoryWrapper.MemoryWrapper)) /\ brk t' = 0x40001000.
Proof.
  destruct (SystemCallEmulation_brk (H0 := console_host MemoryWrapper.t) 0x80000000 (calling 214 0x40001000 0 0)
    MemoryWrapper.MemoryWrapper eq_refl ltac:(decide_it) eq_refl) as (t' & E & _ & Hb).
  exists t'. split; [exact E |]. by injection Hb.
Defined.
