(* ===== verification/FileCalls.v ===== *)
(** * system_call_emulator.cpp: open and fstat

    [open] reads a C string and flags in newlib's encoding from the guest, [fstat]
    writes a structure in newlib's layout to it.  The specifications are the string
    up to its terminating zero, the correspondence of the flags and the table of the
    structure's members. *)

From S2P Require Import Prelude BitTools Memory Isa Syscall CpuState LoadStore Invariant SyscallSpec.
Import Syscall.

(** The path at [a]: [path] is what stands before the first zero byte. *)
Definition c_string (f : ByteMem.t) (a : Z) (path : list Z) : Prop :=
  guest_bytes f a (length path) = path /\ Forall (fun b => b <> 0) path /\ f (a + Z.of_nat (length path)) = 0.

(** newlib's open flags and what each means to the host. *)
Definition newlib_flags {M} `{HostOs M} : list (Z * Z) :=
  [(0x8, O_APPEND); (0x40000, O_CLOEXEC); (0x200, O_CREAT); (0x80000, O_DIRECT); (0x200000, O_DIRECTORY);
   (0x800, O_EXCL); (0x8000, O_NOCTTY); (0x4000, O_NONBLOCK); (0x2000, O_SYNC); (0x400, O_TRUNC)].

(** The host's flags for newlib's: writing asks for both directions. *)
Definition host_flags {M} `{HostOs M} (a1 : Z) : Z :=
  fold_left (fun acc f => acc .| (if Z.testbit a1 (Z.log2 f.1) then u32 f.2 else 0)) newlib_flags
    (u32 (if Z.testbit a1 1 then O_RDWR else O_RDONLY)).

(** newlib's [struct stat]: offset and width of each member with its source. *)
Definition newlib_stat : list (Z * nat * (HostStat -> Z)) :=
  [(0, 2%nat, h_dev); (2, 2%nat, h_ino); (4, 4%nat, h_mode); (8, 2%nat, h_nlink); (10, 2%nat, h_uid); (12, 2%nat, h_gid);
   (14, 2%nat, h_rdev); (16, 4%nat, h_size); (24, 8%nat, h_atim_sec); (40, 8%nat, h_mtim_sec); (56, 8%nat, h_ctim_sec);
   (68, 4%nat, h_blksize); (72, 4%nat, h_blocks)].

(* ------------------------------------------------------------------ *)
(** ** Strings *)

Section Strings.
Context {M : Type} `{GuestMemoryLaws M}.
Implicit Types (m : M).

Lemma read_byte_run m a : mem_ok m -> mem_read W8 m (u64 a) = Ok (mem_byte m a).
Proof.
  intros Hm. rewrite mem_read_spec by (done || apply uint_range; lia). cbn [nbytes].
  rewrite Z.mod_1_r. cbn [Z.eqb ByteMem.load]. by rewrite byte_wrap, Z.mul_0_r, Z.add_0_r.
Qed.

Lemma guest_bytes_cons f a n : guest_bytes f a (S n) = f a :: guest_bytes f (a + 1) n.
Proof using.
  unfold guest_bytes. cbn [seq map]. rewrite Z.add_0_r, <- seq_shift, map_map. f_equal. apply map_ext. intros k. f_equal. lia.
Qed.

Lemma guest_bytes_take f a k n : guest_bytes f a (Nat.min k n) = take k (guest_bytes f a n).
Proof using. unfold guest_bytes. by rewrite firstn_map, take_seq. Qed.

(** The scan stops at the zero byte, or when the room is used up. *)
Lemma strlen_loop_run m a path room c :
  mem_ok m -> c_string (mem_byte m) a path -> 0 <= c -> c + Z.of_nat (length path) < 2 ^ 64 ->
  strlen_loop m (u64 a) room c = Ok (c + Z.of_nat (Nat.min room (length path))).
Proof.
  intros Hm. revert a room c. induction path as [|b path IH]; intros a room c (Hg & Hnz & Hz) Hc Hlen; cbn [length] in *.
  - rewrite Z.add_0_r in Hz. rewrite Nat.min_0_r, Z.add_0_r. destruct room; cbn [strlen_loop]; by rewrite read_byte_run, Hz.
  - rewrite guest_bytes_cons in Hg. injection Hg as Hb Hg. apply Forall_cons in Hnz as [Hne Hnz].
    destruct room as [|room]; cbn [strlen_loop]; rewrite read_byte_run, Hb by done; cbn [mbind res_bind];
      destruct (Z.eqb_spec b 0); try done; cbn [negb]; [by rewrite Z.add_0_r |].
    rewrite next_address, (uint_small 64 (c + 1)), IH; [f_equal; lia | | lia | lia | unfold in_u; lia].
    split; [done |]. split; [done |]. replace (a + 1 + Z.of_nat (length path)) with (a + Z.of_nat (S (length path))) by lia. done.
Qed.
End Strings.

(* ------------------------------------------------------------------ *)
(** ** Flags *)

Lemma flag_test a k : 0 <= k -> negb ((a .& 2 ^ k) =? 0) = Z.testbit a k.
Proof.
  intros Hk. destruct (Z.testbit a k) eqn:E; destruct (Z.eqb_spec (a .& 2 ^ k) 0) as [E0|E0]; try done; exfalso.
  - apply (f_equal (fun y => Z.testbit y k)) in E0. by rewrite Z.land_spec, E, Z.pow2_bits_true, Z.bits_0 in E0.
  - apply E0, Z.bits_inj'. intros i Hi. rewrite Z.land_spec, Z.bits_0, Z.pow2_bits_eqb by lia.
    destruct (Z.eqb_spec k i) as [<-|]; [by rewrite E | apply andb_false_r].
Qed.

Lemma open_flags_spec {M} `{HostOs M} a1 : open_flags a1 = host_flags a1.
Proof.
  unfold open_flags, host_flags, newlib_flags. cbn [fold_left fst snd].
  change 0x000002 with (2 ^ 1). change 0x000008 with (2 ^ 3). change 0x040000 with (2 ^ 18). change 0x000200 with (2 ^ 9).
  change 0x080000 with (2 ^ 19). change 0x200000 with (2 ^ 21). change 0x000800 with (2 ^ 11). change 0x008000 with (2 ^ 15).
  change 0x004000 with (2 ^ 14). change 0x002000 with (2 ^ 13). change 0x000400 with (2 ^ 10).
  rewrite !flag_test by lia. rewrite !Z.log2_pow2 by lia.
  repeat match goal with |- context [if Z.testbit a1 ?k then _ else _] => destruct (Z.testbit a1 k) end; done.
Qed.

(* ------------------------------------------------------------------ *)
(** ** The members of the structure *)

Lemma guest_bytes_lookup f a l k x : guest_bytes f a (length l) = l -> l !! k = Some x -> f (a + Z.of_nat k) = x.
Proof.
  intros Hg Hk. pose proof (lookup_lt_Some _ _ _ Hk) as Hlt. rewrite <- Hg in Hk. unfold guest_bytes in Hk.
  rewrite list_lookup_fmap, lookup_seq_lt in Hk by done. by injection Hk.
Qed.

(** [n] bytes of the image are the little-endian bytes of [v]. *)
Definition holds (l : list Z) (o : nat) (n : nat) (v : Z) : Prop :=
  forall k, (k < n)%nat -> l !! (o + k)%nat = Some (u8 (v >>. (8 * Z.of_nat k))).

Lemma load_member f a l o n v w :
  guest_bytes f a (length l) = l -> holds l o n v -> uint (8 * Z.of_nat n) v = w -> ByteMem.load n f (a + Z.of_nat o) = w.
Proof.
  intros Hg Hh <-. rewrite <- (Z.add_0_r (a + Z.of_nat o)).
  rewrite (ByteMem.load_shifted n f (a + Z.of_nat o) v 0); [by rewrite Z.shiftr_0_r | | lia].
  intros d Hd. pose proof (guest_bytes_lookup f a l _ _ Hg (Hh (Z.to_nat d) ltac:(lia))) as E.
  rewrite Nat2Z.inj_add, Z2Nat.id, Z.add_assoc in E by lia. exact E.
Qed.

Lemma stat_members f a h g pad :
  let l := stat_image (ConvHostStatToGuestStat h g) pad in
  guest_bytes f a (length l) = l ->
  Forall (fun '(o, n, get) => ByteMem.load n f (a + o) = uint (8 * Z.of_nat n) (get h)) newlib_stat.
Proof.
  intros l Hg. unfold newlib_stat.
  repeat (apply Forall_cons; split; [| try apply Forall_nil]); try done;
    (match goal with |- ByteMem.load _ _ (_ + ?o) = _ => change o with (Z.of_nat (Z.to_nat o)) end);
    (eapply load_member; [exact Hg | intros k Hk; do 8 (destruct k as [|k]; [reflexivity || lia |]); lia |]);
    (match goal with |- uint ?w _ = _ => let w' := eval vm_compute in w in change w with w' end);
    first [apply uint_uint; lia | apply uint_sint; lia].
Qed.

(* ------------------------------------------------------------------ *)
(** ** The calls *)

Section Calls.
Context {M : Type} `{HostOsLaws M}.

(** The guest after a call with result [r]. *)
Definition returned (r : Z) (t : Syscall.t) : Syscall.t := t <| Syscall.reg := zset (Syscall.reg t) A0 r |>.

(** The host is given at most [kMax] bytes of the path. *)
Definition opened (path : list Z) (t : Syscall.t) (m : M) : Syscall.t * M :=
  match path with
  | [] => (returned (2 ^ 64 - 1) t, m)
  | _ => let '(r, m1) := os_open (take 1024 path) (s32 (host_flags (sreg t A1))) (sreg t A2) m in
         (returned (u64 (s32 r)) (if 0 <=? s32 r then t <| Syscall.openHandles := s32 (Syscall.openHandles t + 1) |> else t), m1)
  end.

Lemma sys_open_run t (m : M) path :
  mem_ok m -> in_u 64 (sreg t A0) -> c_string (mem_byte m) (sreg t A0) path -> Z.of_nat (length path) < 2 ^ 64 ->
  sys_open (t, m) = Ok (tt, opened path t m).
Proof using.
  intros Hm Ha Hs Hlen. unfold sys_open.
  rewrite (st_bind_run _ _ _ (sreg t A0) (t, m)), (st_bind_run _ _ _ (sreg t A1) (t, m)), (st_bind_run _ _ _ (sreg t A2) (t, m)) by done.
  cbv zeta. rewrite open_flags_spec. set (n := Nat.min 1024 (length path)).
  rewrite (st_bind_run _ _ _ (Z.of_nat n) (t, m)).
  2:{ unfold mem_get, MemoryWrapperStrlen. cbn [snd]. change (Z.to_nat 1024) with 1024%nat.
      rewrite <- (uint_small 64 (sreg t A0)) at 1 by done. by rewrite (strlen_loop_run m _ path). }
  assert (Hcopy : MemoryWrapperCopy m (sreg t A0) n = Ok (take 1024 path)).
  { rewrite <- (uint_small 64 (sreg t A0)), copy_guest_bytes by done. f_equal. destruct Hs as [Hg _]. rewrite <- Hg at 1.
    by rewrite <- guest_bytes_take. }
  unfold opened. destruct path as [|b path].
  - subst n. rewrite Nat.min_0_r. by rewrite (st_bind_run _ _ _ (-1) (t, m)).
  - destruct (Z.ltb_spec 0 (Z.of_nat n)); [| subst n; cbn [length] in *; lia].
    destruct (os_open _ _ _ _) as [r m1] eqn:E.
    rewrite (st_bind_run _ _ _ (s32 r) ((if 0 <=? s32 r then t <| Syscall.openHandles := s32 (Syscall.openHandles t + 1) |> else t), m1)).
    + by destruct (0 <=? s32 r).
    + rewrite Nat2Z.id, (st_bind_run _ _ _ (take 1024 (b :: path)) (t, m)) by (unfold mem_get; cbn [snd]; by rewrite Hcopy).
      rewrite (st_bind_run _ _ _ r (t, m1)) by (unfold host; cbn [fst snd]; by rewrite E). cbv zeta.
      rewrite (st_bind_run _ _ _ (Syscall.openHandles t) (t, m1)) by done. by destruct (0 <=? s32 r).
Qed.

Lemma sys_fstat_run t (m m1 : M) r h :
  mem_ok m -> in_u 64 (sreg t A1) -> os_fstat (s32 (sreg t A0)) m = ((r, h), m1) ->
  exists m2, sys_fstat (t, m) = Ok (tt, (returned (u64 (s32 r)) t, m2)) /\ mem_ok m2 /\
    Forall (fun '(o, n, get) => ByteMem.load n (mem_byte m2) (sreg t A1 + o) = uint (8 * Z.of_nat n) (get h)) newlib_stat /\
    forall b, ~ in_buffer (sreg t A1, 88) b -> mem_byte m2 b = mem_byte m b.
Proof using All.
  intros Hm Ha E. set (l := stat_image (ConvHostStatToGuestStat h stack_stat) stack_padding).
  destruct (os_fstat_frame (s32 (sreg t A0)) m) as [Hm1 Hsame]. rewrite E in Hm1, Hsame. cbn [snd] in *.
  destruct (write_bytes_run (sreg t A1) l t m1 (Hm1 Hm)) as (m2 & E2 & Hm2 & Hin & Hout).
  { unfold l, stat_image. rewrite !Forall_app. repeat split; apply le_bytes_range. }
  assert (Hl : Z.of_nat (length l) = 88) by (unfold l; by rewrite stat_image_length).
  rewrite Hl in Hin, Hout. exists m2. split; [| split; [done |]; split].
  - unfold sys_fstat. rewrite (st_bind_run _ _ _ (sreg t A0) (t, m)) by done.
    rewrite (st_bind_run _ _ _ (r, h) (t, m1)) by (unfold host; cbn [fst snd]; by rewrite E). cbv zeta. fold l.
    rewrite (st_bind_run _ _ _ (sreg t A1) (t, m1)) by done. rewrite <- (uint_small 64 (sreg t A1)) at 1 by done.
    by rewrite (st_bind_run _ _ _ _ _ E2).
  - apply (stat_members _ _ h stack_stat stack_padding). apply Hin. lia.
  - intros b Hb. by rewrite Hout, Hsame.
Qed.
End Calls.

(* ------------------------------------------------------------------ *)
(** ** Properties *)

(** C26: open gives the host the path that stands before the first zero byte at the
    address in A0 (at most 1024 bytes of it) and newlib's flags translated to the
    host's, returns the host's answer in A0 and counts the handle when it is one; an
    empty path is refused with -1 without asking the host. *)
Theorem SystemCallEmulation_open {M} `{HostOsLaws M} (top : Z) (t : Syscall.t) (m : M) (path : list Z) :
  sreg t A7 = 1024 -> mem_ok m -> in_u 64 (sreg t A0) -> c_string (mem_byte m) (sreg t A0) path ->
  Z.of_nat (length path) < 2 ^ 64 ->
  SystemCallEmulation top (t, m) = Ok ((false, false), opened path t m).
Proof.
  intros E7 Hm Ha Hs Hlen. unfold SystemCallEmulation. rewrite (st_bind_run _ _ _ (sreg t A7) (t, m)) by done. rewrite E7.
  cbn [Z.eqb Pos.eqb]. by rewrite (st_bind_run _ _ _ _ _ (sys_open_run t m path Hm Ha Hs Hlen)).
Qed.

(** C25: fstat leaves at the address in A1 newlib's [struct stat]: every member of the
    host's answer is read back from its offset, cut to its width; no other byte of
    guest memory changes and A0 has the host's result. *)
Theorem SystemCallEmulation_fstat {M} `{HostOsLaws M} (top : Z) (t : Syscall.t) (m : M) :
  sreg t A7 = 80 -> mem_ok m -> in_u 64 (sreg t A1) ->
  let '((r, h), _) := os_fstat (s32 (sreg t A0)) m in
  exists m2, SystemCallEmulation top (t, m) = Ok ((false, false), (returned (u64 (s32 r)) t, m2)) /\ mem_ok m2 /\
    Forall (fun '(o, n, get) => ByteMem.load n (mem_byte m2) (sreg t A1 + o) = uint (8 * Z.of_nat n) (get h)) newlib_stat /\
    forall b, ~ in_buffer (sreg t A1, 88) b -> mem_byte m2 b = mem_byte m b.
Proof.
  intros E7 Hm Ha. destruct (os_fstat _ m) as [[r h] m1] eqn:E.
  destruct (sys_fstat_run t m m1 r h Hm Ha E) as (m2 & E2 & Hr). exists m2. split; [| done].
  unfold SystemCallEmulation. rewrite (st_bind_run _ _ _ (sreg t A7) (t, m)) by done. rewrite E7. cbn [Z.eqb Pos.eqb].
  by rewrite (st_bind_run _ _ _ _ _ E2).
Qed.

(** *** Witnesses: a host with one file *)

(** The file "a" can be opened as handle 3 and has 70000 bytes. *)
Definition file_stat : HostStat := mk_host_stat 1 2 0x81A4 1 0 0 0 70000 4096 137 1000 5 2000 6 3000 7.

Definition file_host (M : Type) : HostOs M := {|
  os_write := fun _ _ count m => (count, m);
  os_read := fun _ _ m => ((0, fun _ => 0), m);
  os_fstat := fun fd m => ((if fd =? 3 then 0 else -1, file_stat), m);
  os_close := fun _ m => (0, m);
  os_open := fun path _ _ m => (if bool_decide (path = [0x61]) then 3 else -1, m);
  os_lseek := fun _ _ _ m => (-1, m);
  O_RDWR := 2; O_RDONLY := 0; O_APPEND := 0x400; O_CLOEXEC := 0x80000; O_CREAT := 0x40; O_DIRECT := 0x4000;
  O_DIRECTORY := 0x10000; O_EXCL := 0x80; O_NOCTTY := 0x100; O_NONBLOCK := 0x800; O_SYNC := 0x101000; O_TRUNC := 0x200;
  stack_stat := blank_guest_stat;
  stack_padding := 0
|}.

Lemma file_host_laws M `{GuestMemoryLaws M} : HostOsLaws (H1 := file_host M) M.
Proof. split; by split. Qed.

(** The name of the file at 0x2000. *)
Definition path_memory : MemoryWrapper.t :=
  match write_all MemoryWrapper.MemoryWrapper [(W8, 0x2000, 0x61)] with Ok m => m | Err _ => MemoryWrapper.MemoryWrapper end.

Lemma path_memory_ok : mem_ok path_memory.
Proof.
  apply (write_all_ok MemoryWrapper.MemoryWrapper _ [(W8, 0x2000, 0x61)]);
    [exact MemoryWrapper_init_ok | decide_it | vm_compute; reflexivity].
Qed.

Lemma SystemCallEmulation_open_witness :
  exists t', SystemCallEmulation (H0 := file_host MemoryWrapper.t) 0x80000000 (calling 1024 0x2000 2 0, path_memory)
    = Ok ((false, false), (t', path_memory)) /\ sreg t' A0 = 3 /\ Syscall.openHandles t' = 1.
Proof.
  eexists. split.
  - refine (eq_trans (SystemCallEmulation_open (H2 := file_host_laws MemoryWrapper.t) 0x80000000 (calling 1024 0x2000 2 0)
      path_memory [0x61] eq_refl path_memory_ok ltac:(decide_it) _ eq_refl) _); [| reflexivity].
    split; [vm_compute; reflexivity |]. split; [decide_it | vm_compute; reflexivity].
  - split; vm_compute; reflexivity.
Defined.

Lemma SystemCallEmulation_fstat_witness :
  exists t' m', SystemCallEmulation (H0 := file_host MemoryWrapper.t) 0x80000000 (calling 80 3 0x3000 0, path_memory)
    = Ok ((false, false), (t', m')) /\ ByteMem.load 4 (mem_byte m') 0x3010 = 70000 /\ mem_byte m' 0x2000 = 0x61.
Proof.
  pose proof (SystemCallEmulation_fstat (H2 := file_host_laws MemoryWrapper.t) 0x80000000 (calling 80 3 0x3000 0)
    path_memory eq_refl path_memory_ok ltac:(decide_it)) as Hr.
  change (os_fstat (HostOs := file_host MemoryWrapper.t) (s32 (sreg (calling 80 3 0x3000 0) A0)) path_memory)
    with ((0, file_stat), path_memory) in Hr. cbv beta iota in Hr.
  destruct Hr as (m' & E & _ & Hf & Hb). eexists _, m'. split; [exact E |]. split.
  - unfold newlib_stat in Hf. rewrite !Forall_cons in Hf. destruct Hf as (_ & _ & _ & _ & _ & _ & _ & Hsz & _). exact Hsz.
  - rewrite (Hb 0x2000); [vm_compute; reflexivity |]. intros (k & Hk & Hz). cbn in Hk.
    change (sreg (calling 80 3 0x3000 0) A1) with 0x3000 in Hz. cbn [fst snd] in *. zlia.
Defined.
