(* ===== verification/Bare.v ===== *)
(** * RISCV_cpu.cc: instruction fetch and atomic operations without translation

    In machine mode the fetch assembles the instruction at any even address from
    aligned words, and an atomic operation is a read, a function of the old value
    and the operand ([Amo]), and a write of the same width. *)

From S2P Require Import Prelude BitTools Memory Isa Mmu Peripheral CpuState Csr Trap LoadStore Invariant.
Import Cpu.

(** The instruction at [pc]: 32 bits when its two low bits are set, else 16. *)
Definition fetched (f : ByteMem.t) (pc : Z) : Z :=
  let w := ByteMem.load 4 f pc in if w mod 4 =? 3 then w else w mod 2 ^ 16.

(* ------------------------------------------------------------------ *)
(** ** Words out of halves *)

Lemma land_3 x : x .& 3 = x mod 4.
Proof. change 3 with (Z.ones 2). by rewrite land_mask. Qed.

Lemma land_2_even pc : pc mod 2 = 0 -> ((pc .& 2) =? 2) = (pc mod 4 =? 2).
Proof.
  intros He. change 2 with (3 .& 2) at 1. rewrite Z.land_assoc, land_3.
  assert (pc mod 4 = 0 \/ pc mod 4 = 2) as [-> | ->] by zlia; done.
Qed.

Lemma word_address a : 0 <= a -> (a >>. 2) <<. 2 = a - a mod 4.
Proof. intros. rewrite Z.shiftl_mul_pow2, Z.shiftr_div_pow2 by lia. change (2 ^ 2) with 4. zlia. Qed.

Section Fetch.
Context {M : Type} `{GuestMemoryLaws M}.
Implicit Types (s : Cpu.t) (m : M).

(** A word at a multiple of four, its halves. *)
Lemma load_halves f a : ByteMem.load 4 f a = ByteMem.load 2 f a + 2 ^ 16 * ByteMem.load 2 f (a + 2).
Proof using. exact (ByteMem.load_app 2 2 f a). Qed.

Lemma Read_word a s m :
  mem_ok m -> in_u 64 a -> Read W32 (u64 ((a >>. 2) <<. 2)) (s, m) = Ok (ByteMem.load 4 (mem_byte m) (a - a mod 4), (s, m)).
Proof.
  intros Hm Ha. assert (Hr : in_u 64 (a - a mod 4)) by (unfold in_u in *; zlia).
  rewrite word_address, (uint_small 64) by (done || apply Ha). apply (cpu_Read_run W32); [done | done |].
  cbn [nbytes Z.of_nat Pos.of_succ_nat Pos.succ]. zlia.
Qed.

Lemma half_range m a : mem_ok m -> in_u 16 (ByteMem.load 2 (mem_byte m) a).
Proof. apply (mem_load_range 2). Qed.

Lemma fetched_halves f pc :
  in_u 16 (ByteMem.load 2 f pc) ->
  fetched f pc = let lo := ByteMem.load 2 f pc in
                 if lo mod 4 =? 3 then lo + 2 ^ 16 * ByteMem.load 2 f (pc + 2) else lo.
Proof using.
  intros Hl. unfold fetched. cbv zeta. rewrite load_halves.
  replace ((ByteMem.load 2 f pc + 2 ^ 16 * ByteMem.load 2 f (pc + 2)) mod 4) with (ByteMem.load 2 f pc mod 4) by zlia.
  case_match; [done |]. unfold in_u in Hl. zlia.
Qed.

Lemma low_16 x : in_u 16 x -> x .& 0xFFFF = x.
Proof using. intros Hx. change 0xFFFF with (Z.ones 16). rewrite land_mask by lia. by apply uint_small. Qed.

(** The halves of a word read. *)
Lemma lower_half m a : mem_ok m -> ByteMem.load 4 (mem_byte m) a .& 0xFFFF = ByteMem.load 2 (mem_byte m) a.
Proof.
  intros Hm. pose proof (half_range m a Hm) as Hl. rewrite load_halves.
  change 0xFFFF with (Z.ones 16). rewrite land_mask by lia. unfold uint, in_u in *. zlia.
Qed.

Lemma upper_half m a : mem_ok m -> (ByteMem.load 4 (mem_byte m) (a - 2) >>. 16) .& 0xFFFF = ByteMem.load 2 (mem_byte m) a.
Proof.
  intros Hm. rewrite load_halves, Z.shiftr_div_pow2 by lia. replace (a - 2 + 2) with a by lia.
  pose proof (half_range m (a - 2) Hm) as Hl. pose proof (half_range m a Hm) as Hh.
  set (x := ByteMem.load 2 (mem_byte m) (a - 2)) in *. set (lo := ByteMem.load 2 (mem_byte m) a) in *.
  replace ((x + 2 ^ 16 * lo) / 2 ^ 16) with lo by (unfold in_u in *; zlia). by apply low_16.
Qed.

(** The fetch, given what the translations of its one or two addresses return. *)
Section Translated.
Context (pc pa : Z) (s s1 : Cpu.t) (m m1 : M).
Context (E1 : VirtualToPhysical pc false (s, m) = Ok (pa, (s1, m1))).
Context (Hm1 : mem_ok m1) (Hpa : in_u 64 pa) (Hoff : pa mod 4 = pc mod 4) (Heven : pc mod 2 = 0).
Local Abbreviation lo := (ByteMem.load 2 (mem_byte m1) pa).

Definition straddles (f : ByteMem.t) : bool := (pc mod 4 =? 2) && (ByteMem.load 2 f pa mod 4 =? 3).

Lemma LoadCmd_faults : page_fault_ s1 = true -> exists c, in_u 32 c /\ LoadCmd pc (s, m) = Ok (c, (s1, m1)).
Proof using E1 Hm1 Hpa.
  intros Hf. unfold LoadCmd. rewrite (st_bind_run _ _ _ _ _ E1). cbv zeta.
  rewrite (st_bind_run _ _ _ _ _ (Read_word pa s1 m1 Hm1 Hpa)).
  rewrite (st_bind_run _ _ _ true (s1, m1)) by (unfold field; cbn [fst]; by rewrite Hf). cbn [negb andb].
  eexists. split; [| reflexivity]. pose proof (mem_load_range 4 m1 (pa - pa mod 4) Hm1) as Hr.
  assert (Hmask : forall x, in_u 32 x -> in_u 32 (x .& 0xFFFF)) by (intros; apply in_u_land; [lia | done | decide_it]).
  destruct (_ =? 2); destruct (_ =? 3); repeat (apply Hmask || (apply in_u_shiftr; [lia |])); exact Hr.
Qed.

Lemma LoadCmd_whole : page_fault_ s1 = false -> straddles (mem_byte m1) = false ->
  LoadCmd pc (s, m) = Ok (fetched (mem_byte m1) pa, (s1, m1)).
Proof using E1 Hm1 Hpa Hoff Heven.
  intros Hf Hs. unfold LoadCmd. rewrite (st_bind_run _ _ _ _ _ E1). cbv zeta.
  rewrite (st_bind_run _ _ _ _ _ (Read_word pa s1 m1 Hm1 Hpa)).
  rewrite (st_bind_run _ _ _ false (s1, m1)) by (unfold field; cbn [fst]; by rewrite Hf).
  rewrite land_2_even by done. cbn [negb andb]. rewrite fetched_halves by by apply half_range. cbv zeta.
  unfold straddles in Hs. rewrite Hoff. pose proof (half_range m1 pa Hm1) as Hlo.
  assert (Hc : pc mod 4 = 0 \/ pc mod 4 = 2) by zlia. destruct Hc as [Hc | Hc]; rewrite Hc in Hs |- *; cbn [Z.eqb Pos.eqb andb] in *.
  - unfold mbind, st_bind, mret, st_ret. do 2 f_equal. rewrite land_3, Z.sub_0_r, lower_half, load_halves by done.
    replace ((lo + 2 ^ 16 * ByteMem.load 2 (mem_byte m1) (pa + 2)) mod 4) with (lo mod 4) by zlia. done.
  - rewrite upper_half by done. rewrite land_3, Hs. unfold mbind, st_bind, mret, st_ret. rewrite land_3, Hs. by rewrite low_16.
Qed.

Lemma LoadCmd_straddling pa2 s2 m2 : page_fault_ s1 = false -> straddles (mem_byte m1) = true ->
  VirtualToPhysical (u64 (pc + 2)) false (s1, m1) = Ok (pa2, (s2, m2)) -> mem_ok m2 -> in_u 64 pa2 -> pa2 mod 4 = 0 ->
  LoadCmd pc (s, m) = Ok (lo + 2 ^ 16 * ByteMem.load 2 (mem_byte m2) pa2, (s2, m2)).
Proof using E1 Hm1 Hpa Hoff Heven.
  intros Hf Hs E2 Hm2 Hpa2 Hoff2. unfold LoadCmd. rewrite (st_bind_run _ _ _ _ _ E1). cbv zeta.
  rewrite (st_bind_run _ _ _ _ _ (Read_word pa s1 m1 Hm1 Hpa)).
  rewrite (st_bind_run _ _ _ false (s1, m1)) by (unfold field; cbn [fst]; by rewrite Hf).
  rewrite land_2_even by done. unfold straddles in Hs. apply andb_true_iff in Hs as [Hc Hl]. rewrite Hc.
  apply Z.eqb_eq in Hc. rewrite Hoff, Hc, upper_half by done. rewrite land_3, Hl. cbn [negb andb].
  unfold mbind at 1, st_bind at 1. rewrite (st_bind_run _ _ _ _ _ E2), (st_bind_run _ _ _ _ _ (Read_word pa2 s2 m2 Hm2 Hpa2)).
  rewrite Hoff2, Z.sub_0_r, lower_half by done. apply Z.eqb_eq in Hl.
  pose proof (half_range m1 pa Hm1) as Hlo. pose proof (half_range m2 pa2 Hm2) as Hhi.
  set (hi := ByteMem.load 2 (mem_byte m2) pa2) in *. unfold mret, st_ret. cbv beta. do 2 f_equal. rewrite low_16 by done.
  rewrite (uint_small 32) by (unfold in_u in *; rewrite Z.shiftl_mul_pow2 by lia; lia).
  rewrite Z.lor_comm, lor_low by (lia || done). rewrite land_3.
  replace ((hi * 2 ^ 16 + lo) mod 4) with (lo mod 4) by zlia. rewrite Hl. cbn [Z.eqb Pos.eqb]. lia.
Qed.
End Translated.

Lemma LoadCmd_bare pc s m :
  bare s -> mem_ok m -> in_u 64 pc -> pc mod 2 = 0 ->
  LoadCmd pc (s, m) = Ok (fetched (mem_byte m) pc, (bare_mmu s, m)).
Proof.
  intros Hb Hm Hpc He. pose proof (VirtualToPhysical_bare pc false s m Hb) as E1.
  assert (Hf : page_fault_ (bare_mmu s) = false) by apply Hb.
  destruct (straddles pc pc (mem_byte m)) eqn:Hs; [| by apply LoadCmd_whole].
  pose proof Hs as Hs'. unfold straddles in Hs'. apply andb_true_iff in Hs' as [Hc Hl]. apply Z.eqb_eq in Hc, Hl.
  assert (Hoff : u64 (pc + 2) mod 4 = 0).
  { change 4 with (2 ^ 2). change (uint 2 (uint 64 (pc + 2)) = 0). rewrite uint_le by lia. unfold uint. zlia. }
  rewrite (LoadCmd_straddling pc pc s _ m m E1 Hm Hpc eq_refl He (u64 (pc + 2)) (bare_mmu (bare_mmu s)) m);
    [| done | done | by apply VirtualToPhysical_bare | done | auto with rv | done].
  rewrite fetched_halves by by apply half_range. cbv zeta. rewrite Hl. cbn [Z.eqb Pos.eqb].
  by rewrite (mem_load_congr 2 m (u64 (pc + 2)) (pc + 2)) by exact (uint_le 32 64 (pc + 2) ltac:(lia)).
Qed.
End Fetch.

(* ------------------------------------------------------------------ *)
(** ** Atomic operations *)

(** The operation on [w]-bit words that an AMO instruction performs. *)
Module Amo.
Definition width (i : instruction) : Z :=
  match i with
  | INST_AMOADDD | INST_AMOANDD | INST_AMOMAXD | INST_AMOMAXUD | INST_AMOMIND | INST_AMOMINUD | INST_AMOORD
  | INST_AMOXORD | INST_AMOSWAPD => 64
  | _ => 32
  end.

Definition result (i : instruction) (x y : Z) : option Z :=
  let w := width i in
  match i with
  | INST_AMOADDD | INST_AMOADDW => Some (uint w (x + y))
  | INST_AMOANDD | INST_AMOANDW => Some (x .& y)
  | INST_AMOORD | INST_AMOORW => Some (x .| y)
  | INST_AMOXORD | INST_AMOXORW => Some (x .^ y)
  | INST_AMOMAXD | INST_AMOMAXW => Some (if sint w x <? sint w y then y else x)
  | INST_AMOMIND | INST_AMOMINW => Some (if sint w x <? sint w y then x else y)
  | INST_AMOMAXUD | INST_AMOMAXUW => Some (Z.max x y)
  | INST_AMOMINUD | INST_AMOMINUW => Some (Z.min x y)
  | INST_AMOSWAPD | INST_AMOSWAPW => Some y
  | _ => None
  end.
End Amo.

Lemma SignExtend_32 v : SignExtend 64 v 32 = u64 (s32 v).
Proof. apply SignExtend_spec; lia. Qed.

Lemma max_cases a b : LoadStore.max a b = if a <? b then b else a.
Proof. unfold LoadStore.max. destruct (Z.ltb_spec b a), (Z.ltb_spec a b); lia. Qed.
Lemma min_cases a b : LoadStore.min a b = if a <? b then a else b.
Proof. done. Qed.

(** The value the code writes has the low bits of the specified one: on doublewords. *)
Lemma amo_value_64 i x y z :
  Amo.width i = 64 -> in_u 64 x -> in_u 64 y -> Amo.result i x y = Some z -> amo_value i x y = Ok z.
Proof.
  intros Hw Hx Hy. unfold Amo.result. rewrite Hw. cbv zeta.
  assert (Hs : forall a, in_u 64 a -> u64 (s64 a) = a) by (intros; rewrite uint_sint by lia; by apply uint_small).
  destruct i; try discriminate Hw; intros [= <-]; cbn [amo_value]; try done; f_equal.
  - rewrite max_cases. case_match; by apply Hs.
  - rewrite max_cases. destruct (Z.ltb_spec x y); lia.
  - rewrite min_cases. case_match; by apply Hs.
  - rewrite min_cases. destruct (Z.ltb_spec x y); lia.
Qed.

(** ... and on words, where the old value is sign-extended and the operand is the
    low half of the register. *)
Lemma amo_value_32 i x y z :
  Amo.width i = 32 -> in_u 32 x -> Amo.result i x (uint 32 y) = Some z ->
  exists v, amo_value i (u64 (s32 x)) y = Ok v /\ eqm 32 v z.
Proof.
  intros Hw Hx. unfold Amo.result. rewrite Hw. cbv zeta.
  assert (Hs : forall a, s32 (SignExtend 64 a 32) = s32 a).
  { intros a. rewrite SignExtend_32, sint_uint_le by lia. by apply sint_sint_le. }
  assert (Hl : u32 (u64 (s32 x)) = x) by (rewrite uint_le, uint_sint by lia; by apply uint_small).
  assert (Hu : forall a, eqm 32 (u64 a) a) by (intros; apply uint_eqm; lia).
  assert (Hw' : forall a, eqm 32 (u32 a) a) by (intros; apply uint_eqm; lia).
  assert (Hv : forall a, eqm 32 (s32 a) a) by (intros; apply sint_eqm; lia).
  assert (Hx' : u32 x = x) by by apply uint_small.
  destruct i; try discriminate Hw; intros [= <-]; eexists; (split; [reflexivity |]);
    rewrite ?SignExtend_32, ?max_cases, ?min_cases; rewrite ?Hu, ?Hv, ?Hw'; try done;
    rewrite ?sint_sint_le, ?sint_uint_le by lia; try (case_match; by rewrite ?Hv).
  - rewrite Hx'. destruct (Z.ltb_spec x (u32 y)); apply f_equal; lia.
  - rewrite Hx'. destruct (Z.ltb_spec x (u32 y)); apply f_equal; lia.
Qed.

Section Atomic.
Context {M : Type} `{GuestMemoryLaws M}.
Implicit Types (s : Cpu.t) (m : M).

Lemma amo_width_spec i x y z : Amo.result i x y = Some z -> Amo.width i = 8 * amo_width i /\ (amo_width i = 8 \/ amo_width i = 4).
Proof using. destruct i; intros [= <-]; cbn; auto. Qed.

(** The instruction, given what its two translations give: it reads through the first
    and writes through the second. *)
Lemma AmoInstruction_run i rd rs1 rs2 s m pa s1 m1 pa2 s2 m2 z :
  LoadStore.VirtualToPhysical (reg s rs1) false (s, m) = Ok (pa, (s1, m1)) ->
  LoadStore.VirtualToPhysical (reg s rs1) true (s1, m1) = Ok (pa2, (s2, m2)) ->
  reg_ s1 = reg_ s -> mem_ok m1 -> mem_ok m2 -> in_u 64 pa -> in_u 64 pa2 -> in_u 64 (reg s rs2) ->
  let w := Amo.width i in let n := Z.to_nat (w / 8) in let x := ByteMem.load n (mem_byte m1) pa in
  Amo.result i x (uint w (reg s rs2)) = Some z ->
  exists m', AmoInstruction i rd rs1 rs2 (s, m) = Ok (tt, (put_reg rd (u64 (sint w x)) s2, m'))
    /\ mem_ok m' /\ forall b, mem_byte m' b = ByteMem.store n (mem_byte m2) pa2 z b.
Proof.
  intros E1 E2 Hreg Hm1 Hm2 Hpa Hpa2 Hy w n x Hz. destruct (amo_width_spec i _ _ _ Hz) as [Hw Hc].
  assert (Hn : n = Z.to_nat (amo_width i)) by (subst n w; f_equal; rewrite Hw; zlia).
  assert (Hx : in_u w x).
  { subst x w. rewrite Hw. replace (8 * amo_width i) with (8 * Z.of_nat n) by (rewrite Hn; lia). by apply mem_load_range. }
  unfold AmoInstruction. rewrite (st_bind_run _ _ _ (reg s rs1) (s, m)) by done.
  rewrite (st_bind_run _ _ _ _ _ E1). cbv zeta.
  rewrite (st_bind_run _ _ _ _ _ (LoadWd_run pa (amo_width i) s1 m1 Hm1 Hpa ltac:(lia))). rewrite <- Hn. fold x.
  rewrite (st_bind_run _ _ _ (reg s rs2) (s1, m1)) by (unfold get_reg, gets, reg; cbn [fst]; by rewrite Hreg).
  set (t := if amo_width i =? 4 then SignExtend 64 x 32 else x).
  assert (Hs : t = u64 (sint w x) /\ exists v, amo_value i t (reg s rs2) = Ok v /\ eqm (8 * Z.of_nat n) v z).
  { subst t. rewrite Hn. subst w. destruct Hc as [E | E]; rewrite E in *; cbn [Z.eqb Pos.eqb]; change (8 * 8) with 64 in *;
      change (8 * 4) with 32 in *; rewrite Hw in *.
    - split; [rewrite uint_sint by lia; symmetry; by apply uint_small |]. rewrite (uint_small 64 (reg s rs2)) in Hz by done.
      exists z. split; [by apply amo_value_64 | done].
    - split; [apply SignExtend_32 |]. rewrite SignExtend_32. by apply amo_value_32. }
  destruct Hs as [Ht (v & Hv & Hvz)].
  assert (Htr : in_u 64 t) by (rewrite Ht; apply uint_range; lia).
  assert (Hvr : in_u 64 v) by exact (amo_value_range _ _ _ _ Htr Hy Hv).
  rewrite (st_bind_run _ _ _ v (s1, m1)) by (unfold lift; by rewrite Hv).
  rewrite (st_bind_run _ _ _ _ _ E2).
  destruct (StoreWd_run pa2 v (amo_width i) s2 m2 Hm2 Hpa2 Hvr ltac:(lia)) as (m' & E & Hm' & Hby).
  rewrite (st_bind_run _ _ _ _ _ E). rewrite Ht. exists m'. split; [done |]. split; [done |].
  intros b. rewrite Hby, <- Hn. by apply store_low.
Qed.

Lemma AmoInstruction_bare i rd rs1 rs2 s m z :
  bare s -> mem_ok m -> in_u 64 (reg s rs1) -> in_u 64 (reg s rs2) ->
  let w := Amo.width i in let n := Z.to_nat (w / 8) in let a := reg s rs1 in let x := ByteMem.load n (mem_byte m) a in
  Amo.result i x (uint w (reg s rs2)) = Some z ->
  exists m', AmoInstruction i rd rs1 rs2 (s, m) = Ok (tt, (put_reg rd (u64 (sint w x)) (bare_mmu s), m'))
    /\ mem_ok m' /\ forall b, mem_byte m' b = ByteMem.store n (mem_byte m) a z b.
Proof.
  intros Hb Hm Ha Hy. assert (Hb1 : bare (bare_mmu s)) by done.
  by apply (AmoInstruction_run i rd rs1 rs2 s m _ _ _ _ _ _ z (VirtualToPhysical_bare _ false s m Hb)
    (VirtualToPhysical_bare _ true _ m Hb1)).
Qed.
End Atomic.

(* ------------------------------------------------------------------ *)
(** ** Properties *)

(** The fetch at any even address, without translation, returns the four bytes
    there, little endian, when the low two bits announce a 32-bit instruction, and
    the low two bytes otherwise, although it only reads aligned words (two of them
    when the instruction straddles a word boundary); it changes no memory. *)
Theorem LoadCmd_fetches {M} `{GuestMemoryLaws M} (pc : Z) (s : Cpu.t) (m : M) :
  bare s -> mem_ok m -> in_u 64 pc -> pc mod 2 = 0 ->
  exists s', LoadCmd pc (s, m) = Ok (fetched (mem_byte m) pc, (s', m)) /\ s' = bare_mmu s.
Proof. intros. exists (bare_mmu s). split; [by apply LoadCmd_bare | done]. Qed.

(** An atomic instruction, without translation, leaves the sign-extended old word
    at [rs1] in [rd] and replaces that word, and nothing else in memory, by the
    result of its operation on the old word and [rs2]: wrapping sum, bit operation,
    signed or unsigned extremum, or exchange, on 32 or 64 bits. *)
Theorem AmoInstruction_refines {M} `{GuestMemoryLaws M} (i : instruction) (rd rs1 rs2 z : Z) (s : Cpu.t) (m : M) :
  bare s -> mem_ok m -> in_u 64 (reg s rs1) -> in_u 64 (reg s rs2) ->
  let w := Amo.width i in let n := Z.to_nat (w / 8) in let a := reg s rs1 in let x := ByteMem.load n (mem_byte m) a in
  Amo.result i x (uint w (reg s rs2)) = Some z ->
  exists m', AmoInstruction i rd rs1 rs2 (s, m) = Ok (tt, (put_reg rd (u64 (sint w x)) (bare_mmu s), m'))
    /\ mem_ok m' /\ forall b, mem_byte m' b = ByteMem.store n (mem_byte m) a z b.
Proof. apply AmoInstruction_bare. Qed.

(** *** Witnesses *)

(** A 32-bit instruction that straddles a word boundary. *)
Lemma LoadCmd_fetches_witness :
  exists m s', write_all (M := MemoryWrapper.t) MemoryWrapper.MemoryWrapper [(W32, 0x1000, 0x02930001); (W32, 0x1004, 0x00010010)] = Ok m
    /\ LoadCmd 0x1002 (RiscvCpu 0 true, m) = Ok (0x00100293, (s', m)).
Proof.
  set (l := [(W32, 0x1000, 0x02930001); (W32, 0x1004, 0x00010010)]).
  destruct (write_all (M := MemoryWrapper.t) MemoryWrapper.MemoryWrapper l) as [m|] eqn:E; [| vm_compute in E; discriminate E].
  assert (Hm : mem_ok (M := MemoryWrapper.t) m).
  { refine (write_all_ok (M := MemoryWrapper.t) MemoryWrapper.MemoryWrapper m l MemoryWrapper_init_ok _ E). decide_it. }
  exists m. destruct (LoadCmd_fetches 0x1002 (RiscvCpu 0 true) m ltac:(repeat split) Hm ltac:(decide_it) eq_refl) as (s' & E' & _).
  exists s'. split; [reflexivity |]. replace (fetched (mem_byte m) 0x1002) with 0x00100293 in E'; [exact E' |].
  vm_compute in E. injection E as <-. vm_compute. reflexivity.
Defined.

Lemma AmoInstruction_refines_witness :
  let s := put_reg 2 0xFFFFFFFE (put_reg 1 0x2000 (RiscvCpu 0 true)) in
  exists m', AmoInstruction INST_AMOADDW 5 1 2 (s, MemoryWrapper.MemoryWrapper) = Ok (tt, (put_reg 5 0 (bare_mmu s), m')).
Proof.
  intros s. destruct (AmoInstruction_refines INST_AMOADDW 5 1 2 0xFFFFFFFE s MemoryWrapper.MemoryWrapper
    ltac:(repeat split) init_mem_ok ltac:(decide_it) ltac:(decide_it) eq_refl) as (m' & E & _). exists m'. exact E.
Defined.
