(* ===== verification/Paged.v ===== *)
(** * RISCV_cpu.cc: loads, stores and atomics under address translation

    With translation on, a load or a store goes through the page tables: it either
    works on the bytes at the translated address and sets the accessed and dirty
    bits, or traps to the handler with the faulting address.  An access that crosses a
    multiple of eight bytes has two parts, translated one after the other.  [Access]
    specifies this over the flat byte memory; for the second part of a load it has
    both the manual's address and the one the code uses. *)

From S2P Require Import Prelude BitTools Memory Isa Pte Mmu Peripheral CpuState Csr Trap LoadStore Invariant Bare.
Import Cpu.

Module Access.
Section Access.
  Context (fmt : PageTable.format) (root : Z).

(** The physical address of [va] and the memory after the access bits are set;
    [None]: page fault. *)
Definition resolve (f : ByteMem.t) (write : bool) (va : Z) : option (Z * ByteMem.t) :=
  match PageTable.translate fmt f root va with
  | Some (pa, a, pte) => Some (pa, PageTable.touch fmt f write a pte)
  | None => None
  end.

(** How an access ends: done at a physical address, or with a page fault. *)
Inductive outcome : Type := Done (pa : Z) | Fault (va : Z).

(** A store of [w] bytes in two parts, the first up to a multiple of eight bytes. *)
Definition store (f : ByteMem.t) (va w v : Z) : ByteMem.t * outcome :=
  let k := Z.min w (8 - va mod 8) in
  match resolve f true va with
  | None => (f, Fault va)
  | Some (pa, f) =>
      let f := ByteMem.store (Z.to_nat k) f pa v in
      if k =? w then (f, Done pa)
      else match resolve f true (u64 (va + k)) with
           | None => (f, Fault (u64 (va + k)))
           | Some (pa', f) => (ByteMem.store (Z.to_nat (w - k)) f pa' (v / 2 ^ (8 * k)), Done pa)
           end
  end.

(** A load of [w] bytes, in two parts like the store: the value, the memory and the
    outcome.  The second part is at the virtual address after the first; [near] says
    from where that is counted: the manual counts from the virtual address of the
    access ([manual_near]), the code from the physical address of the first part
    ([code_near]). *)
Definition manual_near (va pa : Z) : Z := va.
Definition code_near (va pa : Z) : Z := pa.

Definition load_parts (near : Z -> Z -> Z) (f : ByteMem.t) (va w : Z) : option Z * ByteMem.t * outcome :=
  let k := Z.min w (8 - va mod 8) in
  match resolve f false va with
  | None => (None, f, Fault va)
  | Some (pa, f) =>
      let low := ByteMem.load (Z.to_nat k) f pa in
      if k =? w then (Some low, f, Done pa)
      else
        let next := u64 (near va pa + k) in
        match resolve f false next with
        | None => (None, f, Fault next)
        | Some (pa', f) => (Some (low + 2 ^ (8 * k) * ByteMem.load (Z.to_nat (w - k)) f pa'), f, Done pa)
        end
  end.

(** The two agree on a load that is not split, and where the page is its own image. *)
Lemma load_parts_agree f va w :
  va mod 8 + w <= 8 \/ option_map fst (resolve f false va) = Some va ->
  load_parts code_near f va w = load_parts manual_near f va w.
Proof using.
  unfold load_parts. destruct (resolve f false va) as [[pa g]|]; [| done]. intros [Hw | [= ->]]; [| done].
  by rewrite Z.min_l, Z.eqb_refl by lia.
Qed.

(** A load within eight bytes: the value and the memory. *)
Definition load (f : ByteMem.t) (va w : Z) : option (Z * ByteMem.t) :=
  match resolve f false va with
  | Some (pa, f) => Some (ByteMem.load (Z.to_nat w) f pa, f)
  | None => None
  end.

(** A fetch, of two halves when it crosses a word: the instruction and the memory. *)
Definition fetch (f : ByteMem.t) (pc : Z) : option Z * ByteMem.t * outcome :=
  match resolve f false pc with
  | None => (None, f, Fault pc)
  | Some (pa, f) =>
      if (pc mod 4 =? 2) && (ByteMem.load 2 f pa mod 4 =? 3) then
        match resolve f false (u64 (pc + 2)) with
        | None => (None, f, Fault (u64 (pc + 2)))
        | Some (pa', f') => (Some (ByteMem.load 2 f pa + 2 ^ 16 * ByteMem.load 2 f' pa'), f', Done pa)
        end
      else (Some (fetched f pa), f, Done pa)
  end.
End Access.
End Access.

(* ------------------------------------------------------------------ *)
(** ** Translation by the processor *)

(** The MMU as the processor sets it up for an access with privilege [p]. *)
Definition mmu_for (p : PrivilegeMode) (s : Cpu.t) : Mmu.t := Mmu.SetPrivilege p (Mmu.SetMxl (mxl_ s) (mmu_ s)).

(** Translation is on, through the table at page [root], and no fault is pending. *)
Record paging (fmt : PageTable.format) (root : Z) (p : PrivilegeMode) (s : Cpu.t) : Prop := {
  pg_mode : effective_privilege s = Ok p;
  pg_regime : regime_of (mmu_for p s) (csr s SATP) = Paged fmt root;
  pg_fault : page_fault_ s = false
}.

(** The processor after a translation, and after one that faulted. *)
Definition translating (p : PrivilegeMode) (s : Cpu.t) : Cpu.t := s <| mmu_ := cleared (mmu_for p s) |>.
Definition page_faulted (p : PrivilegeMode) (va : Z) (s : Cpu.t) : Cpu.t :=
  s <| mmu_ := faulted (cleared (mmu_for p s)) va |> <| page_fault_ := true |> <| faulting_address_ := va |>.

Section Paged.
Context {M : Type} `{GuestMemoryLaws M} (fmt : PageTable.format) (root : Z) (p : PrivilegeMode).
Implicit Types (s : Cpu.t) (m : M).

Lemma paging_translating s : paging fmt root p s -> paging fmt root p (translating p s).
Proof using. intros []. by split. Qed.

Lemma effective_privilege_mmu u s : effective_privilege (s <| mmu_ := u |>) = effective_privilege s.
Proof using. done. Qed.

(** Whether or not a fault is pending already. *)
Lemma VirtualToPhysical_regime va write s m :
  mem_ok m -> effective_privilege s = Ok p -> regime_of (mmu_for p s) (csr s SATP) = Paged fmt root ->
  match Access.resolve fmt root (mem_byte m) write va with
  | Some (pa, f) => exists m', LoadStore.VirtualToPhysical va write (s, m) = Ok (pa, (translating p s, m')) /\ mem_ok m' /\
      forall b, mem_byte m' b = f b
  | None => LoadStore.VirtualToPhysical va write (s, m) = Ok (va, (page_faulted p va s, m))
  end.
Proof.
  intros Hm Hp Hr. unfold Access.resolve.
  pose proof (VirtualToPhysical_spec (mmu_for p s) m va (csr s SATP) write Hm) as Ht. unfold translates, implements in Ht.
  rewrite Hr in Ht. cbn [fst snd] in Ht.
  assert (E : LoadStore.VirtualToPhysical va write (s, m) =
    match Mmu.VirtualToPhysical va (csr s SATP) write (mmu_for p s, m) with
    | Ok (pa, (u, m')) => Ok (pa, (if Mmu.page_fault_ u then s <| mmu_ := u |> <| page_fault_ := true |>
        <| faulting_address_ := Mmu.faulting_address_ u |> else s <| mmu_ := u |>, m'))
    | Err e => Err e
    end).
  { unfold LoadStore.VirtualToPhysical.
    rewrite (st_bind_run _ _ _ tt (s <| mmu_ := Mmu.SetMxl (mxl_ s) (mmu_ s) |>, m)) by done.
    set (s1 := s <| mmu_ := _ |>). rewrite (st_bind_run _ _ _ s1 (s1, m)) by done.
    rewrite (st_bind_run _ _ _ p (s1, m)) by (unfold s1, lift; by rewrite effective_privilege_mmu, Hp).
    set (s2 := s1 <| mmu_ := Mmu.SetPrivilege p (mmu_ s1) |>). rewrite (st_bind_run _ _ _ tt (s2, m)) by done.
    rewrite (st_bind_run _ _ _ (csr s SATP) (s2, m)) by done.
    unfold mbind at 1, st_bind at 1, on_mmu, zoom. cbn [fst snd]. change (mmu_ s2) with (mmu_for p s).
    destruct (Mmu.VirtualToPhysical va (csr s SATP) write (mmu_for p s, m)) as [[pa [u m']]|]; [| done].
    cbn [fst snd]. set (s3 := s2 <| mmu_ := u |>).
    rewrite (st_bind_run _ _ _ u (s3, m')) by done. unfold Mmu.GetPageFault, Mmu.GetFaultingAddress.
    destruct (Mmu.page_fault_ u); reflexivity. }
  rewrite E. destruct (PageTable.translate _ _ _ _) as [[[pa a] pte]|].
  - destruct Ht as (m' & -> & Hm' & Hb). exists m'. by repeat split.
  - by rewrite Ht.
Qed.

Lemma VirtualToPhysical_paged va write s m :
  mem_ok m -> paging fmt root p s ->
  match Access.resolve fmt root (mem_byte m) write va with
  | Some (pa, f) => exists m', LoadStore.VirtualToPhysical va write (s, m) = Ok (pa, (translating p s, m')) /\ mem_ok m' /\
      forall b, mem_byte m' b = f b
  | None => LoadStore.VirtualToPhysical va write (s, m) = Ok (va, (page_faulted p va s, m))
  end.
Proof. intros Hm []. by apply VirtualToPhysical_regime. Qed.

Lemma paging_format s : paging fmt root p s -> fmt = PageTable.sv32 \/ fmt = PageTable.sv39.
Proof using.
  intros [_ Hr _]. revert Hr. unfold regime_of. repeat case_match; intros [= <- _]; auto.
Qed.

(** A physical address is a word with the page offset of the virtual one. *)
Lemma resolve_address s f write va pa f' :
  paging fmt root p s -> Access.resolve fmt root f write va = Some (pa, f') -> in_u 64 pa /\ pa mod 8 = va mod 8.
Proof using.
  intros Hp. unfold Access.resolve, PageTable.translate.
  destruct (PageTable.walk _ _ _ _ _) as [[[l a] pte]|]; [| done]. destruct (PageTable.aligned _ _ _); [| done].
  intros [= <- _]. unfold PageTable.physical.
  assert (Hs : 3 <= PageTable.span fmt l) by (unfold PageTable.span; destruct (paging_format s Hp) as [-> | ->]; cbn; lia).
  assert (Hb : 3 <= PageTable.pa_bits fmt <= 64) by (destruct (paging_format s Hp) as [-> | ->]; cbn; lia).
  assert (Hmod : forall x k, 3 <= k -> (x mod 2 ^ k) mod 8 = x mod 8).
  { intros x k Hk. change 8 with (2 ^ 3). exact (uint_le 3 k x ltac:(lia)). }
  split; [apply (in_u_mono (PageTable.pa_bits fmt)); [lia | apply uint_range; lia] |].
  rewrite Hmod by lia. rewrite <- (Hmod va (PageTable.span fmt l)) by lia. zlia.
Qed.

Lemma resolve_ext f g write va :
  (forall b, f b = g b) ->
  match Access.resolve fmt root f write va, Access.resolve fmt root g write va with
  | Some (pa, f'), Some (pa', g') => pa = pa' /\ forall b, f' b = g' b
  | None, None => True
  | _, _ => False
  end.
Proof using.
  intros Hb. unfold Access.resolve. rewrite (translate_ext _ f g _ _ Hb).
  destruct (PageTable.translate _ g _ _) as [[[pa a] pte]|]; [| done]. split; [done |].
  intros b. by apply ByteMem.store_ext.
Qed.

(** The trap of a page fault. *)
Lemma page_fault_trap cause va s :
  cpu_ok s -> in_u 64 va -> page_fault_cause cause = true -> trap_supported cause kException = true ->
  exists s', Trap cause kException (page_faulted p va s) = Ok s' /\ cpu_ok s' /\
    trap_effect cause kException (s <| faulting_address_ := va |>) s' /\ peripheral_ s' = peripheral_ s /\
    switches s' = switches s /\ error_flag_ s' = error_flag_ s || repeated va s.
Proof using.
  intros [Hcsr Hpc Hn Hf Hi] Hva Hc Hs.
  assert (Hok : cpu_ok (page_faulted p va s)) by (split; [by apply (csr_ok_same s) | done ..]).
  destruct (Trap_correct cause kException _ Hok Hs) as (s' & E & _ & Ht).
  destruct (Trap_keeps _ _ _ _ Hok E) as [Hok' [= _ _ _ _ Hp _]].
  destruct (Trap_flags _ _ _ _ E) as [Hsw Her]. rewrite Hc in Her.
  exists s'. split; [done |]. split; [done |]. split; [by destruct Ht |]. by split.
Qed.

(** *** Loads *)

(** How the processor ends an access that faulted at [va]; a fault at the address of
    the fault before it counts as an error. *)
Definition faults (cause va : Z) s (s' : Cpu.t) : Prop :=
  cpu_ok s' /\ trap_effect cause kException (s <| faulting_address_ := va |>) s' /\ peripheral_ s' = peripheral_ s /\
  switches s' = switches s /\ error_flag_ s' = error_flag_ s || repeated va s.

(** What an access that succeeded leaves alone. *)
Definition proceeds s (s' : Cpu.t) : Prop :=
  csrs_ s' = csrs_ s /\ pc_ s' = pc_ s /\ next_pc_ s' = next_pc_ s /\ settings s' = settings s.

(** The devices have been told. *)
Lemma proceeds_device s c d : proceeds s c -> timer d = timer (peripheral_ c) -> proceeds s (c <| peripheral_ := d |>).
Proof using. intros (H1 & H2 & H3 & H4) E. repeat (split; [done |]). rewrite settings_device; done. Qed.

(** The pattern of every translated access: go on with the physical address, or
    trap. *)
Lemma translate_or_trap va write cause s m (k : Z -> CPU M unit) (Q : Cpu.t -> M -> Prop) :
  cpu_ok s -> mem_ok m -> paging fmt root p s -> in_u 64 va ->
  page_fault_cause cause = true -> trap_supported cause kException = true ->
  (forall pa f m', Access.resolve fmt root (mem_byte m) write va = Some (pa, f) -> in_u 64 pa -> pa mod 8 = va mod 8 ->
    mem_ok m' -> (forall b, mem_byte m' b = f b) ->
    exists s'' m'', k pa (translating p s, m') = Ok (tt, (s'', m'')) /\ Q s'' m'') ->
  (forall s', Access.resolve fmt root (mem_byte m) write va = None -> faults cause va s s' -> Q s' m) ->
  exists s' m', (address ← LoadStore.VirtualToPhysical va write; fault ← field page_fault_;
                 if fault : bool then upd_res (Trap cause kException) else k address) (s, m) = Ok (tt, (s', m')) /\ Q s' m'.
Proof.
  intros Hok Hm Hp Hva Hc Hs Hgo Htrap. pose proof (VirtualToPhysical_paged va write s m Hm Hp) as Hv.
  destruct (Access.resolve fmt root (mem_byte m) write va) as [[pa f]|] eqn:Er.
  - destruct Hv as (m1 & E1 & Hm1 & Hb1). destruct (resolve_address s _ _ _ _ _ Hp Er) as [Hpa Hoff].
    rewrite (st_bind_run _ _ _ _ _ E1).
    rewrite (st_bind_run _ _ _ false (translating p s, m1)) by (unfold field; cbn [fst]; by destruct Hp as [_ _ <-]).
    by apply (Hgo pa f).
  - rewrite (st_bind_run _ _ _ _ _ Hv), (st_bind_run _ _ _ true (page_faulted p va s, m)) by done.
    destruct (page_fault_trap cause va s Hok Hva Hc Hs) as (s' & E & Hf). exists s', m.
    unfold upd_res. cbn [fst snd]. rewrite E. split; [done |]. by apply Htrap.
Qed.

(** The values of loads are within their widths. *)
Lemma load_range_of m (f : ByteMem.t) n a :
  mem_ok m -> 0 <= n -> (forall b, mem_byte m b = f b) -> in_u (8 * n) (ByteMem.load (Z.to_nat n) f a).
Proof.
  intros Hm Hn Hf. rewrite <- (ByteMem.load_ext (Z.to_nat n) _ f a (fun b _ => Hf b)).
  replace (8 * n) with (8 * Z.of_nat (Z.to_nat n)) by lia. by apply mem_load_range.
Qed.

Lemma joined_range k w lo hi :
  0 <= k <= w -> in_u (8 * k) lo -> in_u (8 * (w - k)) hi -> in_u (8 * w) (lo + 2 ^ (8 * k) * hi).
Proof using.
  unfold in_u. intros Hk Hlo Hhi. replace (8 * w) with (8 * k + 8 * (w - k)) by lia. rewrite Z.pow_add_r by lia.
  assert (0 < 2 ^ (8 * k)) by (apply Z.pow_pos_nonneg; lia). nia.
Qed.

Lemma cpu_ok_translating s : cpu_ok s -> cpu_ok (translating p s).
Proof using. intros []. split; [by apply (csr_ok_same s) | done ..]. Qed.

Lemma faults_translating cause va s s' : faults cause va (translating p s) s' -> faults cause va s s'.
Proof using. intros (Hok & Ht & Hrest). split; [done |]. split; [by destruct Ht | exact Hrest]. Qed.

(** How a load that ended as specified leaves processor and memory. *)
Definition loaded (i : instruction) (rd w : Z) s (r : option Z * ByteMem.t * Access.outcome) (s' : Cpu.t) (m' : M) : Prop :=
  (forall b, mem_byte m' b = r.1.2 b) /\
  match r.2 with
  | Access.Done pa => (exists v, r.1.1 = Some v /\ reg_ s' = zset (reg_ s) rd (load_value i v)) /\ proceeds s s' /\
      peripheral_ s' = Peripheral.CheckDeviceRead pa w (peripheral_ s)
  | Access.Fault a => faults LOAD_PAGE_FAULT a s s'
  end.

Lemma load_parts_paged i rd rs1 imm w s m :
  cpu_ok s -> mem_ok m -> paging fmt root p s -> in_u 64 (Peripheral.elapsed_cycles_ (peripheral_ s)) -> GetLoadWidth i = Ok w ->
  let va := u64 (reg s rs1 + imm) in
  let f := ByteMem.store 8 (mem_byte m) Peripheral.kTimerMtime (Peripheral.elapsed_cycles_ (peripheral_ s)) in
  exists s' m', LoadInstruction i rd rs1 imm (s, m) = Ok (tt, (s', m')) /\ mem_ok m' /\
    loaded i rd w s (Access.load_parts fmt root Access.code_near f va w) s' m'.
Proof.
  intros Hok Hm Hp He Hw va f. pose proof (GetLoadWidth_cases i w Hw) as Hc. pose proof (width_bounds w Hc) as Hwb.
  assert (Hva : forall a, in_u 64 (u64 a)) by (intros; apply uint_range; lia).
  unfold LoadInstruction. destruct (MemoryMappedValueUpdate_run s m Hm He) as (m1 & E1 & Hm1 & Hb1).
  rewrite (st_bind_run _ _ _ _ _ E1). rewrite (st_bind_run _ _ _ (reg s rs1) (s, m1)) by done. cbv zeta. fold va.
  pose proof (resolve_ext (mem_byte m1) f false va Hb1) as Hext. unfold Access.load_parts.
  apply translate_or_trap; [done | done | done | apply Hva | done | done | intros pa g m2 Er Hpa Hoff Hm2 Hb2 | intros s' Er Hf];
    rewrite Er in Hext; destruct (Access.resolve fmt root f false va) as [[pa' g']|]; try done.
  destruct Hext as [<- Hg]. rewrite Hw. cbn [lift]. rewrite (st_bind_run _ _ _ w (translating p s, m2)) by done.
  pose proof (access_bounds w pa Hc) as Hac. rewrite <- Hoff, <- GetAccessWidth_spec by done. set (k := GetAccessWidth w pa) in *.
  rewrite (st_bind_run _ _ _ _ _ (LoadWd_run pa k (translating p s) m2 Hm2 Hpa ltac:(lia))).
  assert (Hg2 : forall b, mem_byte m2 b = g' b) by (intros b; by rewrite Hb2, Hg).
  assert (Hlow : in_u (8 * k) (ByteMem.load (Z.to_nat k) g' pa)) by (apply (load_range_of m2 g' k pa); [done | lia | done]).
  rewrite (ByteMem.load_ext (Z.to_nat k) _ g' pa (fun b _ => Hg2 b)).
  destruct (Z.ltb_spec 0 (w - k)) as [Hlt | Hge].
  2:{ assert (k = w) as -> by lia. rewrite Z.eqb_refl. eexists _, m2. split; [reflexivity |]. split; [done |]. split; [exact Hg2 |].
      cbn [fst snd]. split; [eexists; split; [reflexivity |]; cbn [fst]; by rewrite (load_value_ok i w _ Hw Hlow) |].
      split; [| done]. exact (proceeds_device s s _ ltac:(done) (CheckDeviceRead_timer _ _ _)). }
  replace (k =? w) with false by (symmetry; apply Z.eqb_neq; lia). unfold Access.code_near.
  pose proof (resolve_ext (mem_byte m2) g' false (u64 (pa + k)) Hg2) as Hext.
  apply translate_or_trap; [by apply cpu_ok_translating | done | by apply paging_translating | apply Hva | done | done
    | intros pa2 h m3 Er2 Hpa2 _ Hm3 Hb3 | intros s' Er2 Hf]; rewrite Er2 in Hext;
    destruct (Access.resolve _ _ g' _ _) as [[pa2' h']|]; try done.
  - destruct Hext as [<- Hh]. rewrite (st_bind_run _ _ _ _ _ (LoadWd_run pa2 (w - k) _ m3 Hm3 Hpa2 ltac:(lia))).
    assert (Hh3 : forall b, mem_byte m3 b = h' b) by (intros b; by rewrite Hb3, Hh).
    assert (Hhigh : in_u (8 * (w - k)) (ByteMem.load (Z.to_nat (w - k)) h' pa2)) by (apply (load_range_of m3 h' (w - k) pa2); [done | lia | done]).
    rewrite (ByteMem.load_ext (Z.to_nat (w - k)) _ h' pa2 (fun b _ => Hh3 b)).
    rewrite (join_halves _ _ k (w - k)) by (done || lia).
    eexists _, m3. split; [reflexivity |]. split; [done |]. split; [exact Hh3 |]. cbn [fst snd].
    split; [eexists; split; [reflexivity |]; rewrite (load_value_ok i w _ Hw); [done | by apply joined_range; try lia] |].
    split; [| done]. exact (proceeds_device s s _ ltac:(done) (CheckDeviceRead_timer _ _ _)).
  - split; [done |]. split; [exact Hg2 |]. by apply faults_translating.
Qed.

(** A load within eight bytes has one part. *)
Lemma load_paged i rd rs1 imm w s m :
  cpu_ok s -> mem_ok m -> paging fmt root p s -> in_u 64 (Peripheral.elapsed_cycles_ (peripheral_ s)) -> GetLoadWidth i = Ok w ->
  let va := u64 (reg s rs1 + imm) in
  let f := ByteMem.store 8 (mem_byte m) Peripheral.kTimerMtime (Peripheral.elapsed_cycles_ (peripheral_ s)) in
  va mod 8 + w <= 8 ->
  exists s' m', LoadInstruction i rd rs1 imm (s, m) = Ok (tt, (s', m')) /\ mem_ok m' /\
    match Access.load fmt root f va w with
    | Some (v, f') => (forall b, mem_byte m' b = f' b) /\ reg_ s' = zset (reg_ s) rd (load_value i v) /\ proceeds s s'
    | None => (forall b, mem_byte m' b = f b) /\ faults LOAD_PAGE_FAULT va s s'
    end.
Proof.
  intros Hok Hm Hp He Hw va f Hin. destruct (load_parts_paged i rd rs1 imm w s m Hok Hm Hp He Hw) as (s' & m' & E & Hm' & Hb & Hr).
  exists s', m'. split; [done |]. split; [done |]. revert Hb Hr. fold va f. unfold Access.load_parts, Access.load.
  rewrite Z.min_l, Z.eqb_refl by lia. destruct (Access.resolve fmt root f false va) as [[pa g]|]; cbn [fst snd]; [| done].
  intros Hb ((v & [= <-] & Hv) & Hpr & _). done.
Qed.

(** *** Stores *)
Lemma store_paged i rd rs1 rs2 imm w s m :
  cpu_ok s -> mem_ok m -> paging fmt root p s -> in_u 64 (reg s rs2) -> GetStoreWidth i = Ok w ->
  let va := u64 (reg s rs1 + imm) in
  let r := Access.store fmt root (mem_byte m) va w (reg s rs2) in
  exists s' m', StoreInstruction i rd rs1 rs2 imm (s, m) = Ok (tt, (s', m')) /\ mem_ok m' /\
    (forall b, mem_byte m' b = r.1 b) /\
    match r.2 with
    | Access.Done pa => reg_ s' = reg_ s /\ proceeds s s' /\
        peripheral_ s' = Peripheral.CheckDeviceWrite pa w (reg s rs2) (peripheral_ s)
    | Access.Fault a => faults STORE_PAGE_FAULT a s s'
    end.
Proof.
  intros Hok Hm Hp Hd Hw va r. pose proof (GetStoreWidth_cases i w Hw) as Hc. pose proof (width_bounds w Hc) as Hwb.
  assert (Hva : forall a, in_u 64 (u64 a)) by (intros; apply uint_range; lia). subst r. unfold Access.store.
  rewrite <- (GetAccessWidth_spec w va Hc). pose proof (access_bounds w va Hc) as Hac.
  unfold StoreInstruction. rewrite (st_bind_run _ _ _ (reg s rs1) (s, m)) by done. cbv zeta. fold va.
  apply translate_or_trap; [done | done | done | apply Hva | done | done | intros pa f1 m1 Er Hpa _ Hm1 Hb1 | intros s' Er Hf]; rewrite Er; [| done].
  rewrite Hw. cbn [lift]. rewrite (st_bind_run _ _ _ w (translating p s, m1)) by done.
  rewrite (st_bind_run _ _ _ (reg s rs2) (translating p s, m1)) by done. set (v := reg s rs2) in *. set (k := GetAccessWidth w va) in *.
  destruct (StoreWd_run pa (v .& u64 (GenerateBitMask (k * 8))) k (translating p s) m1 Hm1 Hpa) as (m2 & E2 & Hm2 & Hb2);
    [auto with rv | lia |]. rewrite (st_bind_run _ _ _ _ _ E2).
  assert (Hfirst : forall b, mem_byte m2 b = ByteMem.store (Z.to_nat k) f1 pa v b).
  { intros b. rewrite Hb2, (store_low _ _ _ _ v) by (rewrite Z2Nat.id by lia; apply store_mask; lia). by apply ByteMem.store_ext. }
  destruct (Z.ltb_spec 0 (w - k)) as [Hlt | Hge].
  2:{ replace (k =? w) with true by (symmetry; apply Z.eqb_eq; lia). eexists _, m2. split; [reflexivity |]. split; [done |]. split; [exact Hfirst |]. split; [done |]. split; [| done].
    exact (proceeds_device s s _ ltac:(done) (CheckDeviceWrite_timer _ _ _ _)). }
  replace (k =? w) with false by (symmetry; apply Z.eqb_neq; lia).
  pose proof (resolve_ext (mem_byte m2) _ true (u64 (va + k)) Hfirst) as Hext.
  apply translate_or_trap; [by apply cpu_ok_translating | done | by apply paging_translating | apply Hva | done | done
    | intros pa2 g m3 Er2 Hpa2 _ Hm3 Hb3 | intros s' Er2 Hf]; rewrite Er2 in Hext;
    destruct (Access.resolve _ _ (ByteMem.store _ _ _ _) _ _) as [[pa2' g']|]; try done.
  - destruct Hext as [<- Hg].
    destruct (StoreWd_run pa2 (v >>. (k * 8)) (w - k) (translating p (translating p s)) m3 Hm3 Hpa2) as (m4 & E4 & Hm4 & Hb4);
      [apply in_u_shiftr; [lia | done] | lia |]. rewrite (st_bind_run _ _ _ _ _ E4).
    eexists _, m4. split; [reflexivity |]. split; [done |]. split.
    2:{ split; [done |]. split; [| done]. exact (proceeds_device s s _ ltac:(done) (CheckDeviceWrite_timer _ _ _ _)). }
    cbn [fst]. intros b.
    rewrite Hb4, Z.shiftr_div_pow2 by lia. replace (k * 8) with (8 * k) by lia. apply ByteMem.store_ext. by rewrite Hb3, Hg.
  - split; [done |]. split; [done |]. by apply faults_translating.
Qed.

(** *** Fetch *)

Lemma mod_4_of_8 x y : x mod 8 = y mod 8 -> x mod 4 = y mod 4.
Proof using. intros E. zlia. Qed.

Lemma fetch_paged pc s m :
  mem_ok m -> paging fmt root p s -> in_u 64 pc -> pc mod 2 = 0 ->
  let '(ir, f, o) := Access.fetch fmt root (mem_byte m) pc in
  exists c s' m', LoadCmd pc (s, m) = Ok (c, (s', m')) /\ mem_ok m' /\ (forall b, mem_byte m' b = f b) /\
    match o with
    | Access.Done _ => ir = Some c /\ page_fault_ s' = false /\ exists u, s' = s <| mmu_ := u |>
    | Access.Fault a => page_fault_ s' = true /\ in_u 32 c /\ exists u, s' = s <| mmu_ := u |> <| page_fault_ := true |> <| faulting_address_ := a |>
    end.
Proof.
  intros Hm Hp Hpc He. unfold Access.fetch. pose proof (VirtualToPhysical_paged pc false s m Hm Hp) as Hv.
  destruct (Access.resolve fmt root (mem_byte m) false pc) as [[pa f]|] eqn:Er.
  2:{ destruct (LoadCmd_faults pc pc s _ m m Hv Hm Hpc eq_refl) as (c & Hc & E). exists c, (page_faulted p pc s), m.
      split; [done |]. split; [done |]. split; [done |]. split; [done |]. split; [done |]. by eexists. }
  destruct Hv as (m1 & E1 & Hm1 & Hb1). destruct (resolve_address s _ _ _ _ _ Hp Er) as [Hpa Hoff]. apply mod_4_of_8 in Hoff.
  assert (Hf : page_fault_ (translating p s) = false) by apply Hp.
  assert (El : forall a, ByteMem.load 2 f a = ByteMem.load 2 (mem_byte m1) a) by (intros; by apply ByteMem.load_ext).
  assert (Hfe : fetched f pa = fetched (mem_byte m1) pa) by (unfold fetched; by rewrite (ByteMem.load_ext 4 f (mem_byte m1))).
  rewrite El, Hfe. fold (straddles pc pa (mem_byte m1)). destruct (straddles pc pa (mem_byte m1)) eqn:Hs.
  2:{ exists (fetched (mem_byte m1) pa), (translating p s), m1. split; [by apply LoadCmd_whole |].
      split; [done |]. split; [done |]. split; [done |]. split; [done |]. by eexists. }
  pose proof (paging_translating s Hp) as Hp2. set (va := u64 (pc + 2)). assert (Hva : in_u 64 va) by (apply uint_range; lia).
  pose proof Hs as Hs'. unfold straddles in Hs'. apply andb_true_iff in Hs' as [Hc _]. apply Z.eqb_eq in Hc.
  assert (Hva4 : va mod 4 = 0).
  { change 4 with (2 ^ 2). change (uint 2 (uint 64 (pc + 2)) = 0). rewrite uint_le by lia. unfold uint. zlia. }
  pose proof (VirtualToPhysical_paged va false _ m1 Hm1 Hp2) as Hv2.
  pose proof (resolve_ext (mem_byte m1) f false va Hb1) as Hext.
  destruct (Access.resolve fmt root (mem_byte m1) false va) as [[pa2 g]|] eqn:Er2;
    destruct (Access.resolve fmt root f false va) as [[pa2' g']|]; try done.
  - destruct Hext as [<- Hg], Hv2 as (m2 & E2 & Hm2 & Hb2). destruct (resolve_address _ _ _ _ _ _ Hp2 Er2) as [Hpa2 Hoff2].
    apply mod_4_of_8 in Hoff2. rewrite Hva4 in Hoff2.
    eexists _, _, m2. split; [by apply (LoadCmd_straddling pc pa s _ m m1 E1 Hm1 Hpa Hoff He pa2 _ m2 Hf Hs E2) |].
    split; [done |]. split; [intros b; by rewrite Hb2, Hg |]. split; [| split; [done | by eexists]].
    by rewrite (ByteMem.load_ext 2 g' (mem_byte m2)) by (intros; by rewrite Hb2, Hg).
  - eexists _, _, m1. split; [by apply (LoadCmd_straddling pc pa s _ m m1 E1 Hm1 Hpa Hoff He va _ m1 Hf Hs Hv2) |].
    split; [done |]. split; [done |]. split; [done |]. split; [| by eexists].
    pose proof (half_range m1 pa Hm1) as Hlo. pose proof (half_range m1 va Hm1) as Hhi. unfold in_u in *. lia.
Qed.

(** *** Atomics *)

(** The write translation of an address whose read translation succeeded. *)
Lemma resolve_again s f va pa f1 :
  (forall b, in_u 8 (f b)) -> paging fmt root p s -> Access.resolve fmt root f false va = Some (pa, f1) ->
  exists f2, Access.resolve fmt root f1 true va = Some (pa, f2).
Proof using.
  intros Hf Hp. unfold Access.resolve. destruct (PageTable.translate fmt f root va) as [[[pa1 a] pte]|] eqn:T; [| done].
  intros [= -> <-]. assert (Hbits : 0 <= PageTable.ppn_bits fmt <= 64) by (destruct (paging_format s Hp) as [-> | ->]; cbn; lia).
  rewrite (translate_touch fmt f false root va pa a pte va Hf Hbits T), T. cbn [option_map]. eauto.
Qed.

Lemma amo_paged i rd rs1 rs2 s m :
  mem_ok m -> paging fmt root p s -> in_u 64 (reg s rs1) -> in_u 64 (reg s rs2) ->
  let w := Amo.width i in let n := Z.to_nat (w / 8) in let va := reg s rs1 in
  match Access.resolve fmt root (mem_byte m) false va with
  | Some (pa, f1) => forall z, Amo.result i (ByteMem.load n f1 pa) (uint w (reg s rs2)) = Some z ->
      exists f2 s' m', Access.resolve fmt root f1 true va = Some (pa, f2) /\
        AmoInstruction i rd rs1 rs2 (s, m) = Ok (tt, (s', m')) /\ mem_ok m' /\
        (forall b, mem_byte m' b = ByteMem.store n f2 pa z b) /\
        reg_ s' = zset (reg_ s) rd (u64 (sint w (ByteMem.load n f1 pa))) /\ proceeds s s' /\ page_fault_ s' = false
  | None => forall z, Amo.result i (ByteMem.load n (mem_byte m) va) (uint w (reg s rs2)) = Some z ->
      exists s' m', AmoInstruction i rd rs1 rs2 (s, m) = Ok (tt, (s', m')) /\ mem_ok m' /\
        (forall b, mem_byte m' b = ByteMem.store n (mem_byte m) va z b) /\
        reg_ s' = zset (reg_ s) rd (u64 (sint w (ByteMem.load n (mem_byte m) va))) /\
        page_fault_ s' = true /\ faulting_address_ s' = va /\ csrs_ s' = csrs_ s /\ next_pc_ s' = next_pc_ s
  end.
Proof.
  intros Hm Hp Ha Hb w n va. pose proof (VirtualToPhysical_paged va false s m Hm Hp) as Hv.
  pose proof (paging_translating s Hp) as Hp2.
  destruct (Access.resolve fmt root (mem_byte m) false va) as [[pa f1]|] eqn:Er; intros z Hz.
  - destruct Hv as (m1 & E1 & Hm1 & Hb1). destruct (resolve_address s _ _ _ _ _ Hp Er) as [Hpa _].
    destruct (resolve_again s _ va pa f1 (fun b => mem_byte_range m b Hm) Hp Er) as (f2 & Er2). exists f2.
    pose proof (VirtualToPhysical_paged va true _ m1 Hm1 Hp2) as Hv2. pose proof (resolve_ext _ f1 true va Hb1) as Hext.
    rewrite Er2 in Hext. destruct (Access.resolve fmt root (mem_byte m1) true va) as [[pa2 g]|]; [| done].
    destruct Hext as [-> Hg], Hv2 as (m2 & E2 & Hm2 & Hb2).
    assert (El : ByteMem.load n f1 pa = ByteMem.load n (mem_byte m1) pa) by (by apply ByteMem.load_ext).
    rewrite El in Hz |- *.
    destruct (AmoInstruction_run i rd rs1 rs2 s m _ _ _ _ _ _ z E1 E2 eq_refl Hm1 Hm2 Hpa Hpa Hb Hz) as (m' & E & Hm' & Hby).
    eexists _, m'. split; [done |]. split; [exact E |]. split; [done |]. split; [| by repeat split; apply Hp].
    intros b. rewrite Hby. apply ByteMem.store_ext. by rewrite Hb2, Hg.
  - set (s1 := page_faulted p va s) in *.
    assert (E2 : LoadStore.VirtualToPhysical va true (s1, m) = Ok (va, (page_faulted p va s1, m))).
    { pose proof (VirtualToPhysical_regime va true s1 m Hm (pg_mode _ _ _ _ Hp) (pg_regime _ _ _ _ Hp)) as Hv2.
      unfold Access.resolve in Er, Hv2. by destruct (PageTable.translate _ _ _ _) as [[[??]?]|]. }
    destruct (AmoInstruction_run i rd rs1 rs2 s m _ _ _ _ _ _ z Hv E2 eq_refl Hm Hm Ha Ha Hb Hz) as (m' & E & Hm' & Hby).
    eexists _, m'. split; [exact E |]. by repeat split.
Qed.
End Paged.

(* ------------------------------------------------------------------ *)
(** ** Properties *)

(** C9: a load of any width and alignment under Sv32 or Sv39 translation in any
    privilege mode (MPRV included) always ends without a fault of the emulator.  The
    bytes up to the next multiple of eight are those at the translated address of the
    access, the others those at the translation of the address that follows; [rd]
    gets the extended value, each page read is marked accessed and the device is told
    of the read.  A part whose translation fails traps as a load page fault at that
    part's address, [rd] unchanged.  In either case MTIME is refreshed first; no other
    byte of memory changes, no CSR but those of the trap.  The address that follows
    is counted, as the code does it, from the physical address of the first part
    ([Access.code_near]).  The manual counts from the virtual address
    ([Access.manual_near]): the load is the manual's when it lies within eight bytes
    or the first part is mapped to its own address, and not in general. *)
Theorem LoadInstruction_translates {M} `{GuestMemoryLaws M} (fmt : PageTable.format) (root : Z) (p : PrivilegeMode)
    (i : instruction) (rd rs1 imm w : Z) (s : Cpu.t) (m : M) :
  cpu_ok s -> mem_ok m -> paging fmt root p s -> in_u 64 (Peripheral.elapsed_cycles_ (peripheral_ s)) -> GetLoadWidth i = Ok w ->
  let va := u64 (reg s rs1 + imm) in
  let f := ByteMem.store 8 (mem_byte m) Peripheral.kTimerMtime (Peripheral.elapsed_cycles_ (peripheral_ s)) in
  exists s' m', LoadInstruction i rd rs1 imm (s, m) = Ok (tt, (s', m')) /\ mem_ok m' /\
    loaded i rd w s (Access.load_parts fmt root Access.code_near f va w) s' m' /\
    (va mod 8 + w <= 8 \/ option_map fst (Access.resolve fmt root f false va) = Some va ->
     loaded i rd w s (Access.load_parts fmt root Access.manual_near f va w) s' m').
Proof.
  intros Hok Hm Hp He Hw va f. destruct (load_parts_paged fmt root p i rd rs1 imm w s m Hok Hm Hp He Hw) as (s' & m' & E & Hm' & Hl).
  exists s', m'. split; [done |]. split; [done |]. split; [exact Hl |].
  intros Hs. by rewrite <- (Access.load_parts_agree fmt root f va w Hs).
Qed.

(** C8: a store of any width and alignment under translation: each of its one or two
    parts goes to its own translated address and marks its page accessed and dirty;
    a part whose translation fails traps as a store page fault at that part's
    address and is not stored; registers and every other byte are kept. *)
Theorem StoreInstruction_translates {M} `{GuestMemoryLaws M} (fmt : PageTable.format) (root : Z) (p : PrivilegeMode)
    (i : instruction) (rd rs1 rs2 imm w : Z) (s : Cpu.t) (m : M) :
  cpu_ok s -> mem_ok m -> paging fmt root p s -> in_u 64 (reg s rs2) -> GetStoreWidth i = Ok w ->
  let va := u64 (reg s rs1 + imm) in
  let r := Access.store fmt root (mem_byte m) va w (reg s rs2) in
  exists s' m', StoreInstruction i rd rs1 rs2 imm (s, m) = Ok (tt, (s', m')) /\ mem_ok m' /\
    (forall b, mem_byte m' b = r.1 b) /\
    match r.2 with
    | Access.Done pa => reg_ s' = reg_ s /\ proceeds s s' /\
        peripheral_ s' = Peripheral.CheckDeviceWrite pa w (reg s rs2) (peripheral_ s)
    | Access.Fault a => faults STORE_PAGE_FAULT a s s'
    end.
Proof. apply store_paged. Qed.

(** C10: an atomic instruction under Sv32 or Sv39 translation.  When its page is mapped,
    [rd] gets the sign-extended old value at the physical address, the combination of
    it with the operand is stored there, and the page is marked accessed and dirty.
    When it is not, the instruction does not trap: it reads and writes physical memory
    at the virtual address itself and leaves the page fault pending, for the next fetch
    to find. *)
Theorem AmoInstruction_translates {M} `{GuestMemoryLaws M} (fmt : PageTable.format) (root : Z) (p : PrivilegeMode)
    (i : instruction) (rd rs1 rs2 : Z) (s : Cpu.t) (m : M) :
  mem_ok m -> paging fmt root p s -> in_u 64 (reg s rs1) -> in_u 64 (reg s rs2) ->
  let w := Amo.width i in let n := Z.to_nat (w / 8) in let va := reg s rs1 in
  match Access.resolve fmt root (mem_byte m) false va with
  | Some (pa, f1) => forall z, Amo.result i (ByteMem.load n f1 pa) (uint w (reg s rs2)) = Some z ->
      exists f2 s' m', Access.resolve fmt root f1 true va = Some (pa, f2) /\
        AmoInstruction i rd rs1 rs2 (s, m) = Ok (tt, (s', m')) /\ mem_ok m' /\
        (forall b, mem_byte m' b = ByteMem.store n f2 pa z b) /\
        reg_ s' = zset (reg_ s) rd (u64 (sint w (ByteMem.load n f1 pa))) /\ proceeds s s' /\ page_fault_ s' = false
  | None => forall z, Amo.result i (ByteMem.load n (mem_byte m) va) (uint w (reg s rs2)) = Some z ->
      exists s' m', AmoInstruction i rd rs1 rs2 (s, m) = Ok (tt, (s', m')) /\ mem_ok m' /\
        (forall b, mem_byte m' b = ByteMem.store n (mem_byte m) va z b) /\
        reg_ s' = zset (reg_ s) rd (u64 (sint w (ByteMem.load n (mem_byte m) va))) /\
        page_fault_ s' = true /\ faulting_address_ s' = va /\ csrs_ s' = csrs_ s /\ next_pc_ s' = next_pc_ s
  end.
Proof. apply amo_paged. Qed.

(** The fetch at any even address under translation returns the instruction at
    the translated address, its upper half from the next page's translation when
    it straddles a word boundary; a failed translation raises the page-fault flag
    with the address of the half that is not mapped; nothing but the MMU's and the
    fault's bookkeeping changes in the processor. *)
Theorem LoadCmd_translates {M} `{GuestMemoryLaws M} (fmt : PageTable.format) (root : Z) (p : PrivilegeMode)
    (pc : Z) (s : Cpu.t) (m : M) :
  mem_ok m -> paging fmt root p s -> in_u 64 pc -> pc mod 2 = 0 ->
  let '(ir, f, o) := Access.fetch fmt root (mem_byte m) pc in
  exists c s' m', LoadCmd pc (s, m) = Ok (c, (s', m')) /\ mem_ok m' /\ (forall b, mem_byte m' b = f b) /\
    match o with
    | Access.Done _ => ir = Some c /\ page_fault_ s' = false /\ exists u, s' = s <| mmu_ := u |>
    | Access.Fault a => page_fault_ s' = true /\ in_u 32 c /\ exists u, s' = s <| mmu_ := u |> <| page_fault_ := true |> <| faulting_address_ := a |>
    end.
Proof. apply fetch_paged. Qed.

(** *** Witnesses: the sample tables of the MMU in supervisor mode *)

Definition sample_paged (a : Z) : Cpu.t :=
  put_reg 2 0x1122334455667788 (put_reg 1 a (put_csr SATP sample_satp (RiscvCpu 0 true) <| privilege_ := SUPERVISOR_MODE |>)).

Lemma sample_paging a : paging PageTable.sv39 1 SUPERVISOR_MODE (sample_paged a).
Proof. by split. Qed.

Lemma sample_paged_ok a : in_u 64 a -> cpu_ok (sample_paged a).
Proof.
  intros Ha. split; [| decide_it ..]. unfold sample_paged. apply csr_ok_put_reg; [| decide_it]. apply csr_ok_put_reg; [| done].
  apply csr_ok_put_csr; [apply csr_ok_privilege, RiscvCpu_csr_ok | decide_it | |];
    intros [H | [H | H]]; vm_compute in H; discriminate H.
Qed.

(** A load from a missing page; and one that is split on a mapped page, whose second
    part the code looks for after the physical address of the first. *)
Lemma LoadInstruction_translates_witness :
  (exists s' m', LoadInstruction INST_LD 5 1 0 (sample_paged 0x50000000, sample_memory) = Ok (tt, (s', m')) /\
    privilege_ s' = MACHINE_MODE /\ csr s' MTVAL = 0x50000000) /\
  (exists s' m', LoadInstruction INST_LD 5 1 0 (sample_paged 0x40200FF5, sample_memory) = Ok (tt, (s', m')) /\
    csr s' MTVAL = 0x80401FF8).
Proof.
  split.
  - destruct (LoadInstruction_translates PageTable.sv39 1 SUPERVISOR_MODE INST_LD 5 1 0 8 (sample_paged 0x50000000) sample_memory
      (sample_paged_ok 0x50000000 ltac:(decide_it)) sample_memory_ok (sample_paging _) ltac:(decide_it) eq_refl)
      as (s' & m' & E & _ & _ & Hr).
    exists s', m'. split; [exact E |]. destruct (Hr ltac:(left; vm_compute; discriminate)) as [_ Ho]. revert Ho.
    match goal with |- match ?o with _ => _ end -> _ => replace o with (Access.Fault 0x50000000) by (vm_compute; reflexivity) end.
    intros (_ & [H1 _ _ _ H5 _ _ _ _ _] & _). split; [exact H1 | exact H5].
  - destruct (LoadInstruction_translates PageTable.sv39 1 SUPERVISOR_MODE INST_LD 5 1 0 8 (sample_paged 0x40200FF5) sample_memory
      (sample_paged_ok 0x40200FF5 ltac:(decide_it)) sample_memory_ok (sample_paging _) ltac:(decide_it) eq_refl)
      as (s' & m' & E & _ & [_ Ho] & _).
    exists s', m'. split; [exact E |]. revert Ho.
    match goal with |- match ?o with _ => _ end -> _ => replace o with (Access.Fault 0x80401FF8) by (vm_compute; reflexivity) end.
    intros (_ & [_ _ _ _ H5 _ _ _ _ _] & _). exact H5.
Defined.

Lemma StoreInstruction_translates_witness :
  exists s' m', StoreInstruction INST_SD 0 1 2 0 (sample_paged 0x40200FFD, sample_memory) = Ok (tt, (s', m')) /\
    csr s' MTVAL = 0x40201000 /\ mem_byte m' 0x80401FFE = 0x77.
Proof.
  destruct (StoreInstruction_translates PageTable.sv39 1 SUPERVISOR_MODE INST_SD 0 1 2 0 8 (sample_paged 0x40200FFD) sample_memory
    (sample_paged_ok 0x40200FFD ltac:(decide_it)) sample_memory_ok (sample_paging _) ltac:(decide_it) eq_refl)
    as (s' & m' & E & _ & Hb & Hr).
  exists s', m'. split; [exact E |].
  match type of Hr with match ?o with _ => _ end => assert (Ho : o = Access.Fault 0x40201000) by (vm_compute; reflexivity); rewrite Ho in Hr end.
  destruct Hr as (_ & Ht & _). destruct Ht as [_ _ _ _ H5 _ _ _ _ _]. split; [exact H5 |]. rewrite (Hb 0x80401FFE). vm_compute. reflexivity.
Defined.

(** On the mapped page the word at 0x80401FF0 becomes the low half of x2; at an
    address without a page the word of physical memory is overwritten. *)
Lemma AmoInstruction_translates_witness :
  (exists s' m', AmoInstruction INST_AMOSWAPW 5 1 2 (sample_paged 0x40200FF0, sample_memory) = Ok (tt, (s', m')) /\
    mem_byte m' 0x80401FF3 = 0x55 /\ page_fault_ s' = false) /\
  (exists s' m', AmoInstruction INST_AMOSWAPW 5 1 2 (sample_paged 0x50000000, sample_memory) = Ok (tt, (s', m')) /\
    mem_byte m' 0x50000003 = 0x55 /\ page_fault_ s' = true).
Proof.
  split.
  - pose proof (AmoInstruction_translates PageTable.sv39 1 SUPERVISOR_MODE INST_AMOSWAPW 5 1 2 (sample_paged 0x40200FF0) sample_memory
      sample_memory_ok (sample_paging _) ltac:(decide_it) ltac:(decide_it)) as Hr. cbv zeta in Hr.
    assert (Hpa : option_map fst (Access.resolve PageTable.sv39 1 (mem_byte sample_memory) false (reg (sample_paged 0x40200FF0) 1))
      = Some 0x80401FF0) by (vm_compute; reflexivity).
    destruct (Access.resolve _ _ _ _ _) as [[pa f1]|] in Hr, Hpa; [| discriminate Hpa]. injection Hpa as Hpa. change (pa = 0x80401FF0) in Hpa.
    destruct (Hr _ eq_refl) as (f2 & s' & m' & _ & E & _ & Hb & _ & _ & Hf). exists s', m'. split; [exact E |].
    split; [| exact Hf]. rewrite (Hb 0x80401FF3), Hpa. vm_compute. reflexivity.
  - pose proof (AmoInstruction_translates PageTable.sv39 1 SUPERVISOR_MODE INST_AMOSWAPW 5 1 2 (sample_paged 0x50000000) sample_memory
      sample_memory_ok (sample_paging _) ltac:(decide_it) ltac:(decide_it)) as Hr. cbv zeta in Hr.
    assert (Hpa : option_map fst (Access.resolve PageTable.sv39 1 (mem_byte sample_memory) false (reg (sample_paged 0x50000000) 1))
      = None) by (vm_compute; reflexivity).
    destruct (Access.resolve _ _ _ _ _) as [[pa f1]|] in Hr, Hpa; [discriminate Hpa |].
    destruct (Hr _ eq_refl) as (s' & m' & E & _ & Hb & _ & Hf & _). exists s', m'. split; [exact E |].
    split; [| exact Hf]. rewrite (Hb 0x50000003). vm_compute. reflexivity.
Defined.

Lemma LoadCmd_translates_witness :
  exists c s' m', LoadCmd 0x40200FF0 (sample_paged 0, sample_memory) = Ok (c, (s', m')) /\ page_fault_ s' = false.
Proof.
  pose proof (LoadCmd_translates PageTable.sv39 1 SUPERVISOR_MODE 0x40200FF0 (sample_paged 0) sample_memory
    sample_memory_ok (sample_paging _) ltac:(decide_it) eq_refl) as Hr.
  destruct (Access.fetch PageTable.sv39 1 (mem_byte sample_memory) 0x40200FF0) as [[ir f] o] eqn:Ef.
  assert (Ho : match o with Access.Done _ => true | Access.Fault _ => false end = true).
  { transitivity (match (Access.fetch PageTable.sv39 1 (mem_byte sample_memory) 0x40200FF0).2 with Access.Done _ => true | _ => false end);
      [by rewrite Ef | vm_compute; reflexivity]. }
  destruct Hr as (c & s' & m' & E & _ & _ & Hr). exists c, s', m'. split; [exact E |]. destruct o; [apply Hr | discriminate Ho].
Defined.
