(* ===== verification/Turns.v ===== *)
(** * RISCV_cpu.cc: how a turn of the main loop begins

    Every turn of [Cpu.step] counts a cycle, notices the interrupts that the timer,
    the disk and the UART raised, takes the first one that is pending, enabled and
    permitted, and otherwise fetches the next instruction through the page tables,
    or traps when it is not mapped.  The theorems here put the timer, the devices,
    MIP and MIE, the trap and the MMU together. *)

From S2P Require Import Prelude BitTools Memory Isa Pte Mmu Peripheral Syscall CpuState Csr Trap LoadStore Cpu Invariant Bare Paged.
Import Cpu.

(** The timer reaches its comparator in this turn, or had fired unnoticed. *)
Definition timer_due {M} `{GuestMemoryLaws M} (s : Cpu.t) (m : M) : bool :=
  Peripheral.timer_interrupt_ (ticked (peripheral_ s) m).

(** The disk or the UART has raised its interrupt. *)
Definition external_due (s : Cpu.t) : bool := virtio_interrupt_ s || uart_interrupt_ s.

(** The members a turn has not touched when it looks for interrupts. *)
Definition kept (s : Cpu.t) :=
  (xlen_ s, mxl_ s, reg_ s, next_pc_ s, mstatus_ s, mie_ s, privilege_ s,
   (page_fault_ s, faulting_address_ s, mmu_ s, disable_machine_interrupt_delegation_ s),
   (host_emulation_ s, peripheral_emulation_ s, ecall_emulation_ s, error_flag_ s, end_flag_ s),
   (top_ s, brk_ s, openHandles s), (prev_page_fault_ s, prev_faulting_address_ s)).

(** [o] is the processor [s] when it looks for interrupts: the program counter is at
    the next instruction and the interrupts that are due have become pending, 7 from
    the timer and 9 from the devices. *)
Record observed {M} `{GuestMemoryLaws M} (s : Cpu.t) (m : M) (o : Cpu.t) : Prop := {
  ob_ok : cpu_ok o;
  ob_pc : pc_ o = next_pc_ s;
  ob_mip : forall i, 0 <= i < 64 ->
    Z.testbit (mip_ o) i = Z.testbit (mip_ s) i || (i =? 7) && timer_due s m || (i =? 9) && external_due s;
  ob_csr : forall c, csr o c = csr s c;
  ob_timer : timer (peripheral_ o) = (u64 (Peripheral.elapsed_cycles_ (peripheral_ s) + 1), comparator (peripheral_ s) m, false);
  ob_kept : kept o = kept s;
  ob_external : external_due o = false
}.

Lemma observed_clock {M} `{GuestMemoryLaws M} s (m : M) o :
  observed s m o -> Peripheral.elapsed_cycles_ (peripheral_ o) = u64 (Peripheral.elapsed_cycles_ (peripheral_ s) + 1).
Proof. intros [_ _ _ _ [= E _ _] _ _]. exact E. Qed.

(* ------------------------------------------------------------------ *)
(** ** Up to the interrupt check *)

(** Setting a pending bit re-applies the views of MIE, which are as they were. *)
Lemma SetInterruptPending_csr c s j : enable_coherent s -> csr (SetInterruptPending c s) j = csr s j.
Proof.
  intros (E1 & E2 & E3). unfold SetInterruptPending, ApplyInterruptEnable. rsimpl. rewrite !csr_put_csr, csr_mip.
  repeat case_decide; subst; auto.
Qed.

Lemma SetInterruptPending_mip c s i :
  in_u 64 (mip_ s) -> 0 <= c < 64 -> 0 <= i < 64 ->
  Z.testbit (mip_ (SetInterruptPending c s)) i = Z.testbit (mip_ s) i || (i =? c).
Proof.
  intros Hm Hc Hi. change (mip_ (SetInterruptPending c s)) with (bitset 64 (mip_ s) 1 c 1).
  rewrite bitset_testbit by (lia || done).
  destruct (Z.eqb_spec i c) as [-> |].
  - rewrite Z.leb_refl, Z.sub_diag. destruct (Z.ltb_spec c (1 + c)); [| lia]. by rewrite orb_true_r.
  - rewrite orb_false_r. destruct (Z.leb_spec c i), (Z.ltb_spec i (1 + c)); try done; lia.
Qed.

Lemma cpu_ok_set_pending c s : cpu_ok s -> cpu_ok (SetInterruptPending c s).
Proof. intros []. split; [by apply csr_ok_set_pending | done ..]. Qed.

(** A processor on the way to the check: what [observed] says, for the interrupts
    [due] that have been noticed so far, and the timer [t]. *)
Record noticed (due : Z -> bool) (t : Z * Z * bool) (s o : Cpu.t) : Prop := {
  no_ok : cpu_ok o;
  no_mip : forall i, 0 <= i < 64 -> Z.testbit (mip_ o) i = Z.testbit (mip_ s) i || due i;
  no_csr : forall c, csr o c = csr s c;
  no_pc : pc_ o = next_pc_ s;
  no_timer : timer (peripheral_ o) = t;
  no_kept : kept o = kept s
}.

Lemma notice due t s o c :
  0 <= c < 64 -> noticed due t s o -> noticed (fun i => due i || (i =? c)) t s (SetInterruptPending c o).
Proof.
  intros Hc [Hok Hm Hcsr Hpc Hcl Hk]. split; [by apply cpu_ok_set_pending | | | exact Hpc | exact Hcl | exact Hk].
  - intros i Hi. rewrite SetInterruptPending_mip, Hm, orb_assoc by (done || apply Hok). done.
  - intros j. rewrite SetInterruptPending_csr by apply Hok. apply Hcsr.
Qed.

Lemma noticed_ext due due' t s o : (forall i, due i = due' i) -> noticed due t s o -> noticed due' t s o.
Proof. intros E [Hok Hm Hcsr Hpc Hcl Hk]. split; [done | | done ..]. intros i Hi. by rewrite Hm, E. Qed.

Lemma noticed_device due t t' s o (f : Cpu.t -> Cpu.t) :
  (forall x, cpu_ok x -> cpu_ok (f x)) -> mip_ (f o) = mip_ o -> csrs_ (f o) = csrs_ o -> kept (f o) = kept o ->
  pc_ (f o) = pc_ o -> timer (peripheral_ (f o)) = t' -> noticed due t s o -> noticed due t' s (f o).
Proof.
  intros Hf Em Ec Ek Epc Et [Hok Hm Hcsr Hpc Hcl Hk]. split; [by apply Hf | | | by rewrite Epc | done | by rewrite Ek].
  - intros i Hi. by rewrite Em, Hm.
  - intros c. unfold csr. rewrite Ec. apply Hcsr.
Qed.

Lemma InterruptCheck_noticed due t s o :
  noticed due t s o ->
  noticed (fun i => due i || (i =? 9) && external_due o) t s (InterruptCheck o) /\ external_due (InterruptCheck o) = false.
Proof.
  intros Hn. unfold InterruptCheck, external_due.
  assert (Hd : noticed (fun i => due i || (i =? 9) && virtio_interrupt_ o) t s (DiskInterruptCheck o) /\
              uart_interrupt_ (DiskInterruptCheck o) = uart_interrupt_ o /\ virtio_interrupt_ (DiskInterruptCheck o) = false).
  { unfold DiskInterruptCheck. destruct (virtio_interrupt_ o) eqn:Ev.
    - split; [| done]. eapply noticed_ext; [| apply notice; [lia |];
        apply (noticed_device due t t s o (fun x => x <| virtio_interrupt_ := false |>)); try done].
      + intros i. cbn beta. by rewrite andb_true_r.
      + intros x []. split; [by apply (csr_ok_same x) | done ..].
      + exact (no_timer _ _ _ _ Hn).
    - split; [| done]. eapply noticed_ext; [| exact Hn]. intros i. by rewrite andb_false_r, orb_false_r. }
  destruct Hd as (Hd & Hu & Hv). unfold UartInterruptCheck. rewrite Hu. set (o1 := DiskInterruptCheck o) in *. clearbody o1.
  destruct (uart_interrupt_ o).
  - split; [| exact (orb_false_intro _ _ Hv eq_refl)].
    eapply noticed_ext; [| apply notice; [lia |];
      apply (noticed_device _ t t s o1 (fun x => x <| uart_interrupt_ := false |>)); try done].
    + intros i. cbn beta. rewrite orb_true_r, andb_true_r. destruct (due i), (i =? 9), (virtio_interrupt_ o); done.
    + intros x []. split; [by apply (csr_ok_same x) | done ..].
    + exact (no_timer _ _ _ _ Hd).
  - split; [| by rewrite Hv, Hu]. eapply noticed_ext; [| exact Hd]. intros i. cbn beta. by rewrite orb_false_r.
Qed.

Section Turn.
Context {M : Type} `{HostOsLaws M}.
Implicit Types (s o : Cpu.t) (m : M).

Lemma cpu_ok_device s p : cpu_ok s -> cpu_ok (s <| peripheral_ := p |>).
Proof using. intros []. split; [by apply (csr_ok_same s) | done ..]. Qed.

Lemma TimerTick_noticed s m :
  cpu_ok s -> mem_ok m ->
  exists b o, LoadStore.TimerTick (s <| pc_ := next_pc_ s |>, m) = Ok (b, (o, m)) /\
   noticed (fun i => (i =? 7) && timer_due s m)
      (u64 (Peripheral.elapsed_cycles_ (peripheral_ s) + 1), comparator (peripheral_ s) m, false) s o /\
   external_due o = external_due s.
Proof using All.
  intros Hok Hm. unfold LoadStore.TimerTick. set (p := ticked (peripheral_ s) m).
  set (s1 := s <| pc_ := next_pc_ s |> <| peripheral_ := p |>).
  rewrite (st_bind_run _ _ _ tt (s1, m)).
  2:{ unfold on_peripheral, zoom. cbn [fst snd]. change (peripheral_ (s <| pc_ := _ |>)) with (peripheral_ s).
      by rewrite TimerTick_ticked. }
  rewrite (st_bind_run _ _ _ p (s1, m)) by done.
  assert (Hs1 : noticed (fun _ => false) (timer p) s s1).
  { split; [| by intros; rewrite orb_false_r | done ..]. apply cpu_ok_device. destruct Hok. split; [by apply csr_ok_pc | done ..]. }
  change (timer_due s m) with (Peripheral.timer_interrupt_ p). unfold Peripheral.GetTimerInterrupt.
  destruct (Peripheral.timer_interrupt_ p) eqn:Et; cbn [Z.b2z Z.eqb].
  - set (s2 := s1 <| peripheral_ := Peripheral.ClearTimerInterrupt p |>).
    exists true, (SetInterruptPending 7 s2). split; [done |]. split; [| done].
    eapply noticed_ext; [| apply notice; [lia |]; exact (noticed_device _ _ _ s s1 (fun x => x <| peripheral_ := Peripheral.ClearTimerInterrupt p |>)
      (fun x => cpu_ok_device x _) eq_refl eq_refl eq_refl eq_refl eq_refl Hs1)].
    intros i. by rewrite andb_true_r.
  - exists false, s1. split; [done |]. split; [| done].
    assert (Etm : timer p = (u64 (Peripheral.elapsed_cycles_ (peripheral_ s) + 1), comparator (peripheral_ s) m, false))
      by (unfold timer; by rewrite Et). rewrite <- Etm.
    eapply noticed_ext; [| exact Hs1]. intros i. by rewrite andb_false_r.
Qed.

(** The part of a turn after the interrupt check. *)
Definition fetch_and_execute : CPU M unit :=
  pc ← field pc_;
  ir ← LoadCmd pc;
  ir_ ::= ir;;
  fault ← field page_fault_;
  if fault : bool then upd_res (Trap INSTRUCTION_PAGE_FAULT kException)
  else decode_and_execute.

Lemma step_observes s m :
  cpu_ok s -> mem_ok m ->
  exists o, observed s m o /\ Cpu.step (s, m) =
    match CheckPendingInterrupt o with
    | Ok (true, s') => Ok (tt, (s', m))
    | Ok (false, s') => fetch_and_execute (s', m)
    | Err e => Err e
    end.
Proof using All.
  intros Hok Hm. destruct (TimerTick_noticed s m Hok Hm) as (b & o1 & E1 & Hn1 & Hx).
  exists (InterruptCheck o1). split.
  - destruct (InterruptCheck_noticed _ _ s o1 Hn1) as [[A1 A2 A3 A4 A5 A6] A7]. rewrite Hx in A2. split; try done.
    intros i Hi. by rewrite A2, orb_assoc.
  - unfold Cpu.step. fold fetch_and_execute. rewrite (st_bind_run _ _ _ (next_pc_ s) (s, m)) by done.
    rewrite (st_bind_run _ _ _ tt (s <| pc_ := next_pc_ s |>, m)) by done.
    rewrite (st_bind_run _ _ _ _ _ E1), (st_bind_run _ _ _ tt (InterruptCheck o1, m)) by done.
    unfold mbind at 1, st_bind at 1. cbn [fst snd]. destruct (CheckPendingInterrupt _) as [[[] s']|]; done.
Qed.
End Turn.

(* ------------------------------------------------------------------ *)
(** ** The fetch *)

Section Fetch.
Context {M : Type} `{HostOsLaws M} (fmt : PageTable.format) (root : Z) (p : PrivilegeMode).
Implicit Types (s o : Cpu.t) (m : M).

Lemma observed_paging s m o : observed s m o -> paging fmt root p s -> paging fmt root p o.
Proof using.
  intros [_ _ _ Hc _ Hk] [Hp Hr Hf]. injection Hk as _ Emxl _ _ _ _ Epriv Efault _ Emmu _ _ _ _ _ _ _ _ _ _ _. split.
  - unfold effective_privilege in *. by rewrite Epriv, Hc.
  - unfold mmu_for in *. by rewrite Emxl, Emmu, Hc.
  - by rewrite Efault.
Qed.

(** The trap of an instruction page fault, after the fetch has left its marks on the
    MMU and the instruction register. *)
Lemma fetch_trap u a c o :
  cpu_ok o -> in_u 64 a -> in_u 32 c ->
  exists s', Trap INSTRUCTION_PAGE_FAULT kException
      (o <| mmu_ := u |> <| page_fault_ := true |> <| faulting_address_ := a |> <| ir_ := c |>) = Ok s' /\
    faults INSTRUCTION_PAGE_FAULT a o s'.
Proof using.
  intros [Hcsr Hpc Hn Hf Hi] Ha Hc. set (x := o <| mmu_ := u |> <| page_fault_ := true |> <| faulting_address_ := a |> <| ir_ := c |>).
  assert (Hok : cpu_ok x) by (split; [by apply (csr_ok_same o) | done ..]).
  destruct (Trap_correct INSTRUCTION_PAGE_FAULT kException x Hok eq_refl) as (s' & E & _ & Ht).
  destruct (Trap_keeps _ _ _ _ Hok E) as [Hok' [= _ _ _ _ Hp _]].
  destruct (Trap_flags _ _ _ _ E) as [Hsw Her].
  exists s'. split; [done |]. split; [done |]. split; [by destruct Ht |]. by split.
Qed.

Lemma fetch_address_range f pc a : in_u 64 pc -> (Access.fetch fmt root f pc).2 = Access.Fault a -> in_u 64 a.
Proof using.
  intros Hpc. unfold Access.fetch. assert (Hn : in_u 64 (u64 (pc + 2))) by (apply uint_range; lia).
  destruct (Access.resolve _ _ _ _ pc) as [[pa g]|]; [| by intros [= <-]].
  destruct (_ && _); [| done]. destruct (Access.resolve _ _ _ _ _) as [[pa2 g2]|]; [done | by intros [= <-]].
Qed.

Lemma fetch_turn o m :
  cpu_ok o -> mem_ok m -> paging fmt root p o -> pc_ o mod 2 = 0 ->
  let '(ir, f, out) := Access.fetch fmt root (mem_byte m) (pc_ o) in
  exists m', mem_ok m' /\ (forall b, mem_byte m' b = f b) /\
    match out with
    | Access.Done _ => exists c u, ir = Some c /\
        fetch_and_execute (o, m) = decode_and_execute (o <| mmu_ := u |> <| ir_ := c |>, m')
    | Access.Fault a => exists s', fetch_and_execute (o, m) = Ok (tt, (s', m')) /\ faults INSTRUCTION_PAGE_FAULT a o s'
    end.
Proof using All.
  intros Hok Hm Hp He. pose proof (fetch_paged fmt root p (pc_ o) o m Hm Hp (cpu_pc _ Hok) He) as Hf.
  pose proof (fetch_address_range (mem_byte m) (pc_ o)) as Hr.
  destruct (Access.fetch fmt root (mem_byte m) (pc_ o)) as [[ir f] out]. destruct Hf as (c & s1 & m' & E & Hm' & Hb & Ho).
  exists m'. split; [done |]. split; [done |]. unfold fetch_and_execute.
  rewrite (st_bind_run _ _ _ (pc_ o) (o, m)) by done. rewrite (st_bind_run _ _ _ _ _ E).
  rewrite (st_bind_run _ _ _ tt (s1 <| ir_ := c |>, m')) by done.
  destruct out as [pa | a].
  - destruct Ho as (-> & Hpf & u & ->). exists c, u. split; [done |].
    by rewrite (st_bind_run _ _ _ false (o <| mmu_ := u |> <| ir_ := c |>, m')) by (unfold field; cbn [fst]; by rewrite <- Hpf).
  - destruct Ho as (Hpf & Hc & u & ->). rewrite (st_bind_run _ _ _ true (_, m')) by done.
    destruct (fetch_trap u a c o Hok (Hr a (cpu_pc _ Hok) eq_refl) Hc) as (s' & Et & Hfs). exists s'. split; [| done].
    unfold upd_res. cbn [fst snd]. by rewrite Et.
Qed.
End Fetch.

(* ------------------------------------------------------------------ *)
(** ** The interrupt of a turn *)

(** An interrupt is taken when it is pending, or becomes so in this turn, and is
    enabled; the first one in [interrupt_order] goes first. *)
Definition due {M} `{GuestMemoryLaws M} (s : Cpu.t) (m : M) (cause : Z) : bool :=
  (Z.testbit (mip_ s) cause || (cause =? 7) && timer_due s m || (cause =? 9) && external_due s)
  && Z.testbit (mie_ s) cause && enabled_at (if (cause mod 4) =? 1 then supervisor_level else machine_level) s.

Definition due_interrupt {M} `{GuestMemoryLaws M} (s : Cpu.t) (m : M) : option Z := List.find (due s m) interrupt_order.

Lemma find_ext {A} (f g : A -> bool) l : (forall x, In x l -> f x = g x) -> List.find f l = List.find g l.
Proof.
  induction l as [|x l IH]; intros E; cbn [List.find]; [done |]. rewrite (E x (or_introl eq_refl)).
  rewrite IH; [done |]. intros y Hy. apply E. by right.
Qed.

Lemma observed_due {M} `{GuestMemoryLaws M} s (m : M) o : observed s m o -> next_interrupt o = due_interrupt s m.
Proof.
  intros [_ _ Hm _ _ Hk]. injection Hk as _ _ _ _ Est Emie Epriv _ _ _ _ _ _ _ _ _ _ _ _ _ _. apply find_ext. intros c Hc.
  unfold takeable, due, enabled_at. rewrite Emie, Epriv, Est, Hm; [done |].
  unfold interrupt_order in Hc. cbn [In] in Hc. lia.
Qed.

(** A turn in which no interrupt is due goes on to the fetch. *)
Lemma step_uninterrupted {M} `{HostOsLaws M} s (m : M) :
  cpu_ok s -> mem_ok m -> due_interrupt s m = None -> exists o, observed s m o /\ Cpu.step (s, m) = fetch_and_execute (o, m).
Proof.
  intros Hok Hm Hn. destruct (step_observes s m Hok Hm) as (o & Ho & E). exists o. split; [done |].
  pose proof (CheckPendingInterrupt_effect o (ob_ok _ _ _ Ho)) as Hc. unfold check_effect in Hc.
  rewrite (observed_due s m o Ho), Hn in Hc. by rewrite E, Hc.
Qed.

(** A turn in which one is due takes it. *)
Lemma step_interrupted {M} `{HostOsLaws M} s (m : M) cause :
  cpu_ok s -> mem_ok m -> due_interrupt s m = Some cause -> trap_supported cause true = true ->
  exists o s', observed s m o /\ Cpu.step (s, m) = Ok (tt, (s', m)) /\ trap_effect cause true o s' /\
    switches s' = switches o /\ error_flag_ s' = error_flag_ o.
Proof.
  intros Hok Hm Hd Hs. destruct (step_observes s m Hok Hm) as (o & Ho & E).
  rewrite CheckPendingInterrupt_next, (observed_due s m o Ho), Hd in E.
  destruct (Trap_correct cause true o (ob_ok _ _ _ Ho) Hs) as (s' & Es & _ & Ht). rewrite Es in E.
  destruct (Trap_flags _ _ _ _ Es) as [Hsw Her]. exists o, s'. split; [done |]. split; [done |]. split; [done |].
  split; [done |]. by rewrite Her, orb_false_r.
Qed.

(* ------------------------------------------------------------------ *)
(** ** When the next interrupt comes *)

Section Waiting.
Context {M : Type} `{GuestMemoryLaws M}.
Implicit Types (s o : Cpu.t) (m : M) (x : Cpu.t * M) (p : Peripheral.t).
Import Peripheral.

(** What a turn without interrupt leaves of the timer and of the pending interrupts:
    what it noticed. *)
Definition passes x x' : Prop := exists o, observed x.1 x.2 o /\ alarms x'.1 = alarms o.

(** No enabled interrupt is pending or raised by a device. *)
Definition none_pending s : bool :=
  forallb (fun c => negb ((Z.testbit (mip_ s) c || (c =? 9) && external_due s) && Z.testbit (mie_ s) c)) interrupt_order.

(** The timer compares with the comparator in memory and has not fired. *)
Record timer_set p m : Prop := {
  ts_armed : armed p m;
  ts_clear : timer_interrupt_ p = false;
  ts_start : 0 <= elapsed_cycles_ p
}.

(** No interrupt is due in the next [n] turns. *)
Definition undisturbed (n : nat) x : Prop :=
  none_pending x.1 = true /\
  (Z.testbit (mie_ x.1) 7 = true ->
   let p := peripheral_ x.1 in
   timer_set p x.2 /\ elapsed_cycles_ p + Z.of_nat n < 2 ^ 64 /\ ~ elapsed_cycles_ p < cmp_of x.2 <= elapsed_cycles_ p + Z.of_nat n).

(** The interrupt of the timer comes after [n] turns without one. *)
Definition timer_after (n : nat) x : Prop :=
  none_pending x.1 = true /\ Z.testbit (mie_ x.1) 7 = true /\
  let p := peripheral_ x.1 in timer_set p x.2 /\ cmp_of x.2 = elapsed_cycles_ p + Z.of_nat n + 1 /\ cmp_of x.2 < 2 ^ 64.

Lemma alarms_none_pending s s' : alarms s' = alarms s -> none_pending s' = none_pending s.
Proof using. intros [= E1 E2 E3 E4 _ _ _]. unfold none_pending, external_due. by rewrite E1, E2, E3, E4. Qed.

(** Two machines with the same alarms, devices and memory. *)
Definition same_alarms x x' : Prop := alarms x'.1 = alarms x.1 /\ peripheral_ x'.1 = peripheral_ x.1 /\ x'.2 = x.2.

Lemma undisturbed_same n x x' : same_alarms x x' -> undisturbed n x -> undisturbed n x'.
Proof using.
  intros (Ha & Hp & Hm) [Hn Ht]. split; [by rewrite (alarms_none_pending _ _ Ha) |].
  injection Ha as -> _ _ _ _ _ _. cbv zeta. by rewrite Hp, Hm.
Qed.

Lemma timer_after_same n x x' : same_alarms x x' -> timer_after n x -> timer_after n x'.
Proof using.
  intros (Ha & Hp & Hm) [Hn Ht]. split; [by rewrite (alarms_none_pending _ _ Ha) |].
  injection Ha as -> _ _ _ _ _ _. cbv zeta. by rewrite Hp, Hm.
Qed.

Lemma disabled_undisturbed n x : mie_ x.1 = 0 -> undisturbed n x.
Proof using.
  intros E. unfold undisturbed, none_pending, interrupt_order. cbn [forallb]. rewrite E, !Z.bits_0, !andb_false_r. done.
Qed.

(** With nothing pending only the timer can interrupt. *)
Lemma due_timer s m :
  none_pending s = true -> due_interrupt s m = if timer_due s m && Z.testbit (mie_ s) 7 && enabled_at machine_level s then Some 7 else None.
Proof using.
  unfold none_pending, due_interrupt, due, interrupt_order. cbn [forallb List.find].
  rewrite !andb_true_iff, !negb_true_iff. intros (H1 & H3 & H5 & H7 & H9 & H11 & _).
  cbn [Z.eqb Pos.eqb andb] in *. rewrite !orb_false_r in *. rewrite H1, H3, H5, H9, H11. cbn [andb].
  change (7 mod 4 =? 1) with false. cbv iota. destruct (Z.testbit (mip_ s) 7), (Z.testbit (mie_ s) 7); try done; cbn [orb andb] in *;
    rewrite ?andb_false_r; done.
Qed.

Lemma comparator_set p m : timer_set p m -> comparator p m = cmp_of m.
Proof using. intros [[E | E] _ _]; unfold comparator; [by rewrite E |]. by destruct (timercmp_update_ p). Qed.

Lemma timer_due_set s m :
  timer_set (peripheral_ s) m -> elapsed_cycles_ (peripheral_ s) + 1 < 2 ^ 64 ->
  timer_due s m = (elapsed_cycles_ (peripheral_ s) + 1 =? cmp_of m).
Proof using.
  intros Hs Hr. unfold timer_due, ticked. cbv zeta. rsimpl. rewrite (ts_clear _ _ Hs), (comparator_set _ _ Hs), uint_small; [done |].
  pose proof (ts_start _ _ Hs). unfold in_u. lia.
Qed.

(** The timer after a turn that left the comparator alone. *)
Lemma timer_set_passes x x' :
  passes x x' -> cmp_of x'.2 = cmp_of x.2 -> timer_set (peripheral_ x.1) x.2 -> elapsed_cycles_ (peripheral_ x.1) + 1 < 2 ^ 64 ->
  timer_set (peripheral_ x'.1) x'.2 /\ elapsed_cycles_ (peripheral_ x'.1) = elapsed_cycles_ (peripheral_ x.1) + 1.
Proof using.
  intros (o & Ho & [= _ _ _ _ E1 E2 E3]) Hc Hs Hr. pose proof (ts_start _ _ Hs). pose proof (ob_timer _ _ _ Ho) as Ht.
  injection Ht as T1 T2 T3. rewrite uint_small in T1 by (unfold in_u; lia). rewrite E1, T1. split; [| done]. split.
  - right. by rewrite E2, T2, Hc, comparator_set.
  - by rewrite E3.
  - rewrite E1, T1. lia.
Qed.

Lemma none_pending_passes x x' :
  passes x x' -> none_pending x.1 = true -> (Z.testbit (mie_ x.1) 7 = true -> timer_due x.1 x.2 = false) ->
  none_pending x'.1 = true /\ mie_ x'.1 = mie_ x.1.
Proof using.
  intros (o & Ho & [= E1 E2 Ev Eu _ _ _]) Hp Ht. pose proof (ob_kept _ _ _ Ho) as Hk. pose proof (ob_external _ _ _ Ho) as Hx.
  injection Hk as _ _ _ _ _ Em _ _ _ _ _ _ _ _ _ _ _ _ _ _ _. assert (Emie : mie_ x'.1 = mie_ x.1) by (by rewrite E1).
  split; [| done]. unfold none_pending in *. rewrite forallb_forall in Hp |- *. intros c Hc. specialize (Hp c Hc).
  assert (Hr : 0 <= c < 64) by (unfold interrupt_order in Hc; cbn [In] in Hc; lia).
  replace (external_due x'.1) with false by (unfold external_due in *; by rewrite Ev, Eu).
  rewrite andb_false_r, orb_false_r, Emie, E2, (ob_mip _ _ _ Ho) by done.
  destruct (Z.testbit (mie_ x.1) c) eqn:Eb; [| by rewrite andb_false_r]. rewrite !andb_true_r in *.
  destruct (Z.eqb_spec c 7) as [-> |]; [by rewrite (Ht Eb), orb_false_r | by rewrite andb_false_l, orb_false_r].
Qed.

Lemma undisturbed_due n x : undisturbed (S n) x -> due_interrupt x.1 x.2 = None.
Proof using.
  intros [Hp Ht]. rewrite due_timer by done. destruct (Z.testbit (mie_ x.1) 7); [| by rewrite andb_false_r].
  destruct (Ht eq_refl) as (Hs & Hr & Hn). rewrite timer_due_set by (done || lia).
  destruct (Z.eqb_spec (elapsed_cycles_ (peripheral_ x.1) + 1) (cmp_of x.2)); [lia | done].
Qed.

Lemma undisturbed_passes n x x' :
  passes x x' -> (Z.testbit (mie_ x.1) 7 = true -> cmp_of x'.2 = cmp_of x.2) -> undisturbed (S n) x -> undisturbed n x'.
Proof using.
  intros Hx Hc [Hp Ht]. assert (Hd : Z.testbit (mie_ x.1) 7 = true -> timer_due x.1 x.2 = false).
  { intros E. destruct (Ht E) as (Hs & Hr & Hn). rewrite timer_due_set by (done || lia). apply Z.eqb_neq. lia. }
  destruct (none_pending_passes x x' Hx Hp Hd) as [Hp' Em]. split; [done |]. rewrite Em. cbv zeta. intros E.
  destruct (Ht E) as (Hs & Hr & Hn). destruct (timer_set_passes x x' Hx (Hc E) Hs ltac:(lia)) as [Hs' ->].
  split; [done |]. rewrite (Hc E). lia.
Qed.

Lemma timer_after_waits n x : timer_after (S n) x -> due_interrupt x.1 x.2 = None.
Proof using.
  intros (Hp & _ & Hs & Hc & Hr). rewrite due_timer, timer_due_set by (done || lia).
  destruct (Z.eqb_spec (elapsed_cycles_ (peripheral_ x.1) + 1) (cmp_of x.2)); done || lia.
Qed.

Lemma timer_after_due x : timer_after 0 x -> enabled_at machine_level x.1 = true -> due_interrupt x.1 x.2 = Some 7.
Proof using.
  intros (Hp & Hm & Hs & Hc & Hr) He. rewrite due_timer, timer_due_set, Hm, He by (done || lia).
  destruct (Z.eqb_spec (elapsed_cycles_ (peripheral_ x.1) + 1) (cmp_of x.2)); done || lia.
Qed.

Lemma timer_after_passes n x x' : passes x x' -> cmp_of x'.2 = cmp_of x.2 -> timer_after (S n) x -> timer_after n x'.
Proof using.
  intros Hx Hc (Hp & Hm & Hs & Hn & Hr). destruct (none_pending_passes x x' Hx Hp) as [Hp' Em].
  { intros _. rewrite timer_due_set by (done || lia). apply Z.eqb_neq. lia. }
  destruct (timer_set_passes x x' Hx Hc Hs ltac:(lia)) as [Hs' He]. split; [done |]. split; [by rewrite Em |]. cbv zeta. rewrite He, Hc.
  split; [done |]. lia.
Qed.
End Waiting.

(* ------------------------------------------------------------------ *)
(** ** Properties *)

(** C12: interrupts are precise.  A turn of the main loop notices the timer and the
    devices; when an interrupt is due and enabled it takes the first one: no
    instruction is executed, registers and memory stay as they are, the processor is
    in the handler with the effect of a trap ([trap_effect]) and EPC holds the address
    of the instruction that would have been next (an interrupt that [Trap] does not
    expect fails its assertion); otherwise the turn goes on to the fetch. *)
Theorem step_takes_interrupt {M} `{HostOsLaws M} (s : Cpu.t) (m : M) :
  cpu_ok s -> mem_ok m ->
  exists o, observed s m o /\
    match due_interrupt s m with
    | None => Cpu.step (s, m) = fetch_and_execute (o, m)
    | Some cause =>
        if (cause =? 1) || (cause =? 7) || (cause =? 9)
        then exists s', Cpu.step (s, m) = Ok (tt, (s', m)) /\ csr_ok s' /\ trap_effect cause true o s' /\
               reg_ s' = reg_ s /\ csr s' (l_epc (target cause true s)) = next_pc_ s
        else Cpu.step (s, m) = Err Assert_failed
    end.
Proof.
  intros Hok Hm. destruct (step_observes s m Hok Hm) as (o & Ho & E). exists o. split; [done |].
  pose proof (CheckPendingInterrupt_effect o (ob_ok _ _ _ Ho)) as Hc. unfold check_effect in Hc.
  rewrite (observed_due s m o Ho) in Hc. destruct (due_interrupt s m) as [cause|].
  2:{ by rewrite E, Hc. }
  destruct Hc as (_ & _ & Hc). destruct (_ || (cause =? 9)).
  2:{ by rewrite E, Hc. }
  destruct Hc as (s' & Ec & Hcsr & Ht). exists s'. split; [by rewrite E, Ec |]. split; [done |]. split; [done |].
  destruct Ho as [_ Epc _ Ecsr _ Hk]. injection Hk as _ _ Ereg _ _ _ Epriv _ _ _ Ed _ _ _ _ _ _ _ _ _ _.
  destruct Ht as [_ _ Hepc _ _ _ _ Hreg _]. split; [congruence |]. rewrite <- Epc, <- Hepc.
  unfold target, delegated. by rewrite Epriv, Ed, Ecsr.
Qed.

(** C13: a turn without interrupt, under Sv32 or Sv39 translation, executes the
    instruction at the translated address of the next pc, or, when that is not mapped,
    enters the handler of an instruction page fault with the pc in EPC and the
    address of the half that is missing in TVAL, no instruction executed and memory
    changed by access bits only. *)
Theorem step_fetches {M} `{HostOsLaws M} (fmt : PageTable.format) (root : Z) (p : PrivilegeMode) (s : Cpu.t) (m : M) :
  cpu_ok s -> mem_ok m -> paging fmt root p s -> next_pc_ s mod 2 = 0 -> due_interrupt s m = None ->
  let '(ir, f, out) := Access.fetch fmt root (mem_byte m) (next_pc_ s) in
  exists o m', observed s m o /\ mem_ok m' /\ (forall b, mem_byte m' b = f b) /\
    match out with
    | Access.Done _ => exists c u, ir = Some c /\
        Cpu.step (s, m) = decode_and_execute (o <| mmu_ := u |> <| ir_ := c |>, m')
    | Access.Fault a => exists s', Cpu.step (s, m) = Ok (tt, (s', m')) /\ reg_ s' = reg_ s /\
        faults INSTRUCTION_PAGE_FAULT a o s'
    end.
Proof.
  intros Hok Hm Hp He Hn. destruct (step_uninterrupted s m Hok Hm Hn) as (o & Ho & E). rewrite E.
  pose proof (fetch_turn fmt root p o m (ob_ok _ _ _ Ho) Hm (observed_paging fmt root p s m o Ho Hp)) as Hf.
  rewrite (ob_pc _ _ _ Ho) in Hf. specialize (Hf He).
  destruct (Access.fetch fmt root (mem_byte m) (next_pc_ s)) as [[ir f] out]. destruct Hf as (m' & Hm' & Hb & Hout).
  exists o, m'. split; [done |]. split; [done |]. split; [done |]. destruct out as [pa | a]; [done |].
  destruct Hout as (s' & Es & Hfs). exists s'. split; [done |]. split; [| done].
  pose proof (ob_kept _ _ _ Ho) as Hk. injection Hk as _ _ Ereg _ _ _ _ _ _ _ _ _ _ _ _ _ _ _ _ _ _.
  destruct Hfs as (_ & Ht & _). rewrite (te_regs _ _ _ _ Ht). exact Ereg.
Qed.

(** *** Witnesses *)

(** A user-mode processor whose timer fires in the next turn. *)
Definition timer_cpu : Cpu.t :=
  (ApplyInterruptEnable ((put_csr MTVEC 0x200 (RiscvCpu 0 true)) <| mie_ := 0x80 |>)) <| privilege_ := USER_MODE |>
    <| next_pc_ := 0x1000 |>
    <| peripheral_ := (Peripheral.PeripheralEmulator 2) <| Peripheral.next_cycle_ := 1 |> <| Peripheral.timercmp_update_ := false |> |>.

Lemma timer_cpu_ok : cpu_ok timer_cpu.
Proof.
  apply cpu_ok_device. split; [| decide_it ..]. apply csr_ok_next_pc, csr_ok_privilege.
  assert (Hc : csr_ok (put_csr MTVEC 0x200 (RiscvCpu 0 true))).
  { apply csr_ok_put_csr; [apply RiscvCpu_csr_ok | decide_it | |]; intros [E | [E | E]]; vm_compute in E; discriminate E. }
  revert Hc. generalize (put_csr MTVEC 0x200 (RiscvCpu 0 true)). intros c [W S _].
  exact (ApplyInterruptEnable_ok _ (words_mie _ 0x80 W ltac:(decide_it)) S).
Qed.

#[local] Existing Instance console_host.
#[local] Existing Instance console_host_laws.

Lemma step_takes_interrupt_witness :
  exists s', Cpu.step (timer_cpu, sample_memory) = Ok (tt, (s', sample_memory)) /\
    csr s' MEPC = 0x1000 /\ next_pc_ s' = 0x200 /\ csr s' MCAUSE = 2 ^ 63 + 7.
Proof.
  destruct (step_takes_interrupt timer_cpu sample_memory timer_cpu_ok sample_memory_ok) as (o & Ho & Hr).
  assert (Hd : due_interrupt timer_cpu sample_memory = Some 7) by (vm_compute; reflexivity). rewrite Hd in Hr.
  cbn [Z.eqb Pos.eqb orb] in Hr. destruct Hr as (s' & E & _ & Ht & _ & Hepc). exists s'. split; [exact E |].
  split; [exact Hepc |]. destruct Ho as [_ _ _ Hc _ Hk]. injection Hk as Ex _ _ _ _ _ Ep _ _ _ Ed _ _ _ _ _ _ _ _ _ _.
  assert (Htg : target 7 true o = machine_level).
  { transitivity (target 7 true timer_cpu); [| vm_compute; reflexivity]. unfold target, delegated. by rewrite Ep, Ed, Hc. }
  destruct Ht as [_ Hn _ Hcs _ _ _ _ _]. rewrite Htg in Hn, Hcs. cbn [l_tvec l_cause machine_level] in Hn, Hcs. rewrite Hc in Hn.
  rewrite Hn, Hcs, Ex. split; vm_compute; reflexivity.
Defined.

(** The sample processor about to execute at an address that is not mapped. *)
Definition lost_cpu : Cpu.t := (sample_paged 0) <| next_pc_ := 0x50000000 |>.

Lemma lost_cpu_ok : cpu_ok lost_cpu.
Proof.
  unfold lost_cpu. generalize (sample_paged_ok 0 ltac:(decide_it)). generalize (sample_paged 0). intros c [].
  split; [by apply csr_ok_next_pc | done | decide_it | done | done].
Qed.

Lemma step_fetches_witness :
  exists s' m', Cpu.step (lost_cpu, sample_memory) = Ok (tt, (s', m')) /\ csr s' MTVAL = 0x50000000 /\ csr s' MEPC = 0x50000000.
Proof.
  pose proof (step_fetches PageTable.sv39 1 SUPERVISOR_MODE lost_cpu sample_memory lost_cpu_ok sample_memory_ok
    ltac:(by split) eq_refl ltac:(vm_compute; reflexivity)) as Hr.
  destruct (Access.fetch PageTable.sv39 1 (mem_byte sample_memory) (next_pc_ lost_cpu)) as [[ir f] out] eqn:Ef.
  assert (Hout : out = Access.Fault 0x50000000).
  { transitivity ((Access.fetch PageTable.sv39 1 (mem_byte sample_memory) (next_pc_ lost_cpu)).2);
      [by rewrite Ef | vm_compute; reflexivity]. }
  destruct Hr as (o & m' & Ho & _ & _ & Hr). rewrite Hout in Hr. destruct Hr as (s' & E & _ & _ & Ht & _).
  exists s', m'. split; [exact E |]. destruct Ho as [_ Hpc _ Hc _ Hk]. injection Hk as _ _ _ _ _ _ Ep _ _ _ Ed _ _ _ _ _ _ _ _ _ _.
  assert (Htg : target INSTRUCTION_PAGE_FAULT false (o <| faulting_address_ := 0x50000000 |>) = machine_level).
  { transitivity (target INSTRUCTION_PAGE_FAULT false lost_cpu); [| vm_compute; reflexivity]. unfold target, delegated.
    change (csr (o <| faulting_address_ := _ |>)) with (csr o). rsimpl. by rewrite Ep, Hc. }
  destruct Ht as [_ _ Hepc _ Htv _ _ _ _]. unfold kException in Hepc, Htv. rewrite Htg in Hepc, Htv.
  split; [exact Htv | exact (eq_trans Hepc Hpc)].
Defined.
