(* ===== verification/Regime.v ===== *)
(** * Where a program's memory is: the interface between programs and translation

    A program sees bytes at addresses; the emulator finds them in guest memory, at the
    same address or through page tables.  [Regime] is a way of finding them and
    [RegimeLaws] what the simulation of programs (Simulate.v) needs of it: how a fetch, a
    load, a store and an atomic instruction act on the bytes the program sees.
    [bare_regime] is machine mode without translation; VirtualMemory.v has the other
    instance. *)

From S2P Require Import Prelude BitTools Memory Isa Mmu Peripheral CpuState Alu Csr Trap LoadStore Invariant Bare Paged.
Import Cpu Isa_spec.

(** The bytes that are not those of the MTIME register, which the emulator refreshes
    before every load. *)
Definition ordinary (b : Z) : Prop := 8 <= (b - Peripheral.kTimerMtime) mod 2 ^ 32.

Definition all_ordinary (a : Z) (n : nat) : Prop := forall k, 0 <= k < Z.of_nat n -> ordinary (a + k).

Definition ordinary_span (a : Z) (n : nat) : bool :=
  forallb (fun k => 8 <=? (a + Z.of_nat k - Peripheral.kTimerMtime) mod 2 ^ 32) (seq 0 n).

(** A test on each of [n] consecutive addresses. *)
Lemma forallb_span (p : Z -> bool) a n :
  forallb (fun k => p (a + Z.of_nat k)) (seq 0 n) = true <-> forall k, 0 <= k < Z.of_nat n -> p (a + k) = true.
Proof.
  rewrite forallb_forall. split.
  - intros Hall k Hk. specialize (Hall (Z.to_nat k)). rewrite Z2Nat.id in Hall by lia. apply Hall, in_seq. lia.
  - intros Hall k Hk%in_seq. apply Hall. lia.
Qed.

Lemma ordinary_span_ok a n : ordinary_span a n = true -> all_ordinary a n.
Proof.
  unfold ordinary_span. rewrite (forallb_span (fun b => 8 <=? (b - Peripheral.kTimerMtime) mod 2 ^ 32)). intros Hall k Hk. by apply Z.leb_le, Hall.
Qed.

(** What a translation, and how a program is left, depend on beside the MMU and the
    CSRs. *)
Definition control (s : Cpu.t) :=
  (xlen_ s, mxl_ s, privilege_ s, page_fault_ s, ecall_emulation_ s, (prev_page_fault_ s, prev_faulting_address_ s),
   disable_machine_interrupt_delegation_ s).

Class Regime (M : Type) : Type := {
  (** the processor translates in this way, and no page fault is pending *)
  mode : Cpu.t -> Prop;
  (** what it needs in memory, such as page tables *)
  intact : M -> Prop;
  (** the bytes a program sees, and at which addresses *)
  view : M -> ByteMem.t;
  visible : Z -> Prop;
  (** the 64-bit address the emulator forms stands for that of the program *)
  names : Z -> Z -> Prop;
  (** the accesses that succeed *)
  fetchable : Z -> bool;
  readable : Z -> nat -> bool;
  writable : Z -> nat -> bool
}.

(** To the program, memory is [f]. *)
Record shows {M} `{GuestMemoryLaws M} {R : Regime M} (m : M) (f : ByteMem.t) : Prop := {
  sh_ok : mem_ok m;
  sh_intact : intact m;
  sh_bytes : forall b, visible b -> view m b = f b
}.

(** What an instruction that does not trap leaves of the processor: all but the
    registers, the MMU and the devices' bookkeeping. *)
Definition calm (s s' : Cpu.t) : Prop :=
  csrs_ s' = csrs_ s /\ pc_ s' = pc_ s /\ next_pc_ s' = next_pc_ s /\ settings s' = settings s.

Class RegimeLaws {M} `{GuestMemoryLaws M} (R : Regime M) (xlen : Z) : Prop := {
  mode_control s s' : control s' = control s -> (forall c, csr s' c = csr s c) -> mode s -> mode s';
  mode_no_fault s : mode s -> page_fault_ s = false;
  names_sum x k : in_u xlen x -> names (u64 (embed xlen x + k)) (uint xlen (x + k));
  shows_ext (m : M) f g : shows m f -> (forall b, visible b -> f b = g b) -> shows m g;

  regime_fetch s (m : M) f pc va :
    mode s -> shows m f -> in_u 64 pc -> pc mod 2 = 0 -> names pc va -> va mod 2 = 0 -> fetchable va = true ->
    exists u m', LoadCmd pc (s, m) = Ok (fetched f va, (s <| mmu_ := u |>, m')) /\ shows m' f /\ in_u 32 (fetched f va);

  regime_load i rd rs1 imm w s (m : M) f a :
    mode s -> cpu_ok s -> shows m f -> in_u 64 (Peripheral.elapsed_cycles_ (peripheral_ s)) ->
    GetLoadWidth i = Ok w -> names (u64 (reg s rs1 + imm)) a -> readable a (Z.to_nat w) = true ->
    exists s' m', LoadInstruction i rd rs1 imm (s, m) = Ok (tt, (s', m')) /\ shows m' f /\ calm s s' /\
      let v := ByteMem.load (Z.to_nat w) f a in in_u (8 * w) v /\ reg_ s' = zset (reg_ s) rd (load_value i v);

  regime_store i rd rs1 rs2 imm w s (m : M) f a :
    mode s -> cpu_ok s -> shows m f -> in_u 64 (reg s rs2) ->
    GetStoreWidth i = Ok w -> names (u64 (reg s rs1 + imm)) a -> writable a (Z.to_nat w) = true ->
    exists s' m', StoreInstruction i rd rs1 rs2 imm (s, m) = Ok (tt, (s', m')) /\ calm s s' /\ reg_ s' = reg_ s /\
      shows m' (ByteMem.store (Z.to_nat w) f a (reg s rs2));

  regime_amo i rd rs1 rs2 s (m : M) f a z :
    mode s -> shows m f -> in_u 64 (reg s rs1) -> in_u 64 (reg s rs2) -> names (reg s rs1) a ->
    let w := Amo.width i in let n := Z.to_nat (w / 8) in let x := ByteMem.load n f a in
    Amo.result i x (uint w (reg s rs2)) = Some z -> readable a n = true ->
    exists s' m', AmoInstruction i rd rs1 rs2 (s, m) = Ok (tt, (s', m')) /\ calm s s' /\
      reg_ s' = zset (reg_ s) rd (u64 (sint w x)) /\ shows m' (ByteMem.store n f a z)
}.

Lemma names_word {M} `{GuestMemoryLaws M} {R : Regime M} {xlen} `{!RegimeLaws R xlen} x : in_u xlen x -> names (embed xlen x) x.
Proof.
  intros Hx. pose proof (names_sum x 0 Hx) as Hn. rewrite !Z.add_0_r in Hn. rewrite (uint_small xlen x Hx) in Hn.
  by rewrite (uint_small 64) in Hn by apply embed_range.
Qed.

(** A store at another name of an address, of a value with the same low bits. *)
Lemma store_modulo n f a a' v v' b :
  eqm 32 a a' -> eqm (8 * Z.of_nat n) v v' -> ByteMem.store n f a v b = ByteMem.store n f a' v' b.
Proof.
  intros Ha Hv. rewrite (store_low n f a v v' b Hv). unfold ByteMem.store.
  replace ((b - a) mod 2 ^ 32) with ((b - a') mod 2 ^ 32); [done |]. unfold eqm, uint in Ha.
  by rewrite <- (Zminus_mod_idemp_r b a'), <- (Zminus_mod_idemp_r b a), Ha.
Qed.

(** Refreshing MTIME leaves ordinary bytes alone. *)
Lemma refresh_ordinary f v b : ordinary b -> ByteMem.store 8 f Peripheral.kTimerMtime v b = f b.
Proof.
  unfold ordinary, ByteMem.store. intros Hb. cbv zeta. change (Z.of_nat 8) with 8.
  by destruct (Z.ltb_spec ((b - Peripheral.kTimerMtime) mod 2 ^ 32) 8); [lia |].
Qed.

Lemma fetched_range f a : in_u 32 (ByteMem.load 4 f a) -> in_u 32 (fetched f a).
Proof. unfold fetched. cbv zeta. intros Hr. destruct (_ =? 3); [done |]. unfold in_u in *. zlia. Qed.

(* ------------------------------------------------------------------ *)
(** ** Machine mode without translation *)

Definition bare_regime (M : Type) `{GuestMemoryLaws M} : Regime M := {|
  mode := bare;
  intact := fun _ => True;
  view := mem_byte;
  visible := ordinary;
  names := eqm 32;
  fetchable := fun a => ordinary_span a 4;
  readable := ordinary_span;
  writable := fun _ _ => true
|}.

Section Bare.
Context {M : Type} `{GuestMemoryLaws M} (xlen : Z) (Hxlen : xlen = 32 \/ xlen = 64).
#[local] Existing Instance bare_regime.
Implicit Types (s : Cpu.t) (m : M) (f : ByteMem.t).

Lemma shown m f : shows m f -> mem_ok m /\ forall b, ordinary b -> mem_byte m b = f b.
Proof using. by intros []. Qed.

Lemma shown_load m f n a' a :
  shows m f -> eqm 32 a' a -> ordinary_span a n = true -> ByteMem.load n (mem_byte m) a' = ByteMem.load n f a.
Proof.
  intros [Hm Hf]%shown Ha Ho%ordinary_span_ok. rewrite (mem_load_congr n m a' a) by exact Ha.
  apply ByteMem.load_ext. intros b Hb. apply Hf. replace b with (a + (b - a)) by lia. apply Ho. lia.
Qed.

Lemma shown_store m m' f n a' a v v' :
  shows m f -> mem_ok m' -> (forall b, mem_byte m' b = ByteMem.store n (mem_byte m) a' v b) -> eqm 32 a' a ->
  eqm (8 * Z.of_nat n) v v' -> shows m' (ByteMem.store n f a v').
Proof using.
  intros [Hm Hf]%shown Hm' Hb Ha Hv. split; [done | done |]. intros b Ho. unfold view, bare_regime.
  rewrite Hb, (store_modulo n _ a' a v v') by done. by apply ByteMem.store_ext, Hf.
Qed.

Lemma bare_regime_laws : RegimeLaws (bare_regime M) xlen.
Proof using All.
  split; unfold mode, names, fetchable, readable, writable, bare_regime.
  - intros s s' [= E1 E2 E3 E4 _ _ _ _] Hc (Hp & Hs & Hf). split; [by rewrite E3 | split; [by rewrite Hc | by rewrite E4]].
  - by intros s (_ & _ & Hf).
  - intros x k _. rewrite !uint_eqm by lia. by rewrite (embed_eqm 32 xlen x) by lia.
  - intros m f g [Hm Hi Hf] Hg. split; [done | done |]. intros b Hb. by rewrite Hf, Hg.
  - intros s m f pc va Hs Hf Hpc He Hn _ Ho. destruct (shown m f Hf) as [Hm _].
    assert (E : fetched (mem_byte m) pc = fetched f va) by (unfold fetched; cbv zeta; by rewrite (shown_load m f 4 pc va)).
    exists (mmu_ (bare_mmu s)), m. rewrite (LoadCmd_bare pc s m Hs Hm Hpc He), E. split; [done |]. split; [done |].
    rewrite <- E. apply fetched_range. by apply mem_load_range.
  - intros i rd rs1 imm w s m f a Hs _ Hf Ht Hw Hn Ho. destruct (shown m f Hf) as [Hm Hby].
    destruct (load_bare i rd rs1 imm w s m Hs Hm Ht Hw) as (s' & m' & E & Hm' & _ & Hb & Hr & Hc & Hpc & Hnext & Hset).
    exists s', m'. split; [done |].
    assert (Hf' : shows m' f).
    { split; [done | done |]. intros b Hb0. unfold view, bare_regime. rewrite Hb, refresh_ordinary by done. by apply Hby. }
    split; [done |]. split; [done |]. rewrite (shown_load m' f _ _ a Hf' Hn Ho) in Hr. split; [| done].
    rewrite <- (shown_load m' f _ _ a Hf' eq_refl Ho). pose proof (width_bounds w (GetLoadWidth_cases i w Hw)).
    replace (8 * w) with (8 * Z.of_nat (Z.to_nat w)) by lia. by apply mem_load_range.
  - intros i rd rs1 rs2 imm w s m f a Hs _ Hf Hv Hw Hn _. destruct (shown m f Hf) as [Hm _].
    destruct (store_bare i rd rs1 rs2 imm w s m Hs Hm Hv Hw) as (s' & m' & E & Hm' & _ & Hb & Hr & Hc & Hpc & Hnext & _ & Hset).
    exists s', m'. split; [done |]. split; [done |]. split; [done |]. by apply (shown_store m m' f _ (u64 (reg s rs1 + imm)) a (reg s rs2)).
  - intros i rd rs1 rs2 s m f a z Hs Hf Ha Hb Hn Hz Ho. destruct (shown m f Hf) as [Hm _].
    set (w := Amo.width i) in *. set (n := Z.to_nat (w / 8)) in *.
    pose proof (shown_load m f n _ a Hf Hn Ho) as El.
    destruct (AmoInstruction_bare i rd rs1 rs2 s m z Hs Hm Ha Hb) as (m' & E & Hm' & Hby); [fold w n; by rewrite El |].
    fold w n in E, Hby. rewrite El in E. eexists _, m'. split; [exact E |]. split; [done |]. split; [done |].
    by apply (shown_store m m' f n (reg s rs1) a z).
Qed.
End Bare.
