(* ===== verification/IsaMachine.v ===== *)
(** * The instruction set as an abstract machine

    What the ISA manual says an RV32IMAC or RV64IMAC hart without interrupts and
    address translation does: a program counter and 32 registers of [xlen] bits and a
    flat byte memory (of 32-bit addresses, see [ByteMem]); decoding by the manual's
    tables of encodings and the formats of the immediates; one step per instruction.
    LR and SC, the CSR and system instructions are not instructions of this machine.
    The emulator's code is not referred to; Simulate.v relates the two. *)

From S2P Require Import Prelude Memory Isa Decode Rvc Alu Bare.

Module IsaMachine.

Record hart : Type := Hart { pc : Z; regs : Z -> Z; mem : ByteMem.t }.

Section Hart.
(** The width of the registers, 32 or 64. *)
Context (xlen : Z).

(** x0 reads as zero and ignores writes. *)
Definition get (h : hart) (r : Z) : Z := if r =? 0 then 0 else regs h r.
Definition write (r v : Z) (f : Z -> Z) : Z -> Z := fun k => if k =? r then v else f k.

(* ------------------------------------------------------------------ *)
(** ** Decoding *)

(** [n] bits of [ir] from bit [lo] on. *)
Definition bits (ir lo n : Z) : Z := ir / 2 ^ lo mod 2 ^ n.

(** The immediates of the formats: the manual's list of fields, most significant
    first, as a signed number. *)
Definition imm_I (ir : Z) : Z := sint 12 (bits ir 20 12).
Definition imm_S (ir : Z) : Z := sint 12 (bits ir 25 7 * 2 ^ 5 + bits ir 7 5).
Definition imm_B (ir : Z) : Z :=
  sint 13 (bits ir 31 1 * 2 ^ 12 + bits ir 7 1 * 2 ^ 11 + bits ir 25 6 * 2 ^ 5 + bits ir 8 4 * 2).
Definition imm_U (ir : Z) : Z := sint 32 (bits ir 12 20 * 2 ^ 12).
Definition imm_J (ir : Z) : Z :=
  sint 21 (bits ir 31 1 * 2 ^ 20 + bits ir 12 8 * 2 ^ 12 + bits ir 20 1 * 2 ^ 11 + bits ir 21 10 * 2).
Definition shamt (ir : Z) : Z := bits ir 20 6.

Definition immediate_of (i : instruction) : Z -> Z :=
  match i with
  | INST_SB | INST_SH | INST_SW | INST_SD => imm_S
  | INST_BEQ | INST_BNE | INST_BLT | INST_BGE | INST_BLTU | INST_BGEU => imm_B
  | INST_LUI | INST_AUIPC => imm_U
  | INST_JAL => imm_J
  | INST_SLLI | INST_SRLI | INST_SRAI | INST_SLLIW | INST_SRLIW | INST_SRAIW => shamt
  | _ => imm_I
  end.

Record operands : Type := Operands { op : instruction; rd : Z; rs1 : Z; rs2 : Z; imm : Z }.

Definition matches (ir : Z) (e : Manual.encoding) : bool := Z.land ir (Manual.fixed e) =? Manual.value e.

(** The instructions that only RV64 has, and the shifts of RV32, whose amount has
    five bits. *)
Definition rv64_only (i : instruction) : bool :=
  Isa_spec.is_w i ||
  match i with
  | INST_LWU | INST_LD | INST_SD => true
  | _ => match Amo.result i 0 0 with Some _ => Amo.width i =? 64 | None => false end
  end.

Definition legal (d : operands) : bool :=
  (xlen =? 64) || negb (rv64_only (op d)) && implb (shift_imm (op d)) (imm d <? 32).

Definition when_legal (d : operands) : option operands := if legal d then Some d else None.

Definition decode32 (ir : Z) : option operands :=
  match find (matches ir) Manual.encodings with
  | Some e => let i := Manual.inst e in
      when_legal (Operands i (bits ir 7 5) (bits ir 15 5) (bits ir 20 5) (immediate_of i ir))
  | None => None
  end.

(** The number the manual gives the width (in the field MXL of MISA). *)
Definition mxl : Z := if xlen =? 64 then 2 else 1.

(** A compressed instruction has the operands of its expansion. *)
Definition decode16 (ir : Z) : option operands :=
  match find (Compressed.matches mxl ir) Compressed.encodings with
  | Some e => let d := Compressed.expansion e ir in
      when_legal (Operands (instruction_out d) (rd_out d) (rs1_out d) (rs2_out d) (imm_out d))
  | None => None
  end.

(** The two low bits tell the lengths apart. *)
Definition is_long (ir : Z) : bool := ir mod 4 =? 3.
Definition decode (ir : Z) : option operands := if is_long ir then decode32 ir else decode16 ir.

(* ------------------------------------------------------------------ *)
(** ** Execution *)

(** The result of an instruction that computes a value from registers, its
    immediate and its address. *)
Definition computed (i : instruction) (x y imm pc : Z) : option Z :=
  match i with
  | INST_LUI => Some (uint xlen imm)
  | INST_AUIPC => Some (uint xlen (pc + imm))
  | INST_SLT | INST_SLTU | INST_SLTI | INST_SLTIU => Some (Z.b2z (Isa_spec.compare xlen i x y imm))
  | _ =>
      match Isa_spec.operation xlen i x y with
      | Some z => Some z
      | None => match Isa_spec.immediate xlen i x imm with Some z => Some z | None => Isa_spec.multiply xlen i x y end
      end
  end.

(** Bytes read, and how they fill a register. *)
Definition load (i : instruction) : option (nat * (Z -> Z)) :=
  match i with
  | INST_LB => Some (1%nat, fun v => uint xlen (sint 8 v))
  | INST_LH => Some (2%nat, fun v => uint xlen (sint 16 v))
  | INST_LW => Some (4%nat, fun v => uint xlen (sint 32 v))
  | INST_LBU => Some (1%nat, id) | INST_LHU => Some (2%nat, id) | INST_LWU => Some (4%nat, id) | INST_LD => Some (8%nat, id)
  | _ => None
  end.

Definition store (i : instruction) : option nat :=
  match i with INST_SB => Some 1%nat | INST_SH => Some 2%nat | INST_SW => Some 4%nat | INST_SD => Some 8%nat | _ => None end.

Definition is_branch (i : instruction) : bool :=
  match i with INST_BEQ | INST_BNE | INST_BLT | INST_BGE | INST_BLTU | INST_BGEU => true | _ => false end.

(** The bytes of memory the instruction reads: first address and number. *)
Definition read_set (d : operands) (h : hart) : option (Z * nat) :=
  match load (op d) with
  | Some (n, _) => Some (uint xlen (get h (rs1 d) + imm d), n)
  | None => match Amo.result (op d) 0 0 with
            | Some _ => Some (get h (rs1 d), Z.to_nat (Amo.width (op d) / 8))
            | None => None
            end
  end.

(** The bytes a store writes. *)
Definition write_set (d : operands) (h : hart) : option (Z * nat) :=
  match store (op d) with Some n => Some (uint xlen (get h (rs1 d) + imm d), n) | None => None end.

(** One instruction, [next] being the address of the one after it; [None]: not an
    instruction of this machine. *)
Definition execute (d : operands) (next : Z) (h : hart) : option hart :=
  let x := get h (rs1 d) in
  let y := get h (rs2 d) in
  let a := uint xlen (x + imm d) in
  let finish target v f := Some (Hart target (write (rd d) v (regs h)) f) in
  match load (op d), store (op d), Amo.result (op d) (ByteMem.load (Z.to_nat (Amo.width (op d) / 8)) (mem h) x)
                                     (uint (Amo.width (op d)) y) with
  | Some (n, fill), _, _ => finish next (fill (ByteMem.load n (mem h) a)) (mem h)
  | _, Some n, _ => Some (Hart next (regs h) (ByteMem.store n (mem h) a y))
  | _, _, Some z =>
      let n := Z.to_nat (Amo.width (op d) / 8) in
      finish next (uint xlen (sint (Amo.width (op d)) (ByteMem.load n (mem h) x))) (ByteMem.store n (mem h) x z)
  | _, _, _ =>
      if is_branch (op d) then
        Some (Hart (if Isa_spec.taken xlen (op d) x y then uint xlen (pc h + imm d) else next) (regs h) (mem h))
      else match op d with
      | INST_JAL => finish (uint xlen (pc h + imm d)) next (mem h)
      | INST_JALR => finish (2 * (a / 2)) next (mem h)
      | INST_FENCE | INST_FENCEI => Some (Hart next (regs h) (mem h))
      | i => match computed i x y (imm d) (pc h) with Some z => finish next z (mem h) | None => None end
      end
  end.

(** Fetch, decode, execute. *)
Definition fetch (h : hart) : Z := fetched (mem h) (pc h).

(** The address of the instruction after it. *)
Definition following (h : hart) : Z := uint xlen (pc h + (if is_long (fetch h) then 4 else 2)).

Definition step (h : hart) : option hart :=
  match decode (fetch h) with
  | Some d => execute d (following h) h
  | None => None
  end.
End Hart.

End IsaMachine.
