(* ===== verification/Machine.v ===== *)
(** * The whole machine: runs of RunCpu

    The loop of [RunCpu] without fuel ([finishes]), the invariant of every run, and
    runs of small guest programs. *)

From S2P Require Import Prelude BitTools Memory Isa Encdec Decode Pte Mmu Peripheral Syscall CpuState Alu Csr Trap LoadStore Cpu Invariant.
Import Cpu.

(* ------------------------------------------------------------------ *)
(** ** The loop without fuel

    [finishes s e s']: from [s] the C++ loop ends after finitely many turns, in
    [s'], and [RunCpu] returns [e]. *)

Section Finishes.
Context {M : Type} `{GuestMemory M} `{HostOs M}.

Definition running (s : Cpu.t * M) : bool := negb (error_flag_ s.1) && negb (end_flag_ s.1).

Inductive finishes : Cpu.t * M -> Z -> Cpu.t * M -> Prop :=
| finishes_last s s' : step s = Ok (tt, s') -> running s' = false -> finishes s (Z.b2z (error_flag_ s'.1)) s'
| finishes_more s s1 e s' : step s = Ok (tt, s1) -> running s1 = true -> finishes s1 e s' -> finishes s e s'.

Lemma run_loop_S fuel s :
  run_loop (S fuel) s =
  match step s with
  | Ok (_, s1) => if running s1 then run_loop fuel s1 else Ok (Some (Z.b2z (error_flag_ s1.1)), s1)
  | Err f => Err f
  end.
Proof.
  cbn [run_loop]. unfold mbind, st_bind, field. destruct (step s) as [[a s1]|]; [| done].
  unfold running. by destruct (error_flag_ s1.1), (end_flag_ s1.1).
Qed.

Lemma run_loop_sound fuel s e s' : run_loop fuel s = Ok (Some e, s') -> finishes s e s'.
Proof.
  revert s. induction fuel as [|n IH]; intros s; [done |]. rewrite run_loop_S.
  destruct (step s) as [[[] s1]|] eqn:E; [| done]. destruct (running s1) eqn:R.
  - intros Hr. eapply finishes_more; eauto.
  - intros [= <- <-]. by apply finishes_last.
Qed.

Lemma run_loop_complete s e s' :
  finishes s e s' -> exists n, forall fuel, (n <= fuel)%nat -> run_loop fuel s = Ok (Some e, s').
Proof.
  induction 1 as [s s' E R | s s1 e s' E R _ (n & IH)].
  - exists 1%nat. intros [|fuel] Hf; [lia |]. by rewrite run_loop_S, E, R.
  - exists (S n). intros [|fuel] Hf; [lia |]. rewrite run_loop_S, E, R. apply IH. lia.
Qed.

Lemma run_loop_mono fuel more s e s' :
  run_loop fuel s = Ok (Some e, s') -> (fuel <= more)%nat -> run_loop more s = Ok (Some e, s').
Proof.
  revert more s. induction fuel as [|n IH]; intros more s; [done |]. destruct more as [|more]; [lia |].
  rewrite !run_loop_S. destruct (step s) as [[[] s1]|]; [| done]. destruct (running s1); [| done].
  intros E Hle. apply IH; [done | lia].
Qed.

(** The state in which [RunCpu] enters its loop. *)
Definition started (pc : Z) (s : Cpu.t * M) : Cpu.t * M :=
  (s.1 <| error_flag_ := false |> <| end_flag_ := false |> <| next_pc_ := pc |>, s.2).

Lemma RunCpu_started fuel pc s : RunCpu fuel pc s = run_loop fuel (started pc s).
Proof. done. Qed.
End Finishes.

(** The invariant of a run: everything at its width and coherent, and x0 zero. *)
Definition well_formed {M} `{GuestMemoryLaws M} (s : Cpu.t * M) : Prop := machine_ok s /\ zero_ok s.

(* ------------------------------------------------------------------ *)
(** ** Properties *)

(** C16: whatever program the emulated machine runs, and however the host answers its
    system calls, a run of [RunCpu] that does not fault keeps the whole machine well
    formed: every register, CSR, program counter, device member, disk byte and
    memory byte within its width, the views of MSTATUS and MIE coherent and its
    hard-wired bits kept, and x0 zero. *)
Theorem RunCpu_keeps_machine {M} `{HostOsLaws M} (fuel : nat) (pc : Z) (s s' : Cpu.t * M) (r : option Z) :
  well_formed s -> in_u 64 pc -> RunCpu fuel pc s = Ok (r, s') -> well_formed s'.
Proof.
  intros [Hs Hz] Hpc E. split; [exact (proj1 (machine_RunCpu fuel pc Hpc s r s' Hs E)) |].
  rewrite RunCpu_started in E. by refine (proj1 (zero_run_loop fuel (started pc s) r s' Hz E)).
Qed.

(** The fuel of the model is no restriction: [RunCpu] with some fuel returns [e] in
    state [s'] exactly when the unbounded loop of the program finishes there with that
    result, and then any larger fuel gives the same answer. *)
Lemma RunCpu_iff_finishes {M} `{GuestMemory M} `{HostOs M} (pc e : Z) (s s' : Cpu.t * M) :
  (finishes (started pc s) e s' <-> exists fuel, RunCpu fuel pc s = Ok (Some e, s'))
  /\ forall fuel more, RunCpu fuel pc s = Ok (Some e, s') -> (fuel <= more)%nat -> RunCpu more pc s = Ok (Some e, s').
Proof.
  split; [split |].
  - intros Hf. destruct (run_loop_complete _ _ _ Hf) as (n & Hn). exists n. rewrite RunCpu_started. apply Hn. lia.
  - intros (fuel & E). rewrite RunCpu_started in E. exact (run_loop_sound fuel _ _ _ E).
  - intros fuel more. rewrite !RunCpu_started. apply run_loop_mono.
Qed.

(** *** Witnesses

    A program at 0x1000 that adds the numbers below [n]; on a fresh machine,
    stopped by a return to address zero. *)
Definition sum_program (n : Z) : list Z :=
  [0x293; 0x313; 0x393 + n * 2 ^ 20; 0x128293; 0x530333; 0x728463; 0xFF1FF06F; 0x30533; 0x10C0B3; 0x8067].

Definition load_words (a : Z) (l : list Z) (m : MemoryWrapper.t) : res MemoryWrapper.t :=
  write_all m (imap (fun i w => (W32, a + 4 * Z.of_nat i, w)) l).

Definition program_memory (l : list Z) : MemoryWrapper.t :=
  match load_words 0x1000 l MemoryWrapper.MemoryWrapper with Ok m => m | Err _ => MemoryWrapper.MemoryWrapper end.

Definition sample_program_memory : MemoryWrapper.t := program_memory (sum_program 10).

Definition sample_machine (en64bit : bool) : Cpu.t * MemoryWrapper.t := (RiscvCpu 0 en64bit, sample_program_memory).

#[export] Instance sample_host : HostOs MemoryWrapper.t := console_host MemoryWrapper.t.
#[export] Instance sample_host_laws : HostOsLaws MemoryWrapper.t := console_host_laws MemoryWrapper.t.

Lemma program_memory_ok l :
  Forall fits (imap (fun i w => (W32, 0x1000 + 4 * Z.of_nat i, w)) l) -> mem_ok (M := MemoryWrapper.t) (program_memory l).
Proof.
  intros Hl. unfold program_memory, load_words. destruct (write_all _ _) as [m|] eqn:E; [| exact MemoryWrapper_init_ok].
  exact (write_all_ok (M := MemoryWrapper.t) _ m _ MemoryWrapper_init_ok Hl E).
Qed.

Lemma sample_program_memory_ok : mem_ok (M := MemoryWrapper.t) sample_program_memory.
Proof. apply program_memory_ok. decide_it. Qed.

Lemma new_machine_ok (en64bit : bool) (m : MemoryWrapper.t) :
  mem_ok m -> well_formed (RiscvCpu 0 en64bit, m).
Proof.
  intros Hm. split; [| by destruct en64bit]. split; cbn [fst snd]; [| destruct en64bit; decide_it | | destruct en64bit; decide_it | done].
  - split; [apply RiscvCpu_csr_ok | destruct en64bit; decide_it ..].
  - split; [destruct en64bit; decide_it .. |]. intros d Hd. destruct en64bit; discriminate Hd.
Qed.

(** The result, A0 and the final program counter of the sample run. *)
Definition sample_outcome (en64bit : bool) : option (option Z * Z * Z) :=
  match RunCpu 100 0x1000 (sample_machine en64bit) with
  | Ok (r, (s, _)) => Some (r, reg s A0, pc_ s)
  | Err _ => None
  end.

Example sample_runs : sample_outcome true = Some (Some 0, 55, 0x1024) /\ sample_outcome false = Some (Some 0, 55, 0x1024).
Proof. split; vm_compute; reflexivity. Qed.

Lemma RunCpu_keeps_machine_witness : match RunCpu 100 0x1000 (sample_machine true) with Ok (_, s') => zero_ok s' | Err _ => False end.
Proof.
  destruct (RunCpu 100 0x1000 (sample_machine true)) as [[r s']|] eqn:E; [| vm_compute in E; discriminate E].
  pose proof (new_machine_ok true sample_program_memory sample_program_memory_ok) as Hw.
  exact (proj2 (RunCpu_keeps_machine 100 0x1000 (sample_machine true) s' r Hw ltac:(decide_it) E)).
Defined.

Lemma RunCpu_iff_finishes_witness : exists s', finishes (started 0x1000 (sample_machine true)) 0 s' /\ reg s'.1 A0 = 55.
Proof.
  destruct (RunCpu 100 0x1000 (sample_machine true)) as [[r s']|] eqn:E; [| vm_compute in E; discriminate E].
  assert (H : (r, reg s'.1 A0) = (Some 0, 55)).
  { transitivity (match RunCpu 100 0x1000 (sample_machine true) with Ok (r, s) => (r, reg s.1 A0) | Err _ => (None, 0) end);
      [by rewrite E | vm_compute; reflexivity]. }
  injection H as -> H. exists s'. split; [| exact H].
  apply (proj1 (RunCpu_iff_finishes 0x1000 0 (sample_machine true) s')). exists 100%nat. exact E.
Defined.
