(* ===== verification/SystemTurns.v ===== *)
(** * RISCV_cpu.cc: the turns of system calls and of returns

    An ECALL from its fetch to its end, in machine mode without translation or in any
    mode under Sv32 or Sv39 ([fetches]); with system call emulation the call is served by
    the host inside the turn, without it the turn traps to the handler of the level
    the cause is delegated to.  And the turn of MRET or SRET, which returns from a
    handler ([returned]). *)

From S2P Require Import Prelude BitTools Memory Isa Decode Pte Mmu Peripheral Syscall CpuState Csr Trap LoadStore Cpu Invariant Bare Paged Turns Machine.
Import Cpu.

(** The turn fetches the word [c] and leaves memory as [f]: without translation, or
    through the page tables, whose access bits it sets. *)
Definition fetches {M} `{GuestMemoryLaws M} (s : Cpu.t) (m : M) (c : Z) (f : ByteMem.t) : Prop :=
  (bare s /\ c = fetched (mem_byte m) (next_pc_ s) /\ f = mem_byte m) \/
  exists fmt root p pa, paging fmt root p s /\ Access.fetch fmt root (mem_byte m) (next_pc_ s) = (Some c, f, Access.Done pa).

Definition ecall_word : Z := 0x73.

Definition ecall_cause (p : PrivilegeMode) : Z :=
  match p with USER_MODE => ECALL_UMODE | SUPERVISOR_MODE => ECALL_SMODE | MACHINE_MODE => ECALL_MMODE end.

(** The processor after an emulated call that left [t], at the end of the turn. *)
Definition emulated (error end_ : bool) (t : Syscall.t) (o s' : Cpu.t) : Prop :=
  reg_ s' = zset (Syscall.reg t) ZERO 0 /\ brk_ s' = Syscall.brk t /\ openHandles s' = Syscall.openHandles t /\
  error_flag_ s' = error /\ end_flag_ s' = end_ /\ next_pc_ s' = u64 (pc_ o + 4) /\
  privilege_ s' = privilege_ o /\ csrs_ s' = csrs_ o.

Lemma Ecall_traps s :
  cpu_ok s -> exists s', Ecall s = Ok s' /\ trap_effect (ecall_cause (privilege_ s)) kException s s' /\
    switches s' = switches s /\ error_flag_ s' = error_flag_ s.
Proof.
  intros Hok. assert (Hs : trap_supported (ecall_cause (privilege_ s)) kException = true) by (by destruct (privilege_ s)).
  assert (E : Ecall s = Trap (ecall_cause (privilege_ s)) kException s) by (unfold Ecall; by destruct (privilege_ s)).
  destruct (Trap_correct _ kException s Hok Hs) as (s' & Es & _ & Ht). exists s'. rewrite E. split; [done |]. split; [done |].
  destruct (Trap_flags _ _ _ _ Es) as [Hsw Her]. split; [done |]. rewrite Her. destruct (privilege_ s); apply orb_false_r.
Qed.

(** The return instruction of a level: MRET or SRET. *)
Definition return_imm (l : trap_level) : Z := if decide (l_priv l = MACHINE_MODE) then 0x302 else 0x102.
Definition return_word (l : trap_level) : Z := return_imm l * 2 ^ 20 + ecall_word.
Definition return_from (l : trap_level) : Cpu.t -> res Cpu.t := if decide (l_priv l = MACHINE_MODE) then Mret else Sret.

(** The mode the trap came from. *)
Definition previous_mode (l : trap_level) (s : Cpu.t) : Z := bitcrop (mstatus_ s) (l_pp_width l) (l_pp l).

(** What a return leaves alone of what decides how instructions run. *)
Definition rest (s : Cpu.t) :=
  (xlen_ s, mxl_ s, mie_ s, page_fault_ s, error_flag_ s, switches s, (prev_page_fault_ s, prev_faulting_address_ s),
   disable_machine_interrupt_delegation_ s).

(** The processor after the turn of a return from level [l] to mode [p]. *)
Record returned (l : trap_level) (p : PrivilegeMode) (s s' : Cpu.t) : Prop := {
  rt_priv : privilege_ s' = p;
  rt_pc : next_pc_ s' = csr s (l_epc l);
  rt_regs : forall r, reg s' r = if decide (ZERO = r :> Z) then 0 else reg s r;
  rt_rest : rest s' = rest s;
  rt_csrs : forall c, ~ status_csr c -> csr s' c = csr s c;
  rt_mstatus : forall i, 0 <= i < 64 ->
    Z.testbit (mstatus_ s') i =
    if i =? l_ie l then Z.testbit (mstatus_ s) (l_pie l)
    else if i =? l_pie l then true
    else if (l_pp l <=? i) && (i <? l_pp l + 2) then false
    else Z.testbit (mstatus_ s) i
}.

(** So does the return itself, and what it leaves of the interrupts. *)
Definition aside (s : Cpu.t) := (rest s, alarms s).

Lemma aside_privilege p s : aside (s <| privilege_ := p |>) = aside s.
Proof. done. Qed.
Lemma aside_mstatus v s : aside (s <| mstatus_ := v |>) = aside s.
Proof. done. Qed.
Lemma aside_next_pc v s : aside (s <| next_pc_ := v |>) = aside s.
Proof. done. Qed.
Lemma aside_put_csr c v s : aside (put_csr c v s) = aside s.
Proof. done. Qed.
Lemma aside_ApplyMstatusToCsr s : aside (ApplyMstatusToCsr s) = aside s.
Proof. by unfold ApplyMstatusToCsr; rewrite !aside_put_csr. Qed.

Lemma ret_Ok {A} (x y : A) : mret x = Ok y -> y = x.
Proof. by intros [= <-]. Qed.

Lemma return_frame l s s' :
  return_from l s = Ok s' -> aside s' = aside s /\ forall c, ~ status_csr c -> csr s' c = csr s c.
Proof.
  unfold return_from, Mret, Sret, status_csr. case_decide; intros (p & _ & ->%ret_Ok)%bind_Ok;
    rewrite aside_next_pc, aside_ApplyMstatusToCsr, ?aside_put_csr, !aside_mstatus, aside_privilege; (split; [done |]); intros c Hc;
    rewrite csr_next_pc, ApplyMstatusToCsr_frame by tauto; [done |].
  by rewrite csr_put_csr_ne by (intros E; apply Hc; rewrite <- E; tauto).
Qed.

Lemma return_correct l p s :
  cpu_ok s -> is_level l -> previous_mode l s = code_PrivilegeMode p ->
  exists s', return_from l s = Ok s' /\ cpu_ok s' /\ return_effect l p s s'.
Proof.
  intros Hok [-> | ->] Hp; unfold return_from; cbn [l_priv machine_level supervisor_level].
  - destruct (Mret_spec s p (cpu_csr _ Hok) Hp) as (s' & E & He). exists s'. destruct (Mret_keeps s s' Hok E). by rewrite decide_True.
  - destruct (Sret_spec s p (cpu_csr _ Hok) Hp) as (s' & E & He). exists s'. destruct (Sret_keeps s s' Hok E). by rewrite decide_False.
Qed.

Section SystemTurn.
Context {M : Type} `{HostOsLaws M}.
Implicit Types (s o : Cpu.t) (m : M).

(** A turn without interrupt reaches the execution of the fetched word. *)
Lemma step_reaches s m c f :
  cpu_ok s -> mem_ok m -> next_pc_ s mod 2 = 0 -> due_interrupt s m = None -> fetches s m c f ->
  exists o u m', observed s m o /\ mem_ok m' /\ (forall b, mem_byte m' b = f b) /\
    Cpu.step (s, m) = decode_and_execute (o <| mmu_ := u |> <| ir_ := c |>, m').
Proof using All.
  intros Hok Hm He Hn Hf. destruct (step_uninterrupted s m Hok Hm Hn) as (o & Ho & E). exists o. rewrite E. clear E.
  destruct Hf as [(Hb & -> & ->) | (fmt & root & p & pa & Hp & Ef)].
  - assert (Hbo : bare o).
    { destruct Hb as (Hb1 & Hb2 & Hb3). destruct Ho as [_ _ _ Hc _ Hk]. injection Hk as _ _ _ _ _ _ E7 E8 _ _ _ _ _ _ _ _ _ _ _ _ _.
      unfold bare. by rewrite E7, E8, Hc. }
    eexists _, m. split; [done |]. split; [done |]. split; [done |]. unfold fetch_and_execute.
    rewrite (st_bind_run _ _ _ (pc_ o) (o, m)) by done. rewrite (ob_pc _ _ _ Ho).
    rewrite (st_bind_run _ _ _ _ _ (LoadCmd_bare (next_pc_ s) o m Hbo Hm (cpu_next _ Hok) He)).
    rewrite (st_bind_run _ _ _ tt (bare_mmu o <| ir_ := fetched (mem_byte m) (next_pc_ s) |>, m)) by done.
    rewrite (st_bind_run _ _ _ false (_, m)) by (unfold field; cbn [fst]; by destruct Hbo as (_ & _ & <-)). done.
  - pose proof (fetch_turn fmt root p o m (ob_ok _ _ _ Ho) Hm (observed_paging fmt root p s m o Ho Hp)) as Hf.
    rewrite (ob_pc _ _ _ Ho), Ef in Hf. destruct (Hf He) as (m' & Hm' & Hb & c' & u & [= <-] & E). by exists u, m'.
Qed.

(** The state in which a 32-bit word is executed. *)
Definition executing w u o : Cpu.t :=
  o <| mmu_ := u |> <| ir_ := w |> <| ctype_ := false |> <| next_pc_ := u64 (pc_ o + 4) |>.

(** The system instruction [w]: its immediate selects it. *)
Definition system_word (w imm : Z) : Prop :=
  w .& 3 = 3 /\ exists rs1 rs2, forall mxl, Decode.decode w mxl false = mk_decoded INST_SYSTEM 0 rs1 rs2 imm.

(** What [decode_and_execute] does with it when no device is emulated. *)
Lemma decode_and_execute_system w imm u o m :
  system_word w imm ->
  match SystemInstruction INST_SYSTEM 0 imm (executing w u o, m) with
  | Ok (_, (s1, m1)) => host_emulation_ s1 = false -> peripheral_emulation_ s1 = false ->
      decode_and_execute (o <| mmu_ := u |> <| ir_ := w |>, m)
      = Ok (tt, (put_reg ZERO 0 (if pc_ o =? next_pc_ s1 then s1 <| error_flag_ := true |> else s1), m1))
  | Err e => decode_and_execute (o <| mmu_ := u |> <| ir_ := w |>, m) = Err e
  end.
Proof using All.
  intros (Hw & rs1 & rs2 & Hd). set (o1 := o <| mmu_ := u |> <| ir_ := w |>).
  assert (E : decode_and_execute (o1, m) = (SystemInstruction INST_SYSTEM 0 imm;; next ← field next_pc_;
    when (pc_ o =? next) (error_flag_ ::= true);; set_reg ZERO 0;;
    host ← field host_emulation_; device ← field peripheral_emulation_; when (host || device) PeripheralEmulations) (executing w u o, m)).
  { unfold decode_and_execute.
    rewrite (st_bind_run _ _ _ w (o1, m)), (st_bind_run _ _ _ (mxl_ o) (o1, m)), (st_bind_run _ _ _ (pc_ o) (o1, m)) by done.
    cbv zeta. rewrite Hw. cbn [Z.eqb Pos.eqb negb].
    rewrite (st_bind_run _ _ _ tt (o1 <| ctype_ := false |>, m)), (st_bind_run _ _ _ tt (executing w u o, m)) by done.
    by rewrite Hd. }
  rewrite E. destruct (SystemInstruction _ _ _ _) as [[[] [s1 m1]]|e] eqn:Es; [| unfold mbind at 1, st_bind at 1; by rewrite Es].
  intros Hh Hp. rewrite (st_bind_run _ _ _ _ _ Es), (st_bind_run _ _ _ (next_pc_ s1) (s1, m1)) by done.
  set (s2 := if pc_ o =? next_pc_ s1 then s1 <| error_flag_ := true |> else s1).
  rewrite (st_bind_run _ _ _ tt (s2, m1)) by (unfold s2; by destruct (_ =? _)).
  rewrite (st_bind_run _ _ _ tt (put_reg ZERO 0 s2, m1)) by done.
  rewrite (st_bind_run _ _ _ false (put_reg ZERO 0 s2, m1)) by (unfold s2; destruct (_ =? _); unfold field; cbn [fst]; by rewrite <- Hh).
  rewrite (st_bind_run _ _ _ false (put_reg ZERO 0 s2, m1)) by (unfold s2; destruct (_ =? _); unfold field; cbn [fst]; by rewrite <- Hp).
  done.
Qed.

Lemma ecall_is_system : system_word ecall_word 0.
Proof using. split; [done |]. by exists 0, 0. Qed.

(** Without system call emulation: the trap. *)
Lemma trapped_run u o m :
  cpu_ok o -> ecall_emulation_ o = false ->
  exists s1, SystemInstruction INST_SYSTEM 0 0 (executing ecall_word u o, m) = Ok (tt, (s1, m)) /\
    trap_effect (ecall_cause (privilege_ o)) kException (executing ecall_word u o) s1 /\ switches s1 = switches o /\ error_flag_ s1 = error_flag_ o.
Proof using All.
  intros Hok Eo.
  assert (Hc : cpu_ok (executing ecall_word u o)).
  { destruct Hok. split; [by apply (csr_ok_same o) | done | apply uint_range; lia | done | decide_it]. }
  destruct (Ecall_traps _ Hc) as (s1 & Es & Ht & Hsw & Her). exists s1. split; [| exact (conj Ht (conj Hsw Her))].
  unfold SystemInstruction. cbn [Z.eqb]. rewrite (st_bind_run _ _ _ false (executing ecall_word u o, m)).
  2:{ unfold field. cbn [fst]. by rewrite <- Eo. }
  unfold upd_res. cbn [fst snd]. by rewrite Es.
Qed.

(** With system call emulation: the call, then its two flags. *)
Lemma emulated_run u o m :
  ecall_emulation_ o = true ->
  SystemInstruction INST_SYSTEM 0 0 (executing ecall_word u o, m) =
  match Syscall.SystemCallEmulation (top_ o) (Syscall.mk (reg_ o) (brk_ o) (openHandles o), m) with
  | Ok ((error, end_), (t, m2)) =>
      Ok (tt, ((executing ecall_word u o) <| reg_ := Syscall.reg t |> <| brk_ := Syscall.brk t |> <| openHandles := Syscall.openHandles t |>
                 <| error_flag_ := error |> <| end_flag_ := end_ |>, m2))
  | Err e => Err e
  end.
Proof using All.
  intros He. unfold SystemInstruction. cbn [Z.eqb]. rewrite (st_bind_run _ _ _ true (executing ecall_word u o, m)).
  2:{ unfold field. cbn [fst]. by rewrite <- He. }
  unfold SystemCall, mbind, st_bind, field, zoom, assign. cbn [fst snd].
  change (top_ (executing ecall_word u o)) with (top_ o). change (reg_ (executing ecall_word u o)) with (reg_ o). change (brk_ (executing ecall_word u o)) with (brk_ o).
  change (openHandles (executing ecall_word u o)) with (openHandles o).
  by destruct (Syscall.SystemCallEmulation _ _) as [[[error end_] [t m2]]|].
Qed.
(** *** Returns from a handler *)

Lemma return_is_system l : is_level l -> system_word (return_word l) (return_imm l).
Proof using. intros [-> | ->]; (split; [done |]); by eexists _, _. Qed.

Lemma return_run l p w u o m :
  cpu_ok o -> in_u 32 w -> is_level l -> previous_mode l o = code_PrivilegeMode p ->
  exists s1, SystemInstruction INST_SYSTEM 0 (return_imm l) (executing w u o, m) = Ok (tt, (s1, m)) /\
    return_effect l p (executing w u o) s1 /\ aside s1 = aside o /\ forall c, ~ status_csr c -> csr s1 c = csr o c.
Proof using All.
  intros Hok Hw Hl Hp.
  assert (Hc : cpu_ok (executing w u o)).
  { destruct Hok. split; [by apply (csr_ok_same o) | done | apply uint_range; lia | done ..]. }
  destruct (return_correct l p _ Hc Hl Hp) as (s1 & E & _ & He). destruct (return_frame _ _ _ E) as [Hr Hcs].
  exists s1. split; [| exact (conj He (conj Hr Hcs))].
  assert (Ei : SystemInstruction INST_SYSTEM 0 (return_imm l) = upd_res (return_from l) :> CPU M unit) by by destruct Hl as [-> | ->].
  rewrite Ei. unfold upd_res. cbn [fst snd]. by rewrite E.
Qed.

(** The turn of a return from level [l] to mode [p]. *)
Lemma step_returns l p s m f :
  cpu_ok s -> mem_ok m -> is_level l -> next_pc_ s mod 2 = 0 -> due_interrupt s m = None -> fetches s m (return_word l) f ->
  host_emulation_ s = false -> peripheral_emulation_ s = false -> previous_mode l s = code_PrivilegeMode p ->
  csr s (l_epc l) <> next_pc_ s ->
  exists x', Cpu.step (s, m) = Ok (tt, x') /\ returned l p s x'.1 /\ passes (s, m) x' /\ mem_ok x'.2 /\ forall b, mem_byte x'.2 b = f b.
Proof using All.
  intros Hok Hm Hl He Hn Hf Hh Hd Hp Hne. destruct (step_reaches s m _ f Hok Hm He Hn Hf) as (o & u & m' & Ho & Hm' & Hb & E).
  pose proof (ob_ok _ _ _ Ho) as Hoko. pose proof Ho as [_ Hpc _ Hcsr _ Hk _].
  injection Hk as K1 K2 Kreg _ Kst Kie _ Kpf _ _ Kdd Kh Kd Ke Ker Ken _ _ _ Kp1 Kp2.
  assert (Hw : in_u 32 (return_word l)) by (destruct Hl as [-> | ->]; decide_it).
  assert (Hpo : previous_mode l o = code_PrivilegeMode p) by (unfold previous_mode; by rewrite Kst).
  destruct (return_run l p (return_word l) u o m' Hoko Hw Hl Hpo) as (s1 & Es & [R1 R2 R3 _ R5] & Hr & Hcs).
  assert (Hrest : rest s1 = rest o /\ alarms s1 = alarms o) by (unfold aside in Hr; revert Hr; generalize (rest s1) (rest o) (alarms s1) (alarms o);
    intros r r' a a' Eq; by injection Eq).
  destruct Hrest as [Hrest Hal]. pose proof Hrest as Hrest'. injection Hrest' as _ _ _ _ _ Rh Rd _ _ _ _ _.
  pose proof (decode_and_execute_system _ _ u o m' (return_is_system l Hl)) as Ex. rewrite Es in Ex.
  specialize (Ex (eq_trans Rh (eq_trans Kh Hh)) (eq_trans Rd (eq_trans Kd Hd))). rewrite E, Ex.
  assert (Hepc : next_pc_ s1 = csr s (l_epc l)) by (rewrite R2; apply Hcsr).
  replace (pc_ o =? next_pc_ s1) with false by (symmetry; apply Z.eqb_neq; congruence).
  exists (put_reg ZERO 0 s1, m'). split; [done |]. split; [| split; [by exists o | done]]. split.
  - exact R1.
  - exact Hepc.
  - intros r. cbn [fst]. rewrite reg_put_reg. unfold reg. rewrite R3. change (reg_ (executing _ u o)) with (reg_ o). by rewrite Kreg.
  - change (rest s1 = rest s). rewrite Hrest. unfold rest, switches. by rewrite K1, K2, Kie, Kpf, Ker, Kh, Kd, Ke, Ken, Kp1, Kp2, Kdd.
  - intros c Hc. rewrite <- Hcsr. exact (Hcs c Hc).
  - intros i Hi. refine (eq_trans (R5 i Hi) _). change (mstatus_ (executing _ u o)) with (mstatus_ o). by rewrite Kst.
Qed.

End SystemTurn.

(* ------------------------------------------------------------------ *)
(** ** Properties *)

(** C14: the turn of an ECALL, untranslated or through the page tables.  With system
    call emulation the turn is the emulated call: registers, break and open files as
    the call leaves them, x0 zero, the flags the call returns, the next instruction
    next.  Without it the turn is the trap of the call of the current privilege mode:
    the handler's level as delegated, EPC at the ECALL itself, registers and memory
    (but for access bits) as they were; a handler at the address of the ECALL is
    reported as an error. *)
Theorem step_system_call {M} `{HostOsLaws M} (s : Cpu.t) (m : M) (f : ByteMem.t) :
  cpu_ok s -> mem_ok m -> next_pc_ s mod 2 = 0 -> due_interrupt s m = None -> fetches s m ecall_word f ->
  host_emulation_ s = false -> peripheral_emulation_ s = false ->
  exists o m', observed s m o /\ mem_ok m' /\ (forall b, mem_byte m' b = f b) /\
    if ecall_emulation_ s then
      match Syscall.SystemCallEmulation (top_ s) (Syscall.mk (reg_ s) (brk_ s) (openHandles s), m') with
      | Ok ((error, end_), (t, m2)) => exists s', Cpu.step (s, m) = Ok (tt, (s', m2)) /\ emulated error end_ t o s'
      | Err e => Cpu.step (s, m) = Err e
      end
    else exists s1, trap_effect (ecall_cause (privilege_ s)) kException o s1 /\ csr s1 (l_epc (target (ecall_cause (privilege_ s)) kException o)) = next_pc_ s /\
      Cpu.step (s, m) = Ok (tt, (put_reg ZERO 0 (if next_pc_ s =? next_pc_ s1 then s1 <| error_flag_ := true |> else s1), m')).
Proof.
  intros Hok Hm He Hn Hf Hh Hd. destruct (step_reaches s m _ f Hok Hm He Hn Hf) as (o & u & m' & Ho & Hm' & Hb & E).
  exists o, m'. split; [done |]. split; [done |]. split; [done |]. rewrite E. pose proof (ob_ok _ _ _ Ho) as Hoko.
  destruct Ho as [_ Hpc _ _ _ Hk]. injection Hk as _ _ Ereg _ _ _ Epriv _ _ _ _ Eh Ep Ee _ _ Etop Ebrk Eopen _ _.
  rewrite <- Ee, <- Etop, <- Ereg, <- Ebrk, <- Eopen. pose proof (decode_and_execute_system _ _ u o m' ecall_is_system) as Ex.
  destruct (ecall_emulation_ o) eqn:Eo.
  - rewrite (emulated_run u o m' Eo) in Ex. destruct (Syscall.SystemCallEmulation _ _) as [[[error end_] [t m2]]|e]; [| exact Ex].
    eexists. split; [apply Ex; [exact (eq_trans Eh Hh) | exact (eq_trans Ep Hd)] |].
    set (s1 := _ <| end_flag_ := end_ |>). replace (pc_ o =? next_pc_ s1) with false; [by repeat split |].
    symmetry. apply Z.eqb_neq. change (pc_ o <> u64 (pc_ o + 4)). pose proof (cpu_pc _ Hoko) as Hr. unfold in_u, uint in *. zlia.
  - destruct (trapped_run u o m' Hoko Eo) as (s1 & Es & Ht & [= Fh Fd _ _] & _). exists s1. rewrite <- Epriv, <- Hpc.
    split; [by destruct Ht |]. split; [by destruct Ht |].
    rewrite Es in Ex. apply Ex; [rewrite Fh; exact (eq_trans Eh Hh) | rewrite Fd; exact (eq_trans Ep Hd)].
Qed.

(** *** Witnesses: an ECALL at 0x1000 in machine mode, trapped and emulated *)

Definition ecall_memory : MemoryWrapper.t := program_memory [ecall_word].

(** [brk] with argument 0. *)
Definition ecall_cpu (emulation : bool) : Cpu.t :=
  put_reg A7 214 ((RiscvCpu 0 true) <| next_pc_ := 0x1000 |> <| ecall_emulation_ := emulation |>).

Lemma ecall_cpu_ok emulation : cpu_ok (ecall_cpu emulation).
Proof.
  unfold ecall_cpu. generalize (RiscvCpu_csr_ok true). set (c := RiscvCpu 0 true).
  assert (Hr : in_u 64 (pc_ c) /\ in_u 64 (faulting_address_ c) /\ in_u 32 (ir_ c)) by decide_it. revert Hr. generalize c.
  intros c' (H1 & H2 & H3) Hc. split; [| done | decide_it | done | done].
  apply csr_ok_put_reg; [by apply (csr_ok_same c') | decide_it].
Qed.

Lemma ecall_fetched emulation : fetches (ecall_cpu emulation) ecall_memory ecall_word (mem_byte ecall_memory).
Proof. left. split; [done |]. split; [vm_compute |]; done. Qed.

Lemma ecall_memory_ok : mem_ok ecall_memory.
Proof. apply program_memory_ok. decide_it. Qed.

Lemma step_system_call_witness :
  (exists s', Cpu.step (ecall_cpu false, ecall_memory) = Ok (tt, s') /\ csr s'.1 MEPC = 0x1000) /\
  (exists s', Cpu.step (ecall_cpu true, ecall_memory) = Ok (tt, s') /\ reg s'.1 A0 = 0x40000000).
Proof.
  split.
  - destruct (step_system_call (ecall_cpu false) ecall_memory _ (ecall_cpu_ok false) ecall_memory_ok eq_refl
      ltac:(vm_compute; reflexivity) (ecall_fetched false) eq_refl eq_refl) as (o & m' & Ho & _ & _ & s1 & Ht & Hepc & E).
    eexists. split; [exact E |]. destruct Ho as [_ _ _ _ _ Hk]. injection Hk as _ _ _ _ _ _ Ep _ _ _ _ _ _ _ _ _ _ _ _ _ _.
    assert (Htg : target (ecall_cause (privilege_ (ecall_cpu false))) kException o = machine_level).
    { unfold target, delegated. by rewrite Ep. }
    rewrite Htg in Hepc. cbn [fst]. rewrite csr_put_reg. by destruct (_ =? _).
  - destruct (step_system_call (ecall_cpu true) ecall_memory _ (ecall_cpu_ok true) ecall_memory_ok eq_refl
      ltac:(vm_compute; reflexivity) (ecall_fetched true) eq_refl eq_refl) as (o & m' & _ & _ & _ & Hr).
    change (ecall_emulation_ (ecall_cpu true)) with true in Hr. cbv iota in Hr.
    destruct (Syscall.SystemCallEmulation _ _) as [[[error end_] [t m2]]|] eqn:Es in Hr; vm_compute in Es; [| discriminate Es].
    destruct Hr as (s' & E & Hreg & _). exists (s', m2). split; [exact E |]. cbn [fst]. unfold reg. rewrite Hreg.
    injection Es as _ _ <- _. vm_compute. reflexivity.
Defined.
