(* ===== verification/Simulate.v ===== *)
(** * The emulator simulates the abstract machine

    However a program's bytes are reached (Regime.v), with no interrupt due and no
    device emulated, a turn of the main loop of RISCV_cpu.cc is one step of
    [IsaMachine], at either register width and whether the instruction is compressed
    or not; so are runs, as long as no interrupt comes ([patient]), and a program that
    ends by returning to address zero ends [RunCpu] with the registers and memory of
    the abstract run, while one that does not end keeps it going ([run_loop_tracks]).
    The properties at the end are those of machine mode without translation.  The
    emulator's registers have 64 bits: those of a 32-bit processor hold the sign
    extension ([embed]) of the abstract ones. *)

From S2P Require Import Prelude BitTools Memory Isa Encdec Decode Rvc Pte Mmu Peripheral Syscall CpuState Alu Csr Trap LoadStore Cpu Invariant Bare Paged Turns Machine IsaMachine Regime.
Import Cpu Isa_spec.

(* ------------------------------------------------------------------ *)
(** ** Decoding *)

Lemma bitcrop_bits ir n lo : 0 <= n <= 64 -> 0 <= lo -> bitcrop ir n lo = IsaMachine.bits ir lo n.
Proof. intros. by rewrite bitcrop_spec. Qed.

Lemma bits_range ir lo n : 0 <= n -> in_u n (IsaMachine.bits ir lo n).
Proof. intros. apply Z.mod_pos_bound, Z.pow_pos_nonneg; lia. Qed.

Lemma field_bits ir lo n : 0 <= n -> 0 <= lo -> (ir >>. lo) .& Z.ones n = IsaMachine.bits ir lo n.
Proof. intros. by rewrite land_mask, Z.shiftr_div_pow2 by lia. Qed.

Lemma imm_I_eq ir : GetImm12 ir = IsaMachine.imm_I ir.
Proof.
  rewrite GetImm12_spec. unfold IsaMachine.imm_I. apply eqm_sint. unfold eqm, IsaMachine.bits.
  rewrite Z.shiftr_div_pow2 by lia. unfold uint. by rewrite Z.mod_mod.
Qed.

(** Fields put together by disjunction are a sum. *)
Lemma lor_sum a b k : 0 <= k -> a mod 2 ^ k = 0 -> in_u k b -> a .| b = a + b.
Proof.
  intros Hk Ha Hb. pose proof (Z.div_mod a (2 ^ k) ltac:(lia)) as E. rewrite Ha, Z.add_0_r, Z.mul_comm in E.
  rewrite E at 1. rewrite <- Z.shiftl_mul_pow2, lor_low by lia || done. lia.
Qed.

Tactic Notation "sum_fields" uconstr(a) constr(k) := rewrite (lor_sum a _ k) by (lia || (unfold in_u in *; zlia)).

Lemma imm_S_eq ir : GetStypeImm12 ir = IsaMachine.imm_S ir.
Proof.
  rewrite GetStypeImm12_spec. unfold imm12s_bits, IsaMachine.imm_S. change 0x7F with (Z.ones 7). change 0x1F with (Z.ones 5).
  rewrite !field_bits, lor_low by (lia || (apply bits_range; lia)). done.
Qed.

Lemma imm_B_eq ir : GetImm13 ir = IsaMachine.imm_B ir.
Proof.
  rewrite GetImm13_spec. unfold imm13_bits, IsaMachine.imm_B. change 0x3F with (Z.ones 6). change 0xF with (Z.ones 4).
  change ((ir >>. 31) .& 1) with ((ir >>. 31) .& Z.ones 1). change ((ir >>. 7) .& 1) with ((ir >>. 7) .& Z.ones 1).
  rewrite !field_bits, !Z.shiftl_mul_pow2 by lia. f_equal.
  pose proof (bits_range ir 31 1 ltac:(lia)). pose proof (bits_range ir 7 1 ltac:(lia)).
  pose proof (bits_range ir 25 6 ltac:(lia)). pose proof (bits_range ir 8 4 ltac:(lia)).
  sum_fields (_ * 2 ^ 12) 12. sum_fields (_ + _) 11. sum_fields (_ + _) 5. lia.
Qed.

Lemma imm_J_eq ir : GetImm21 ir = IsaMachine.imm_J ir.
Proof.
  rewrite GetImm21_spec. unfold imm21_bits, IsaMachine.imm_J. change 0xFF with (Z.ones 8). change 0x3FF with (Z.ones 10).
  change ((ir >>. 31) .& 1) with ((ir >>. 31) .& Z.ones 1). change ((ir >>. 20) .& 1) with ((ir >>. 20) .& Z.ones 1).
  rewrite !field_bits, !Z.shiftl_mul_pow2 by lia. f_equal.
  pose proof (bits_range ir 31 1 ltac:(lia)). pose proof (bits_range ir 12 8 ltac:(lia)).
  pose proof (bits_range ir 20 1 ltac:(lia)). pose proof (bits_range ir 21 10 ltac:(lia)).
  sum_fields (_ * 2 ^ 20) 20. sum_fields (_ + _) 12. sum_fields (_ + _) 11. lia.
Qed.

Lemma imm_U_eq ir : s32 (u32 (GetImm20 ir <<. 12)) = IsaMachine.imm_U ir.
Proof.
  rewrite GetImm20_spec. unfold IsaMachine.imm_U. rewrite sint_uint by lia. apply eqm_sint.
  rewrite Z.shiftl_mul_pow2 by lia. unfold eqm, IsaMachine.bits. rewrite Z.shiftr_div_pow2 by lia.
  unfold uint, sint. zlia.
Qed.

Lemma shamt_eq ir : GetImm12 ir .& 0x3F = IsaMachine.shamt ir.
Proof.
  rewrite imm_I_eq. change 0x3F with (Z.ones 6). rewrite land_mask by lia.
  unfold IsaMachine.shamt, IsaMachine.imm_I. rewrite uint_sint_le by lia. unfold IsaMachine.bits, uint. zlia.
Qed.

(** The immediate of a row of the manual's table. *)
Definition immediate_as (e : Manual.encoding) : Prop :=
  forall ir, ir .& Manual.fixed e = Manual.value e -> GetImm ir = IsaMachine.immediate_of (Manual.inst e) ir.

Ltac solve_immediate :=
  let ir := fresh "ir" in let H := fresh "H" in
  intros ir H; unfold Manual.fmt_R, Manual.fmt_A, Manual.fmt_I, Manual.fmt_U, Manual.fmt_sh6 in H |- *;
  cbn [Manual.fixed Manual.value Manual.inst] in H |- *;
  unfold GetImm; cbv zeta; fix_field H 7 0; fix_field H 3 12;
  repeat match goal with |- (if ?c then _ else _) = _ =>
    let b := eval vm_compute in c in lazymatch b with true => idtac | false => idtac end; change c with b; cbv iota end;
  cbn [IsaMachine.immediate_of];
  lazymatch goal with
  | |- _ = IsaMachine.imm_I _ => apply imm_I_eq | |- _ = IsaMachine.imm_S _ => apply imm_S_eq
  | |- _ = IsaMachine.imm_B _ => apply imm_B_eq | |- _ = IsaMachine.imm_J _ => apply imm_J_eq
  | |- _ = IsaMachine.imm_U _ => apply imm_U_eq | |- _ = IsaMachine.shamt _ => apply shamt_eq
  end.

Lemma immediates_base : Forall immediate_as Manual.base.
Proof. unfold Manual.base, immediate_as. repeat (apply Forall_cons; split; [solve_immediate |]). by apply Forall_nil. Qed.

Lemma immediates_mul_div : Forall immediate_as Manual.mul_div.
Proof. unfold Manual.mul_div, immediate_as. repeat (apply Forall_cons; split; [solve_immediate |]). by apply Forall_nil. Qed.

Lemma immediates_amo : Forall immediate_as Manual.amo.
Proof. unfold Manual.amo, immediate_as. repeat (apply Forall_cons; split; [solve_immediate |]). by apply Forall_nil. Qed.

Lemma encoding_in ir e : find (IsaMachine.matches ir) Manual.encodings = Some e ->
  e ∈ Manual.encodings /\ ir .& Manual.fixed e = Manual.value e.
Proof. intros [Hin Hm]%find_some. split; [by apply list_elem_of_In | by apply Z.eqb_eq]. Qed.

(** What holds of every row, by inspection of the table. *)
Definition row_ok (e : Manual.encoding) : bool :=
  (Manual.fixed e .& 3 =? 3) && (Manual.value e .& 3 =? 3) &&
  implb (shift_imm (Manual.inst e) && Isa_spec.is_w (Manual.inst e))
    (Z.testbit (Manual.fixed e) 25 && negb (Z.testbit (Manual.value e) 25)).

Lemma rows_ok e : e ∈ Manual.encodings -> row_ok e = true.
Proof.
  intros He. assert (Hall : forallb row_ok Manual.encodings = true) by (vm_compute; reflexivity).
  rewrite forallb_forall in Hall. apply Hall. by apply list_elem_of_In.
Qed.

Lemma row_decodes e ir : e ∈ Manual.encodings -> ir .& Manual.fixed e = Manual.value e ->
  GetCode32 ir = Manual.inst e /\ GetImm ir = IsaMachine.immediate_of (Manual.inst e) ir.
Proof.
  intros He Hm. unfold Manual.encodings in He. rewrite !elem_of_app in He.
  assert (Hd : forall l, Forall decodes_as l -> Forall immediate_as l -> e ∈ l ->
    GetCode32 ir = Manual.inst e /\ GetImm ir = IsaMachine.immediate_of (Manual.inst e) ir).
  { intros l H1 H2 Hin. rewrite Forall_forall in H1. rewrite Forall_forall in H2. split; [by apply H1 | by apply H2]. }
  destruct He as [He | [He | He]];
    [ apply (Hd Manual.base encodings_base immediates_base He)
    | apply (Hd Manual.mul_div encodings_mul_div immediates_mul_div He)
    | apply (Hd Manual.amo encodings_amo immediates_amo He)].
Qed.

Section Simulation.
Context (xlen : Z) (Hxlen : xlen = 32 \/ xlen = 64).

Lemma legal_supported d : IsaMachine.legal xlen d = true -> Isa_spec.supported xlen (IsaMachine.op d).
Proof.
  unfold IsaMachine.legal, IsaMachine.rv64_only. destruct Hxlen as [-> | ->]; [| by left]. cbn [Z.eqb Pos.eqb orb].
  rewrite andb_true_iff, negb_true_iff, orb_false_iff. intros [[Hw _] _]. by right.
Qed.

(** The decoder yields the operands of the abstract machine. *)
Record decodes (ctype : bool) (ir : Z) (d : IsaMachine.operands) : Prop := {
  de_decoded : Decode.decode ir (IsaMachine.mxl xlen) ctype
    = mk_decoded (IsaMachine.op d) (IsaMachine.rd d) (IsaMachine.rs1 d) (IsaMachine.rs2 d) (IsaMachine.imm d);
  de_legal : IsaMachine.legal xlen d = true;
  de_shift : shift_imm (IsaMachine.op d) = true -> shamt_ok xlen (IsaMachine.op d) (IsaMachine.imm d)
}.

Lemma decodes_legal ctype ir d d' :
  Decode.decode ir (IsaMachine.mxl xlen) ctype
    = mk_decoded (IsaMachine.op d) (IsaMachine.rd d) (IsaMachine.rs1 d) (IsaMachine.rs2 d) (IsaMachine.imm d) ->
  (shift_imm (IsaMachine.op d) = true -> shamt_ok 64 (IsaMachine.op d) (IsaMachine.imm d)) ->
  IsaMachine.when_legal xlen d = Some d' -> decodes ctype ir d'.
Proof.
  intros Hd Hs. unfold IsaMachine.when_legal. destruct (IsaMachine.legal xlen d) eqn:El; [intros [= <-] | done].
  split; [done | done |]. intros Hi. specialize (Hs Hi). unfold IsaMachine.legal, IsaMachine.rv64_only in El.
  destruct Hxlen as [E | E]; rewrite E in *; [| done]. cbn [Z.eqb Pos.eqb orb] in El.
  rewrite Hi, andb_true_iff, negb_true_iff, orb_false_iff in El. destruct El as [[Hw _] Hlt]. cbn [implb] in Hlt.
  apply Z.ltb_lt in Hlt. unfold shamt_ok in *. rewrite Hw in *. lia.
Qed.

Lemma decode32_agrees ir d : IsaMachine.decode32 xlen ir = Some d -> decodes false ir d.
Proof.
  unfold IsaMachine.decode32. destruct (find _ _) as [e|] eqn:E; [| done].
  apply encoding_in in E as [He Hm]. destruct (row_decodes e ir He Hm) as [H1 H2].
  pose proof (rows_ok e He) as Hrow. unfold row_ok in Hrow. rewrite !andb_true_iff, !Z.eqb_eq in Hrow.
  destruct Hrow as [[Hf Hv] Hw]. apply decodes_legal;
    cbn [IsaMachine.op IsaMachine.rd IsaMachine.rs1 IsaMachine.rs2 IsaMachine.imm].
  - unfold Decode.decode. cbn [negb]. rewrite H1, H2. unfold GetRd, GetRs1, GetRs2. by rewrite !bitcrop_bits by lia.
  - intros Hs. rewrite Hs in Hw. cbn [andb] in Hw.
    assert (Hi : IsaMachine.immediate_of (Manual.inst e) = IsaMachine.shamt) by (by destruct (Manual.inst e)).
    rewrite Hi. unfold shamt_ok, IsaMachine.shamt. pose proof (bits_range ir 20 6 ltac:(lia)) as Hr. unfold in_u in Hr.
    destruct (Isa_spec.is_w (Manual.inst e)); [| lia]. cbn [implb] in Hw. apply andb_true_iff in Hw as [Hf25 Hv25].
    assert (Hb : Z.testbit ir 25 = false).
    { apply (f_equal (fun x => Z.testbit x 25)) in Hm. rewrite Z.land_spec, Hf25, andb_true_r in Hm. rewrite Hm.
      by destruct (Z.testbit (Manual.value e) 25). }
    apply Z.testbit_false in Hb; [| lia]. unfold IsaMachine.bits in *. zlia.
Qed.

(** No compressed instruction shifts words. *)
Lemma expansion_not_word e ir :
  e ∈ Compressed.encodings -> shift_imm (instruction_out (Compressed.expansion e ir)) = true ->
  Isa_spec.is_w (instruction_out (Compressed.expansion e ir)) = false.
Proof.
  assert (Hall : Forall (fun e => forall ir, shift_imm (instruction_out (Compressed.expansion e ir)) = true ->
    Isa_spec.is_w (instruction_out (Compressed.expansion e ir)) = false) Compressed.encodings).
  { unfold Compressed.encodings, Compressed.quadrant0, Compressed.quadrant1, Compressed.quadrant2. cbn [app].
    repeat (apply Forall_cons; split; [intros ?; done |]). by apply Forall_nil. }
  rewrite Forall_forall in Hall. intros He. by apply Hall.
Qed.

Lemma shift_imm_is i : shift_imm i = is_shift_imm i.
Proof. by destruct i. Qed.

Lemma decode16_agrees ir d : IsaMachine.decode16 xlen ir = Some d -> decodes true ir d.
Proof.
  unfold IsaMachine.decode16. destruct (find _ _) as [e|] eqn:E; [| done]. apply find_some in E as [He Hm].
  apply list_elem_of_In in He. cbv zeta.
  pose proof (encodings_expand e He _ ir Hm) as E. unfold expands_as in E.
  apply decodes_legal; cbn [IsaMachine.op IsaMachine.rd IsaMachine.rs1 IsaMachine.rs2 IsaMachine.imm].
  - unfold Decode.decode. cbn [negb]. rewrite E. by destruct (Compressed.expansion e ir).
  - intros Hs. unfold shamt_ok. rewrite (expansion_not_word e ir He Hs).
    pose proof (ok_shift _ (GetCode16_ok ir (IsaMachine.mxl xlen))) as Hk. rewrite E, <- shift_imm_is in Hk. by apply Hk.
Qed.

Lemma decode_agrees ir d : IsaMachine.decode xlen ir = Some d -> decodes (negb (IsaMachine.is_long ir)) ir d.
Proof. unfold IsaMachine.decode. destruct (IsaMachine.is_long ir); [apply decode32_agrees | apply decode16_agrees]. Qed.

(* ------------------------------------------------------------------ *)
(** ** Words of the width, and their extensions *)

(** The results of the specification are words of the width. *)
Lemma div_range w x k : in_u w x -> 0 < k -> in_u w (x / k).
Proof using. intros Hx Hk. unfold in_u in *. split; [apply Z.div_pos; lia |]. apply Z.div_lt_upper_bound; nia. Qed.

Lemma pow_pos k : 0 <= k -> 0 < 2 ^ k.
Proof using. intros. apply Z.pow_pos_nonneg; lia. Qed.

Lemma width_pos : 0 < xlen.
Proof using Hxlen. lia. Qed.

Lemma uint_word x : in_u xlen (uint xlen x).
Proof using Hxlen. apply uint_range. lia. Qed.

Ltac solve_word :=
  unfold word, div_s, rem_s, div_u, rem_u; repeat case_match; first
    [ apply uint_word | apply in_u_land; [lia | done ..] | apply in_u_lor; [lia | done ..] | apply in_u_lxor; [lia | done ..]
    | apply div_range; [done | apply pow_pos; first [lia | apply Z.mod_pos_bound; lia]] ].

Lemma operation_range i x y z : in_u xlen x -> in_u xlen y -> operation xlen i x y = Some z -> in_u xlen z.
Proof using Hxlen. intros Hx Hy. destruct i; intros [= <-]; solve_word. Qed.

Lemma immediate_range i x imm z :
  in_u xlen x -> (shift_imm i = true -> 0 <= imm) -> immediate xlen i x imm = Some z -> in_u xlen z.
Proof using Hxlen.
  intros Hx Hi. pose proof (uint_word imm).
  destruct i; intros [= <-]; try specialize (Hi eq_refl); solve_word.
Qed.

Lemma multiply_range i x y z : in_u xlen x -> in_u xlen y -> multiply xlen i x y = Some z -> in_u xlen z.
Proof using Hxlen.
  intros Hx Hy. pose proof (uint_word x) as Hux. pose proof (uint_word y) as Huy. pose proof (pow_pos xlen ltac:(lia)).
  destruct i; intros [= <-]; try solve_word; unfold div_u, rem_u.
  - unfold in_u in *. split; [apply Z.div_pos; nia |]. apply Z.div_lt_upper_bound; nia.
  - destruct (Z.eqb_spec (uint xlen y) 0); [apply uint_word |]. apply div_range; [done | unfold in_u in *; lia].
  - destruct (Z.eqb_spec (uint xlen y) 0); [apply uint_word |]. unfold in_u in *.
    pose proof (Z.mod_pos_bound (uint xlen x) (uint xlen y)). lia.
Qed.

Lemma b2z_word b : in_u xlen (Z.b2z b) /\ embed xlen (Z.b2z b) = Z.b2z b.
Proof using Hxlen. by destruct Hxlen as [-> | ->], b. Qed.

(** LUI and AUIPC, from a base that is a word or the extension of one. *)
Lemma upper_ok base b imm :
  in_u xlen b -> base = embed xlen b ->
  (if xlen =? 32 then Sext32bit (u64 (base + imm)) else u64 (base + imm)) = embed xlen (uint xlen (b + imm)).
Proof using Hxlen.
  intros Hb ->. destruct Hxlen as [E | E]; rewrite E in *; cbn [Z.eqb Pos.eqb].
  - apply Sext32_embed; [apply uint_range; lia |]. rewrite !uint_eqm by lia. by rewrite (embed_eqm 32 32 b) by lia.
  - rewrite (embed64 b) by done. symmetry. apply embed64, uint_range. lia.
Qed.

(** The emulator adds [k] to an address at 64 bits; from one half of the 32-bit
    address space into the other the sum is not the extension of a 32-bit address. *)
Definition seamless (a k : Z) : bool := embed xlen (uint xlen (a + k)) =? u64 (embed xlen a + k).

Lemma embed_inj a b : in_u xlen a -> in_u xlen b -> embed xlen a = embed xlen b -> a = b.
Proof using Hxlen.
  intros Ha Hb E. rewrite <- (uint_small xlen a Ha), <- (uint_small xlen b Hb). change (eqm xlen a b).
  by rewrite <- (embed_eqm xlen xlen a), E, (embed_eqm xlen xlen b) by lia.
Qed.

(** What the table of the manual and the emulator's limits say of the operands. *)
Record operands_ok (d : IsaMachine.operands) : Prop := {
  op_rd : in_u 5 (IsaMachine.rd d);
  op_rs1 : in_u 5 (IsaMachine.rs1 d);
  op_rs2 : in_u 5 (IsaMachine.rs2 d);
  op_imm : in_s 32 (IsaMachine.imm d);
  op_legal : IsaMachine.legal xlen d = true;
  op_shift : shift_imm (IsaMachine.op d) = true -> shamt_ok xlen (IsaMachine.op d) (IsaMachine.imm d);
  op_even : is_relative (IsaMachine.op d) = true -> IsaMachine.imm d mod 2 = 0
}.

(** Narrow values, extended. *)
Lemma embed_narrow k v : 0 < k <= xlen -> embed xlen (uint xlen (sint k v)) = u64 (sint k v).
Proof using Hxlen. intros. unfold embed. by rewrite sint_uint, sint_sint_ge by lia. Qed.

Lemma embed_small k v : 0 <= k < xlen -> in_u k v -> embed xlen v = v /\ in_u xlen v.
Proof using Hxlen.
  intros Hk Hv. assert (in_s xlen v) by (pose proof (Z.pow_le_mono_r 2 k (xlen - 1)); unfold in_u, in_s in *; lia).
  split; [| by apply (in_u_mono k); [lia |]]. unfold embed. rewrite sint_small by (lia || done).
  apply uint_small, (in_u_mono k); [lia | done].
Qed.

Lemma load_fill d n fill v :
  IsaMachine.legal xlen d = true -> IsaMachine.load xlen (IsaMachine.op d) = Some (n, fill) -> in_u (8 * Z.of_nat n) v ->
  load_value (IsaMachine.op d) v = embed xlen (fill v) /\ in_u xlen (fill v).
Proof using Hxlen.
  intros Hl Hld Hv. destruct (Z.eqb_spec (8 * Z.of_nat n) xlen) as [En |].
  - (* the whole register *)
    rewrite En in Hv. assert (Ev : embed xlen v = v \/ IsaMachine.op d = INST_LW).
    { destruct Hxlen as [E | E]; rewrite E in *; [| left; by apply embed64]. right.
      unfold IsaMachine.legal, IsaMachine.rv64_only in Hl. destruct (IsaMachine.op d); try discriminate Hld; injection Hld as <- <-; (done || lia). }
    destruct (IsaMachine.op d); try discriminate Hld; injection Hld as <- <-; cbn [load_value];
      try (split; [symmetry; apply embed_narrow; lia | apply uint_word]); (split; [| exact Hv]);
      destruct Ev as [Ev | Ev]; (discriminate Ev || by symmetry).
  - assert (Hn : 8 * Z.of_nat n < xlen \/ IsaMachine.op d = INST_LWU \/ IsaMachine.op d = INST_LD).
    { destruct (IsaMachine.op d); try discriminate Hld; injection Hld as <- <-; auto; left; lia. }
    unfold IsaMachine.legal, IsaMachine.rv64_only in Hl.
    destruct Hn as [Hn |Hn].
    + destruct (embed_small (8 * Z.of_nat n) v ltac:(lia) Hv) as [H3 H4].
      destruct (IsaMachine.op d); try discriminate Hld; injection Hld as <- <-; cbn [load_value];
        first [by unfold id; rewrite H3 | split; [symmetry; apply embed_narrow; lia | apply uint_word]].
    + destruct Hxlen as [E | E]; [by destruct Hn as [Hn | Hn]; rewrite E, Hn in Hl |].
      destruct Hn as [Hn | Hn]; rewrite Hn in *; injection Hld as <- <-; [| lia].
      destruct (embed_small 32 v ltac:(lia) Hv) as [H3 H4]. unfold id. cbn [load_value]. by rewrite H3.
Qed.

(** The low bit of a target is cleared. *)
Lemma clear_bit_0 a : in_u 64 a -> a .& ~64 1 = 2 * (a / 2).
Proof using.
  intros Ha. transitivity (Z.ldiff a (Z.ones 1)).
  - unfold in_u in Ha. rewrite Z.ldiff_land. apply Z.bits_inj'. intros i Hi. rewrite !Z.land_spec.
    destruct (Z.ltb_spec i 64).
    + f_equal. change (~64 1) with (Z.lnot (Z.ones 1) mod 2 ^ 64). by rewrite Z.mod_pow2_bits_low by lia.
    + by rewrite (testbit_above 64 a i) by (unfold in_u; lia).
  - rewrite Z.ldiff_ones_r, Z.shiftl_mul_pow2, Z.shiftr_div_pow2 by lia. change (2 ^ 1) with 2. apply Z.mul_comm.
Qed.

Lemma embed_even a : in_u xlen a -> 2 * (embed xlen a / 2) = embed xlen (2 * (a / 2)).
Proof using Hxlen.
  intros Ha. destruct Hxlen as [E | E]; rewrite E in *; unfold embed, in_u, uint, sint in *; zlia.
Qed.

Lemma embed_zero a : in_u xlen a -> (embed xlen a =? 0) = (a =? 0).
Proof using Hxlen.
  intros Ha. destruct (b2z_word false) as [Hz Ez]. change (Z.b2z false) with 0 in Hz, Ez. destruct (Z.eqb_spec a 0) as [-> | Hne]; [by rewrite Ez |].
  apply Z.eqb_neq. intros E. apply Hne, embed_inj; [done | exact Hz | by rewrite E].
Qed.

Lemma decode_operands ir d : IsaMachine.decode xlen ir = Some d -> operands_ok d.
Proof.
  intros E. destruct (decode_agrees ir d E) as [Ed Hl Hs].
  pose proof (decode_ok ir (IsaMachine.mxl xlen) (negb (IsaMachine.is_long ir))) as [H1 H2 H3 H4 _ H5].
  rewrite Ed in H1, H2, H3, H4, H5. cbn [rd_out rs1_out rs2_out imm_out instruction_out] in *. split; try done.
  intros Hr. apply H5 in Hr. apply Z.testbit_false in Hr; [| lia]. by rewrite Z.div_1_r in Hr.
Qed.

Lemma uint_even a : uint xlen a mod 2 = a mod 2.
Proof. unfold uint. destruct Hxlen as [-> | ->]; zlia. Qed.

Lemma embed_mod_2 a : embed xlen a mod 2 = a mod 2.
Proof. unfold embed, uint, sint. destruct Hxlen as [-> | ->]; zlia. Qed.

(** Targets are even addresses of the width. *)
Definition target_ok (a : Z) : Prop := a mod 2 = 0 /\ in_u xlen a.

Lemma execute_target d next h h' :
  operands_ok d -> IsaMachine.pc h mod 2 = 0 -> target_ok next -> IsaMachine.execute xlen d next h = Some h' ->
  target_ok (IsaMachine.pc h').
Proof.
  intros Hd He Hnext. unfold target_ok.
  assert (Hrel : IsaMachine.imm d mod 2 = 0 -> target_ok (uint xlen (IsaMachine.pc h + IsaMachine.imm d))).
  { intros Hi. split; [rewrite uint_even; zlia | apply uint_word]. }
  assert (Hj : forall a, target_ok (2 * (uint xlen a / 2))).
  { intros a. pose proof (uint_word a) as Ha. revert Ha. generalize (uint xlen a). intros t Ht. unfold in_u in *.
    unfold target_ok, in_u. split; zlia. }
  pose proof (op_even d Hd) as Hi. unfold IsaMachine.execute. cbv zeta.
  destruct (IsaMachine.load _ _) as [[n f]|]; [by intros [= <-] |].
  destruct (IsaMachine.store _); [by intros [= <-] |]. destruct (Amo.result _ _ _); [by intros [= <-] |].
  destruct (IsaMachine.is_branch _) eqn:Eb.
  - intros [= <-]. cbn [IsaMachine.pc]. destruct (taken _ _ _ _); [| done]. apply Hrel, Hi. by destruct (IsaMachine.op d).
  - destruct (IsaMachine.op d); try (destruct (IsaMachine.computed _ _ _ _ _)); intros [= <-]; cbn [IsaMachine.pc];
      first [exact Hnext | by apply Hrel, Hi | apply Hj].
Qed.

(* ------------------------------------------------------------------ *)
(** ** A quiet processor

    Of the given width, reaching memory in the given regime, without emulated devices,
    and running. *)

Section Regime.
Context {M : Type} `{HostOsLaws M} {R : Regime M} `{!RegimeLaws R xlen}.
Implicit Types (s : Cpu.t) (m : M) (h : IsaMachine.hart) (f : ByteMem.t).

Definition quiet s : Prop :=
  xlen_ s = xlen /\ mxl_ s = IsaMachine.mxl xlen /\ mode s /\ host_emulation_ s = false /\ peripheral_emulation_ s = false /\
  error_flag_ s = false /\ end_flag_ s = false.

Lemma quiet_frame s s' : csrs_ s' = csrs_ s -> settings s' = settings s -> quiet s -> quiet s'.
Proof.
  unfold settings. generalize (alarms s) (alarms s'). intros a a' Hc [= E1 E2 E3 E4 _ E7 E8 E9 E10 E11 E12 E13 E14 E15] (Q1 & Q2 & Q3 & Q7 & Q8 & Q9 & Q10).
  unfold quiet. rewrite E1, E2, E7, E8, E10, E11. repeat (split; [done |]). split; [| done].
  apply (mode_control s s'); [| intros c; unfold csr; by rewrite Hc | done]. unfold control. by rewrite E1, E2, E3, E9, E12, E13, E14, E15.
Qed.

Lemma quiet_calm s s' : calm s s' -> quiet s -> quiet s'.
Proof. intros (Hc & _ & _ & Hs). by apply quiet_frame. Qed.

Lemma quiet_observed s m o : observed s m o -> quiet s -> quiet o.
Proof.
  intros [_ _ _ Hc _ Hk _] (Q1 & Q2 & Q3 & Q7 & Q8 & Q9 & Q10).
  injection Hk as E1 E2 _ _ _ _ E7 E8 _ _ E11 E12 E13 E14 E15 E16 _ _ _ E20 E21. unfold quiet.
  rewrite E1, E2, E12, E13, E15, E16. repeat (split; [done |]). split; [| done].
  apply (mode_control s o); [| exact Hc | done]. unfold control. by rewrite E1, E2, E7, E8, E11, E14, E20, E21.
Qed.

(** A turn of the loop up to the execution of the fetched instruction. *)
Lemma turn_fetches s m f va :
  quiet s -> cpu_ok s -> due_interrupt s m = None -> shows m f -> next_pc_ s mod 2 = 0 -> names (next_pc_ s) va -> va mod 2 = 0 ->
  fetchable va = true ->
  exists o s1 m1, observed s m o /\ Cpu.step (s, m) = decode_and_execute (s1, m1) /\ shows m1 f /\ quiet s1 /\ cpu_ok s1 /\
    reg_ s1 = reg_ s /\ pc_ s1 = next_pc_ s /\ ir_ s1 = fetched f va /\ alarms s1 = alarms o.
Proof.
  intros Hq Hok Hdue Hf He Hn Hva Hfe. destruct (step_uninterrupted s m Hok (sh_ok _ _ Hf) Hdue) as (o & Ho & E).
  pose proof (quiet_observed s m o Ho Hq) as Hqo. pose proof Ho as [Hoko Hpc _ _ _ Hk _].
  destruct (regime_fetch o m f (pc_ o) va) as (u & m1 & El & Hf1 & Hir);
    [apply Hqo | done | by apply Hoko | by rewrite Hpc | by rewrite Hpc | done | done |].
  set (s1 := o <| mmu_ := u |> <| ir_ := fetched f va |>). exists o, s1, m1. split; [done |]. rewrite E. unfold fetch_and_execute.
  rewrite (st_bind_run _ _ _ (pc_ o) (o, m)) by done. rewrite (st_bind_run _ _ _ _ _ El).
  rewrite (st_bind_run _ _ _ tt (s1, m1)) by done.
  rewrite (st_bind_run _ _ _ false (s1, m1)).
  2:{ unfold field. cbn [fst]. rewrite <- (mode_no_fault o) by apply Hqo. done. }
  injection Hk as _ _ Ereg _ _ _ _ _ _ _ _ _ _ _ _ _ _ _ _ _ _.
  split; [done |]. split; [done |]. split; [apply (quiet_calm o); [done | exact Hqo] |].
  split; [destruct Hoko; split; [by apply (csr_ok_same o) | done ..] |]. split; [exact Ereg |]. split; [exact Hpc |]. by split.
Qed.

(** The clock counts modulo 2^64. *)
Lemma clock_range s m o s1 : observed s m o -> alarms s1 = alarms o -> in_u 64 (Peripheral.elapsed_cycles_ (peripheral_ s1)).
Proof using. intros Ho [= _ _ _ _ -> _ _]. rewrite (observed_clock _ _ _ Ho). apply uint_range. lia. Qed.

(* ------------------------------------------------------------------ *)
(** ** Execution *)

Abbreviation run_op d c := (Cpu.execute (IsaMachine.op d) c (IsaMachine.rd d) (IsaMachine.rs1 d) (IsaMachine.rs2 d) (IsaMachine.imm d)).

Section Execute.
(** The address of the instruction after the one executed, and the processor when it
    looked for interrupts. *)
Context (next : Z) (o : Cpu.t).

(** The emulator about to execute the instruction at [pc h]. *)
Record agrees h s m : Prop := {
  ag_quiet : quiet s;
  ag_cpu : cpu_ok s;
  ag_time : in_u 64 (Peripheral.elapsed_cycles_ (peripheral_ s));
  ag_alarms : alarms s = alarms o;
  ag_pc : pc_ s = embed xlen (IsaMachine.pc h);
  ag_next : next_pc_ s = embed xlen next;
  ag_regs : forall r, in_u 5 r -> reg s r = embed xlen (IsaMachine.get h r);
  ag_word : forall r, in_u 5 r -> in_u xlen (IsaMachine.get h r);
  ag_word_pc : in_u xlen (IsaMachine.pc h);
  ag_word_next : in_u xlen next;
  ag_shows : shows m (IsaMachine.mem h)
}.

(** After the instruction, before x0 is reset. *)
Record leads (pc : Z) h s m : Prop := {
  le_quiet : quiet s;
  le_alarms : alarms s = alarms o;
  le_pc : pc_ s = embed xlen pc;
  le_next : next_pc_ s = embed xlen (IsaMachine.pc h);
  le_regs : forall r, 0 < r < 32 -> reg s r = embed xlen (IsaMachine.regs h r) /\ in_u xlen (IsaMachine.regs h r);
  le_shows : shows m (IsaMachine.mem h)
}.

Lemma get_pos h r : 0 < r -> IsaMachine.get h r = IsaMachine.regs h r.
Proof. intros. unfold IsaMachine.get. by destruct (Z.eqb_spec r 0); [lia |]. Qed.

Lemma agrees_pos h s m r :
  agrees h s m -> 0 < r < 32 -> reg s r = embed xlen (IsaMachine.regs h r) /\ in_u xlen (IsaMachine.regs h r).
Proof.
  intros Ha Hr. rewrite <- get_pos by lia. assert (in_u 5 r) by (unfold in_u; lia).
  split; [by apply (ag_regs _ _ _ Ha) | by apply (ag_word _ _ _ Ha)].
Qed.

(** An instruction that only writes [rd]. *)
Lemma leads_write h s m rd v :
  agrees h s m -> in_u xlen v ->
  leads (IsaMachine.pc h) (IsaMachine.Hart next (IsaMachine.write rd v (IsaMachine.regs h)) (IsaMachine.mem h))
    (put_reg rd (embed xlen v) s) m.
Proof.
  intros Ha Hv. split; [by apply (quiet_frame s); [.. | apply Ha] | apply Ha .. | | apply Ha]; cbn [IsaMachine.regs].
  intros r Hr. rewrite reg_put_reg. unfold IsaMachine.write. rewrite Z.eqb_sym. case_decide as E.
  - subst. by rewrite Z.eqb_refl.
  - destruct (Z.eqb_spec rd r); [done |]. by apply (agrees_pos h s m).
Qed.

Lemma leads_same h s m :
  agrees h s m -> leads (IsaMachine.pc h) (IsaMachine.Hart next (IsaMachine.regs h) (IsaMachine.mem h)) s m.
Proof. intros Ha. split; try apply Ha. intros r Hr. by apply (agrees_pos h s m). Qed.

Lemma leads_target pc h s m target :
  leads pc h s m ->
  leads pc (IsaMachine.Hart target (IsaMachine.regs h) (IsaMachine.mem h)) (s <| next_pc_ := embed xlen target |>) m.
Proof. intros []. split; [by apply (quiet_frame s) | done ..]. Qed.

Lemma execute_computed h s m d c z :
  agrees h s m -> operands_ok d ->
  let x := IsaMachine.get h (IsaMachine.rs1 d) in let y := IsaMachine.get h (IsaMachine.rs2 d) in
  divisor_ok (IsaMachine.op d) y ->
  IsaMachine.computed xlen (IsaMachine.op d) x y (IsaMachine.imm d) (IsaMachine.pc h) = Some z ->
  in_u xlen z /\ run_op d c (s, m) = Ok (tt, (put_reg (IsaMachine.rd d) (embed xlen z) s, m)).
Proof.
  intros Ha Hd x y Hdiv Hz. pose proof (ag_word _ _ _ Ha _ (op_rs1 d Hd)) as Hx. pose proof (ag_word _ _ _ Ha _ (op_rs2 d Hd)) as Hy.
  pose proof (ag_regs _ _ _ Ha _ (op_rs1 d Hd)) as Ex. pose proof (ag_regs _ _ _ Ha _ (op_rs2 d Hd)) as Ey.
  fold x in Hx, Ex. fold y in Hy, Ey. pose proof (legal_supported d (op_legal d Hd)) as Hsup.
  destruct (ag_quiet _ _ _ Ha) as (Hxl & _). pose proof (ag_pc _ _ _ Ha) as Hpc. pose proof (ag_word_pc _ _ _ Ha) as Hpcw.
  destruct d as [i rd rs1 rs2 imm]. cbn [IsaMachine.op IsaMachine.rd IsaMachine.rs1 IsaMachine.rs2 IsaMachine.imm] in *.
  assert (Ho : forall z, operation xlen i x y = Some z ->
    in_u xlen z /\ OperationInstruction i rd rs1 rs2 (s, m) = Ok (tt, (put_reg rd (embed xlen z) s, m))).
  { intros z' Hz'. split; [exact (operation_range i x y z' Hx Hy Hz') |]. apply run_to_reg. cbn [fst]. rewrite Ex, Ey, Hxl.
    by apply operation_ok. }
  assert (Hi : forall z, shift_imm i = false -> immediate xlen i x imm = Some z ->
    in_u xlen z /\ ImmediateInstruction i rd rs1 imm (s, m) = Ok (tt, (put_reg rd (embed xlen z) s, m))).
  { intros z' Hs Hz'. split; [exact (immediate_range i x imm z' Hx ltac:(by rewrite Hs) Hz') |].
    apply run_to_reg. cbn [fst]. rewrite Ex, Hxl. by apply immediate_result_ok. }
  assert (Hs : forall z, shift_imm i = true -> immediate xlen i x imm = Some z ->
    in_u xlen z /\ ImmediateShiftInstruction i rd rs1 (u32 imm) (s, m) = Ok (tt, (put_reg rd (embed xlen z) s, m))).
  { intros z' Hs Hz'. pose proof (op_shift _ Hd Hs) as Hsh. cbn [IsaMachine.op IsaMachine.imm] in Hsh.
    assert (Hr : 0 <= imm < 64) by (unfold shamt_ok in Hsh; destruct (is_w i); lia).
    split; [exact (immediate_range i x imm z' Hx ltac:(lia) Hz') |]. rewrite (uint_small 32) by (unfold in_u; lia).
    unfold ImmediateShiftInstruction, mbind, st_bind, field, get_reg, gets, lift. cbn [fst].
    by rewrite Ex, Hxl, (shift_result_ok x imm z' xlen i Hsup Hx Hsh Hs Hz'). }
  assert (Hm : forall z, multiply xlen i x y = Some z ->
    in_u xlen z /\ MultInstruction i rd rs1 rs2 (s, m) = Ok (tt, (put_reg rd (embed xlen z) s, m))).
  { intros z' Hz'. split; [exact (multiply_range i x y z' Hx Hy Hz') |]. apply run_to_reg. cbn [fst]. rewrite Ex, Ey, Hxl.
    by apply mult_result_ok. }
  assert (Hset : let v := Z.b2z (compare xlen i x y imm) in
    in_u xlen v /\ SetCompare i rd rs1 rs2 imm (s, m) = Ok (tt, (put_reg rd (embed xlen v) s, m))).
  { cbv zeta. destruct (b2z_word (compare xlen i x y imm)) as [Hv ->]. split; [done |].
    unfold SetCompare, mbind, st_bind, get_reg, gets. cbn [fst].
    by rewrite Ex, Ey, (compare_result_ok xlen i x y imm Hxlen Hx Hy (op_imm _ Hd)). }
  assert (Hup : forall base b, in_u xlen b -> base = embed xlen b -> let v := uint xlen (b + imm) in
    in_u xlen v /\ UpperImmediate rd base imm (s, m) = Ok (tt, (put_reg rd (embed xlen v) s, m))).
  { intros base b Hb E v. split; [apply uint_word |]. unfold UpperImmediate, mbind, st_bind, field. cbn [fst].
    rewrite Hxl. cbv zeta. by rewrite (upper_ok base b imm Hb E). }
  destruct i; try discriminate Hz; cbn [IsaMachine.computed] in Hz; cbn [Cpu.execute];
    lazymatch type of Hz with
    | Some (uint xlen imm) = Some _ => injection Hz as <-; exact (Hup 0 0 (proj1 (b2z_word false)) (eq_sym (proj2 (b2z_word false))))
    | Some (uint xlen _) = Some _ => injection Hz as <-; exact (Hup (pc_ s) (IsaMachine.pc h) Hpcw Hpc)
    | Some (Z.b2z _) = Some _ => injection Hz as <-; exact Hset
    | _ => first [by apply Ho | by apply Hi | by apply Hs | by apply Hm]
    end.
Qed.

Lemma load_table i n fill :
  IsaMachine.load xlen i = Some (n, fill) ->
  GetLoadWidth i = Ok (Z.of_nat n) /\
  (forall c rd rs1 rs2 imm, Cpu.execute i c rd rs1 rs2 imm = LoadInstruction (M := M) i rd rs1 imm).
Proof using. by destruct i; intros [= <- <-]. Qed.

Lemma store_table d n :
  IsaMachine.legal xlen d = true -> IsaMachine.store (IsaMachine.op d) = Some n ->
  GetStoreWidth (IsaMachine.op d) = Ok (Z.of_nat n) /\ 0 < 8 * Z.of_nat n <= xlen /\
  (forall c rd rs1 rs2 imm, Cpu.execute (IsaMachine.op d) c rd rs1 rs2 imm = StoreInstruction (M := M) (IsaMachine.op d) rd rs1 rs2 imm).
Proof using Hxlen.
  unfold IsaMachine.legal, IsaMachine.rv64_only. destruct (IsaMachine.op d); intros Hl [= <-]; (split; [done |]; split; [| done]);
    destruct Hxlen as [E | E]; rewrite E in Hl |- *; (discriminate Hl || lia).
Qed.

Lemma amo_table d x y z :
  IsaMachine.legal xlen d = true -> Amo.result (IsaMachine.op d) x y = Some z ->
  0 < Amo.width (IsaMachine.op d) <= xlen /\
  forall c rd rs1 rs2 imm, Cpu.execute (IsaMachine.op d) c rd rs1 rs2 imm = AmoInstruction (M := M) (IsaMachine.op d) rd rs1 rs2.
Proof using Hxlen.
  unfold IsaMachine.legal, IsaMachine.rv64_only. destruct (IsaMachine.op d); intros Hl [= <-]; (split; [| done]);
    destruct Hxlen as [E | E]; rewrite E in Hl |- *; (discriminate Hl || (cbn; lia)).
Qed.

Lemma execute_load h s m d c n fill :
  agrees h s m -> operands_ok d -> IsaMachine.load xlen (IsaMachine.op d) = Some (n, fill) ->
  let a := uint xlen (IsaMachine.get h (IsaMachine.rs1 d) + IsaMachine.imm d) in readable a n = true ->
  exists s' m', run_op d c (s, m) = Ok (tt, (s', m')) /\
    leads (IsaMachine.pc h) (IsaMachine.Hart next
      (IsaMachine.write (IsaMachine.rd d) (fill (ByteMem.load n (IsaMachine.mem h) a)) (IsaMachine.regs h)) (IsaMachine.mem h)) s' m'.
Proof.
  intros Ha Hd Hl a Hr. destruct (load_table _ _ _ Hl) as (Hw & ->). pose proof (ag_quiet _ _ _ Ha) as Hq.
  pose proof (names_sum _ (IsaMachine.imm d) (ag_word _ _ _ Ha _ (op_rs1 d Hd))) as Hn.
  rewrite <- (ag_regs _ _ _ Ha _ (op_rs1 d Hd)) in Hn.
  destruct (regime_load _ (IsaMachine.rd d) (IsaMachine.rs1 d) (IsaMachine.imm d) _ s m _ a (proj1 (proj2 (proj2 Hq)))
    (ag_cpu _ _ _ Ha) (ag_shows _ _ _ Ha) (ag_time _ _ _ Ha) Hw Hn) as (s' & m' & E & Hf & Hcalm & Hv & Hreg); [by rewrite Nat2Z.id |].
  exists s', m'. split; [done |]. rewrite Nat2Z.id in Hv, Hreg.
  destruct (load_fill d n fill _ (op_legal d Hd) Hl Hv) as [Hfill Hword]. rewrite Hfill in Hreg.
  destruct (leads_write h s m (IsaMachine.rd d) (fill (ByteMem.load n (IsaMachine.mem h) a)) Ha Hword) as [_ Hal H3 H4 H5 _].
  destruct Hcalm as (Hc & Hpc & Hnext & Hset).
  split; [by apply (quiet_calm s) | by rewrite (settings_alarms _ _ Hset) | by rewrite Hpc | by rewrite Hnext | | done].
  intros r Hr0. destruct (H5 r Hr0) as [<- Hr1]. split; [| exact Hr1]. unfold reg, put_reg. rsimpl. by rewrite Hreg.
Qed.

Lemma execute_store h s m d c n :
  agrees h s m -> operands_ok d -> IsaMachine.store (IsaMachine.op d) = Some n ->
  let a := uint xlen (IsaMachine.get h (IsaMachine.rs1 d) + IsaMachine.imm d) in writable a n = true ->
  exists s' m', run_op d c (s, m) = Ok (tt, (s', m')) /\
    leads (IsaMachine.pc h) (IsaMachine.Hart next (IsaMachine.regs h)
      (ByteMem.store n (IsaMachine.mem h) a (IsaMachine.get h (IsaMachine.rs2 d)))) s' m'.
Proof.
  intros Ha Hd Hl a Hwr. destruct (store_table _ _ (op_legal d Hd) Hl) as (Hw & Hn & ->). pose proof (ag_quiet _ _ _ Ha) as Hq.
  pose proof (names_sum _ (IsaMachine.imm d) (ag_word _ _ _ Ha _ (op_rs1 d Hd))) as Hna.
  rewrite <- (ag_regs _ _ _ Ha _ (op_rs1 d Hd)) in Hna. pose proof (ag_regs _ _ _ Ha _ (op_rs2 d Hd)) as Ey.
  destruct (regime_store _ (IsaMachine.rd d) (IsaMachine.rs1 d) (IsaMachine.rs2 d) (IsaMachine.imm d) _ s m _ a
    (proj1 (proj2 (proj2 Hq))) (ag_cpu _ _ _ Ha) (ag_shows _ _ _ Ha) ltac:(rewrite Ey; apply embed_range) Hw Hna)
    as (s' & m' & E & (Hc & Hpc & Hnext & Hset) & Hr & Hf); [by rewrite Nat2Z.id |].
  exists s', m'. split; [done |]. rewrite Nat2Z.id, Ey in Hf.
  destruct (leads_same h s m Ha) as [_ Hal H3 H4 H5 _].
  split; [by apply (quiet_calm s) | by rewrite (settings_alarms _ _ Hset) | by rewrite Hpc | by rewrite Hnext | |].
  - intros r Hr0. destruct (H5 r Hr0) as [Hr1 Hr2]. split; [| exact Hr2]. unfold reg. rewrite Hr. exact Hr1.
  - apply (shows_ext _ _ _ Hf). intros b _. apply store_modulo; [done | by apply embed_eqm; lia].
Qed.

Lemma execute_amo h s m d c z :
  agrees h s m -> operands_ok d ->
  let w := Amo.width (IsaMachine.op d) in let n := Z.to_nat (w / 8) in
  let a := IsaMachine.get h (IsaMachine.rs1 d) in let x := ByteMem.load n (IsaMachine.mem h) a in
  Amo.result (IsaMachine.op d) x (uint w (IsaMachine.get h (IsaMachine.rs2 d))) = Some z -> readable a n = true ->
  exists s' m', run_op d c (s, m) = Ok (tt, (s', m')) /\
    leads (IsaMachine.pc h) (IsaMachine.Hart next
      (IsaMachine.write (IsaMachine.rd d) (uint xlen (sint w x)) (IsaMachine.regs h)) (ByteMem.store n (IsaMachine.mem h) a z)) s' m'.
Proof.
  intros Ha Hd w n a x Hz Hr. destruct (amo_table _ _ _ _ (op_legal d Hd) Hz) as [Hw ->]. fold w in Hw.
  pose proof (ag_regs _ _ _ Ha _ (op_rs1 d Hd)) as Ex. pose proof (ag_regs _ _ _ Ha _ (op_rs2 d Hd)) as Ey. fold a in Ex.
  pose proof (ag_quiet _ _ _ Ha) as Hq. pose proof (names_word a (ag_word _ _ _ Ha _ (op_rs1 d Hd))) as Hna. rewrite <- Ex in Hna.
  destruct (regime_amo (IsaMachine.op d) (IsaMachine.rd d) (IsaMachine.rs1 d) (IsaMachine.rs2 d) s m _ a z
    (proj1 (proj2 (proj2 Hq))) (ag_shows _ _ _ Ha) ltac:(rewrite Ex; apply embed_range) ltac:(rewrite Ey; apply embed_range) Hna)
    as (s' & m' & E & (Hc & Hpc & Hnext & Hset) & Hreg & Hf); [| done |].
  { fold w n x. by rewrite Ey, (embed_eqm w xlen (IsaMachine.get h _) ltac:(lia) ltac:(lia) : uint w _ = uint w _). }
  fold w n x in Hreg, Hf. rewrite <- embed_narrow in Hreg by lia. exists s', m'. split; [done |].
  destruct (leads_write h s m (IsaMachine.rd d) (uint xlen (sint w x)) Ha (uint_word _)) as [_ Hal H3 H4 H5 _].
  split; [by apply (quiet_calm s) | by rewrite (settings_alarms _ _ Hset) | by rewrite Hpc | by rewrite Hnext | | done].
  intros r Hr0. destruct (H5 r Hr0) as [Hr1 Hr2]. split; [| exact Hr2]. unfold reg. rewrite Hreg. exact Hr1.
Qed.

Lemma execute_branch h s m d c :
  agrees h s m -> operands_ok d -> IsaMachine.is_branch (IsaMachine.op d) = true ->
  seamless (IsaMachine.pc h) (IsaMachine.imm d) = true ->
  let x := IsaMachine.get h (IsaMachine.rs1 d) in let y := IsaMachine.get h (IsaMachine.rs2 d) in
  let target := if taken xlen (IsaMachine.op d) x y then uint xlen (IsaMachine.pc h + IsaMachine.imm d) else next in
  run_op d c (s, m) = Ok (tt, (s <| next_pc_ := embed xlen target |>, m)).
Proof.
  intros Ha Hd Hi Hj%Z.eqb_eq x y target.
  assert (E : forall i c rd rs1 rs2 imm, IsaMachine.is_branch i = true ->
    Cpu.execute (M := M) i c rd rs1 rs2 imm = (next ← BranchInstruction i rs1 rs2 imm; next_pc_ ::= next)) by (by intros []).
  rewrite E by done. unfold BranchInstruction, mbind, st_bind, field, get_reg, gets, assign. cbn [fst].
  rewrite (ag_regs _ _ _ Ha _ (op_rs1 d Hd)), (ag_regs _ _ _ Ha _ (op_rs2 d Hd)), (ag_pc _ _ _ Ha), (ag_next _ _ _ Ha).
  rewrite (branch_taken_ok xlen) by (done || by apply (ag_word _ _ _ Ha); apply Hd). unfold target. fold x y.
  rewrite <- Hj. by destruct (taken _ _ _ _).
Qed.

Lemma execute_jal h s m d c :
  agrees h s m -> operands_ok d -> IsaMachine.op d = INST_JAL ->
  seamless (IsaMachine.pc h) (IsaMachine.imm d) = true ->
  let target := uint xlen (IsaMachine.pc h + IsaMachine.imm d) in target <> IsaMachine.pc h ->
  run_op d c (s, m) = Ok (tt, (put_reg (IsaMachine.rd d) (embed xlen next) s <| next_pc_ := embed xlen target |>, m)).
Proof.
  intros Ha Hd -> Hj%Z.eqb_eq target Ht. cbn [Cpu.execute]. unfold Jal. pose proof (ag_pc _ _ _ Ha) as Hpc.
  unfold mbind, st_bind, field, set_reg, upd, assign, when, modify. cbn [fst snd].
  rewrite (ag_next _ _ _ Ha). change (pc_ (put_reg _ _ s)) with (pc_ s). rewrite Hpc, <- Hj. fold target.
  match goal with |- context [?a =? embed xlen (IsaMachine.pc h)] => change a with (embed xlen target) end.
  destruct (Z.eqb_spec (embed xlen target) (embed xlen (IsaMachine.pc h))) as [E | E]; [| done].
  destruct Ht. apply embed_inj; [apply uint_word | apply Ha | done].
Qed.

(** The jump that ends a run: a return to address zero. *)
Definition returns_to_zero (d : IsaMachine.operands) h : bool :=
  bool_decide (IsaMachine.op d = INST_JALR) && (IsaMachine.rd d =? 0) && (IsaMachine.rs1 d =? 1) && (IsaMachine.imm d =? 0) &&
  (IsaMachine.get h 1 =? 0).

Lemma execute_jalr h s m d c :
  agrees h s m -> operands_ok d -> IsaMachine.op d = INST_JALR ->
  seamless (IsaMachine.get h (IsaMachine.rs1 d)) (IsaMachine.imm d) = true ->
  let target := 2 * (uint xlen (IsaMachine.get h (IsaMachine.rs1 d) + IsaMachine.imm d) / 2) in
  let s' := put_reg (IsaMachine.rd d) (embed xlen next) s <| next_pc_ := embed xlen target |> in
  run_op d c (s, m) = Ok (tt, (if returns_to_zero d h then s' <| end_flag_ := true |> else s', m)).
Proof.
  intros Ha Hd Hop Hj%Z.eqb_eq target s'. unfold returns_to_zero. rewrite Hop. cbn [Cpu.execute]. unfold Jalr.
  unfold mbind, st_bind, field, get_reg, gets, set_reg, upd, assign, when, modify. cbn [fst snd].
  rewrite (ag_regs _ _ _ Ha _ (op_rs1 d Hd)), (ag_next _ _ _ Ha), clear_bit_0 by (apply uint_range; lia).
  rewrite <- Hj, embed_even by apply uint_word.
  fold target. rewrite bool_decide_true by done. change (code_Registers ZERO) with 0. change (code_Registers RA) with 1.
  match goal with |- (if ?b then _ else _) _ = _ => set (b1 := b) end.
  match goal with |- context [if ?b then s' <| _ := _ |> else s'] => set (b2 := b) end.
  assert (Hb : b1 = b2).
  { unfold b1, b2. cbn [andb]. destruct (Z.eqb_spec (IsaMachine.rd d) 0) as [E0 |]; [| done].
    destruct (Z.eqb_spec (IsaMachine.rs1 d) 1) as [E1 |]; [| done]. cbn [andb]. rewrite E0, E1.
    change (reg ?x 1) with (reg (put_reg 0 (embed xlen next) s) 1). rewrite reg_put_reg. cbn [decide].
    assert (Hra : in_u 5 1) by decide_it.
    rewrite decide_False, (ag_regs _ _ _ Ha) by done. rewrite embed_zero by (by apply (ag_word _ _ _ Ha)). apply andb_comm. }
  rewrite Hb. by destruct b2.
Qed.

(** The address a jump or branch adds its immediate to. *)
Definition jump_base (d : IsaMachine.operands) h : option Z :=
  if IsaMachine.is_branch (IsaMachine.op d) then Some (IsaMachine.pc h)
  else match IsaMachine.op d with
       | INST_JAL => Some (IsaMachine.pc h) | INST_JALR => Some (IsaMachine.get h (IsaMachine.rs1 d)) | _ => None
       end.

(** What the emulator asks of the instruction that leads from [h] to [h']: no word
    division by a value that only its low half makes zero, no access to bytes the
    regime does not serve (without translation, no read of MTIME), no
    jump from one half of the 32-bit address space to the other, to itself, or the
    one that ends the run. *)
Record within (d : IsaMachine.operands) h h' : Prop := {
  wi_divisor : divisor_ok (IsaMachine.op d) (IsaMachine.get h (IsaMachine.rs2 d));
  wi_read : match IsaMachine.read_set xlen d h with Some (a, n) => readable a n = true | None => True end;
  wi_write : match IsaMachine.write_set xlen d h with Some (a, n) => writable a n = true | None => True end;
  wi_jump : match jump_base d h with Some a => seamless a (IsaMachine.imm d) = true | None => True end;
  wi_moves : IsaMachine.pc h' <> IsaMachine.pc h;
  wi_goes_on : returns_to_zero d h = false
}.

(** The instructions that neither touch memory nor branch. *)
Lemma execute_other h s m d c h' :
  agrees h s m -> operands_ok d -> within d h h' ->
  IsaMachine.load xlen (IsaMachine.op d) = None -> IsaMachine.store (IsaMachine.op d) = None ->
  IsaMachine.is_branch (IsaMachine.op d) = false ->
  (forall x y, Amo.result (IsaMachine.op d) x y = None) ->
  IsaMachine.execute xlen d next h = Some h' ->
  exists s', run_op d c (s, m) = Ok (tt, (s', m)) /\ leads (IsaMachine.pc h) h' s' m.
Proof.
  intros Ha Hd Hw Hl Hs Hb Hamo. unfold IsaMachine.execute. rewrite Hl, Hs, Hamo, Hb.
  pose proof (fun z => leads_write h s m (IsaMachine.rd d) z Ha) as Hwrite.
  pose proof (fun target => leads_target _ _ _ _ target (Hwrite _ (ag_word_next _ _ _ Ha))) as Hjump.
  cbn [IsaMachine.regs IsaMachine.mem] in Hjump. pose proof (wi_jump _ _ _ Hw) as Hj. unfold jump_base in Hj. rewrite Hb in Hj.
  assert (Hc : forall z, IsaMachine.computed xlen (IsaMachine.op d) (IsaMachine.get h (IsaMachine.rs1 d))
      (IsaMachine.get h (IsaMachine.rs2 d)) (IsaMachine.imm d) (IsaMachine.pc h) = Some z ->
    exists s', run_op d c (s, m) = Ok (tt, (s', m)) /\
      leads (IsaMachine.pc h) (IsaMachine.Hart next (IsaMachine.write (IsaMachine.rd d) z (IsaMachine.regs h))
        (IsaMachine.mem h)) s' m).
  { intros z Hz. destruct (execute_computed h s m d c z Ha Hd (wi_divisor _ _ _ Hw) Hz) as [Hzw E].
    eexists. split; [exact E | by apply Hwrite]. }
  destruct (IsaMachine.op d) eqn:Eop;
    lazymatch goal with
    | |- Some (IsaMachine.Hart (uint xlen (_ + IsaMachine.imm _)) _ _) = _ -> _ => (* JAL *)
        intros [= <-]; eexists; split; [by rewrite <- Eop; apply execute_jal; try apply Hw | apply Hjump]
    | |- Some (IsaMachine.Hart (2 * _) _ _) = _ -> _ => (* JALR *)
        intros [= <-]; eexists; split; [rewrite <- Eop, (execute_jalr h s m d c Ha Hd Eop Hj), (wi_goes_on _ _ _ Hw); reflexivity |];
        apply Hjump
    | |- Some _ = _ -> _ => (* FENCE *) intros [= <-]; exists s; split; [done | by apply leads_same]
    | |- match IsaMachine.computed _ ?i ?x ?y ?imm ?pc with _ => _ end = _ -> _ =>
        destruct (IsaMachine.computed xlen i x y imm pc) as [z|]; [intros [= <-]; by apply Hc | done]
    end.
Qed.

Lemma execute_agrees h s m d c h' :
  agrees h s m -> operands_ok d -> within d h h' ->
  IsaMachine.execute xlen d next h = Some h' ->
  exists s' m', run_op d c (s, m) = Ok (tt, (s', m')) /\ leads (IsaMachine.pc h) h' s' m'.
Proof.
  intros Ha Hd Hw E. pose proof (wi_read _ _ _ Hw) as Hr. pose proof E as E0. unfold IsaMachine.execute in E.
  unfold IsaMachine.read_set in Hr. pose proof (wi_write _ _ _ Hw) as Hwr. unfold IsaMachine.write_set in Hwr.
  destruct (IsaMachine.load xlen (IsaMachine.op d)) as [[n fill]|] eqn:El; [injection E as <-; by apply execute_load |].
  destruct (IsaMachine.store (IsaMachine.op d)) as [n|] eqn:Es; [injection E as <-; by apply execute_store |].
  destruct (Amo.result (IsaMachine.op d) 0 0) as [z0|] eqn:Ea.
  - destruct (Amo.result _ _ (uint _ _)) as [z|] eqn:Ez; [| by destruct (IsaMachine.op d)].
    injection E as <-. by apply execute_amo.
  - assert (Hn : forall x y, Amo.result (IsaMachine.op d) x y = None) by (intros; by destruct (IsaMachine.op d)).
    rewrite Hn in E. destruct (IsaMachine.is_branch (IsaMachine.op d)) eqn:Eb.
    + injection E as <-. pose proof (wi_jump _ _ _ Hw) as Hj. unfold jump_base in Hj. rewrite Eb in Hj. eexists _, m.
      split; [by apply (execute_branch h) |]. exact (leads_target _ _ _ _ _ (leads_same h s m Ha)).
    + destruct (execute_other h s m d c h') as (s' & Hrun & Hl); try done. by exists s', m.
Qed.
End Execute.

(* ------------------------------------------------------------------ *)
(** ** A turn of the loop *)

(** Between two turns the emulator's state stands for the hart [h]. *)
Record sim h (x : Cpu.t * M) : Prop := {
  sim_wf : well_formed x;
  sim_quiet : quiet x.1;
  sim_pc : next_pc_ x.1 = embed xlen (IsaMachine.pc h);
  sim_target : target_ok (IsaMachine.pc h);
  sim_regs : forall r, in_u 5 r -> reg x.1 r = embed xlen (IsaMachine.get h r);
  sim_word : forall r, in_u 5 r -> in_u xlen (IsaMachine.get h r);
  sim_shows : shows x.2 (IsaMachine.mem h)
}.

(** The instruction is followed by one in the same half of the address space. *)
Definition flows (h : IsaMachine.hart) : bool :=
  seamless (IsaMachine.pc h) (if IsaMachine.is_long (IsaMachine.fetch h) then 4 else 2).

(** The state in which the switch is entered. *)
Definition prepared s : Cpu.t :=
  let long := IsaMachine.is_long (ir_ s) in
  s <| ctype_ := negb long |> <| next_pc_ := u64 (pc_ s + (if long then 4 else 2)) |>.

Lemma decode_and_execute_run s m d s3 m3 :
  IsaMachine.decode xlen (ir_ s) = Some d -> mxl_ s = IsaMachine.mxl xlen ->
  run_op d (s16 (GetCsr (ir_ s))) (prepared s, m) = Ok (tt, (s3, m3)) ->
  next_pc_ s3 <> pc_ s -> host_emulation_ s3 = false -> peripheral_emulation_ s3 = false ->
  decode_and_execute (s, m) = Ok (tt, (put_reg ZERO 0 s3, m3)).
Proof.
  intros Hd Hx Hrun Hnext Hh Hp. pose proof (de_decoded _ _ _ (decode_agrees _ d Hd)) as Ed. unfold decode_and_execute.
  rewrite (st_bind_run _ _ _ (ir_ s) (s, m)), (st_bind_run _ _ _ (mxl_ s) (s, m)), (st_bind_run _ _ _ (pc_ s) (s, m)) by done.
  cbv zeta. rewrite land_3. fold (IsaMachine.is_long (ir_ s)). rewrite Hx, Ed. cbn [instruction_out rd_out rs1_out rs2_out imm_out].
  set (s1 := s <| ctype_ := negb (IsaMachine.is_long (ir_ s)) |>). rewrite (st_bind_run _ _ _ tt (s1, m)) by done.
  rewrite (st_bind_run _ _ _ tt (prepared s, m)) by (unfold prepared; by destruct (IsaMachine.is_long (ir_ s))).
  rewrite (st_bind_run _ _ _ _ _ Hrun), (st_bind_run _ _ _ (next_pc_ s3) (s3, m3)) by done.
  rewrite (st_bind_run _ _ _ tt (s3, m3)) by (by destruct (Z.eqb_spec (pc_ s) (next_pc_ s3))).
  set (s4 := put_reg ZERO 0 s3). rewrite (st_bind_run _ _ _ tt (s4, m3)) by done.
  rewrite (st_bind_run _ _ _ (host_emulation_ s3) (s4, m3)), (st_bind_run _ _ _ (peripheral_emulation_ s3) (s4, m3)) by done.
  by rewrite Hh, Hp.
Qed.

(** The turn up to the switch. *)
Lemma turn_starts h s m d :
  sim h (s, m) -> due_interrupt s m = None -> fetchable (IsaMachine.pc h) = true ->
  IsaMachine.decode xlen (IsaMachine.fetch h) = Some d -> flows h = true ->
  exists o s1 m1, observed s m o /\ Cpu.step (s, m) = decode_and_execute (s1, m1) /\
    agrees (IsaMachine.following xlen h) o h (prepared s1) m1 /\
    pc_ s1 = embed xlen (IsaMachine.pc h) /\ mxl_ s1 = IsaMachine.mxl xlen /\ IsaMachine.decode xlen (ir_ s1) = Some d.
Proof.
  intros Hs Hdue Hfe Hd Hflow%Z.eqb_eq.
  pose proof (sim_wf _ _ Hs) as [Hmac _]. pose proof (sim_pc _ _ Hs) as Hpc. cbn [fst snd] in Hpc.
  destruct (sim_target _ _ Hs) as [Heven Hpcw].
  destruct (turn_fetches s m _ (IsaMachine.pc h) (sim_quiet _ _ Hs) (mac_cpu _ Hmac) Hdue (sim_shows _ _ Hs))
    as (o & s1 & m1 & Ho & E & Hf & Hq & Hok & Hr & Hpc1 & Hir1 & Hal);
    [by rewrite Hpc, embed_mod_2 | rewrite Hpc; by apply names_word | done | done |].
  exists o, s1, m1. split; [done |]. split; [done |]. rewrite <- Hpc, <- Hpc1.
  split; [| split; [done | split; [apply Hq | by rewrite Hir1]]].
  split; [by apply (quiet_frame s1) | | exact (clock_range s m o s1 Ho Hal) | exact Hal | by rewrite <- Hpc, <- Hpc1 | | | apply Hs | done | apply uint_word | done].
  - destruct Hok. split; [by apply (csr_ok_same s1) | done | apply uint_range; lia | done ..].
  - unfold prepared, IsaMachine.following. cbv zeta. rsimpl. by rewrite Hflow, Hir1, Hpc1, Hpc.
  - intros r Hr5. rewrite <- (sim_regs _ _ Hs r Hr5). unfold reg. cbn [fst]. by rewrite <- Hr.
Qed.

Lemma following_ok h : IsaMachine.pc h mod 2 = 0 -> target_ok (IsaMachine.following xlen h).
Proof using Hxlen.
  intros He. split; [| apply uint_word]. unfold IsaMachine.following. rewrite uint_even. destruct (IsaMachine.is_long _); zlia.
Qed.

Lemma turn_simulates h x d h' :
  sim h x -> due_interrupt x.1 x.2 = None -> fetchable (IsaMachine.pc h) = true ->
  IsaMachine.decode xlen (IsaMachine.fetch h) = Some d -> flows h = true ->
  within d h h' -> IsaMachine.execute xlen d (IsaMachine.following xlen h) h = Some h' ->
  exists x', Cpu.step x = Ok (tt, x') /\ sim h' x' /\ passes x x'.
Proof.
  destruct x as [s m]. intros Hs Hdue Hord Hd Hflow Hw E. pose proof (decode_operands _ _ Hd) as Hok.
  destruct (turn_starts h s m d Hs Hdue Hord Hd Hflow) as (o & s1 & m1 & Ho & Estep & Ha & Hpc1 & Hmxl & Hdec).
  destruct (execute_agrees _ o h _ m1 d (s16 (GetCsr (ir_ s1))) h' Ha Hok Hw E) as (s3 & m3 & Erun & []).
  pose proof le_quiet0 as (Q1 & Q2 & Q3 & Q5 & Q6 & Q7 & Q8). destruct (sim_target _ _ Hs) as [Heven Hpcw].
  pose proof (execute_target d _ h h' Hok Heven (following_ok h Heven) E) as Htarget.
  assert (Hmoves : next_pc_ s3 <> pc_ s1).
  { rewrite le_next0, Hpc1. intros Eq. destruct (wi_moves _ _ _ Hw). by apply embed_inj; [apply Htarget | |]. }
  pose proof (decode_and_execute_run s1 m1 d s3 m3 Hdec Hmxl Erun Hmoves Q5 Q6) as Eturn.
  exists (put_reg ZERO 0 s3, m3). assert (Eall : Cpu.step (s, m) = Ok (tt, (put_reg ZERO 0 s3, m3))) by by rewrite Estep.
  split; [done |]. split; [| by exists o]. pose proof (sim_wf _ _ Hs) as [Hmac Hzero].
  pose proof (proj1 (machine_step (s, m) _ _ Hmac Eall)) as Hmac'. pose proof (proj1 (zero_step (s, m) _ _ Hzero Eall)) as Hzero'.
  destruct (b2z_word false) as [Hz Ez]. change (Z.b2z false) with 0 in Hz, Ez.
  split; [done | by apply (quiet_frame s3) | done | exact Htarget | | | done]; intros r Hr; unfold in_u in Hr;
    (destruct (decide (r = 0)) as [-> | Hne]; [| rewrite get_pos by lia; pose proof (le_regs0 r ltac:(lia)) as [Hr1 Hr2]]).
  - change (IsaMachine.get h' 0) with 0. rewrite Ez. exact Hzero'.
  - cbn [fst]. rewrite reg_put_reg, decide_False by done. exact Hr1.
  - exact Hz.
  - exact Hr2.
Qed.

(** The turn that ends the run. *)
Lemma last_turn h x d :
  sim h x -> due_interrupt x.1 x.2 = None -> fetchable (IsaMachine.pc h) = true ->
  IsaMachine.decode xlen (IsaMachine.fetch h) = Some d -> flows h = true -> returns_to_zero d h = true -> IsaMachine.pc h <> 0 ->
  exists x', Cpu.step x = Ok (tt, x') /\ error_flag_ x'.1 = false /\ end_flag_ x'.1 = true /\
    (forall r, in_u 5 r -> reg x'.1 r = embed xlen (IsaMachine.get h r)) /\ shows x'.2 (IsaMachine.mem h).
Proof.
  destruct x as [s m]. intros Hs Hdue Hord Hd Hflow Hret Hne. pose proof (decode_operands _ _ Hd) as Hok.
  destruct (turn_starts h s m d Hs Hdue Hord Hd Hflow) as (o & s1 & m1 & _ & Estep & Ha & Hpc1 & Hmxl & Hdec).
  destruct (b2z_word false) as [Hz Ez]. change (Z.b2z false) with 0 in Hz, Ez.
  unfold returns_to_zero in Hret. rewrite !andb_true_iff, !Z.eqb_eq, bool_decide_eq_true in Hret.
  destruct Hret as ((((Hop & Hrd) & Hrs) & Himm) & Hra).
  assert (Hj : seamless (IsaMachine.get h (IsaMachine.rs1 d)) (IsaMachine.imm d) = true).
  { unfold seamless. rewrite Hrs, Himm, Hra. change (0 + 0) with 0. rewrite (uint_small xlen 0 Hz), Ez. done. }
  pose proof (execute_jalr _ o h _ m1 d (s16 (GetCsr (ir_ s1))) Ha Hok Hop Hj) as Erun. cbv zeta in Erun.
  unfold returns_to_zero in Erun. rewrite Hrd, Hrs, Himm, Hra, bool_decide_true in Erun by done.
  change (0 + 0) with 0 in Erun. rewrite (uint_small xlen 0 Hz) in Erun. change (2 * (0 / 2)) with 0 in Erun. rewrite Ez in Erun.
  cbn [Z.eqb andb] in Erun. pose proof (ag_quiet _ _ _ _ _ Ha) as (Q1 & Q2 & Q3 & Q5 & Q6 & Q7 & Q8).
  set (s3 := put_reg 0 (embed xlen (IsaMachine.following xlen h)) (prepared s1) <| next_pc_ := 0 |> <| end_flag_ := true |>) in Erun.
  assert (Eturn : decode_and_execute (s1, m1) = Ok (tt, (put_reg ZERO 0 s3, m1))).
  { apply (decode_and_execute_run s1 m1 d); [done | done | | | exact Q5 | exact Q6].
    - rewrite Hrd, Hrs, Himm. exact Erun.
    - rewrite Hpc1. change (next_pc_ s3) with 0. intros Eq. apply Hne, embed_inj; [apply Hs | exact Hz | by rewrite Ez]. }
  exists (put_reg ZERO 0 s3, m1). rewrite Estep. split; [done |]. split; [exact Q7 |]. split; [done |]. split; [| apply Ha].
  intros r Hr. rewrite <- (ag_regs _ _ _ _ _ Ha r Hr). cbn [fst]. rewrite reg_put_reg. case_decide as Er.
  - subst r. symmetry. exact (eq_trans (ag_regs _ _ _ _ _ Ha 0 Hr) Ez).
  - change (reg s3 r) with (reg (put_reg 0 (embed xlen (IsaMachine.following xlen h)) s1) r). rewrite reg_put_reg. by case_decide.
Qed.

(* ------------------------------------------------------------------ *)
(** ** Runs *)

(** The abstract machine is about to execute an instruction on which the emulator
    follows the manual: the conditions of [within]. *)
Definition plain (h : IsaMachine.hart) : bool :=
  fetchable (IsaMachine.pc h) && flows h &&
  match IsaMachine.decode xlen (IsaMachine.fetch h) with
  | Some d =>
      bool_decide (divisor_ok (IsaMachine.op d) (IsaMachine.get h (IsaMachine.rs2 d))) &&
      match IsaMachine.read_set xlen d h with Some (a, n) => readable a n | None => true end &&
      match IsaMachine.write_set xlen d h with Some (a, n) => writable a n | None => true end &&
      match jump_base d h with Some a => seamless a (IsaMachine.imm d) | None => true end &&
      negb (returns_to_zero d h)
  | None => false
  end &&
  match IsaMachine.step xlen h with Some h' => negb (IsaMachine.pc h' =? IsaMachine.pc h) | None => false end.

(** It is about to return to address zero. *)
Definition at_exit (h : IsaMachine.hart) : bool :=
  fetchable (IsaMachine.pc h) && flows h && negb (IsaMachine.pc h =? 0) &&
  match IsaMachine.decode xlen (IsaMachine.fetch h) with Some d => returns_to_zero d h | None => false end.

(** The run of the abstract machine up to its return to zero, at most [fuel]
    instructions. *)
Fixpoint isa_run (fuel : nat) (h : IsaMachine.hart) : option IsaMachine.hart :=
  if at_exit h then Some h
  else match fuel with
       | O => None
       | S n => if plain h then match IsaMachine.step xlen h with Some h' => isa_run n h' | None => None end else None
       end.

(** [n] plain instructions. *)
Fixpoint isa_steps (n : nat) (h : IsaMachine.hart) : option IsaMachine.hart :=
  match n with
  | O => Some h
  | S n => if plain h then match IsaMachine.step xlen h with Some h' => isa_steps n h' | None => None end else None
  end.

(** A 64-bit value that is the extension of a word of the width. *)
Definition extended (v : Z) : Prop := embed xlen v = v.

Lemma extended_word v : extended v -> v = embed xlen (uint xlen v) /\ in_u 64 v.
Proof.
  unfold extended. intros E. split; [| rewrite <- E; apply embed_range]. rewrite <- E at 1. unfold embed. by rewrite sint_uint by lia.
Qed.

(** The hart a machine about to start at [pc] stands for. *)
Definition hart_of (pc : Z) (x : Cpu.t * M) : IsaMachine.hart :=
  IsaMachine.Hart (uint xlen pc) (fun r => uint xlen (reg x.1 r)) (view x.2).

Lemma plain_turn h x h' :
  sim h x -> due_interrupt x.1 x.2 = None -> plain h = true -> IsaMachine.step xlen h = Some h' ->
  exists x', Cpu.step x = Ok (tt, x') /\ sim h' x' /\ passes x x'.
Proof.
  intros Hs Hdue Hp E. unfold plain in Hp. rewrite E, !andb_true_iff in Hp. destruct Hp as (((Hord & Hflow) & Hd) & Hne).
  unfold IsaMachine.step in E. destruct (IsaMachine.decode _ _) as [d|] eqn:Ed; [| done].
  rewrite !andb_true_iff, bool_decide_eq_true in Hd. destruct Hd as ((((Hdiv & Hread) & Hwrite) & Hjump) & Hret).
  apply negb_true_iff in Hret. apply negb_true_iff, Z.eqb_neq in Hne.
  apply (turn_simulates h x d h'); try done. split; try done.
  - by destruct (IsaMachine.read_set xlen d h) as [[a n]|].
  - by destruct (IsaMachine.write_set xlen d h) as [[a n]|].
  - by destruct (jump_base d h).
Qed.

Lemma sim_running h x : sim h x -> running x = true.
Proof. intros []. unfold running. destruct sim_quiet0 as (_ & _ & _ & _ & _ & -> & ->). done. Qed.

Lemma exit_turn h x :
  sim h x -> due_interrupt x.1 x.2 = None -> at_exit h = true ->
  exists x', run_loop 1 x = Ok (Some 0, x') /\ (forall r, in_u 5 r -> reg x'.1 r = embed xlen (IsaMachine.get h r)) /\
    shows x'.2 (IsaMachine.mem h).
Proof.
  intros Hs Hdue He. unfold at_exit in He. rewrite !andb_true_iff, negb_true_iff, Z.eqb_neq in He.
  destruct He as (((Hord & Hflow) & Hne) & Hd). destruct (IsaMachine.decode _ _) as [d|] eqn:Ed; [| done].
  destruct (last_turn h x d Hs Hdue Hord Ed Hflow Hd Hne) as (x' & E & Herr & Hend & Hr & Hm).
  exists x'. split; [| by split].
  rewrite run_loop_S, E. unfold running. by rewrite Herr, Hend.
Qed.

(** [P n x] says that no interrupt is due in the next [n] turns of a program, as long
    as its run goes on. *)
Record patient (P : nat -> Cpu.t * M -> Prop) : Prop := {
  pa_due n h x : sim h x -> P (S n) x -> due_interrupt x.1 x.2 = None;
  pa_turn n h x h' x' : sim h x -> sim h' x' -> passes x x' -> P (S n) x -> P n x'
}.

(** No interrupt is due when none is enabled. *)
Lemma disabled_patient : patient (fun _ x => mie_ x.1 = 0).
Proof using.
  split; intros n h x.
  - intros _ Hm. unfold due_interrupt, due, interrupt_order. cbn [List.find]. by rewrite Hm, !Z.bits_0, !andb_false_r.
  - intros h' x' _ _ (o & [_ _ _ _ _ Hk _] & [= -> _ _ _ _ _ _]) Hm. injection Hk as _ _ _ _ _ E _ _ _ _ _ _ _ _ _ _ _ _ _ _ _. by rewrite E.
Qed.

Lemma isa_run_simulates P fuel h x h' :
  patient P -> sim h x -> P (S fuel) x -> isa_run fuel h = Some h' ->
  exists x', run_loop (S fuel) x = Ok (Some 0, x') /\ (forall r, in_u 5 r -> reg x'.1 r = embed xlen (IsaMachine.get h' r)) /\
    shows x'.2 (IsaMachine.mem h').
Proof.
  intros HP. revert h x. induction fuel as [|n IH]; intros h x Hs Hw; cbn [isa_run]; pose proof (pa_due P HP _ h x Hs Hw) as Hdue;
    destruct (at_exit h) eqn:He; try done.
  - intros [= <-]. by apply exit_turn.
  - intros [= <-]. destruct (exit_turn h x Hs Hdue He) as (x' & E & Hx). exists x'. split; [| done].
    apply (run_loop_mono 1); [done | lia].
  - destruct (plain h) eqn:Hp; [| done]. destruct (IsaMachine.step xlen h) as [h1|] eqn:E1; [| done]. intros E.
    destruct (plain_turn h x h1 Hs Hdue Hp E1) as (x1 & Ex1 & Hs1 & Hpass).
    destruct (IH h1 x1 Hs1 (pa_turn P HP _ h x h1 x1 Hs Hs1 Hpass Hw) E) as (x' & Er & Hx).
    exists x'. split; [| done]. by rewrite run_loop_S, Ex1, (sim_running h1 x1 Hs1).
Qed.

Lemma isa_steps_simulate P n k h x h' :
  patient P -> sim h x -> P (n + k)%nat x -> isa_steps n h = Some h' ->
  exists x', (forall fuel, run_loop (n + fuel) x = run_loop fuel x') /\ sim h' x' /\ P k x'.
Proof.
  intros HP. revert h x. induction n as [|n IH]; intros h x Hs Hw; cbn [isa_steps]; [intros [= <-]; by exists x |].
  destruct (plain h) eqn:Hp; [| done]. destruct (IsaMachine.step xlen h) as [h1|] eqn:E1; [| done]. intros E.
  destruct (plain_turn h x h1 Hs (pa_due P HP _ h x Hs Hw) Hp E1) as (x1 & Ex1 & Hs1 & Hpass).
  destruct (IH h1 x1 Hs1 (pa_turn P HP _ h x h1 x1 Hs Hs1 Hpass Hw) E) as (x' & Er & Hx).
  exists x'. split; [| done]. intros fuel. cbn [Nat.add]. by rewrite run_loop_S, Ex1, (sim_running h1 x1 Hs1).
Qed.

(** The abstract machine never stands before an instruction that is not plain, its
    last one apart: it returns to zero or runs for ever. *)
Definition never_stuck (h : IsaMachine.hart) : Prop :=
  forall n h', isa_steps n h = Some h' -> at_exit h' = true \/ plain h' = true.

Lemma plain_steps h : plain h = true -> exists h', IsaMachine.step xlen h = Some h'.
Proof using.
  unfold plain. rewrite !andb_true_iff. intros [_ E]. destruct (IsaMachine.step xlen h) as [h'|]; [by exists h' | done].
Qed.

Lemma never_stuck_step h h' : plain h = true -> IsaMachine.step xlen h = Some h' -> never_stuck h -> never_stuck h'.
Proof using. intros Hp E Hn n h2 E2. apply (Hn (S n)). cbn [isa_steps]. by rewrite Hp, E. Qed.

(** An invariant of the abstract run keeps it from getting stuck. *)
Lemma never_stuck_inv (I : IsaMachine.hart -> Prop) h :
  (forall h, I h -> plain h = true /\ forall h', IsaMachine.step xlen h = Some h' -> I h') -> I h -> never_stuck h.
Proof using.
  intros HI Hh n. revert h Hh. induction n as [|n IH]; intros h Hh h'; cbn [isa_steps].
  - intros [= <-]. right. by apply HI.
  - destruct (HI h Hh) as [-> Hnext]. destruct (IsaMachine.step xlen h) as [h1|] eqn:E; [| done].
    apply IH. by apply Hnext.
Qed.

(** Turn for turn: the loop is over when the abstract run is, and goes on without a
    fault as long as it does. *)
Lemma run_loop_tracks P fuel h x :
  patient P -> sim h x -> P (S fuel) x -> never_stuck h ->
  match isa_run fuel h with
  | Some _ => exists x', run_loop (S fuel) x = Ok (Some 0, x')
  | None => exists x', run_loop (S fuel) x = Ok (None, x')
  end.
Proof.
  intros HP Hs Hw Hn. destruct (isa_run fuel h) as [h'|] eqn:E.
  { destruct (isa_run_simulates P fuel h x h' HP Hs Hw E) as (x' & Ex & _). by exists x'. }
  revert h x Hs Hw Hn E. induction fuel as [|n IH]; intros h x Hs Hw Hn; cbn [isa_run];
    destruct (Hn O h eq_refl) as [He | Hp]; try (by rewrite He); (destruct (at_exit h); [done |]);
    destruct (plain_steps h Hp) as (h1 & E1);
    destruct (plain_turn h x h1 Hs (pa_due P HP _ h x Hs Hw) Hp E1) as (x1 & Ex1 & Hs1 & Hpass);
    rewrite run_loop_S, Ex1, (sim_running h1 x1 Hs1); [by exists x1 |].
  rewrite Hp, E1. apply IH; [done | | by apply (never_stuck_step h)].
  exact (pa_turn P HP _ h x h1 x1 Hs Hs1 Hpass Hw).
Qed.

Lemma sim_started pc x :
  well_formed x -> intact x.2 -> quiet (started pc x).1 -> (forall r, in_u 5 r -> extended (reg x.1 r)) -> extended pc -> pc mod 2 = 0 ->
  sim (hart_of pc x) (started pc x).
Proof.
  intros [Hm Hz] Hi Hq Hregs [Epc Hpc]%extended_word He. destruct (b2z_word false) as [Hzw Ez]. change (Z.b2z false) with 0 in Hzw, Ez.
  split; [split | done | exact Epc | split; [exact (eq_trans (uint_even pc) He) | by apply uint_word] | | | by split; [apply Hm | |]].
  - destruct Hm as [Hc Hu Hd Hb Hmem]. split; [| done ..].
    destruct Hc as [Hcsr Hp Hn Hf Hir]. split; [by apply (csr_ok_same x.1) | done ..].
  - exact Hz.
  - intros r Hr. unfold IsaMachine.get, hart_of. cbn [IsaMachine.regs].
    destruct (Z.eqb_spec r 0) as [-> |]; [rewrite Ez; exact Hz |]. by apply extended_word, Hregs.
  - intros r Hr. unfold IsaMachine.get, hart_of. cbn [IsaMachine.regs]. destruct (r =? 0); [exact Hzw | apply uint_word].
Qed.
End Regime.
End Simulation.

(* ------------------------------------------------------------------ *)
(** ** Properties *)

(** In machine mode without translation. *)
#[local] Existing Instance bare_regime.

(** C6: one turn of the emulator's main loop in machine mode, 32 or 64 bits wide (no
    translation, no interrupt due, no emulated device), implements one step of the
    abstract instruction set machine of that width, for every RV32IMAC or RV64IMAC
    instruction, compressed or not, but the ones the emulator treats apart
    ([plain]): the turn neither faults nor stops, and its program counter and all
    registers (sign-extended) and all of memory but the MTIME register are again those
    of the abstract machine. *)
Theorem step_implements_isa {M} `{HostOsLaws M} (xlen : Z) (h h' : IsaMachine.hart) (x : Cpu.t * M) :
  xlen = 32 \/ xlen = 64 -> sim xlen h x -> due_interrupt x.1 x.2 = None -> plain (R := bare_regime M) xlen h = true -> IsaMachine.step xlen h = Some h' ->
  exists x', Cpu.step x = Ok (tt, x') /\ running x' = true /\ sim xlen h' x'.
Proof.
  intros Hx Hs Hdue Hp E. pose proof (bare_regime_laws (M := M) xlen Hx) as HL.
  destruct (plain_turn xlen Hx h x h' Hs Hdue Hp E) as (x' & Ex & Hs' & _). exists x'. eauto using sim_running.
Qed.

(** C2: whole programs: started at an even address of a 32-bit or 64-bit machine in
    that mode, with no interrupt enabled, [RunCpu] on a program whose abstract run
    comes to its return to address zero terminates with exit code zero, in the
    registers and the memory (MTIME apart) the abstract run ends with. *)
Theorem RunCpu_implements_isa {M} `{HostOsLaws M} (xlen : Z) (fuel : nat) (pc : Z) (x : Cpu.t * M) (h' : IsaMachine.hart) :
  xlen = 32 \/ xlen = 64 ->
  well_formed x -> quiet xlen (started pc x).1 -> mie_ x.1 = 0 -> (forall r, in_u 5 r -> extended xlen (reg x.1 r)) ->
  extended xlen pc -> pc mod 2 = 0 -> isa_run (R := bare_regime M) xlen fuel (hart_of xlen pc x) = Some h' ->
  exists x', RunCpu (S fuel) pc x = Ok (Some 0, x') /\ (forall r, in_u 5 r -> reg x'.1 r = embed xlen (IsaMachine.get h' r)) /\
    forall b, ordinary b -> mem_byte x'.2 b = IsaMachine.mem h' b.
Proof.
  intros Hx Hw Hq Hmie Hr Hpc He E. rewrite RunCpu_started. pose proof (bare_regime_laws (M := M) xlen Hx) as HL.
  destruct (isa_run_simulates xlen Hx _ fuel (hart_of xlen pc x) (started pc x) h' (disabled_patient xlen)
    (sim_started (R := bare_regime M) xlen Hx pc x Hw I Hq Hr Hpc He) Hmie E)
    as (x' & Ex & Hr' & [_ _ Hb]). by exists x'.
Qed.

(** C23: termination: started as above on a program whose abstract run never comes to
    an instruction the emulator treats apart (it returns to address zero, or runs for
    ever), [RunCpu] ends if and only if the abstract run does, one turn after its last
    plain instruction: within [n + 1] turns exactly when the abstract run returns to
    zero within [n] instructions.  Then its result is zero; until then, and for ever
    when the program does not end, every turn goes by without a fault. *)
Theorem RunCpu_terminates_with_isa {M} `{HostOsLaws M} (xlen : Z) (pc : Z) (x : Cpu.t * M) :
  xlen = 32 \/ xlen = 64 ->
  well_formed x -> quiet xlen (started pc x).1 -> mie_ x.1 = 0 -> (forall r, in_u 5 r -> extended xlen (reg x.1 r)) ->
  extended xlen pc -> pc mod 2 = 0 -> never_stuck (R := bare_regime M) xlen (hart_of xlen pc x) ->
  (forall n, exists r x', RunCpu n pc x = Ok (r, x') /\ (r = None \/ r = Some 0)) /\
  (forall n, (exists e x', RunCpu (S n) pc x = Ok (Some e, x')) <->
             exists h', isa_run (R := bare_regime M) xlen n (hart_of xlen pc x) = Some h').
Proof.
  intros Hx Hw Hq Hmie Hr Hpc He Hn. pose proof (bare_regime_laws (M := M) xlen Hx) as HL.
  assert (Ht : forall n, match isa_run (R := bare_regime M) xlen n (hart_of xlen pc x) with
      | Some _ => exists x', RunCpu (S n) pc x = Ok (Some 0, x') | None => exists x', RunCpu (S n) pc x = Ok (None, x') end).
  { intros n. rewrite RunCpu_started.
    by apply (run_loop_tracks xlen Hx _ n _ _ (disabled_patient xlen) (sim_started (R := bare_regime M) xlen Hx pc x Hw I Hq Hr Hpc He)). }
  split.
  - intros [|n]; [by exists None, (started pc x); split; [| left] |]. specialize (Ht n).
    destruct (isa_run _ _ _); destruct Ht as (x' & E); eauto.
  - intros n. specialize (Ht n). destruct (isa_run _ _ _) as [h'|]; destruct Ht as (x' & E); rewrite E; split.
    + by exists h'.
    + by exists 0, x'.
    + intros (e & x'' & [=]).
    + intros (h' & [=]).
Qed.

(** *** Witnesses: the sample program, and one for RV32 *)
Definition sample_hart : IsaMachine.hart := hart_of 64 0x1000 (sample_machine true).

Lemma sample_quiet : quiet 64 (started 0x1000 (sample_machine true)).1.
Proof. repeat split; vm_compute; reflexivity. Qed.

Lemma sample_well_formed : well_formed (sample_machine true).
Proof. apply new_machine_ok, sample_program_memory_ok. Qed.

(** The registers of a new machine are zero. *)
Lemma new_registers {M} xlen (x : Cpu.t * M) r : reg_ x.1 = ∅ -> xlen = 32 \/ xlen = 64 -> extended xlen (reg x.1 r).
Proof. intros E [-> | ->]; unfold reg; by rewrite E. Qed.

Definition is_some {A} (o : option A) : bool := match o with Some _ => true | None => false end.

Lemma step_implements_isa_witness :
  exists x', Cpu.step (started 0x1000 (sample_machine true)) = Ok (tt, x') /\ running x' = true.
Proof.
  assert (Hs : is_some (IsaMachine.step 64 sample_hart) = true) by (vm_compute; reflexivity).
  destruct (IsaMachine.step 64 sample_hart) as [h'|] eqn:E; [| discriminate Hs].
  destruct (step_implements_isa 64 sample_hart h' (started 0x1000 (sample_machine true))) as (x' & Ex & Hr & _);
    [by right
    | apply (sim_started (R := bare_regime _) 64 (or_intror eq_refl) 0x1000
        (sample_machine true) sample_well_formed I sample_quiet);
        [intros r _; apply new_registers; [done | by right] | done | done]
    | vm_compute; reflexivity | vm_compute; reflexivity | exact E |].
  exists x'. split; [exact Ex | exact Hr].
Defined.

(** Sums 10 to 1 in compressed instructions: c.li a0,10;
    c.li a1,0; c.add a1,a0; c.addi a0,-1; c.bnez a0,-4; c.mv a0,a1; c.jr ra. *)
Definition compressed_program : list Z := [0x45814529; 0x157D95AA; 0x852EFD75; 0x8082].
Definition compressed_machine (w : bool) : Cpu.t * MemoryWrapper.t := (RiscvCpu 0 w, program_memory compressed_program).

Lemma compressed_well_formed w : well_formed (compressed_machine w).
Proof. apply new_machine_ok, program_memory_ok. decide_it. Qed.

Lemma compressed_quiet : quiet 32 (started 0x1000 (compressed_machine false)).1.
Proof. repeat split; vm_compute; reflexivity. Qed.

Lemma RunCpu_implements_isa_witness :
  exists x', RunCpu 101 0x1000 (compressed_machine false) = Ok (Some 0, x') /\ reg x'.1 10 = 55.
Proof.
  set (h := hart_of 32 0x1000 (compressed_machine false)).
  assert (Hv : match isa_run (R := bare_regime MemoryWrapper.t) 32 100 h with Some h' => Some (IsaMachine.get h' 10) | None => None end = Some 55)
    by (vm_compute; reflexivity).
  destruct (isa_run (R := bare_regime MemoryWrapper.t) 32 100 h) as [h'|] eqn:E; [| discriminate Hv].
  destruct (RunCpu_implements_isa 32 100 0x1000 (compressed_machine false) h' ltac:(by left) (compressed_well_formed false)
    compressed_quiet eq_refl ltac:(intros r _; apply new_registers; [done | by left]) eq_refl eq_refl E) as (x' & Ex & Hr & _).
  exists x'. split; [exact Ex |]. rewrite (Hr 10 ltac:(decide_it)). injection Hv as ->. reflexivity.
Defined.

(** A program that does not end: a NOP and a jump back to it. *)
Definition endless_machine : Cpu.t * MemoryWrapper.t := (RiscvCpu 0 true, program_memory [0x13; 0xFFDFF06F]).

Definition endless (h : IsaMachine.hart) : Prop :=
  exists pc regs, (pc = 0x1000 \/ pc = 0x1004) /\ h = IsaMachine.Hart pc regs (mem_byte endless_machine.2).

Lemma endless_goes_on h :
  endless h -> plain (R := bare_regime MemoryWrapper.t) 64 h = true /\ forall h', IsaMachine.step 64 h = Some h' -> endless h'.
Proof.
  intros (pc & regs & [-> | ->] & ->); (split; [vm_compute; reflexivity |]); intros h'; unfold IsaMachine.step, IsaMachine.fetch;
    cbn [IsaMachine.mem IsaMachine.pc].
  - replace (IsaMachine.decode 64 _) with (Some (IsaMachine.Operands INST_ADDI 0 0 0 0)) by (vm_compute; reflexivity).
    intros [= <-]. exists 0x1004. eexists. split; [by right |]. reflexivity.
  - replace (IsaMachine.decode 64 _) with (Some (IsaMachine.Operands INST_JAL 0 31 29 (-4))) by (vm_compute; reflexivity).
    intros [= <-]. exists 0x1000. eexists. split; [by left |]. reflexivity.
Qed.

Lemma endless_not_exit h : endless h -> at_exit (R := bare_regime MemoryWrapper.t) 64 h = false.
Proof. intros (pc & regs & [-> | ->] & ->); vm_compute; reflexivity. Qed.

(** Its run does not end, and never faults. *)
Lemma RunCpu_terminates_with_isa_witness :
  (exists x', RunCpu 1000 0x1000 endless_machine = Ok (None, x')) /\
  ~ exists n e x', RunCpu n 0x1000 endless_machine = Ok (Some e, x').
Proof.
  assert (Hn : never_stuck (R := bare_regime _) 64 (hart_of 64 0x1000 endless_machine)).
  { apply (never_stuck_inv 64 endless _ endless_goes_on). exists 0x1000. eexists. split; [by left | reflexivity]. }
  assert (Hm : mem_ok (M := MemoryWrapper.t) endless_machine.2) by (apply program_memory_ok; decide_it).
  destruct (RunCpu_terminates_with_isa 64 0x1000 endless_machine (or_intror eq_refl) (new_machine_ok true _ Hm)
    ltac:(repeat split; vm_compute; reflexivity) eq_refl ltac:(intros r _; apply new_registers; [done | by right]) eq_refl eq_refl Hn)
    as [Hok Hiff].
  assert (Hrun : forall n h, endless h -> isa_run (R := bare_regime _) 64 n h = None).
  { intros n. induction n as [|n IH]; intros h Hh; cbn [isa_run]; rewrite (endless_not_exit h Hh); [done |].
    destruct (endless_goes_on h Hh) as [-> Hnext]. destruct (IsaMachine.step 64 h) as [h'|]; [| done]. by apply IH, Hnext. }
  assert (Hno : ~ exists n e x', RunCpu n 0x1000 endless_machine = Ok (Some e, x')).
  { intros ([|n] & Hend); [by destruct Hend as (e & x' & [=]) |]. destruct (proj1 (Hiff n) Hend) as (h' & Eh).
    rewrite Hrun in Eh; [discriminate Eh |]. exists 0x1000. eexists. split; [by left | reflexivity]. }
  split; [| exact Hno]. destruct (Hok 1000%nat) as ([e|] & x' & E & _); [destruct Hno | by exists x'].
  exists 1000%nat, e, x'. exact E.
Defined.
