(* ===== verification/VirtualMemory.v ===== *)
(** * Programs in virtual memory

    A user or supervisor program whose pages are mapped runs as the abstract machine
    does: this file discharges the interface of Regime.v for a processor that
    translates addresses with Sv32 or Sv39.  A [space] is what an operating system
    sets up for a program: the pages it sees, the frames they are in, and the frames
    that hold the page tables.  Every access goes through the walk of mmu.cpp and
    writes the accessed and dirty bits back into the tables; [presents] is the
    invariant that they go on mapping the program's pages, and that the program's
    stores reach neither the tables nor another page's frame.  Nor do they reach the
    timer's comparator when that is outside its frames, so that the turn in which the
    timer interrupts is known beforehand ([uninterrupted], [timer_in]). *)

From stdpp Require Import gmap.
From S2P Require Import Prelude BitTools Memory Isa Mmu Peripheral Syscall CpuState Alu Csr Trap LoadStore Cpu Invariant Bare Paged Turns IsaMachine Machine Regime Simulate.
Import Cpu Isa_spec.

(* ------------------------------------------------------------------ *)
(** ** Pages *)

(** The frame of a physical address, which counts modulo 2^32. *)
Definition page (a : Z) : Z := (a / 4096) mod 2 ^ 20.

(** [n] bytes within a page. *)
Definition in_page (a : Z) (n : nat) : Prop := a mod 4096 + Z.of_nat n <= 4096.

Lemma store_other_page n f a v b : in_page a n -> page b <> page a -> ByteMem.store n f a v b = f b.
Proof.
  unfold in_page, page, ByteMem.store. intros Hn Hp. cbv zeta.
  destruct (Z.ltb_spec ((b - a) mod 2 ^ 32) (Z.of_nat n)); [| done]. exfalso. apply Hp. zlia.
Qed.

Lemma page_span a n k : in_page a n -> 0 <= k < Z.of_nat n -> page (a + k) = page a.
Proof. unfold in_page, page. intros. replace ((a + k) / 4096) with (a / 4096) by zlia. done. Qed.

Lemma load_shift n f g a b : (forall k, 0 <= k < Z.of_nat n -> f (a + k) = g (b + k)) -> ByteMem.load n f a = ByteMem.load n g b.
Proof.
  revert a b. induction n as [|n IH]; intros a b Hk; cbn [ByteMem.load]; [done |].
  specialize (Hk 0) as H0. rewrite !Z.add_0_r in H0. rewrite H0 by lia. do 2 f_equal. apply IH. intros k Hr.
  rewrite <- !Z.add_assoc. apply Hk. lia.
Qed.

Lemma load_other_page k n f a v b : in_page a n -> in_page b k -> page b <> page a ->
  ByteMem.load k (ByteMem.store n f a v) b = ByteMem.load k f b.
Proof. intros Ha Hb Hp. apply load_shift. intros i Hi. apply store_other_page; [done |]. by rewrite (page_span b k). Qed.

Lemma store_range n f a v b : (forall c, in_u 8 (f c)) -> in_u 8 (ByteMem.store n f a v b).
Proof. intros Hf. unfold ByteMem.store. case_match; [apply uint_range; lia | apply Hf]. Qed.

(* ------------------------------------------------------------------ *)
(** ** Walks that stay in the tables *)

Section Walks.
Context (fmt : PageTable.format) (tables : gset Z).
Hypothesis Hfmt : fmt = PageTable.sv32 \/ fmt = PageTable.sv39.
Implicit Types f g : ByteMem.t.

(** The walk for [va] reads entries in the frames of the tables only. *)
Fixpoint private (f : ByteMem.t) (va root : Z) (l : nat) : bool :=
  let pte := PageTable.entry fmt f root va l in
  bool_decide (page (PageTable.slot fmt root va l) ∈ tables) &&
  (negb (PageTable.valid pte) || PageTable.leaf pte || match l with O => true | S l' => private f va (PageTable.ppn fmt pte) l' end).

(** The tables send [va] to an address, or nowhere. *)
Definition maps (f : ByteMem.t) (root va : Z) (o : option Z) : Prop :=
  private f va root (PageTable.top_level fmt) = true /\
  option_map (fun '(pa, _, _) => pa) (PageTable.translate fmt f root va) = o.

#[export] Instance maps_dec f root va o : Decision (maps f root va o).
Proof. unfold maps. apply _. Defined.

(** Two entries that lead the walk the same way. *)
Definition similar (x y : Z) : Prop :=
  PageTable.valid x = PageTable.valid y /\ PageTable.leaf x = PageTable.leaf y /\ PageTable.ppn fmt x = PageTable.ppn fmt y.

Definition alike f g : Prop := forall root va l, page (PageTable.slot fmt root va l) ∈ tables ->
  similar (PageTable.entry fmt f root va l) (PageTable.entry fmt g root va l).

Definition same_walk (o o' : option (nat * Z * Z)) : Prop :=
  match o, o' with
  | Some (l, a, pte), Some (l', a', pte') => l = l' /\ a = a' /\ PageTable.ppn fmt pte = PageTable.ppn fmt pte'
  | None, None => True
  | _, _ => False
  end.

Lemma walk_alike f g va root l :
  alike f g -> private f va root l = true ->
  private g va root l = true /\ same_walk (PageTable.walk fmt f va root l) (PageTable.walk fmt g va root l).
Proof.
  intros Ha. revert root. induction l as [|l IH]; intros root; cbn [private PageTable.walk]; cbv zeta;
    rewrite !andb_true_iff, !orb_true_iff, bool_decide_eq_true; intros [Hin Hrest];
    destruct (Ha root va _ Hin) as (Ev & El & Ep); rewrite <- Ev, <- El, <- ?Ep;
    destruct (PageTable.valid _), (PageTable.leaf _); cbn [negb same_walk]; auto;
    destruct Hrest as [[? | ?] | Hrest]; try done; destruct (IH _ Hrest); auto.
Qed.

Lemma maps_alike f g root va o : alike f g -> maps f root va o -> maps g root va o.
Proof.
  intros Ha [Hp Ht]. destruct (walk_alike f g va root _ Ha Hp) as [Hp' Hw]. split; [done |]. rewrite <- Ht. unfold PageTable.translate.
  destruct (PageTable.walk fmt f _ _ _) as [[[l a] pte]|], (PageTable.walk fmt g _ _ _) as [[[l' a'] pte']|]; try done.
  destruct Hw as (<- & <- & E). unfold PageTable.aligned, PageTable.physical. rewrite E. by destruct (_ =? 0).
Qed.

Lemma private_leaf f va root l lv a pte :
  private f va root l = true -> PageTable.walk fmt f va root l = Some (lv, a, pte) -> page a ∈ tables.
Proof.
  revert root. induction l as [|l IH]; intros root; cbn [private PageTable.walk]; cbv zeta;
    rewrite !andb_true_iff, !orb_true_iff, bool_decide_eq_true; intros [Hin Hrest];
    destruct (PageTable.valid _), (PageTable.leaf _); cbn [negb]; try done; try (intros [= _ <- _]; exact Hin);
    destruct Hrest as [[? | ?] | Hrest]; try done; by apply IH.
Qed.

Lemma slot_in_page root va l : in_page (PageTable.slot fmt root va l) (nbytes (PageTable.pte_width fmt)).
Proof using.
  destruct (slot_bounds fmt root va l) as [_ Hm]. unfold in_page. destruct (PageTable.pte_width fmt); cbn [nbytes] in *; zlia.
Qed.

(** What changes no table leaves all walks alone. *)
Lemma store_alike n f a v : in_page a n -> page a ∉ tables -> alike f (ByteMem.store n f a v).
Proof.
  intros Ha Hout root va l Hin. unfold PageTable.entry. rewrite load_other_page; [done | done | apply slot_in_page |].
  intros E. apply Hout. by rewrite <- E.
Qed.

Lemma ext_alike f g : (forall b, f b = g b) -> alike f g.
Proof using. intros Hb root va l _. by rewrite (entry_ext fmt f g). Qed.

Lemma ppn_bits_bounds : 0 <= PageTable.ppn_bits fmt <= 64.
Proof using Hfmt. destruct Hfmt as [-> | ->]; cbn; lia. Qed.

Lemma touch_alike f write root va pa a pte :
  (forall b, in_u 8 (f b)) -> PageTable.translate fmt f root va = Some (pa, a, pte) -> alike f (PageTable.touch fmt f write a pte).
Proof using Hfmt.
  intros Hf T root' va' l _. destruct (translate_leaf _ _ _ _ _ _ _ T) as (Hp & _ & Ha & Hal).
  rewrite (entry_touch fmt f write a pte) by done. case_decide as E; [| done].
  assert (Ee : PageTable.entry fmt f root' va' l = pte) by (unfold PageTable.entry; by rewrite E).
  rewrite Ee. destruct (touched_flags write pte) as [Hv Hl]. repeat split; [done | done |]. symmetry. apply touched_ppn, ppn_bits_bounds.
Qed.

(** *** A page is mapped as a whole *)

(** The bits of an address the tables look at. *)
Definition va_bits : Z := PageTable.span fmt (S (PageTable.top_level fmt)).

Lemma span_bounds l : (l <= S (PageTable.top_level fmt))%nat -> 12 <= PageTable.span fmt l <= va_bits.
Proof using Hfmt. unfold va_bits, PageTable.span. destruct Hfmt as [-> | ->]; cbn; lia. Qed.

(** A page number and an offset, and a power of two of at least a page. *)
Lemma page_mod x k off : 12 <= k -> 0 <= off < 4096 -> (x * 4096 + off) mod 2 ^ k = x * 4096 mod 2 ^ k + off.
Proof using.
  intros Hk Ho. replace k with (12 + (k - 12)) by lia. rewrite Z.pow_add_r by lia. change (2 ^ 12) with 4096.
  pose proof (pow_pos (k - 12) ltac:(lia)). rewrite !Z.rem_mul_r by lia. rewrite Z.div_add_l, Z.div_mul by lia.
  rewrite (Z.div_small off), Z.mod_mul, (Z.add_comm (x * 4096)), Z.mod_add, (Z.mod_small off) by lia. rewrite Z.add_0_r. lia.
Qed.

Lemma vpn_page va v off l :
  eqm va_bits va (v * 4096 + off) -> 0 <= off < 4096 -> (l <= PageTable.top_level fmt)%nat ->
  PageTable.vpn fmt va l = PageTable.vpn fmt (v * 4096) l.
Proof using Hfmt.
  unfold eqm, va_bits, PageTable.vpn, PageTable.span, uint. intros He Ho Hl.
  destruct Hfmt as [-> | ->]; cbn [PageTable.top_level PageTable.vpn_bits PageTable.sv32 PageTable.sv39] in *.
  all: do 3 (try destruct l as [|l]); try lia.
  all: cbn in He |- *; rewrite ?Z.pow_pos_fold in *; zlia.
Qed.

Lemma walk_page f va v off root l :
  eqm va_bits va (v * 4096 + off) -> 0 <= off < 4096 -> (l <= PageTable.top_level fmt)%nat ->
  private f va root l = private f (v * 4096) root l /\ PageTable.walk fmt f va root l = PageTable.walk fmt f (v * 4096) root l.
Proof using Hfmt.
  intros He Ho. revert root.
  assert (Hslot : forall l root, (l <= PageTable.top_level fmt)%nat -> PageTable.slot fmt root va l = PageTable.slot fmt root (v * 4096) l)
    by (intros; unfold PageTable.slot; by rewrite (vpn_page va v off)).
  induction l as [|l IH]; intros root Hl; cbn [private PageTable.walk]; unfold PageTable.entry; rewrite !Hslot by done; [done |].
  destruct (IH (PageTable.ppn fmt (ByteMem.load (nbytes (PageTable.pte_width fmt)) f (PageTable.slot fmt root (v * 4096) (S l)))) ltac:(lia))
    as [-> ->]. done.
Qed.

Lemma walk_level_bound f va root l lv a pte : PageTable.walk fmt f va root l = Some (lv, a, pte) -> (lv <= l)%nat.
Proof using.
  revert root. induction l as [|l IH]; intros root; cbn [PageTable.walk]; cbv zeta; repeat case_match; try done.
  - by intros [= <- _ _].
  - by intros [= <- _ _].
  - intros E. apply IH in E. lia.
Qed.

Lemma maps_page f root v o va off :
  maps f root (v * 4096) o -> eqm va_bits va (v * 4096 + off) -> 0 <= off < 4096 -> maps f root va (option_map (fun pa => pa + off) o).
Proof using Hfmt.
  unfold maps, PageTable.translate. intros [Hp Ht] He Ho.
  destruct (walk_page f va v off root (PageTable.top_level fmt) He Ho ltac:(lia)) as [-> ->]. split; [done |].
  rewrite <- Ht. destruct (PageTable.walk fmt f _ _ _) as [[[l a] pte]|] eqn:Ew; [| done]. apply walk_level_bound in Ew.
  destruct (PageTable.aligned _ _ _); [| done]. cbn [option_map]. f_equal. unfold PageTable.physical.
  destruct (span_bounds l ltac:(lia)) as [Hs Hv]. set (s := PageTable.span fmt l) in *.
  assert (Hb : 12 <= PageTable.pa_bits fmt) by (destruct Hfmt as [-> | ->]; cbn; lia).
  assert (E : va mod 2 ^ s = v * 4096 mod 2 ^ s + off).
  { rewrite <- page_mod by lia. change (uint s va = uint s (v * 4096 + off)). rewrite <- (uint_le s va_bits va), <- (uint_le s va_bits (_ + _)) by lia. by rewrite He. }
  assert (Hz : v * 4096 mod 2 ^ s = (v * 4096 mod 2 ^ s) / 4096 * 4096).
  { replace s with (12 + (s - 12)) by lia. rewrite Z.pow_add_r by lia. change (2 ^ 12) with 4096. pose proof (pow_pos (s - 12) ltac:(lia)).
    rewrite Z.rem_mul_r by lia. rewrite Z.mod_mul by lia. rewrite Z.add_0_l. generalize (v * 4096 / 4096 mod 2 ^ (s - 12)). zlia. }
  rewrite E, Hz. set (z := _ / 4096). set (x := PageTable.ppn fmt pte).
  replace (x * 4096 + (z * 4096 + off)) with ((x + z) * 4096 + off) by lia.
  replace (x * 4096 + z * 4096) with ((x + z) * 4096) by lia. by apply page_mod.
Qed.
End Walks.

(* ------------------------------------------------------------------ *)
(** ** The space of a program *)

Record space : Type := Space {
  space_root : Z;             (* page number of the root table *)
  space_mode : PrivilegeMode; (* privilege of the program's accesses *)
  space_pages : gmap Z Z;     (* the frame of each of its pages *)
  space_holes : gset Z;       (* pages that are not mapped *)
  space_tables : gset Z       (* the frames of the tables *)
}.

(** The page of the MTIME register, which the emulator refreshes. *)
Definition mtime_page : Z := page Peripheral.kTimerMtime.

(** Pages within 32 address bits, in frames of their own, apart from the tables and
    from MTIME. *)
Record space_ok (sp : space) : Prop := {
  so_pages : map_Forall (fun v q => 0 <= v < 2 ^ 20 /\ (page (q * 4096) ∉ space_tables sp) /\ page (q * 4096) <> mtime_page) (space_pages sp);
  so_frames : map_Forall (fun v q => map_Forall (fun v' q' => page (q * 4096) = page (q' * 4096) -> v = v') (space_pages sp)) (space_pages sp);
  so_tables : mtime_page ∉ space_tables sp
}.

Definition mapped (sp : space) (va : Z) : bool := match space_pages sp !! (va / 4096) with Some _ => true | None => false end.

(** Where a mapped byte is. *)
Definition frame (sp : space) (va : Z) : Z := default 0 (space_pages sp !! (va / 4096)) * 4096 + va mod 4096.

(** Memory that is none of the program's business: neither a frame of its pages, nor a
    table, nor the page of MTIME. *)
Definition foreign (sp : space) (b : Z) : Prop :=
  (page b ∉ space_tables sp) /\ page b <> mtime_page /\ map_Forall (fun _ q => page (q * 4096) <> page b) (space_pages sp).

Definition all_mapped (sp : space) (a : Z) (n : nat) : bool := forallb (fun k => mapped sp (a + Z.of_nat k)) (seq 0 n).

Section Space.
Context (fmt : PageTable.format) (sp : space) (before : ByteMem.t).
Hypothesis Hfmt : fmt = PageTable.sv32 \/ fmt = PageTable.sv39.
Hypothesis Hsp : space_ok sp.
Implicit Types f g : ByteMem.t.

(** The tables in memory send each page to its frame, and the holes nowhere. *)
Definition tables_map (f : ByteMem.t) : Prop :=
  map_Forall (fun v q => maps fmt (space_tables sp) f (space_root sp) (v * 4096) (Some (q * 4096))) (space_pages sp) /\
  set_Forall (fun v => maps fmt (space_tables sp) f (space_root sp) (v * 4096) None) (space_holes sp).

#[export] Instance tables_map_dec f : Decision (tables_map f).
Proof. unfold tables_map. apply _. Defined.

(** Memory [f] holds the program's bytes [g] and tables that map them, and is elsewhere
    as it was before. *)
Record presents (f g : ByteMem.t) : Prop := {
  pr_range : forall b, in_u 8 (f b);
  pr_tables : tables_map f;
  pr_bytes : forall va, mapped sp va = true -> f (frame sp va) = g va;
  pr_outside : forall b, foreign sp b -> f b = before b
}.

Lemma mapped_page va : mapped sp va = true -> exists q,
  space_pages sp !! (va / 4096) = Some q /\ frame sp va = q * 4096 + va mod 4096 /\ page (frame sp va) = page (q * 4096) /\
  in_u 32 va /\ (page (q * 4096) ∉ space_tables sp) /\ page (q * 4096) <> mtime_page.
Proof using Hsp.
  unfold mapped, frame. destruct (space_pages sp !! (va / 4096)) as [q|] eqn:E; [| done]. intros _. exists q.
  destruct (so_pages sp Hsp _ _ E) as (Hv & Ht & Hm). repeat split; try done; cbn [default].
  - unfold page. f_equal. unfold id. zlia.
  - unfold in_u. zlia.
  - unfold in_u. zlia.
Qed.

(** Bytes in one page go to one frame, those in different pages to different ones. *)
Lemma frame_add va n k : in_page va n -> 0 <= k < Z.of_nat n -> frame sp (va + k) = frame sp va + k.
Proof using.
  unfold in_page, frame. intros Hn Hk. replace ((va + k) / 4096) with (va / 4096) by zlia.
  replace ((va + k) mod 4096) with (va mod 4096 + k) by zlia. lia.
Qed.

Lemma frames_apart va va' : mapped sp va = true -> mapped sp va' = true -> page (frame sp va) = page (frame sp va') -> va / 4096 = va' / 4096.
Proof using Hsp.
  intros (q & Eq & _ & -> & _)%mapped_page (q' & Eq' & _ & -> & _)%mapped_page E. exact (so_frames sp Hsp _ _ Eq _ _ Eq' E).
Qed.

Lemma frame_in_page va n : mapped sp va = true -> in_page va n -> in_page (frame sp va) n.
Proof using Hsp. intros (q & _ & E & _)%mapped_page. unfold in_page. rewrite E. zlia. Qed.

Lemma tables_alike f g : alike fmt (space_tables sp) f g -> tables_map f -> tables_map g.
Proof using. intros Ha [Hf Hh]. split; [intros v q E | intros v E]; (apply (maps_alike fmt _ f g); [done |]); [by apply Hf | by apply Hh]. Qed.

Lemma presents_ext f f' g : (forall b, f' b = f b) -> presents f g -> presents f' g.
Proof using.
  intros Hb [Hr Ht Hg Ho]. split; [intros b; by rewrite Hb | | intros va Hv; by rewrite Hb, Hg | intros b Hout; by rewrite Hb, Ho].
  apply (tables_alike f); [| done]. apply ext_alike. intros b. by rewrite Hb.
Qed.

Lemma presents_visible f g g' : (forall va, mapped sp va = true -> g' va = g va) -> presents f g -> presents f g'.
Proof using. intros Hg' [Hr Ht Hg Ho]. split; [done | done | | done]. intros va Hv. by rewrite Hg, Hg'. Qed.

(** A write to a table or to MTIME that leaves walks alone. *)
Lemma presents_other n f a v g :
  in_page a n -> alike fmt (space_tables sp) f (ByteMem.store n f a v) ->
  page a ∈ space_tables sp \/ page a = mtime_page -> presents f g -> presents (ByteMem.store n f a v) g.
Proof using Hsp.
  intros Ha Hal Hp [Hr Ht Hg Ho]. split; [intros b; by apply store_range | by apply (tables_alike f) | |].
  - intros va Hv. rewrite store_other_page; [by apply Hg | done |].
    destruct (mapped_page va Hv) as (q & _ & _ & -> & _ & Hout & Hm). intros E. rewrite E in Hout, Hm. by destruct Hp.
  - intros b Hb. rewrite store_other_page; [by apply Ho | done |]. destruct Hb as (Hout & Hm & _). intros E. rewrite E in Hout, Hm. by destruct Hp.
Qed.

(** The emulator refreshes MTIME. *)
Lemma presents_refresh f v g : presents f g -> presents (ByteMem.store 8 f Peripheral.kTimerMtime v) g.
Proof using Hsp.
  assert (Ha : in_page Peripheral.kTimerMtime 8) by (vm_compute; discriminate).
  apply presents_other; [done | | by right]. apply store_alike; [done |]. exact (so_tables sp Hsp).
Qed.

(** An access to a mapped address: the frame's byte, and the tables marked. *)
Lemma presents_resolve f g write a va :
  presents f g -> mapped sp va = true -> eqm (va_bits fmt) a va ->
  exists f', Access.resolve fmt (space_root sp) f write a = Some (frame sp va, f') /\ presents f' g.
Proof using All.
  intros Hpr Hv He. destruct (mapped_page va Hv) as (q & Eq & Ef & _). rewrite Ef.
  pose proof (proj1 (pr_tables f g Hpr) _ _ Eq) as Hm.
  assert (He' : eqm (va_bits fmt) a (va / 4096 * 4096 + va mod 4096)) by (rewrite He; f_equal; zlia).
  destruct (maps_page fmt _ Hfmt f _ _ _ a (va mod 4096) Hm He' ltac:(zlia)) as [Hp Ht].
  unfold Access.resolve. destruct (PageTable.translate fmt f (space_root sp) a) as [[[pa ad] pte]|] eqn:T; [| done].
  cbn [option_map] in Ht. injection Ht as ->. eexists. split; [done |].
  assert (Had : page ad ∈ space_tables sp).
  { unfold PageTable.translate in T. destruct (PageTable.walk _ _ _ _ _) as [[[l ad'] pte']|] eqn:Ew; [| done].
    destruct (PageTable.aligned _ _ _); [| done]. injection T as _ -> ->. by apply (private_leaf fmt _ _ _ _ _ _ _ _ Hp Ew). }
  destruct (translate_leaf _ _ _ _ _ _ _ T) as (_ & _ & _ & Hal).
  apply presents_other; [| by apply (touch_alike fmt _ Hfmt f write (space_root sp) a (q * 4096 + va mod 4096)), T; apply Hpr | by left | done].
  unfold in_page. destruct (PageTable.pte_width fmt); cbn [nbytes] in *; zlia.
Qed.

(** An access to a hole. *)
Lemma presents_hole f g write a va :
  presents f g -> va / 4096 ∈ space_holes sp -> eqm (va_bits fmt) a va -> Access.resolve fmt (space_root sp) f write a = None.
Proof using Hfmt.
  intros Hpr Hv He. pose proof (proj2 (pr_tables f g Hpr) _ Hv) as Hm.
  assert (He' : eqm (va_bits fmt) a (va / 4096 * 4096 + va mod 4096)) by (rewrite He; f_equal; zlia).
  destruct (maps_page fmt _ Hfmt f _ _ _ a (va mod 4096) Hm He' ltac:(zlia)) as [_ Ht].
  unfold Access.resolve. by destruct (PageTable.translate _ _ _ _) as [[[pa ad] pte]|].
Qed.

Lemma presents_load n f g va : presents f g -> in_page va n -> (forall k, 0 <= k < Z.of_nat n -> mapped sp (va + k) = true) ->
  ByteMem.load n f (frame sp va) = ByteMem.load n g va.
Proof using. intros Hpr Hn Hv. apply load_shift. intros k Hk. rewrite <- (frame_add va n k) by done. by apply Hpr, Hv. Qed.

(** A store within a page is one to its frame. *)
Lemma presents_store n f g va v : presents f g -> mapped sp va = true -> in_page va n ->
  presents (ByteMem.store n f (frame sp va) v) (ByteMem.store n g va v).
Proof using Hsp.
  intros [Hr Ht Hg Ho] Hv Hn. pose proof (frame_in_page va n Hv Hn) as Hfn. split; [intros b; by apply store_range | | |].
  - apply (tables_alike f); [| done]. apply store_alike; [done |]. by destruct (mapped_page va Hv) as (q & _ & _ & -> & _ & Hout & _).
  - intros va' Hv'. destruct (Z.eq_dec (va' / 4096) (va / 4096)) as [E | E].
    + unfold ByteMem.store. replace (frame sp va' - frame sp va) with (va' - va) by (unfold frame; rewrite E; zlia). cbv zeta.
      case_match; [done | by apply Hg].
    + rewrite !store_other_page; [by apply Hg | done | | done |].
      * destruct (mapped_page va Hv) as (_ & _ & _ & _ & H1 & _), (mapped_page va' Hv') as (_ & _ & _ & _ & H2 & _).
        unfold page, in_u in *. zlia.
      * intros Ep. by apply E, frames_apart.
  - intros b Hb. rewrite store_other_page; [by apply Ho | done |]. destruct (mapped_page va Hv) as (q & Eq & _ & -> & _).
    destruct Hb as (_ & _ & Hb). intros E. by apply (Hb _ _ Eq).
Qed.
End Space.

(* ------------------------------------------------------------------ *)
(** ** The interface discharged *)

(** What a program cannot change of the processor. *)
Definition as_before (s0 s : Cpu.t) : Prop := control s = control s0 /\ forall c, csr s c = csr s0 c.

Lemma as_before_started {M} pc (x : Cpu.t * M) : as_before x.1 (started pc x).1.
Proof. by destruct x. Qed.

(** The regime of a program that was started on the machine [x0].  Accesses of the
    processor stay within eight bytes, but for stores. *)
Definition virtual_regime {M : Type} `{GuestMemoryLaws M} (fmt : PageTable.format) (sp : space) (x0 : Cpu.t * M) : Regime M := {|
  mode := fun s => paging fmt (space_root sp) (space_mode sp) s /\ as_before x0.1 s;
  intact := fun m => tables_map fmt sp (mem_byte m) /\ forall b, foreign sp b -> mem_byte m b = mem_byte x0.2 b;
  view := fun m va => mem_byte m (frame sp va);
  visible := fun va => mapped sp va = true;
  names := eqm (va_bits fmt);
  fetchable := fun a => all_mapped sp a 4;
  readable := fun a n => (a mod 8 + Z.of_nat n <=? 8) && all_mapped sp a n;
  writable := all_mapped sp
|}.

(** The tables of each register width. *)
Definition format_for (xlen : Z) : PageTable.format := if xlen =? 32 then PageTable.sv32 else PageTable.sv39.

Section Laws.
Context {M : Type} `{GuestMemoryLaws M} (xlen : Z) (Hxlen : xlen = 32 \/ xlen = 64) (sp : space) (x0 : Cpu.t * M) (Hsp : space_ok sp).
Let fmt := format_for xlen.
Let before := mem_byte x0.2.
#[local] Instance space_regime : Regime M := virtual_regime fmt sp x0.
Implicit Types (s : Cpu.t) (m : M) (f : ByteMem.t).

Lemma format_cases : fmt = PageTable.sv32 \/ fmt = PageTable.sv39.
Proof using Hxlen. subst fmt. destruct Hxlen as [-> | ->]; auto. Qed.
Hint Resolve format_cases : core.

Lemma shows_presents m f : shows m f -> mem_ok m /\ presents fmt sp before (mem_byte m) f.
Proof using. intros [Hm [Ht Ho] Hb]. split; [done |]. split; [intros b; by apply mem_byte_range | done | exact Hb | done]. Qed.

Lemma presents_shows m f g : mem_ok m -> (forall b, mem_byte m b = f b) -> presents fmt sp before f g -> shows m g.
Proof using. intros Hm Hb [_ Ht Hg Ho]%(presents_ext fmt sp before f (mem_byte m)); [by split | done]. Qed.

Lemma all_mapped_at a n k : all_mapped sp a n = true -> 0 <= k < Z.of_nat n -> mapped sp (a + k) = true.
Proof using. intros Ha. exact (proj1 (forallb_span (mapped sp) a n) Ha k). Qed.

Lemma all_mapped_first a n : all_mapped sp a n = true -> (0 < n)%nat -> mapped sp a = true.
Proof using. intros Ha Hn. rewrite <- (Z.add_0_r a). apply (all_mapped_at a n); [done | lia]. Qed.

Lemma names_low a va k : eqm (va_bits fmt) a va -> k <= va_bits fmt -> 0 < k -> eqm k a va.
Proof using. intros He Hk Hpos. unfold eqm. rewrite <- (uint_le k (va_bits fmt) a), <- (uint_le k (va_bits fmt) va) by lia. by rewrite He. Qed.

Lemma va_bits_bounds : 32 <= va_bits fmt <= 39.
Proof using Hxlen. destruct format_cases as [E | E]; rewrite E; vm_compute; split; discriminate. Qed.

(** The name of the next part of an access. *)
Lemma names_next a va k : eqm (va_bits fmt) a va -> eqm (va_bits fmt) (u64 (a + k)) (va + k).
Proof using Hxlen.
  intros He. pose proof va_bits_bounds. unfold eqm. rewrite (uint_le (va_bits fmt) 64) by lia.
  unfold eqm, uint in *. by rewrite Zplus_mod, He, <- Zplus_mod.
Qed.

Lemma names_mod8 a va : eqm (va_bits fmt) a va -> a mod 8 = va mod 8.
Proof using Hxlen. intros He. pose proof va_bits_bounds. exact (names_low a va 3 He ltac:(lia) ltac:(lia)). Qed.

Lemma in_page_8 va n : va mod 8 + Z.of_nat n <= 8 -> in_page va n.
Proof using. unfold in_page. zlia. Qed.

Lemma resolves s m f write a va :
  shows m f -> mapped sp va = true -> eqm (va_bits fmt) a va ->
  exists f', Access.resolve fmt (space_root sp) (mem_byte m) write a = Some (frame sp va, f') /\ presents fmt sp before f' f.
Proof using Hxlen Hsp. intros [_ Hp]%shows_presents. by apply presents_resolve. Qed.

(** An instruction is fetched in halves, each within a page. *)
Lemma presents_half f g va : presents fmt sp before f g -> va mod 2 = 0 -> (forall k, 0 <= k < 2 -> mapped sp (va + k) = true) ->
  ByteMem.load 2 f (frame sp va) = ByteMem.load 2 g va /\ in_u 16 (ByteMem.load 2 g va).
Proof using.
  intros Hpr He Hv. assert (E : ByteMem.load 2 f (frame sp va) = ByteMem.load 2 g va) by (apply (presents_load fmt sp before); [done | unfold in_page; zlia | done]).
  split; [done |]. rewrite <- E. exact (ByteMem.load_range 2 f _ (pr_range _ _ _ _ _ Hpr)).
Qed.

Lemma fetched_word f va : in_u 16 (ByteMem.load 2 f va) -> in_u 16 (ByteMem.load 2 f (va + 2)) -> in_u 32 (fetched f va).
Proof using.
  intros Hlo Hhi. rewrite fetched_halves by done. cbv zeta. unfold in_u in *. destruct (ByteMem.load 2 f va mod 4 =? 3); lia.
Qed.

Lemma law_fetch s m f pc va :
  paging fmt (space_root sp) (space_mode sp) s -> shows m f -> in_u 64 pc -> pc mod 2 = 0 -> eqm (va_bits fmt) pc va -> va mod 2 = 0 ->
  all_mapped sp va 4 = true ->
  exists u m', LoadCmd pc (s, m) = Ok (fetched f va, (s <| mmu_ := u |>, m')) /\ shows m' f /\ in_u 32 (fetched f va).
Proof using Hxlen Hsp.
  intros Hs Hf Hpc He Hn Hev Ho. destruct (shows_presents m f Hf) as [Hm Hpr].
  pose proof (mod_4_of_8 pc va (names_mod8 pc va Hn)) as H4.
  assert (Hlow : forall k, 0 <= k < 2 -> mapped sp (va + k) = true) by (intros k Hk; apply (all_mapped_at va 4); [done | lia]).
  assert (Hhigh : forall k, 0 <= k < 2 -> mapped sp (va + 2 + k) = true)
    by (intros k Hk; rewrite <- Z.add_assoc; apply (all_mapped_at va 4); [done | lia]).
  pose proof (fetch_paged fmt (space_root sp) (space_mode sp) pc s m Hm Hs Hpc He) as Hfe. unfold Access.fetch in Hfe.
  destruct (presents_resolve fmt sp before format_cases Hsp _ f false pc va Hpr (all_mapped_first va 4 Ho ltac:(lia)) Hn) as (f1 & Er & Hpr1).
  rewrite Er in Hfe. destruct (presents_half f1 f va Hpr1 Hev Hlow) as [Elo Hlo].
  destruct (presents_half f1 f (va + 2) Hpr1 ltac:(zlia) Hhigh) as [_ Hhi].
  pose proof (fetched_word f va Hlo Hhi) as Hr.
  rewrite Elo in Hfe. destruct ((pc mod 4 =? 2) && (ByteMem.load 2 f va mod 4 =? 3)) eqn:Hst.
  - (* the upper half is in the next word, perhaps the next page *)
    apply andb_true_iff in Hst as [_ Hlong].
    destruct (presents_resolve fmt sp before format_cases Hsp f1 f false (u64 (pc + 2)) (va + 2) Hpr1) as (f2 & Er2 & Hpr2);
      [rewrite <- (Z.add_0_r (va + 2)); by apply Hhigh | by apply names_next |]. rewrite Er2 in Hfe.
    destruct (presents_half f2 f (va + 2) Hpr2 ltac:(zlia) Hhigh) as [Ehi _]. rewrite Ehi in Hfe.
    destruct Hfe as (c & s' & m' & E & Hm' & Hb & [= Ec] & _ & u & ->). exists u, m'.
    rewrite E, <- Ec, fetched_halves by done. cbv zeta. rewrite Hlong. split; [done |]. split; [by apply (presents_shows m' f2) |].
    rewrite fetched_halves in Hr by done. cbv zeta in Hr. by rewrite Hlong in Hr.
  - destruct Hfe as (c & s' & m' & E & Hm' & Hb & [= Ec] & _ & u & ->). exists u, m'.
    assert (Efe : fetched f1 (frame sp va) = fetched f va).
    { rewrite !fetched_halves by (done || by rewrite Elo). cbv zeta. rewrite Elo. destruct (ByteMem.load 2 f va mod 4 =? 3) eqn:Hlong; [| done].
      rewrite andb_true_r, Z.eqb_neq in Hst. assert (Hp : va mod 4 = 0) by zlia.
      rewrite <- (frame_add sp va 4) by (unfold in_page; zlia). do 2 f_equal. by apply (presents_half f1 f (va + 2) Hpr1 ltac:(zlia) Hhigh). }
    rewrite E, <- Ec, Efe. split; [done |]. split; [by apply (presents_shows m' f1) | done].
Qed.

Lemma law_load i rd rs1 imm w s m f a :
  paging fmt (space_root sp) (space_mode sp) s -> cpu_ok s -> shows m f -> in_u 64 (Peripheral.elapsed_cycles_ (peripheral_ s)) ->
  GetLoadWidth i = Ok w -> eqm (va_bits fmt) (u64 (reg s rs1 + imm)) a -> (a mod 8 + Z.of_nat (Z.to_nat w) <=? 8) && all_mapped sp a (Z.to_nat w) = true ->
  exists s' m', LoadInstruction i rd rs1 imm (s, m) = Ok (tt, (s', m')) /\ shows m' f /\ calm s s' /\
    let v := ByteMem.load (Z.to_nat w) f a in in_u (8 * w) v /\ reg_ s' = zset (reg_ s) rd (load_value i v).
Proof using Hxlen Hsp.
  intros Hs Hok Hf Ht Hw Hn [H8%Z.leb_le Ho]%andb_true_iff. destruct (shows_presents m f Hf) as [Hm Hpr].
  pose proof (width_bounds w (GetLoadWidth_cases i w Hw)) as Hwb. pose proof (names_mod8 _ _ Hn) as Hmod.
  destruct (load_paged fmt (space_root sp) (space_mode sp) i rd rs1 imm w s m Hok Hm Hs Ht Hw) as (s' & m' & E & Hm' & Hr); [lia |].
  set (f0 := ByteMem.store 8 _ _ _) in Hr.
  destruct (presents_resolve fmt sp before format_cases Hsp f0 f false _ a (presents_refresh fmt sp before Hsp _ _ f Hpr)
    (all_mapped_first a _ Ho ltac:(lia)) Hn) as (f1 & Er & Hpr1).
  unfold Access.load in Hr. rewrite Er in Hr. destruct Hr as (Hb & Hreg & Hc).
  assert (Ev : ByteMem.load (Z.to_nat w) f1 (frame sp a) = ByteMem.load (Z.to_nat w) f a).
  { apply (presents_load fmt sp before); [done | by apply in_page_8 |]. intros k Hk. by apply (all_mapped_at a (Z.to_nat w)). }
  exists s', m'. split; [done |]. split; [by apply (presents_shows m' f1) |]. split; [done |]. cbv zeta. rewrite <- Ev. split; [| done].
  pose proof (ByteMem.load_range (Z.to_nat w) f1 (frame sp a) (pr_range _ _ _ _ _ Hpr1)) as Hv. unfold in_u.
  replace (8 * w) with (8 * Z.of_nat (Z.to_nat w)) by lia. by rewrite Z.pow_mul_r by lia.
Qed.
(** Both parts of a store go to the frames of their pages. *)
Lemma access_store f g a va w v :
  presents fmt sp before f g -> eqm (va_bits fmt) a va -> 1 <= w <= 8 -> all_mapped sp va (Z.to_nat w) = true ->
  exists pa f', Access.store fmt (space_root sp) f a w v = (f', Access.Done pa) /\ presents fmt sp before f' (ByteMem.store (Z.to_nat w) g va v).
Proof using Hxlen Hsp.
  intros Hpr Hn Hw Ho. pose proof (names_mod8 a va Hn) as H8. unfold Access.store. set (k := Z.min w (8 - a mod 8)).
  assert (Hk : 1 <= k <= w /\ va mod 8 + k <= 8 /\ (k <> w -> (va + k) mod 8 = 0)) by zlia. destruct Hk as (Hk & Hin & Hnext).
  destruct (presents_resolve fmt sp before format_cases Hsp f g true a va Hpr (all_mapped_first va _ Ho ltac:(lia)) Hn) as (f1 & -> & Hpr1).
  assert (Hfirst : presents fmt sp before (ByteMem.store (Z.to_nat k) f1 (frame sp va) v) (ByteMem.store (Z.to_nat k) g va v)).
  { apply presents_store; [done | done | by apply (all_mapped_first va _ Ho ltac:(lia)) | apply in_page_8; lia]. }
  destruct (Z.eqb_spec k w) as [E | E]; [rewrite E in *; by eauto |].
  assert (Hv2 : mapped sp (va + k) = true) by (apply (all_mapped_at va (Z.to_nat w)); [done | lia]).
  destruct (presents_resolve fmt sp before format_cases Hsp _ _ true (u64 (a + k)) (va + k) Hfirst Hv2 ltac:(by apply names_next)) as (f2 & -> & Hpr2).
  eexists _, _. split; [done |]. apply (presents_visible fmt sp before _ (ByteMem.store (Z.to_nat (w - k)) (ByteMem.store (Z.to_nat k) g va v) (va + k) (v / 2 ^ (8 * k)))).
  - intros b _. replace (Z.to_nat w) with (Z.to_nat k + Z.to_nat (w - k))%nat by lia.
    rewrite ByteMem.store_app by lia. rewrite Z2Nat.id, Z.shiftr_div_pow2 by lia. done.
  - apply presents_store; [done | done | done |]. apply in_page_8. rewrite Hnext by done. lia.
Qed.

Lemma law_store i rd rs1 rs2 imm w s m f a :
  paging fmt (space_root sp) (space_mode sp) s -> cpu_ok s -> shows m f -> in_u 64 (reg s rs2) ->
  GetStoreWidth i = Ok w -> eqm (va_bits fmt) (u64 (reg s rs1 + imm)) a -> all_mapped sp a (Z.to_nat w) = true ->
  exists s' m', StoreInstruction i rd rs1 rs2 imm (s, m) = Ok (tt, (s', m')) /\ calm s s' /\ reg_ s' = reg_ s /\
    shows m' (ByteMem.store (Z.to_nat w) f a (reg s rs2)).
Proof using Hxlen Hsp.
  intros Hs Hok Hf Hv Hw Hn Ho. destruct (shows_presents m f Hf) as [Hm Hpr].
  pose proof (width_bounds w (GetStoreWidth_cases i w Hw)) as Hwb.
  destruct (access_store _ f _ a w (reg s rs2) Hpr Hn Hwb Ho) as (pa & f' & Ea & Hpr').
  destruct (store_paged fmt (space_root sp) (space_mode sp) i rd rs1 rs2 imm w s m Hok Hm Hs Hv Hw) as (s' & m' & E & Hm' & Hb & Hr).
  rewrite Ea in Hb, Hr. destruct Hr as (Hreg & Hc & _). exists s', m'. split; [done |]. split; [done |]. split; [done |].
  by apply (presents_shows m' f').
Qed.

Lemma law_amo i rd rs1 rs2 s m f a z :
  paging fmt (space_root sp) (space_mode sp) s -> shows m f -> in_u 64 (reg s rs1) -> in_u 64 (reg s rs2) -> eqm (va_bits fmt) (reg s rs1) a ->
  let w := Amo.width i in let n := Z.to_nat (w / 8) in let x := ByteMem.load n f a in
  Amo.result i x (uint w (reg s rs2)) = Some z -> (a mod 8 + Z.of_nat n <=? 8) && all_mapped sp a n = true ->
  exists s' m', AmoInstruction i rd rs1 rs2 (s, m) = Ok (tt, (s', m')) /\ calm s s' /\
    reg_ s' = zset (reg_ s) rd (u64 (sint w x)) /\ shows m' (ByteMem.store n f a z).
Proof using Hxlen Hsp.
  intros Hs Hf Ha Hb Hn w n x Hz [H8%Z.leb_le Ho]%andb_true_iff. destruct (shows_presents m f Hf) as [Hm Hpr].
  assert (Hnp : (0 < n)%nat) by (subst n w; destruct i; cbv; lia).
  pose proof (all_mapped_first a n Ho Hnp) as Hv.
  pose proof (amo_paged fmt (space_root sp) (space_mode sp) i rd rs1 rs2 s m Hm Hs Ha Hb) as Hr. cbv zeta in Hr. fold w n in Hr.
  destruct (presents_resolve fmt sp before format_cases Hsp _ f false _ a Hpr Hv Hn) as (f1 & Er & Hpr1). rewrite Er in Hr.
  assert (El : ByteMem.load n f1 (frame sp a) = x)
    by (apply (presents_load fmt sp before); [done | by apply in_page_8 | intros k Hk; by apply (all_mapped_at a n)]).
  rewrite El in Hr. destruct (Hr z Hz) as (f2 & s' & m' & Er2 & E & Hm' & Hby & Hreg & Hc & _).
  destruct (presents_resolve fmt sp before format_cases Hsp f1 f true _ a Hpr1 Hv Hn) as (f2' & Er2' & Hpr2). rewrite Er2' in Er2. injection Er2 as <-.
  exists s', m'. split; [done |]. split; [done |]. split; [done |].
  apply (presents_shows m' (ByteMem.store n f2' (frame sp a) z)); [done | done |]. apply presents_store; [done | done | done | by apply in_page_8].
Qed.

Lemma space_regime_laws : RegimeLaws space_regime xlen.
Proof using Hxlen Hsp.
  split; unfold mode, names, fetchable, readable, writable, space_regime, virtual_regime.
  - intros s s' Hk Hc [[H1 H2 H3] [Hk0 Hc0]]. split; [| split; [by rewrite Hk | intros c; by rewrite Hc]].
    injection Hk as _ E2 E3 E4 _ _ _ _. split; [| | by rewrite E4].
    + rewrite <- H1. unfold effective_privilege. by rewrite E3, Hc.
    + rewrite <- H2. unfold regime_of, mmu_for. cbn. by rewrite E2, Hc.
  - by intros s [[] _].
  - intros x k Hx. subst fmt. unfold format_for. destruct Hxlen as [-> | ->]; cbn [Z.eqb Pos.eqb].
    + change (va_bits PageTable.sv32) with 32. rewrite !uint_eqm by lia. by rewrite (embed_eqm 32 32 x) by lia.
    + by rewrite embed64.
  - intros m f g [Hm Ht Hb] Hg. split; [done | done |]. intros b Hv. by rewrite Hb, Hg.
  - intros s m f pc va [Hs _]. by apply law_fetch.
  - intros i rd rs1 imm w s m f a [Hs _]. by apply law_load.
  - intros i rd rs1 rs2 imm w s m f a [Hs _]. by apply law_store.
  - intros i rd rs1 rs2 s m f a z [Hs _]. by apply law_amo.
Qed.
End Laws.

(* ------------------------------------------------------------------ *)
(** ** The timer goes on

    The program cannot reach the comparator when it is in none of its frames. *)

(** No interrupt is due in the next [n] turns, whatever the program does. *)
Definition uninterrupted {M} `{GuestMemoryLaws M} (sp : space) (n : nat) (x : Cpu.t * M) : Prop :=
  undisturbed n x /\ (Z.testbit (mie_ x.1) 7 = true -> foreign sp Peripheral.kTimerCmp).

(** The timer interrupts after [n] turns, whatever the program does. *)
Definition timer_in {M} `{GuestMemoryLaws M} (sp : space) (n : nat) (x : Cpu.t * M) : Prop :=
  timer_after n x /\ foreign sp Peripheral.kTimerCmp.

Lemma uninterrupted_same {M} `{GuestMemoryLaws M} sp n (x x' : Cpu.t * M) :
  same_alarms x x' -> uninterrupted sp n x -> uninterrupted sp n x'.
Proof. intros Hs [Hu Hf]. split; [by apply (undisturbed_same n x) |]. destruct Hs as ([= -> _ _ _ _ _ _] & _). exact Hf. Qed.

Lemma timer_in_same {M} `{GuestMemoryLaws M} sp n (x x' : Cpu.t * M) : same_alarms x x' -> timer_in sp n x -> timer_in sp n x'.
Proof. intros Hs [Ht Hf]. split; [by apply (timer_after_same n x) | done]. Qed.

Section Timer.
Context {M : Type} `{HostOsLaws M} (xlen : Z) (sp : space) (x0 : Cpu.t * M).
#[local] Instance timer_regime : Regime M := virtual_regime (format_for xlen) sp x0.

Lemma shows_comparator (m : M) f : shows m f -> foreign sp Peripheral.kTimerCmp -> cmp_of m = cmp_of x0.2.
Proof using.
  intros [_ [_ Ho] _] Hf. apply load_shift. intros k Hk. apply Ho. unfold foreign.
  rewrite (page_span Peripheral.kTimerCmp 8) by (done || vm_compute; discriminate). exact Hf.
Qed.

Lemma sim_comparator h x h' x' :
  sim xlen h x -> sim xlen h' x' -> foreign sp Peripheral.kTimerCmp -> cmp_of x'.2 = cmp_of x.2.
Proof using. intros [_ _ _ _ _ _ Hs] [_ _ _ _ _ _ Hs'] Hf. by rewrite (shows_comparator _ _ Hs Hf), (shows_comparator _ _ Hs' Hf). Qed.

Lemma uninterrupted_patient : patient xlen (uninterrupted sp).
Proof using.
  split.
  - intros n h x _ [Hu _]. by apply (undisturbed_due n).
  - intros n h x h' x' Hs Hs' Hp [Hu Hf]. split; [apply (undisturbed_passes n x); [done | | done] |].
    + intros E. by apply (sim_comparator h x h' x'), Hf.
    + destruct Hp as (o & [_ _ _ _ _ Hk _] & [= -> _ _ _ _ _ _]). injection Hk as _ _ _ _ _ -> _ _ _ _ _ _ _ _ _ _ _ _ _ _ _. exact Hf.
Qed.

Lemma timer_patient : patient xlen (timer_in sp).
Proof using.
  split.
  - intros n h x _ [Ht _]. by apply (timer_after_waits n).
  - intros n h x h' x' Hs Hs' Hp [Ht Hf]. split; [| done]. apply (timer_after_passes n x); [done | by apply (sim_comparator h x h' x') | done].
Qed.
End Timer.

(* ------------------------------------------------------------------ *)
(** ** Properties *)

(** C3: programs in virtual memory: a user or supervisor program (or one in machine mode
    under MPRV) whose pages Sv32 or Sv39 tables map to frames of their own, and which is
    not interrupted meanwhile (no enabled interrupt is pending, and the timer, if its
    interrupt is enabled, does not reach the comparator), runs as the abstract machine
    of its register width does on the program's own addresses, though each access
    walks the tables and sets accessed and dirty bits.  When the abstract
    run comes to its return to address zero, [RunCpu] terminates with exit code zero,
    in the registers and, frame by frame, the memory the abstract run ends with; the
    tables still map the same pages to the same frames; and no byte outside the
    program's frames, the tables and the page of MTIME has changed. *)
Theorem RunCpu_implements_isa_virtual {M} `{HostOsLaws M} (xlen : Z) (sp : space) (fuel : nat) (pc : Z) (x : Cpu.t * M)
    (h' : IsaMachine.hart) :
  let fmt := format_for xlen in let R := virtual_regime fmt sp x in
  xlen = 32 \/ xlen = 64 -> space_ok sp -> well_formed x -> quiet (R := R) xlen (started pc x).1 -> tables_map fmt sp (mem_byte x.2) ->
  uninterrupted sp (S fuel) x -> (forall r, in_u 5 r -> extended xlen (reg x.1 r)) -> extended xlen pc -> pc mod 2 = 0 ->
  isa_run (R := R) xlen fuel (hart_of (R := R) xlen pc x) = Some h' ->
  exists x', RunCpu (S fuel) pc x = Ok (Some 0, x') /\ (forall r, in_u 5 r -> reg x'.1 r = embed xlen (IsaMachine.get h' r)) /\
    (forall va, mapped sp va = true -> mem_byte x'.2 (frame sp va) = IsaMachine.mem h' va) /\
    tables_map fmt sp (mem_byte x'.2) /\ forall b, foreign sp b -> mem_byte x'.2 b = mem_byte x.2 b.
Proof.
  intros fmt R Hx Hsp Hw Hq Ht Hun Hr Hpc He E. rewrite RunCpu_started.
  pose proof (space_regime_laws (M := M) xlen Hx sp x Hsp) as HL. fold fmt in HL. change (RegimeLaws R xlen) in HL.
  destruct (isa_run_simulates (R := R) xlen Hx _ fuel (hart_of xlen pc x) (started pc x) h' (uninterrupted_patient xlen sp x) (sim_started (R := R) xlen Hx pc x Hw (conj Ht (fun b _ => eq_refl)) Hq Hr Hpc He)
    (uninterrupted_same sp _ x _ (conj eq_refl (conj eq_refl eq_refl)) Hun) E)
    as (x' & Ex & Hr' & [_ [Ht' Ho] Hb]). exists x'. exact (conj Ex (conj Hr' (conj Hb (conj Ht' Ho)))).
Qed.

(** *** Witness: a user program with its stack across two pages

    The pages at 0x40200000 and 0x40201000 are in frames 0x80401 and 0x80300.  The
    program adds 10 to 1, stores the sum as a doubleword across the two pages
    (sd a0,-4(sp)), and loads it back (lw a0,-4(sp)). *)
Definition stack_program : list Z := [0x45814529; 0x157D95AA; 0x852EFD75; 0xFEA13E23; 0xFFC12503; 0x8082].

Definition user_words (program : list Z) : list (width * Z * Z) :=
  sample_tables ++ [(W64, 0x3008, 0x200C000F)] ++ imap (fun i w => (W32, 0x80401000 + 4 * Z.of_nat i, w)) program.

Definition user_memory (program : list Z) : MemoryWrapper.t :=
  match write_all MemoryWrapper.MemoryWrapper (user_words program) with Ok m => m | Err _ => MemoryWrapper.MemoryWrapper end.

(** The page after the two, and one far away, are not mapped. *)
Definition user_space : space :=
  Space 1 USER_MODE {[0x40200 := 0x80401; 0x40201 := 0x80300]} {[0x40202; 0x50000]} {[1; 2; 3]}.

Definition user_machine (program : list Z) (stack : Z) : Cpu.t * MemoryWrapper.t :=
  (put_reg 2 stack (put_csr SATP sample_satp (RiscvCpu 0 true) <| privilege_ := USER_MODE |>), user_memory program).

Lemma user_memory_ok program : Forall fits (user_words program) -> mem_ok (user_memory program).
Proof.
  intros Hl. unfold user_memory. destruct (write_all _ _) as [m|] eqn:E; [| exact MemoryWrapper_init_ok].
  exact (write_all_ok (M := MemoryWrapper.t) _ m _ MemoryWrapper_init_ok Hl E).
Qed.

Lemma user_csr_ok stack : in_u 64 stack -> csr_ok (put_reg 2 stack (put_csr SATP sample_satp (RiscvCpu 0 true) <| privilege_ := USER_MODE |>)).
Proof.
  intros Hs. apply csr_ok_put_reg; [| exact Hs]. apply csr_ok_put_csr; [apply csr_ok_privilege, RiscvCpu_csr_ok | decide_it | |];
    intros [E | [E | E]]; vm_compute in E; discriminate E.
Qed.

Lemma user_machine_ok program stack : Forall fits (user_words program) -> in_u 64 stack -> well_formed (user_machine program stack).
Proof.
  intros Hl Hs. split; [| by vm_compute]. split; cbn [fst snd]; [| decide_it | | decide_it | by apply user_memory_ok].
  - split; [by apply user_csr_ok | decide_it ..].
  - split; [decide_it .. |]. intros d Hd. vm_compute in Hd. discriminate Hd.
Qed.

Lemma user_quiet program stack pc :
  quiet (R := virtual_regime PageTable.sv39 user_space (user_machine program stack)) 64 (started pc (user_machine program stack)).1.
Proof.
  split; [vm_compute; reflexivity |]. split; [vm_compute; reflexivity |].
  split; [| repeat split; vm_compute; reflexivity]. split; [split; vm_compute; reflexivity |]. apply as_before_started.
Qed.

Lemma user_uninterrupted program stack n : uninterrupted user_space n (user_machine program stack).
Proof. split; [by apply disabled_undisturbed |]. intros E. vm_compute in E. discriminate E. Qed.

Lemma user_registers program stack r : in_u 64 stack -> in_u 5 r -> extended 64 (reg (user_machine program stack).1 r).
Proof. intros Hs _. apply embed64. exact (ok_regs _ (ok_words _ (user_csr_ok stack Hs)) r). Qed.

#[export] Instance space_ok_dec sp : Decision (space_ok sp).
Proof.
  refine (cast_if_and3
    (decide (map_Forall (fun v q => 0 <= v < 2 ^ 20 /\ (page (q * 4096) ∉ space_tables sp) /\ page (q * 4096) <> mtime_page) (space_pages sp)))
    (decide (map_Forall (fun v q => map_Forall (fun v' q' => page (q * 4096) = page (q' * 4096) -> v = v') (space_pages sp)) (space_pages sp)))
    (decide (mtime_page ∉ space_tables sp))); [by split | by intros []; auto ..].
Defined.

Lemma RunCpu_implements_isa_virtual_witness :
  exists x', RunCpu 101 0x40200000 (user_machine stack_program 0x40201000) = Ok (Some 0, x') /\ reg x'.1 10 = 55 /\ mem_byte x'.2 0x80401FFC = 55.
Proof.
  set (x := user_machine stack_program 0x40201000). set (R := virtual_regime PageTable.sv39 user_space x).
  set (h := hart_of (R := R) 64 0x40200000 x).
  assert (Hv : match isa_run (R := R) 64 100 h with Some h' => Some (IsaMachine.get h' 10, IsaMachine.mem h' 0x40200FFC) | None => None end
    = Some (55, 55)) by (vm_compute; reflexivity).
  destruct (isa_run (R := R) 64 100 h) as [h'|] eqn:E; [| discriminate Hv]. injection Hv as Hv1 Hv2.
  destruct (RunCpu_implements_isa_virtual 64 user_space 100 0x40200000 x h' ltac:(by right) ltac:(decide_it)
    (user_machine_ok stack_program 0x40201000 ltac:(decide_it) ltac:(decide_it)) (user_quiet stack_program 0x40201000 0x40200000)
    ltac:(apply (bool_decide_unpack _); vm_compute; exact Logic.I) (user_uninterrupted stack_program 0x40201000 101)
    (fun r => user_registers stack_program 0x40201000 r ltac:(decide_it)) eq_refl eq_refl E) as (x' & Ex & Hr & Hm & _).
  exists x'. split; [exact Ex |]. split.
  - rewrite (Hr 10 ltac:(decide_it)), Hv1. reflexivity.
  - rewrite <- Hv2. exact (Hm 0x40200FFC eq_refl).
Defined.
