(* ===== verification/KernelEntry.v ===== *)
(** * Programs in virtual memory and the kernel

    A program that runs under Sv32 or Sv39 tables (VirtualMemory.v) enters the kernel
    by an ECALL, by a page fault at a page its tables leave out, of a fetch, a load or a
    store, or when the timer interrupts it ([leaves]).  The turn in which it does is precise: the registers and the program's
    memory are those of the abstract machine before the instruction, the handler is
    that of the level the cause is delegated to, and EPC, CAUSE and TVAL tell where and
    why.  [run_loop] goes on in the handler.  [time_slice] adds the other direction, the
    MRET or SRET by which a kernel resumes the program. *)

From stdpp Require Import gmap.
From S2P Require Import Prelude BitTools Memory Isa Mmu Peripheral Syscall CpuState Alu Csr Trap LoadStore Cpu Invariant Bare Paged Turns Decode Encdec IsaMachine Machine SystemTurns Regime Simulate VirtualMemory.
Import Cpu Isa_spec.

(** The address is in a page the tables leave out. *)
Definition in_hole (sp : space) (va : Z) : bool := bool_decide (va / 4096 ∈ space_holes sp).

Section Departure.
Context (xlen : Z) (sp : space).

(** The cause and the address (as the emulator forms it) of the trap the abstract
    machine is about to meet, in privilege mode [p]; [None]: none of those here. *)
Definition departure (p : PrivilegeMode) (h : IsaMachine.hart) : option (Z * Z) :=
  if in_hole sp (IsaMachine.pc h) then Some (INSTRUCTION_PAGE_FAULT : Z, embed xlen (IsaMachine.pc h))
  else if negb (all_mapped sp (IsaMachine.pc h) 4) then None
  else if IsaMachine.fetch h =? ecall_word then Some (ecall_cause p, 0)
  else match IsaMachine.decode xlen (IsaMachine.fetch h) with
       | None => None
       | Some d =>
           let base := IsaMachine.get h (IsaMachine.rs1 d) in
           let a := uint xlen (base + IsaMachine.imm d) in
           let va := u64 (embed xlen base + IsaMachine.imm d) in
           if in_hole sp a && flows xlen h then
             match IsaMachine.load xlen (IsaMachine.op d), IsaMachine.store (IsaMachine.op d) with
             | Some (n, _), _ => if a mod 8 + Z.of_nat n <=? 8 then Some (LOAD_PAGE_FAULT : Z, va) else None
             | None, Some _ => Some (STORE_PAGE_FAULT : Z, va)
             | None, None => None
             end
           else None
       end.
End Departure.

Section Entry.
Context {M : Type} `{HostOsLaws M} (xlen : Z) (Hxlen : xlen = 32 \/ xlen = 64) (sp : space) (x0 : Cpu.t * M) (Hsp : space_ok sp).
Let fmt := format_for xlen.
#[local] Instance entry_regime : Regime M := virtual_regime fmt sp x0.
#[local] Instance entry_laws : RegimeLaws entry_regime xlen := space_regime_laws xlen Hxlen sp x0 Hsp.
Implicit Types (s : Cpu.t) (m : M) (h : IsaMachine.hart).

(** The level that handles an exception, or an interrupt. *)
Definition level (kind : bool) (cause : Z) : trap_level := target cause kind x0.1.

(** The machine in the handler, the program's state being that of [h]. *)
Record entered (kind : bool) (cause tval : Z) h (x : Cpu.t * M) : Prop := {
  en_priv : privilege_ x.1 = l_priv (level kind cause);
  en_pc : next_pc_ x.1 = handler cause kind (csr x0.1 (l_tvec (level kind cause)));
  en_epc : csr x.1 (l_epc (level kind cause)) = embed xlen (IsaMachine.pc h);
  en_cause : csr x.1 (l_cause (level kind cause)) = cause + (if kind then 2 ^ (xlen - 1) else 0);
  en_tval : csr x.1 (l_tval (level kind cause)) = tval;
  en_regs : forall r, in_u 5 r -> reg x.1 r = embed xlen (IsaMachine.get h r);
  en_running : running x = true;
  en_shows : shows x.2 (IsaMachine.mem h)
}.

Lemma target_before kind cause s : as_before x0.1 s -> target cause kind s = level kind cause.
Proof using. intros [[= _ _ Ep _ _ _ _ Ed] Hc]. unfold level, target, delegated. by rewrite Ep, Ed, !Hc. Qed.

Lemma repeated_before a s : as_before x0.1 s -> repeated a s = repeated a x0.1.
Proof using. intros [[= _ _ _ _ _ E1 E2 _] _]. unfold repeated. by rewrite E1, E2. Qed.

(** What the trap made of the processor [s], seen from the program. *)
Lemma entered_after kind cause a tval h s s' m :
  quiet xlen s -> trap_effect cause kind (s <| faulting_address_ := a |>) s' -> pc_ s = embed xlen (IsaMachine.pc h) ->
  (if negb kind && page_fault_cause cause then a else 0) = tval -> (forall r, in_u 5 r -> reg s r = embed xlen (IsaMachine.get h r)) ->
  switches s' = switches s -> error_flag_ s' = false -> shows m (IsaMachine.mem h) ->
  entered kind cause tval h (s', m).
Proof.
  intros Hq [T1 T2 T3 T4 T5 _ _ T8 _ _] Hpc Htv Hr Hsw Her Hsh. destruct Hq as (Hxl & _ & [_ Hb] & _ & _ & _ & Hend).
  assert (Ht : target cause kind (s <| faulting_address_ := a |>) = level kind cause) by by apply target_before.
  rewrite Ht in *. destruct Hb as [_ Hc].
  split; cbn [fst snd]; [exact T1 | | exact (eq_trans T3 Hpc) | | exact (eq_trans T5 Htv) | | | done].
  - refine (eq_trans T2 _). f_equal. apply Hc.
  - refine (eq_trans T4 _). by rewrite <- Hxl.
  - intros r Hr5. unfold reg. rewrite T8. exact (Hr r Hr5).
  - unfold running. cbn [fst]. injection Hsw as _ _ _ E. by rewrite Her, E, Hend.
Qed.
(** The turn resets x0. *)
Lemma entered_zero kind cause tval h s m : entered kind cause tval h (s, m) -> entered kind cause tval h (put_reg ZERO 0 s, m).
Proof.
  intros []. split; try done. intros r Hr. destruct (b2z_word xlen Hxlen false) as [_ Ez]. change (Z.b2z false) with 0 in Ez.
  cbn [fst]. rewrite reg_put_reg. case_decide as E; [by rewrite <- E | by apply en_regs0].
Qed.

(** The handler is elsewhere: an instruction followed by itself is an error. *)
Definition handler_elsewhere (cause : Z) h : Prop :=
  handler cause kException (csr x0.1 (l_tvec (level kException cause))) <> embed xlen (IsaMachine.pc h).

Lemma call_enters h s m :
  sim xlen h (s, m) -> due_interrupt s m = None -> all_mapped sp (IsaMachine.pc h) 4 = true -> IsaMachine.fetch h = ecall_word -> ecall_emulation_ x0.1 = false ->
  handler_elsewhere (ecall_cause (privilege_ x0.1)) h ->
  exists x', Cpu.step (s, m) = Ok (tt, x') /\ entered kException (ecall_cause (privilege_ x0.1)) 0 h x'.
Proof.
  intros Hs Hdue Ho Hw Hem Hne. pose proof (sim_wf _ _ _ Hs) as [Hmac _]. pose proof (sim_pc _ _ _ Hs) as Hpc. cbn [fst snd] in Hpc.
  destruct (sim_target _ _ _ Hs) as [Heven Hpcw].
  destruct (turn_fetches xlen s m _ (IsaMachine.pc h) (sim_quiet _ _ _ Hs) (mac_cpu _ Hmac) Hdue (sim_shows _ _ _ Hs))
    as (_ & s1 & m1 & _ & E & Hf & Hq & Hok & Hr & Hpc1 & Hir1 & _);
    [by rewrite Hpc, embed_mod_2 | rewrite Hpc; by apply names_word | done | done |].
  pose proof Hq as (_ & _ & [_ Hb] & Q5 & Q6 & Q7 & _). pose proof Hb as [Hk _]. injection Hk as _ _ Epriv _ Eem _ _ _.
  destruct (trapped_run (mmu_ s1) s1 m1 Hok (eq_trans Eem Hem)) as (s2 & Es & Ht & Hsw & Her).
  pose proof Hsw as Hsw'. injection Hsw' as Fh Fd _ _.
  assert (E1 : s1 = s1 <| mmu_ := mmu_ s1 |> <| ir_ := ecall_word |>).
  { change (fetched (IsaMachine.mem h) (IsaMachine.pc h)) with (IsaMachine.fetch h) in Hir1. rewrite <- Hw, <- Hir1. by destruct s1. }
  pose proof (decode_and_execute_system _ _ (mmu_ s1) s1 m1 ecall_is_system) as Ex. rewrite Es in Ex.
  rewrite E, E1, (Ex (eq_trans Fh Q5) (eq_trans Fd Q6)).
  assert (Hn : next_pc_ s2 <> pc_ s1).
  { rewrite Hpc1, Hpc. rewrite (te_pc _ _ _ _ Ht), Epriv.
    assert (Et : target (ecall_cause (privilege_ x0.1)) kException (executing ecall_word (mmu_ s1) s1) = level kException (ecall_cause (privilege_ x0.1)))
      by by apply (target_before _ _ (executing ecall_word (mmu_ s1) s1)).
    rewrite Et. change (csr (executing ecall_word (mmu_ s1) s1)) with (csr s1). rewrite (proj2 Hb). exact Hne. }
  replace (pc_ s1 =? next_pc_ s2) with false by (symmetry; apply Z.eqb_neq; congruence).
  eexists. split; [done |]. rewrite Epriv in Ht.
  apply entered_zero, (entered_after _ _ (faulting_address_ s1) _ h s1); [done | by destruct Ht | by rewrite Hpc1 | by destruct (privilege_ x0.1) | | exact Hsw
    | by rewrite Her | done].
  intros r Hr5. unfold reg. rewrite Hr. by apply Hs.
Qed.
(** An instruction whose access faults at [va]. *)
Lemma fault_enters o h s m d s1 m1 cause va s3 m3 :
  Cpu.step (s, m) = decode_and_execute (s1, m1) -> agrees xlen (IsaMachine.following xlen h) o h (prepared s1) m1 ->
  IsaMachine.decode xlen (ir_ s1) = Some d -> Cpu.execute (IsaMachine.op d) (s16 (GetCsr (ir_ s1))) (IsaMachine.rd d) (IsaMachine.rs1 d) (IsaMachine.rs2 d) (IsaMachine.imm d) (prepared s1, m1) = Ok (tt, (s3, m3)) ->
  faults cause va (prepared s1) s3 -> page_fault_cause cause = true -> repeated va x0.1 = false -> handler_elsewhere cause h ->
  shows m3 (IsaMachine.mem h) -> exists x', Cpu.step (s, m) = Ok (tt, x') /\ entered kException cause va h x'.
Proof.
  intros E Ha Hd Erun (_ & Ht & _ & Hsw & Her) Hc Hrep Hne Hsh. pose proof (ag_quiet _ _ _ _ _ _ Ha) as Hq.
  pose proof Hq as (_ & Hmxl & [_ Hb] & Q5 & Q6 & Q7 & _). pose proof (ag_pc _ _ _ _ _ _ Ha) as Hpc.
  pose proof Hsw as Hsw'. injection Hsw' as Fh Fd _ _.
  assert (Hn : next_pc_ s3 <> pc_ s1).
  { pose proof (te_pc _ _ _ _ Ht) as Tp.
    assert (Et : target cause kException ((prepared s1) <| faulting_address_ := va |>) = level kException cause) by by apply target_before.
    rewrite Et in Tp. change (pc_ s1) with (pc_ (prepared s1)). rewrite Tp, Hpc.
    change (csr ((prepared s1) <| faulting_address_ := va |>)) with (csr (prepared s1)). rewrite (proj2 Hb). exact Hne. }
  exists (put_reg ZERO 0 s3, m3). split.
  - rewrite E. apply (decode_and_execute_run xlen Hxlen s1 m1 d s3 m3 Hd Hmxl Erun Hn); [by rewrite Fh | by rewrite Fd].
  - apply entered_zero, (entered_after kException cause va va h (prepared s1)); [done | done | done | by rewrite Hc | apply Ha | done | | done].
    rewrite Her, (repeated_before va _ Hb), Hrep, Q7. done.
Qed.

(** The emulator's address, and the abstract machine's, of an operand. *)
Lemma operand_names h s m next o d :
  agrees xlen next o h s m -> operands_ok xlen d ->
  let base := IsaMachine.get h (IsaMachine.rs1 d) in
  reg s (IsaMachine.rs1 d) = embed xlen base /\
  eqm (va_bits fmt) (u64 (embed xlen base + IsaMachine.imm d)) (uint xlen (base + IsaMachine.imm d)).
Proof.
  intros Ha Hok base. split; [apply (ag_regs _ _ _ _ _ _ Ha), Hok |].
  apply (names_sum (R := entry_regime)). apply (ag_word _ _ _ _ _ _ Ha), Hok.
Qed.

Lemma in_hole_spec va : in_hole sp va = true -> va / 4096 ∈ space_holes sp.
Proof using. apply bool_decide_eq_true. Qed.

Lemma load_enters h s m d n fill :
  sim xlen h (s, m) -> due_interrupt s m = None -> all_mapped sp (IsaMachine.pc h) 4 = true ->
  IsaMachine.decode xlen (IsaMachine.fetch h) = Some d ->
  flows xlen h = true -> IsaMachine.load xlen (IsaMachine.op d) = Some (n, fill) ->
  let base := IsaMachine.get h (IsaMachine.rs1 d) in
  let a := uint xlen (base + IsaMachine.imm d) in let va := u64 (embed xlen base + IsaMachine.imm d) in
  in_hole sp a = true -> a mod 8 + Z.of_nat n <= 8 -> repeated va x0.1 = false -> handler_elsewhere LOAD_PAGE_FAULT h ->
  exists x', Cpu.step (s, m) = Ok (tt, x') /\ entered kException LOAD_PAGE_FAULT va h x'.
Proof.
  intros Hs Hdue Ho Hd Hflow Hl base a va Hhole%in_hole_spec H8 Hrep Hne.
  destruct (turn_starts xlen Hxlen h s m d Hs Hdue Ho Hd Hflow) as (o & s1 & m1 & _ & E & Ha & _ & _ & Hdec).
  destruct (operand_names h _ _ _ o d Ha (decode_operands xlen Hxlen _ _ Hd)) as [Hreg Hn]. fold base a va in Hreg, Hn.
  destruct (shows_presents xlen sp x0 m1 _ (ag_shows _ _ _ _ _ _ Ha)) as [Hm1 Hpr].
  pose proof (ag_quiet _ _ _ _ _ _ Ha) as (_ & _ & [Hpg _] & _). destruct (load_table xlen _ _ _ Hl) as [Hw Hex].
  destruct (load_paged fmt (space_root sp) (space_mode sp) (IsaMachine.op d) (IsaMachine.rd d) (IsaMachine.rs1 d) (IsaMachine.imm d) _
    (prepared s1) m1 (ag_cpu _ _ _ _ _ _ Ha) Hm1 Hpg (ag_time _ _ _ _ _ _ Ha) Hw) as (s3 & m3 & Erun & Hm3 & Hr).
  { rewrite Hreg. fold va. rewrite (names_mod8 xlen Hxlen va a Hn). exact H8. }
  rewrite Hreg in Hr. fold va in Hr. pose proof (presents_refresh fmt sp (mem_byte x0.2) Hsp _ (Peripheral.elapsed_cycles_ (peripheral_ (prepared s1))) _ Hpr) as Hpr'.
  unfold Access.load in Hr. rewrite (presents_hole fmt sp _ (format_cases xlen Hxlen) _ _ false va a Hpr' Hhole Hn) in Hr.
  destruct Hr as [Hb Hf]. apply (fault_enters o h s m d s1 m1 _ va s3 m3); try done.
  - by rewrite Hex.
  - by apply (presents_shows xlen sp x0 m3 _ _ Hm3 Hb).
Qed.

Lemma store_enters h s m d n :
  sim xlen h (s, m) -> due_interrupt s m = None -> all_mapped sp (IsaMachine.pc h) 4 = true ->
  IsaMachine.decode xlen (IsaMachine.fetch h) = Some d ->
  flows xlen h = true -> IsaMachine.store (IsaMachine.op d) = Some n ->
  let base := IsaMachine.get h (IsaMachine.rs1 d) in
  let a := uint xlen (base + IsaMachine.imm d) in let va := u64 (embed xlen base + IsaMachine.imm d) in
  in_hole sp a = true -> repeated va x0.1 = false -> handler_elsewhere STORE_PAGE_FAULT h ->
  exists x', Cpu.step (s, m) = Ok (tt, x') /\ entered kException STORE_PAGE_FAULT va h x'.
Proof.
  intros Hs Hdue Ho Hd Hflow Hst base a va Hhole%in_hole_spec Hrep Hne. pose proof (decode_operands xlen Hxlen _ _ Hd) as Hok.
  destruct (turn_starts xlen Hxlen h s m d Hs Hdue Ho Hd Hflow) as (o & s1 & m1 & _ & E & Ha & _ & _ & Hdec).
  destruct (operand_names h _ _ _ o d Ha Hok) as [Hreg Hn]. fold base a va in Hreg, Hn.
  destruct (shows_presents xlen sp x0 m1 _ (ag_shows _ _ _ _ _ _ Ha)) as [Hm1 Hpr].
  pose proof (ag_quiet _ _ _ _ _ _ Ha) as (_ & _ & [Hpg _] & _).
  destruct (store_table xlen Hxlen d n (op_legal _ _ Hok) Hst) as (Hw & _ & Hex).
  assert (Hv : in_u 64 (reg (prepared s1) (IsaMachine.rs2 d))).
  { rewrite (ag_regs _ _ _ _ _ _ Ha) by apply Hok. apply embed_range. }
  destruct (store_paged fmt (space_root sp) (space_mode sp) (IsaMachine.op d) (IsaMachine.rd d) (IsaMachine.rs1 d) (IsaMachine.rs2 d)
    (IsaMachine.imm d) _ (prepared s1) m1 (ag_cpu _ _ _ _ _ _ Ha) Hm1 Hpg Hv Hw) as (s3 & m3 & Erun & Hm3 & Hb & Hr).
  rewrite Hreg in Hb, Hr. fold va in Hb, Hr. unfold Access.store in Hb, Hr.
  rewrite (presents_hole fmt sp _ (format_cases xlen Hxlen) _ _ true va a Hpr Hhole Hn) in Hb, Hr.
  apply (fault_enters o h s m d s1 m1 _ va s3 m3); try done.
  - by rewrite Hex.
  - by apply (presents_shows xlen sp x0 m3 _ _ Hm3 Hb).
Qed.
Lemma fetch_enters h s m :
  sim xlen h (s, m) -> due_interrupt s m = None -> in_hole sp (IsaMachine.pc h) = true -> repeated (embed xlen (IsaMachine.pc h)) x0.1 = false ->
  exists x', Cpu.step (s, m) = Ok (tt, x') /\ entered kException INSTRUCTION_PAGE_FAULT (embed xlen (IsaMachine.pc h)) h x'.
Proof.
  intros Hs Hdue Hhole%in_hole_spec Hrep. pose proof (sim_wf _ _ _ Hs) as [Hmac _]. pose proof (sim_quiet _ _ _ Hs) as Hq.
  destruct (shows_presents xlen sp x0 m _ (sim_shows _ _ _ Hs)) as [Hm Hpr]. destruct (sim_target _ _ _ Hs) as [Heven Hpcw].
  destruct (step_uninterrupted s m (mac_cpu _ Hmac) Hm Hdue) as (o & Ho & E).
  pose proof (quiet_observed xlen s m o Ho Hq) as Hqo. pose proof Hqo as (_ & _ & [Hpg Hb] & _ & _ & Q7 & _).
  assert (Hpc : pc_ o = embed xlen (IsaMachine.pc h)) by (rewrite (ob_pc _ _ _ Ho); apply Hs).
  pose proof (fetch_turn fmt (space_root sp) (space_mode sp) o m (ob_ok _ _ _ Ho) Hm Hpg) as Hf.
  rewrite Hpc in Hf. specialize (Hf ltac:(by rewrite embed_mod_2)). unfold Access.fetch in Hf.
  rewrite (presents_hole fmt sp _ (format_cases xlen Hxlen) _ _ false _ _ Hpr Hhole (names_word (R := entry_regime) _ Hpcw)) in Hf.
  destruct Hf as (m' & Hm' & Hb' & s' & Es & _ & Ht & _ & Hsw & Her). exists (s', m'). rewrite E. split; [done |].
  apply (entered_after _ _ (embed xlen (IsaMachine.pc h)) _ h o); [done | done | done | done | | done | |].
  - intros r Hr. rewrite <- (sim_regs _ _ _ Hs r Hr). pose proof (ob_kept _ _ _ Ho) as Hk.
    injection Hk as _ _ Ereg _ _ _ _ _ _ _ _ _ _ _ _ _ _ _ _ _ _. unfold reg. by rewrite Ereg.
  - by rewrite Her, (repeated_before _ _ Hb), Hrep, Q7.
  - by apply (presents_shows xlen sp x0 m' _ _ Hm' Hb').
Qed.

(** The turn of a departure, whatever its cause. *)
Lemma departure_enters h s m cause tval :
  sim xlen h (s, m) -> due_interrupt s m = None -> ecall_emulation_ x0.1 = false -> departure xlen sp (privilege_ x0.1) h = Some (cause, tval) ->
  page_fault_cause cause && repeated tval x0.1 = false -> handler_elsewhere cause h ->
  exists x', Cpu.step (s, m) = Ok (tt, x') /\ entered kException cause tval h x'.
Proof.
  intros Hs Hdue Hem. unfold departure. destruct (in_hole sp (IsaMachine.pc h)) eqn:Hh.
  { intros [= <- <-] Hrep _. by apply fetch_enters. }
  destruct (all_mapped sp (IsaMachine.pc h) 4) eqn:Ho; cbn [negb]; [| done].
  destruct (Z.eqb_spec (IsaMachine.fetch h) ecall_word) as [Hw | _].
  { intros [= <- <-] _ Hne. by apply call_enters. }
  destruct (IsaMachine.decode xlen _) as [d|] eqn:Hd; [| done]. cbv zeta.
  destruct (in_hole sp (uint xlen _)) eqn:Hhole; [| done]. destruct (flows xlen h) eqn:Hflow; cbn [andb]; [| done].
  destruct (IsaMachine.load xlen _) as [[n fill]|] eqn:Hl.
  - destruct (Z.leb_spec (uint xlen (IsaMachine.get h (IsaMachine.rs1 d) + IsaMachine.imm d) mod 8 + Z.of_nat n) 8) as [H8 |]; [| done].
    intros [= <- <-] Hrep Hne. by apply (load_enters h s m d n fill).
  - destruct (IsaMachine.store _) as [n|] eqn:Hst; [| done]. intros [= <- <-] Hrep Hne. by apply (store_enters h s m d n).
Qed.
(** The turn in which the timer interrupts. *)
Lemma timer_enters h s m :
  sim xlen h (s, m) -> timer_in sp 0 (s, m) -> privilege_ x0.1 <> MACHINE_MODE ->
  exists x', Cpu.step (s, m) = Ok (tt, x') /\ entered true MACHINE_TIMER_INTERRUPT 0 h x'.
Proof.
  intros Hs [Ht _] Hp. pose proof (sim_wf _ _ _ Hs) as [Hmac _]. pose proof (sim_quiet _ _ _ Hs) as Hq.
  pose proof Hq as (_ & _ & [_ [Hk _]] & _). injection Hk as _ _ Ep _ _ _ _ _.
  assert (He : enabled_at machine_level s = true) by (unfold enabled_at; cbn; rewrite Ep; by destruct (privilege_ x0.1)).
  destruct (step_interrupted s m 7 (mac_cpu _ Hmac) (mac_mem _ Hmac) (timer_after_due (s, m) Ht He) eq_refl)
    as (o & s' & Ho & E & Hte & Hsw & Her).
  pose proof (quiet_observed xlen s m o Ho Hq) as Hqo. exists (s', m). split; [done |].
  apply (entered_after true 7 (faulting_address_ o) 0 h o); [done | by destruct Hte | | done | | done | | apply Hs].
  - rewrite (ob_pc _ _ _ Ho). apply Hs.
  - intros r Hr. rewrite <- (sim_regs _ _ _ Hs r Hr). pose proof (ob_kept _ _ _ Ho) as Hko.
    injection Hko as _ _ Ereg _ _ _ _ _ _ _ _ _ _ _ _ _ _ _ _ _ _. unfold reg. by rewrite Ereg.
  - rewrite Her. apply Hqo.
Qed.

(** How the program leaves when the abstract machine has come to [h] and [n] turns have
    passed since the state [x0]: of its own, if nothing has interrupted it, or by the
    timer. *)
Inductive leaves (n : nat) h : bool -> Z -> Z -> Prop :=
| leaves_departing cause tval :
    uninterrupted sp (S n) x0 -> ecall_emulation_ x0.1 = false -> departure xlen sp (privilege_ x0.1) h = Some (cause, tval) ->
    page_fault_cause cause && repeated tval x0.1 = false -> handler_elsewhere cause h -> leaves n h kException cause tval
| leaves_interrupted :
    timer_in sp n x0 -> privilege_ x0.1 <> MACHINE_MODE -> leaves n h true MACHINE_TIMER_INTERRUPT 0.

Lemma run_enters n h0 x h kind cause tval :
  sim xlen h0 x -> same_alarms x0 x -> isa_steps xlen n h0 = Some h -> leaves n h kind cause tval ->
  exists x', (forall fuel, run_loop (n + S fuel) x = run_loop fuel x') /\ entered kind cause tval h x'.
Proof.
  intros Hs Hal E Hl. destruct Hl as [cause tval Hun%(uninterrupted_same _ _ _ _ Hal) Hem Hd Hrep Hne | Ht%(timer_in_same _ _ _ _ Hal) Hp].
  - rewrite <- Nat.add_1_r in Hun. destruct (isa_steps_simulate xlen Hxlen _ n 1 h0 x h (uninterrupted_patient xlen sp x0) Hs Hun E) as ([s1 m1] & Er & Hs1 & Hun1).
    pose proof (pa_due _ _ (uninterrupted_patient xlen sp x0) _ _ _ Hs1 Hun1) as Hdue.
    destruct (departure_enters h s1 m1 cause tval Hs1 Hdue Hem Hd Hrep Hne) as (x' & Ex & Hen). exists x'. split; [| done].
    intros fuel. by rewrite Er, run_loop_S, Ex, (en_running _ _ _ _ _ Hen).
  - rewrite <- (Nat.add_0_r n) in Ht. destruct (isa_steps_simulate xlen Hxlen _ n 0 h0 x h (timer_patient xlen sp x0) Hs Ht E) as ([s1 m1] & Er & Hs1 & Ht1).
    destruct (timer_enters h s1 m1 Hs1 Ht1 Hp) as (x' & Ex & Hen). exists x'. split; [| done].
    intros fuel. by rewrite Er, run_loop_S, Ex, (en_running _ _ _ _ _ Hen).
Qed.
End Entry.

(* ------------------------------------------------------------------ *)
(** ** A time slice *)

(** A kernel about to return: the given width, nothing emulated, running. *)
Definition resting (xlen : Z) (s : Cpu.t) : Prop :=
  xlen_ s = xlen /\ mxl_ s = IsaMachine.mxl xlen /\ page_fault_ s = false /\ error_flag_ s = false /\
  switches s = (false, false, false, false).

(** The hart the program with page map [sp] resumes on, from the kernel's machine and
    the memory [f] it leaves. *)
Definition resumed_hart (xlen : Z) (sp : space) (epc : Z) (s : Cpu.t) (f : ByteMem.t) : IsaMachine.hart :=
  IsaMachine.Hart (uint xlen epc) (fun r => uint xlen (reg s r)) (fun va => f (frame sp va)).

Section Slice.
Context {M : Type} `{HostOsLaws M} (xlen : Z) (Hxlen : xlen = 32 \/ xlen = 64) (sp : space) (Hsp : space_ok sp).
Let fmt := format_for xlen.

(** The state after the return is one of the program's. *)
Lemma resumes l p (x x1 : Cpu.t * M) f :
  well_formed x1 -> resting xlen x.1 -> returned l p x.1 x1.1 -> (forall b, mem_byte x1.2 b = f b) ->
  p <> MACHINE_MODE -> regime_of (mmu_for p x.1) (csr x.1 SATP) = Paged fmt (space_root sp) -> space_mode sp = p -> tables_map fmt sp f ->
  let epc := csr x.1 (l_epc l) in
  (forall r, in_u 5 r -> extended xlen (reg x.1 r)) -> extended xlen epc -> epc mod 2 = 0 ->
  sim (R := virtual_regime fmt sp x1) xlen (resumed_hart xlen sp epc x.1 f) x1.
Proof.
  intros Hw (Hx & Hmx & Hpf & Her & Hsw) [R1 R2 R3 R4 R5 _] Hb Hp Hreg Hmode Ht epc Hr Hepc He.
  injection R4 as E1 E2 E3 E4 E5 E6 E7 E8 E9 _ _ _. injection Hsw as S1 S2 S3 S4.
  pose proof (space_regime_laws (M := M) xlen Hxlen sp x1 Hsp) as HL. fold fmt in HL. change (RegimeLaws (virtual_regime fmt sp x1) xlen) in HL.
  assert (Hsatp : csr x1.1 SATP = csr x.1 SATP) by (apply R5; unfold status_csr; intros [E | [E | E]]; vm_compute in E; discriminate E).
  assert (Hpg : paging fmt (space_root sp) (space_mode sp) x1.1).
  { split; [| | by rewrite E4].
    - unfold effective_privilege. by rewrite R1, bool_decide_false, Hmode.
    - rewrite Hmode, Hsatp, <- Hreg. unfold regime_of, mmu_for. cbn. by rewrite E2. }
  apply (extended_word xlen Hxlen) in Hepc as [Hepc _].
  destruct (b2z_word xlen Hxlen false) as [Hzw Ez]. change (Z.b2z false) with 0 in Hzw, Ez.
  split; [done | | by rewrite R2 | split; [exact (eq_trans (uint_even xlen Hxlen epc) He) | exact (uint_word xlen Hxlen epc)] | | |].
  - assert (Hmd : mode (Regime := virtual_regime fmt sp x1) x1.1) by by split; [| split].
    unfold quiet. rewrite E1, E2, E5, E6, E7, E9. by repeat (split; [done |]).
  - intros r Hr5. rewrite R3. unfold IsaMachine.get, resumed_hart. cbn [IsaMachine.regs].
    case_decide as Hd; [rewrite <- Hd; exact (eq_sym Ez) |]. destruct (Z.eqb_spec r 0) as [-> | _]; [by destruct Hd |].
    by apply (extended_word xlen Hxlen), Hr.
  - intros r Hr5. unfold IsaMachine.get, resumed_hart. cbn [IsaMachine.regs]. destruct (r =? 0); [exact Hzw | exact (uint_word xlen Hxlen _)].
  - split; [apply Hw | | by intros va _; apply Hb]. split; [| done]. apply (tables_alike fmt sp f); [| done]. by apply ext_alike.
Qed.
(** How the slice will end is known before the return, which takes a turn of its own. *)
Lemma leaves_returned l p n s (m : M) (x1 : Cpu.t * M) h kind cause tval :
  returned l p s x1.1 -> passes (s, m) x1 -> (Z.testbit (mie_ s) 7 = true -> cmp_of x1.2 = cmp_of m) ->
  leaves xlen sp (s <| privilege_ := p |>, m) (S n) h kind cause tval -> leaves xlen sp x1 n h kind cause tval.
Proof using.
  intros [R1 _ _ R4 R5 _] Hpass Hcmp Hl. set (y := (s <| privilege_ := p |>, m)) in Hl. injection R4 as _ _ Emie _ _ _ _ Eem _ Ep1 Ep2 _.
  assert (Hcsr : forall c : CsrsAddresses, bool_decide (status_csr c) = false -> csr x1.1 c = csr s c)
    by (intros c Hc; by apply R5, (bool_decide_eq_false _)).
  assert (Hy : same_alarms y (s, m)) by done.
  destruct Hl as [cause tval Hun%(uninterrupted_same _ _ _ _ Hy) Hem Hd Hrep Hne | Ht%(timer_in_same _ _ _ _ Hy) Hp].
  - destruct Hun as [Hun Hf]. apply leaves_departing; [| by rewrite Eem | by rewrite R1 | unfold repeated in *; by rewrite Ep1, Ep2 |].
    + split; [by apply (undisturbed_passes _ (s, m)) |]. by rewrite Emie.
    + assert (El : level x1 kException cause = level y kException cause).
      { unfold level, target, delegated, kException. subst y. cbn [fst]. by rewrite R1, (Hcsr MEDELEG) by (vm_compute; reflexivity). }
      unfold handler_elsewhere in *. rewrite El.
      assert (Ht : csr x1.1 (l_tvec (level y kException cause)) = csr y.1 (l_tvec (level y kException cause))).
      { apply Hcsr. unfold level, target. destruct (delegated _ _ _); vm_compute; reflexivity. }
      by rewrite Ht.
  - destruct Ht as [Ht Hf]. apply leaves_interrupted; [| by rewrite R1]. split; [| done].
    apply (timer_after_passes _ (s, m)); [done | | done]. by apply Hcmp, Ht.
Qed.

Lemma leaves_due p n s (m : M) h kind cause tval :
  leaves xlen sp (s <| privilege_ := p |>, m) (S n) h kind cause tval -> due_interrupt s m = None.
Proof using.
  intros [cause' tval' [Hun _] _ _ _ _ | [Ht _] _]; [apply (undisturbed_due (S n) (s, m)) | apply (timer_after_waits n (s, m))];
    [by apply (undisturbed_same _ (s <| privilege_ := p |>, m)) | by apply (timer_after_same _ (s <| privilege_ := p |>, m))].
Qed.
End Slice.

(* ------------------------------------------------------------------ *)
(** ** Properties *)

(** C4: a program in virtual memory enters the kernel precisely.  When the abstract run
    of a program under Sv32 or Sv39 tables comes, after [n] instructions, to an ECALL
    or to a fetch, load or store in a page that is not mapped ([departure]) before an
    interrupt is due, or when the timer reaches its comparator in the turn after those
    [n] instructions, the emulator's run reaches the handler of the level that cause is
    delegated to, with the privilege of that level, EPC at the instruction, the cause
    (an interrupt with the top bit set) in CAUSE and the address in TVAL; registers and the program's memory are those of the abstract
    machine before the instruction, nothing outside the program's frames, the tables
    and MTIME has changed, and the loop goes on from there. *)
Theorem program_enters_kernel {M} `{HostOsLaws M} (xlen : Z) (sp : space) (n : nat) (pc : Z) (x : Cpu.t * M)
    (h : IsaMachine.hart) (kind : bool) (cause tval : Z) :
  let fmt := format_for xlen in let R := virtual_regime fmt sp x in
  xlen = 32 \/ xlen = 64 -> space_ok sp -> well_formed x -> quiet (R := R) xlen (started pc x).1 -> tables_map fmt sp (mem_byte x.2) ->
  (forall r, in_u 5 r -> extended xlen (reg x.1 r)) -> extended xlen pc -> pc mod 2 = 0 ->
  isa_steps (R := R) xlen n (hart_of (R := R) xlen pc x) = Some h -> leaves xlen sp x n h kind cause tval ->
  exists x', (forall fuel, RunCpu (n + S fuel) pc x = run_loop fuel x') /\ entered xlen sp x kind cause tval h x' /\
    (forall va, mapped sp va = true -> mem_byte x'.2 (frame sp va) = IsaMachine.mem h va) /\
    forall b, foreign sp b -> mem_byte x'.2 b = mem_byte x.2 b.
Proof.
  intros fmt R Hx Hsp Hw Hq Ht Hr Hpc He E Hl.
  pose proof (space_regime_laws (M := M) xlen Hx sp x Hsp) as HL. fold fmt in HL. change (RegimeLaws R xlen) in HL.
  destruct (run_enters xlen Hx sp x Hsp n (hart_of xlen pc x) (started pc x) h kind cause tval) as (x' & Er & Hen); try done.
  { apply (sim_started (R := R) xlen Hx pc x Hw (conj Ht (fun b _ => eq_refl)) Hq Hr Hpc He). }
  exists x'. split; [intros fuel; by rewrite RunCpu_started, Er |]. split; [done |].
  destruct (en_shows _ _ _ _ _ _ _ _ Hen) as [_ [_ Hf] Hb]. by split.
Qed.

(** *** Witness: the sum stored on the stack, then an ECALL

    With the stack in the mapped pages the program gets to its ECALL; with the stack in
    a page that is not mapped, to the fault of its store; and with a timer that is to
    fire at cycle 20, to the interrupt after 19 instructions. *)
Definition call_program : list Z := [0x45814529; 0x157D95AA; 0x852EFD75; 0xFEA13E23; 0x73].

Definition timed_words (cmp : Z) : list (width * Z * Z) := user_words call_program ++ [(W64, Peripheral.kTimerCmp, cmp)].

Definition timed_machine (cmp : Z) : Cpu.t * MemoryWrapper.t :=
  (put_reg 2 0x40201000 ((ApplyInterruptEnable ((put_csr SATP sample_satp (RiscvCpu 0 true)) <| mie_ := 0x80 |>)) <| privilege_ := USER_MODE |>),
   match write_all MemoryWrapper.MemoryWrapper (timed_words cmp) with Ok m => m | Err _ => MemoryWrapper.MemoryWrapper end).

Lemma timed_csr_ok cmp : csr_ok (timed_machine cmp).1.
Proof.
  apply csr_ok_put_reg; [| decide_it]. apply csr_ok_privilege.
  assert (Hc : csr_ok (put_csr SATP sample_satp (RiscvCpu 0 true)))
    by (apply csr_ok_put_csr; [apply RiscvCpu_csr_ok | decide_it | |]; intros [E | [E | E]]; vm_compute in E; discriminate E).
  revert Hc. generalize (put_csr SATP sample_satp (RiscvCpu 0 true)). intros c [W S _].
  exact (ApplyInterruptEnable_ok _ (words_mie _ 0x80 W ltac:(decide_it)) S).
Qed.

Lemma timed_machine_ok cmp : Forall fits (timed_words cmp) -> well_formed (timed_machine cmp).
Proof.
  intros Hl. split; [| by vm_compute]. split; cbn [fst snd]; [| decide_it | | decide_it |].
  - split; [exact (timed_csr_ok cmp) | decide_it ..].
  - split; [decide_it .. |]. intros d Hd. vm_compute in Hd. discriminate Hd.
  - unfold timed_machine. cbn [snd]. destruct (write_all _ _) as [m|] eqn:E; [| exact MemoryWrapper_init_ok].
    exact (write_all_ok (M := MemoryWrapper.t) _ m _ MemoryWrapper_init_ok Hl E).
Qed.

Lemma timed_quiet cmp pc : quiet (R := virtual_regime PageTable.sv39 user_space (timed_machine cmp)) 64 (started pc (timed_machine cmp)).1.
Proof.
  split; [vm_compute; reflexivity |]. split; [vm_compute; reflexivity |].
  split; [| repeat split; vm_compute; reflexivity]. split; [split; vm_compute; reflexivity |]. apply as_before_started.
Qed.

#[export] Instance foreign_dec sp b : Decision (foreign sp b).
Proof. unfold foreign. apply _. Defined.

Lemma program_enters_kernel_witness :
  (exists x', RunCpu 35 0x40200000 (user_machine call_program 0x40201000) = Ok (None, x') /\ privilege_ x'.1 = MACHINE_MODE /\
     csr x'.1 MCAUSE = 8 /\ csr x'.1 MEPC = 0x40200010 /\ reg x'.1 10 = 55 /\ mem_byte x'.2 0x80401FFC = 55) /\
  (exists x', RunCpu 34 0x40200000 (user_machine call_program 0x40203000) = Ok (None, x') /\ privilege_ x'.1 = MACHINE_MODE /\
     csr x'.1 MCAUSE = 15 /\ csr x'.1 MEPC = 0x4020000C /\ csr x'.1 MTVAL = 0x40202FFC) /\
  (exists x', RunCpu 20 0x40200000 (timed_machine 20) = Ok (None, x') /\ privilege_ x'.1 = MACHINE_MODE /\
     csr x'.1 MCAUSE = 2 ^ 63 + 7 /\ csr x'.1 MEPC = 0x40200008 /\ reg x'.1 10 = 4 /\ reg x'.1 11 = 45).
Proof.
  assert (Hf : Forall fits (user_words call_program)) by decide_it.
  split; [| split].
  - set (x := user_machine call_program 0x40201000). set (R := virtual_regime (format_for 64) user_space x).
    assert (Hv : match isa_steps (R := R) 64 34 (hart_of (R := R) 64 0x40200000 x) with
      | Some h => (departure 64 user_space (privilege_ x.1) h, IsaMachine.pc h, IsaMachine.get h 10, IsaMachine.mem h 0x40200FFC)
      | None => (None, 0, 0, 0) end = (Some (8, 0), 0x40200010, 55, 55)) by (vm_compute; reflexivity).
    destruct (isa_steps _ _ _) as [h|] eqn:E in Hv; [| discriminate Hv]. injection Hv as Hd Hpc H10 Hb.
    destruct (program_enters_kernel 64 user_space 34 0x40200000 x h kException 8 0 ltac:(by right) ltac:(decide_it)
      (user_machine_ok call_program 0x40201000 Hf ltac:(decide_it)) (user_quiet call_program 0x40201000 0x40200000) ltac:(decide_it)
      (fun r => user_registers call_program 0x40201000 r ltac:(decide_it)) eq_refl eq_refl E) as (x' & Er & Hen & Hm & _).
    { apply leaves_departing; [exact (user_uninterrupted call_program 0x40201000 35) | vm_compute; reflexivity | exact Hd | vm_compute; reflexivity |].
      unfold handler_elsewhere. rewrite Hpc. vm_compute. discriminate. }
    exists x'. split; [exact (Er 0%nat) |]. destruct Hen as [H1 _ H3 H4 _ H6 _ _].
    split; [exact H1 |]. split; [exact H4 |]. split; [refine (eq_trans H3 _); by rewrite Hpc |].
    split; [refine (eq_trans (H6 10 ltac:(decide_it)) _); by rewrite H10 |]. rewrite <- Hb. exact (Hm 0x40200FFC eq_refl).
  - set (x := user_machine call_program 0x40203000). set (R := virtual_regime (format_for 64) user_space x).
    assert (Hv : match isa_steps (R := R) 64 33 (hart_of (R := R) 64 0x40200000 x) with
      | Some h => (departure 64 user_space (privilege_ x.1) h, IsaMachine.pc h)
      | None => (None, 0) end = (Some (15, 0x40202FFC), 0x4020000C)) by (vm_compute; reflexivity).
    destruct (isa_steps _ _ _) as [h|] eqn:E in Hv; [| discriminate Hv]. injection Hv as Hd Hpc.
    destruct (program_enters_kernel 64 user_space 33 0x40200000 x h kException 15 0x40202FFC ltac:(by right) ltac:(decide_it)
      (user_machine_ok call_program 0x40203000 Hf ltac:(decide_it)) (user_quiet call_program 0x40203000 0x40200000) ltac:(decide_it)
      (fun r => user_registers call_program 0x40203000 r ltac:(decide_it)) eq_refl eq_refl E)
      as (x' & Er & Hen & _).
    { apply leaves_departing; [exact (user_uninterrupted call_program 0x40203000 34) | vm_compute; reflexivity | exact Hd | vm_compute; reflexivity |].
      unfold handler_elsewhere. rewrite Hpc. vm_compute. discriminate. }
    exists x'. split; [exact (Er 0%nat) |]. destruct Hen as [H1 _ H3 H4 H5 _ _ _].
    split; [exact H1 |]. split; [exact H4 |]. split; [refine (eq_trans H3 _); by rewrite Hpc | exact H5].
  - set (x := timed_machine 20). set (R := virtual_regime (format_for 64) user_space x).
    assert (Hv : match isa_steps (R := R) 64 19 (hart_of (R := R) 64 0x40200000 x) with
      | Some h => (IsaMachine.pc h, IsaMachine.get h 10, IsaMachine.get h 11)
      | None => (0, 0, 0) end = (0x40200008, 4, 45)) by (vm_compute; reflexivity).
    destruct (isa_steps _ _ _) as [h|] eqn:E in Hv; [| discriminate Hv]. injection Hv as Hpc H10 H11.
    destruct (program_enters_kernel 64 user_space 19 0x40200000 x h true 7 0 ltac:(by right) ltac:(decide_it)
      (timed_machine_ok 20 ltac:(decide_it)) (timed_quiet 20 0x40200000) ltac:(decide_it)
      (fun r _ => embed64 _ (ok_regs _ (ok_words _ (timed_csr_ok 20)) r)) eq_refl eq_refl E) as (x' & Er & Hen & _).
    { apply leaves_interrupted; [| discriminate]. split; [| decide_it]. split; [vm_compute; reflexivity |].
      split; [vm_compute; reflexivity |].
      split; [split; [left | | vm_compute; discriminate]; vm_compute; reflexivity | split; vm_compute; reflexivity]. }
    exists x'. split; [exact (Er 0%nat) |]. destruct Hen as [H1 _ H3 H4 _ H6 _ _].
    split; [exact H1 |]. split; [exact H4 |]. split; [refine (eq_trans H3 _); by rewrite Hpc |].
    split; [refine (eq_trans (H6 10 ltac:(decide_it)) _); by rewrite H10 | refine (eq_trans (H6 11 ltac:(decide_it)) _); by rewrite H11].
Defined.

(** C5: a time slice.  A kernel that executes MRET or SRET, untranslated or through page
    tables, into a user or supervisor program in virtual memory resumes it at EPC with
    the registers of the kernel's machine; the program runs as the abstract machine
    does until, after [n] instructions, it comes to an ECALL or a page fault, or the
    timer interrupts it; and the processor is back in a handler, as
    [program_enters_kernel] describes it, 1 + n + 1 turns after the return.  Between
    the two nothing outside the program's frames, its tables and MTIME has changed. *)
Theorem time_slice {M} `{HostOsLaws M} (xlen : Z) (sp : space) (l : trap_level) (p : PrivilegeMode) (n : nat) (x : Cpu.t * M)
    (f : ByteMem.t) (h : IsaMachine.hart) (kind : bool) (cause tval : Z) :
  let fmt := format_for xlen in let R := virtual_regime fmt sp x in let epc := csr x.1 (l_epc l) in
  xlen = 32 \/ xlen = 64 -> space_ok sp -> well_formed x -> resting xlen x.1 ->
  is_level l -> next_pc_ x.1 mod 2 = 0 -> fetches x.1 x.2 (return_word l) f ->
  (Z.testbit (mie_ x.1) 7 = true -> ByteMem.load 8 f Peripheral.kTimerCmp = cmp_of x.2) ->
  previous_mode l x.1 = code_PrivilegeMode p ->
  p <> MACHINE_MODE -> regime_of (mmu_for p x.1) (csr x.1 SATP) = Paged fmt (space_root sp) -> space_mode sp = p -> tables_map fmt sp f ->
  (forall r, in_u 5 r -> extended xlen (reg x.1 r)) -> extended xlen epc -> epc mod 2 = 0 -> epc <> next_pc_ x.1 ->
  isa_steps (R := R) xlen n (resumed_hart xlen sp epc x.1 f) = Some h ->
  leaves xlen sp (x.1 <| privilege_ := p |>, x.2) (S n) h kind cause tval ->
  exists x1 x', Cpu.step x = Ok (tt, x1) /\ returned l p x.1 x1.1 /\ (forall b, mem_byte x1.2 b = f b) /\
    (forall fuel, run_loop (S (n + S fuel)) x = run_loop fuel x') /\ entered xlen sp x1 kind cause tval h x' /\
    (forall va, mapped sp va = true -> mem_byte x'.2 (frame sp va) = IsaMachine.mem h va) /\
    forall b, foreign sp b -> mem_byte x'.2 b = f b.
Proof.
  intros fmt R epc Hx Hsp [Hmac Hzero] Hrest Hl Heven Hf Hcmp Hmode Hp Hreg Hsm Ht Hr Hepc He Hne E Hlv.
  destruct x as [s m]. cbn [fst snd] in *. pose proof Hrest as (_ & _ & Hpf & Her & Hsw). injection Hsw as S1 S2 S3 S4.
  destruct (step_returns l p s m f (mac_cpu _ Hmac) (mac_mem _ Hmac) Hl Heven (leaves_due xlen sp p n s m _ _ _ _ Hlv) Hf S1 S2 Hmode Hne)
    as (x1 & Ex & Hret & Hpass & Hm1 & Hb).
  pose proof (proj1 (machine_step (s, m) _ _ Hmac Ex)) as Hmac1. pose proof (proj1 (zero_step (s, m) _ _ Hzero Ex)) as Hzero1.
  pose proof (resumes xlen Hx sp Hsp l p (s, m) x1 f (conj Hmac1 Hzero1) Hrest Hret Hb Hp Hreg Hsm Ht Hr Hepc He) as Hs.
  destruct (run_enters xlen Hx sp x1 Hsp n _ x1 h kind cause tval Hs) as (x' & Er & Hen); [done | exact E | |].
  - apply (leaves_returned xlen sp l p n s m); [done | done | | done]. intros Hi. rewrite <- (Hcmp Hi). by apply load_shift.
  - exists x1, x'. split; [done |]. split; [done |]. split; [done |]. split; [| split; [done |]].
    + intros fuel. rewrite run_loop_S, Ex, (sim_running _ _ _ Hs). apply Er.
    + destruct (en_shows _ _ _ _ _ _ _ _ Hen) as [_ [_ Ho] Hm']. split; [done |]. intros b Hfb. by rewrite Ho.
Qed.

(** *** Witness: a kernel in machine mode whose MRET at 0x5000 starts the program *)
Definition kernel_words : list (width * Z * Z) := user_words call_program ++ [(W32, 0x5000, return_word machine_level)].

Definition kernel_memory : MemoryWrapper.t :=
  match write_all MemoryWrapper.MemoryWrapper kernel_words with Ok m => m | Err _ => MemoryWrapper.MemoryWrapper end.

Definition kernel_cpu : Cpu.t :=
  (put_csr MEPC 0x40200000 (put_reg 2 0x40201000 (put_csr SATP sample_satp (RiscvCpu 0 true)))) <| next_pc_ := 0x5000 |>.

Lemma kernel_memory_ok : mem_ok kernel_memory.
Proof.
  apply (write_all_ok MemoryWrapper.MemoryWrapper _ kernel_words); [exact MemoryWrapper_init_ok | decide_it | vm_compute; reflexivity].
Qed.

Lemma kernel_csr_ok : csr_ok kernel_cpu.
Proof.
  apply csr_ok_next_pc. apply csr_ok_put_csr; [| decide_it | |]; [| intros [E | [E | E]]; vm_compute in E; discriminate E ..].
  apply csr_ok_put_reg; [| decide_it]. apply csr_ok_put_csr; [apply RiscvCpu_csr_ok | decide_it | |];
    intros [E | [E | E]]; vm_compute in E; discriminate E.
Qed.

Lemma kernel_ok : well_formed (kernel_cpu, kernel_memory).
Proof.
  split; [| by vm_compute]. split; cbn [fst snd]; [| decide_it | | decide_it | exact kernel_memory_ok].
  - split; [exact kernel_csr_ok | decide_it ..].
  - split; [decide_it .. |]. intros d Hd. vm_compute in Hd. discriminate Hd.
Qed.

Lemma time_slice_witness :
  exists x', run_loop 36 (kernel_cpu, kernel_memory) = Ok (None, x') /\ csr x'.1 MCAUSE = 8 /\ csr x'.1 MEPC = 0x40200010 /\
    reg x'.1 10 = 55.
Proof.
  set (x := (kernel_cpu, kernel_memory)). set (f := mem_byte kernel_memory).
  set (R := virtual_regime (format_for 64) user_space x).
  assert (Hv : match isa_steps (R := R) 64 34 (resumed_hart 64 user_space 0x40200000 kernel_cpu f) with
    | Some h => (departure 64 user_space USER_MODE h, IsaMachine.pc h, IsaMachine.get h 10)
    | None => (None, 0, 0) end = (Some (8, 0), 0x40200010, 55)) by (vm_compute; reflexivity).
  destruct (isa_steps _ _ _) as [h|] eqn:E in Hv; [| discriminate Hv]. injection Hv as Hd Hpc H10.
  destruct (time_slice 64 user_space machine_level USER_MODE 34 x f h kException 8 0) as (x1 & x' & _ & Hret & _ & Er & Hen & _).
  { by right. } { decide_it. } { exact kernel_ok. } { repeat split; vm_compute; reflexivity. } { by left. } { reflexivity. }
  { left. split; [by repeat split |]. split; [vm_compute; reflexivity |]. unfold f, x. cbn [snd]. reflexivity. }
  { intros Ei. vm_compute in Ei. discriminate Ei. } { vm_compute; reflexivity. } { discriminate. } { vm_compute; reflexivity. } { reflexivity. } { decide_it. }
  { intros r _. apply embed64. exact (ok_regs _ (ok_words _ kernel_csr_ok) r). }
  { vm_compute; reflexivity. } { vm_compute; reflexivity. } { vm_compute; discriminate. } { exact E. }
  { apply leaves_departing; [| vm_compute; reflexivity | exact Hd | vm_compute; reflexivity |].
    { split; [by apply disabled_undisturbed |]. intros Ei. vm_compute in Ei. discriminate Ei. }
    unfold handler_elsewhere. rewrite Hpc. vm_compute. discriminate. }
  exists x'. split; [exact (Er 0%nat) |]. destruct Hen as [_ _ H3 H4 _ H6 _ _]. destruct Hret as [R1 _ _ _ R5 _].
  assert (El : level x1 kException 8 = machine_level).
  { unfold level, target, delegated, kException. rewrite R1, (R5 MEDELEG) by (apply (bool_decide_eq_false _); vm_compute; reflexivity). vm_compute. reflexivity. }
  rewrite El in H3, H4.
  split; [exact H4 |]. split; [refine (eq_trans H3 _); by rewrite Hpc |]. refine (eq_trans (H6 10 ltac:(decide_it)) _). by rewrite H10.
Defined.
