(* ===== verification/Loader.v ===== *)
(** * RISCV_Emulator.h/.cc: command line, ELF loading, default page tables, the main program

    The file is a vector of bytes, a pointer into it an offset, [NULL] is [None];
    a read outside the vector and a dereference of [NULL] are undefined.  The two
    ELF classes run the same code over different structure layouts, so each
    function is written once over a [layout].  The messages on the error stream
    are not modelled. *)

From Stdlib Require Import Ascii String.
From S2P Require Import Prelude BitTools Memory Pte Isa Mmu Peripheral Syscall CpuState Csr Trap LoadStore Cpu.

(* ------------------------------------------------------------------ *)
(** ** Constants *)

(* RISCV_Emulator.h:18-18 kMaxBinarySize *)
Definition kMaxBinarySize : Z := 1024 * 1024 * 1024.
(* RISCV_Emulator.h:19-19 kTop *)
Definition kTop : Z := 0x80000000.
(* RISCV_Emulator.h:20-20 kBottom *)
Definition kBottom : Z := 0x40000000.
(* RISCV_Emulator.h:27-27 k32BitMmuLevel1 *)
Definition k32BitMmuLevel1 : Z := 0xC0000000.
(* RISCV_Emulator.h:28-28 k32BitMmuLevel0 *)
Definition k32BitMmuLevel0 : Z := k32BitMmuLevel1 + (1 <<. 10) * 4.
(* RISCV_Emulator.h:30-30 k64BitMmuLevel2 *)
Definition k64BitMmuLevel2 : Z := 0xC0000000.
(* RISCV_Emulator.h:31-32 k64BitMmuLevel1 *)
Definition k64BitMmuLevel1 : Z := k64BitMmuLevel2 + (1 <<. 9) * 8.
(* RISCV_Emulator.h:33-33 k64BitMmuLevel0 *)
Definition k64BitMmuLevel0 : Z := k64BitMmuLevel1 + 4 * (1 <<. 9) * 8.

(** [for (i = start; n times; i++)]; the body may change [a]. *)
Fixpoint for_ {A} (n : nat) (start : Z) (body : Z -> A -> res A) (a : A) : res A :=
  match n with
  | O => mret a
  | S n' => a ← body start a; for_ n' (start + 1) body a
  end.

(* ------------------------------------------------------------------ *)
(** ** ELF structures *)

(** [std::vector<uint8_t>]; a member of a structure: its offset and its size. *)
Abbreviation vector := disk.
Definition member : Type := (Z * nat)%type.

Fixpoint peek (program : vector) (a : Z) (n : nat) : res Z :=
  match n with
  | O => mret 0
  | S n' => b ← disk_get program a; v ← peek program (a + 1) n'; mret (b + 256 * v)
  end.

(** [p->f]. *)
Definition arrow (program : vector) (p : Z) (f : member) : res Z := peek program (p + f.1) f.2.

(** A pointer that may be null. *)
Definition deref (p : option Z) : res Z := match p with Some a => Ok a | None => Err Undefined end.

Record ehdr_layout : Type := Ehdr {
  e_entry : member; e_phoff : member; e_shoff : member; e_phentsize : member; e_phnum : member; e_shentsize : member;
  e_shnum : member; e_shstrndx : member
}.
Record shdr_layout : Type := Shdr { sh_name : member; sh_type : member; sh_addr : member; sh_offset : member; sh_size : member }.
Record phdr_layout : Type := Phdr { p_type : member; p_offset : member; p_vaddr : member; p_filesz : member }.
Record sym_layout : Type := Sym { st_name : member; st_value : member; sizeof_sym : Z }.

(** The members every class has at the same place. *)
(* Windows/win32_elf.h:62-65 e_ident *)
Definition e_ident (i : Z) : member := (i, 1%nat).
(* Windows/win32_elf.h:62-65 e_type *)
Definition e_type : member := (16, 2%nat).
(* Windows/win32_elf.h:62-65 e_machine *)
Definition e_machine : member := (18, 2%nat).

(* Windows/win32_elf.h:62-77 Elf32_Ehdr *)
Definition Elf32_Ehdr : ehdr_layout :=
  Ehdr (24, 4%nat) (28, 4%nat) (32, 4%nat) (42, 2%nat) (44, 2%nat) (46, 2%nat) (48, 2%nat) (50, 2%nat).
(* Windows/win32_elf.h:79-94 Elf64_Ehdr *)
Definition Elf64_Ehdr : ehdr_layout :=
  Ehdr (24, 8%nat) (32, 8%nat) (40, 8%nat) (54, 2%nat) (56, 2%nat) (58, 2%nat) (60, 2%nat) (62, 2%nat).
(* Windows/win32_elf.h:350-361 Elf32_Shdr *)
Definition Elf32_Shdr : shdr_layout := Shdr (0, 4%nat) (4, 4%nat) (12, 4%nat) (16, 4%nat) (20, 4%nat).
(* Windows/win32_elf.h:363-374 Elf64_Shdr *)
Definition Elf64_Shdr : shdr_layout := Shdr (0, 4%nat) (4, 4%nat) (16, 8%nat) (24, 8%nat) (32, 8%nat).
(* Windows/win32_elf.h:471-478 Elf32_Sym *)
Definition Elf32_Sym : sym_layout := Sym (0, 4%nat) (4, 4%nat) 16.
(* Windows/win32_elf.h:480-487 Elf64_Sym *)
Definition Elf64_Sym : sym_layout := Sym (0, 4%nat) (8, 8%nat) 24.
(* Windows/win32_elf.h:593-602 Elf32_Phdr *)
Definition Elf32_Phdr : phdr_layout := Phdr (0, 4%nat) (4, 4%nat) (8, 4%nat) (16, 4%nat).
(* Windows/win32_elf.h:604-613 Elf64_Phdr *)
Definition Elf64_Phdr : phdr_layout := Phdr (0, 4%nat) (8, 8%nat) (16, 8%nat) (32, 8%nat).

(** A class: its structures and the width of its addresses. *)
Record layout : Type := Layout {
  ehdr : ehdr_layout; shdr : shdr_layout; phdr : phdr_layout; sym : sym_layout; addr_bits : Z
}.
Definition elf32 : layout := Layout Elf32_Ehdr Elf32_Shdr Elf32_Phdr Elf32_Sym 32.
Definition elf64 : layout := Layout Elf64_Ehdr Elf64_Shdr Elf64_Phdr Elf64_Sym 64.

(* ------------------------------------------------------------------ *)
(** ** Reading the file *)

(** A missing or unreadable file has size -1; [None]: [exit(-1)]. *)
(* RISCV_Emulator.cc:23-42 ReadFile *)
Definition ReadFile (file : option vector) : option vector :=
  match file with
  | None => None
  | Some data => if (kMaxBinarySize <? size data) || (size data <=? 0) then None else Some data
  end.

(* RISCV_Emulator.cc:44-82 IsRightElf *)
Definition IsRightElf (program : vector) : res bool :=
  let ident i := arrow program 0 (e_ident i) in
  mag0 ← ident 0; if negb (mag0 =? 0x7f) then mret false else
  mag1 ← ident 1; if negb (mag1 =? 0x45) then mret false else
  mag2 ← ident 2; if negb (mag2 =? 0x4C) then mret false else
  mag3 ← ident 3; if negb (mag3 =? 0x46) then mret false else
  class ← ident 4; if negb (class =? 1) && negb (class =? 2) then mret false else
  data ← ident 5; if negb (data =? 1) then mret false else
  version ← ident 6; if negb (version =? 1) then mret false else
  osabi ← ident 7; if negb (osabi =? 0) then mret false else
  type ← arrow program 0 e_type; if negb (type =? 2) then mret false else
  machine ← arrow program 0 e_machine; if negb (machine =? 243) then mret false else
  mret true.

(* RISCV_Emulator.cc:84-89 Is64BitElf *)
Definition Is64BitElf (program : vector) : res bool :=
  class ← arrow program 0 (e_ident 4); mret (class =? 2).

(** The header is at the start of the file. *)
(* RISCV_Emulator.cc:91-94 GetElf32Ehdr *)
Definition GetElf32Ehdr (program : vector) : Z := 0.
(* RISCV_Emulator.cc:96-99 GetElf64Ehdr *)
Definition GetElf64Ehdr (program : vector) : Z := 0.

Section Class.
  Context (L : layout).

(** [GetElf32Shdr] and [GetElf64Shdr]. *)
(* RISCV_Emulator.cc:101-110 GetElf32Shdr *)
Definition GetElfShdr (program : vector) (index : Z) : res (option Z) :=
  shnum ← arrow program 0 (e_shnum (ehdr L));
  if (index <? 0) || (shnum <=? index) then mret None
  else
    shoff ← arrow program 0 (e_shoff (ehdr L));
    shentsize ← arrow program 0 (e_shentsize (ehdr L));
    mret (Some (shoff + shentsize * index)).

(* RISCV_Emulator.cc:123-128 GetElf32SectionName *)
Definition GetElfSectionName (program : vector) (shdr_ : Z) : res Z :=
  shstrndx ← arrow program 0 (e_shstrndx (ehdr L));
  nhdr ← GetElfShdr program shstrndx;
  nhdr ← deref nhdr;
  offset ← arrow program nhdr (sh_offset (shdr L));
  name ← arrow program shdr_ (sh_name (shdr L));
  mret (offset + name).

(** [!strcmp(p, name)]. *)
Fixpoint strcmp_eq (program : vector) (p : Z) (name : string) : res bool :=
  b ← disk_get program p;
  match name with
  | EmptyString => mret (b =? 0)
  | String c rest => if b =? Z.of_N (N_of_ascii c) then strcmp_eq program (p + 1) rest else mret false
  end.

(** The loops over the section headers; [n] are left from [i] on. *)
(* RISCV_Emulator.cc:141-149 SearchElf32Shdr *)
Fixpoint search_name (program : vector) (name : string) (n : nat) (i : Z) : res (option Z) :=
  match n with
  | O => mret None
  | S n' =>
      shdr_ ← GetElfShdr program i;
      shdr_ ← deref shdr_;
      section_name ← GetElfSectionName program shdr_;
      found ← strcmp_eq program section_name name;
      if found : bool then mret (Some shdr_) else search_name program name n' (i + 1)
  end.

(* RISCV_Emulator.cc:137-151 SearchElf32Shdr *)
Definition SearchElfShdr_name (program : vector) (name : string) : res (option Z) :=
  shnum ← arrow program 0 (e_shnum (ehdr L)); search_name program name (Z.to_nat shnum) 0.

(* RISCV_Emulator.cc:173-182 SearchElf32Shdr *)
Fixpoint search_type (program : vector) (type : Z) (n : nat) (i : Z) : res (option Z) :=
  match n with
  | O => mret None
  | S n' =>
      shdr_ ← GetElfShdr program i;
      shdr_ ← deref shdr_;
      type_ ← arrow program shdr_ (sh_type (shdr L));
      if type_ =? type then _ ← GetElfSectionName program shdr_; mret (Some shdr_)
      else search_type program type n' (i + 1)
  end.

(* RISCV_Emulator.cc:169-184 SearchElf32Shdr *)
Definition SearchElfShdr_type (program : vector) (type : Z) : res (option Z) :=
  shnum ← arrow program 0 (e_shnum (ehdr L)); search_type program type (Z.to_nat shnum) 0.

(* RISCV_Emulator.cc:318-329 FindElf32Symbol *)
Fixpoint search_symbol (program : vector) (target_name : string) (symtab strtab : Z) (n : nat) (i : Z) : res (option Z) :=
  match n with
  | O => mret None
  | S n' =>
      offset ← arrow program symtab (sh_offset (shdr L));
      let symbol := offset + i * sizeof_sym (sym L) in
      names ← arrow program strtab (sh_offset (shdr L));
      name ← arrow program symbol (st_name (sym L));
      found ← strcmp_eq program (names + name) target_name;
      if found : bool then mret (Some symbol) else search_symbol program target_name symtab strtab n' (i + 1)
  end.

(* RISCV_Emulator.cc:298-331 FindElf32Symbol *)
Definition FindElfSymbol (program : vector) (target_name : string) : res (option Z) :=
  let SHT_SYMTAB := 2 in
  shdr_ ← SearchElfShdr_type program SHT_SYMTAB;
  match shdr_ with
  | None => mret None
  | Some shdr_ =>
      sh_size_ ← arrow program shdr_ (sh_size (shdr L));
      let number := s32 (sh_size_ / sizeof_sym (sym L)) in
      strtab_shdr ← SearchElfShdr_name program ".strtab";
      match strtab_shdr with
      | None => mret None
      | Some strtab_shdr => search_symbol program target_name shdr_ strtab_shdr (Z.to_nat number) 0
      end
  end.

(* RISCV_Emulator.cc:368-378 GetElf32GlobalPointer *)
Definition GetElfGlobalPointer (program : vector) : res Z :=
  let target_name := "__global_pointer$"%string in
  symbol ← FindElfSymbol program target_name;
  match symbol with
  | Some symbol => value ← arrow program symbol (st_value (sym L)); mret (u32 value)
  | None => mret (u32 (-1))
  end.

(* RISCV_Emulator.cc:400-403 GetElf32EntryPoint *)
Definition GetElfEntryPoint (program : vector) : res Z :=
  entry ← arrow program 0 (e_entry (ehdr L)); mret (u32 entry).

End Class.

(* RISCV_Emulator.cc:101-110 GetElf32Shdr *)
Definition GetElf32Shdr := GetElfShdr elf32.
(* RISCV_Emulator.cc:112-121 GetElf64Shdr *)
Definition GetElf64Shdr := GetElfShdr elf64.
(* RISCV_Emulator.cc:123-128 GetElf32SectionName *)
Definition GetElf32SectionName := GetElfSectionName elf32.
(* RISCV_Emulator.cc:130-135 GetElf64SectionName *)
Definition GetElf64SectionName := GetElfSectionName elf64.
(* RISCV_Emulator.cc:137-151 SearchElf32Shdr *)
Definition SearchElf32Shdr_name := SearchElfShdr_name elf32.
(* RISCV_Emulator.cc:153-167 SearchElf64Shdr *)
Definition SearchElf64Shdr_name := SearchElfShdr_name elf64.
(* RISCV_Emulator.cc:169-184 SearchElf32Shdr *)
Definition SearchElf32Shdr_type := SearchElfShdr_type elf32.
(* RISCV_Emulator.cc:186-201 SearchElf64Shdr *)
Definition SearchElf64Shdr_type := SearchElfShdr_type elf64.
(* RISCV_Emulator.cc:298-331 FindElf32Symbol *)
Definition FindElf32Symbol := FindElfSymbol elf32.
(* RISCV_Emulator.cc:333-366 FindElf64Symbol *)
Definition FindElf64Symbol := FindElfSymbol elf64.
(* RISCV_Emulator.cc:368-378 GetElf32GlobalPointer *)
Definition GetElf32GlobalPointer := GetElfGlobalPointer elf32.
(* RISCV_Emulator.cc:380-390 GetElf64GlobalPointer *)
Definition GetElf64GlobalPointer := GetElfGlobalPointer elf64.
(* RISCV_Emulator.cc:400-403 GetElf32EntryPoint *)
Definition GetElf32EntryPoint := GetElfEntryPoint elf32.
(* RISCV_Emulator.cc:405-408 GetElf64EntryPoint *)
Definition GetElf64EntryPoint := GetElfEntryPoint elf64.

(* RISCV_Emulator.cc:392-398 GetGlobalPointer *)
Definition GetGlobalPointer (flag_64bit : bool) (program : vector) : res Z :=
  if flag_64bit then GetElf32GlobalPointer program else GetElf64GlobalPointer program.

(* RISCV_Emulator.cc:410-416 GetEntryPoint *)
Definition GetEntryPoint (flag_64bit : bool) (program : vector) : res Z :=
  if flag_64bit then GetElf64EntryPoint program else GetElf32EntryPoint program.

(* ------------------------------------------------------------------ *)
(** ** Loading the program *)

Section Loading.
  Context {M : Type} `{GuestMemory M}.

(** The copy of one segment; addresses and file offsets wrap at the width of the
    class.  The counter is a [uint32_t]: were a 64-bit [p_filesz] above 2^32, the
    reads would leave the file, at most 1 GiB long, before the counter wraps. *)
(* RISCV_Emulator.cc:216-218 Load32BitElfFile *)
Definition load_segment (L : layout) (program : vector) (phdr_ : Z) (memory : M) : res M :=
  filesz ← arrow program phdr_ (p_filesz (phdr L));
  for_ (Z.to_nat filesz) 0 (fun i memory =>
    vaddr ← arrow program phdr_ (p_vaddr (phdr L));
    offset ← arrow program phdr_ (p_offset (phdr L));
    data ← disk_get program (uint (addr_bits L) (offset + u32 i));
    mem_write W8 memory (uint (addr_bits L) (vaddr + u32 i)) data) memory.

(** One iteration over the program headers. *)
(* RISCV_Emulator.cc:205-225 Load32BitElfFile *)
Definition load_header (L : layout) (program : vector) (i : Z) (memory : M) : res M :=
  phoff ← arrow program 0 (e_phoff (ehdr L));
  phentsize ← arrow program 0 (e_phentsize (ehdr L));
  let phdr_ := phoff + phentsize * i in
  type ← arrow program phdr_ (p_type (phdr L));
  let PT_LOAD := 1 in
  if type =? PT_LOAD then load_segment L program phdr_ memory else mret memory.

(* RISCV_Emulator.cc:204-226 Load32BitElfFile *)
Definition load_headers (L : layout) (program : vector) (memory : M) : res M :=
  phnum ← arrow program 0 (e_phnum (ehdr L));
  for_ (Z.to_nat phnum) 0 (load_header L program) memory.

(** The counter is a [uint32_t]: with a bound of 2^32 or more the loop has no end
    and no effect the language observes, which is undefined. *)
(* RISCV_Emulator.cc:228-240 Load32BitElfFile *)
Definition clear_bss (L : layout) (program : vector) (shdr_ : option Z) (memory : M) : res M :=
  match shdr_ with
  | None => mret memory
  | Some shdr_ =>
      addr ← arrow program shdr_ (sh_addr (shdr L));
      size ← arrow program shdr_ (sh_size (shdr L));
      let bound := uint (addr_bits L) (addr + size) in
      if 2 ^ 32 <=? bound then Err Undefined
      else for_ (Z.to_nat (bound - u32 addr)) (u32 addr) (fun i memory => mem_write W8 memory i 0) memory
  end.

(* RISCV_Emulator.cc:203-241 Load32BitElfFile *)
Definition LoadBitElfFile (L : layout) (program : vector) (memory : M) : res M :=
  memory ← load_headers L program memory;
  shdr_ ← SearchElfShdr_name L program ".bss";
  clear_bss L program shdr_ memory.

(* RISCV_Emulator.cc:203-241 Load32BitElfFile *)
Definition Load32BitElfFile := LoadBitElfFile elf32.
(* RISCV_Emulator.cc:243-281 Load64BitElfFile *)
Definition Load64BitElfFile := LoadBitElfFile elf64.

(** The new value of the global [flag_64bit], and the memory. *)
(* RISCV_Emulator.cc:283-296 LoadElfFile *)
Definition LoadElfFile (program : vector) (memory : M) : res (bool * M) :=
  _ ← IsRightElf program;
  flag_64bit ← Is64BitElf program;
  memory ← (if flag_64bit : bool then Load64BitElfFile program memory else Load32BitElfFile program memory);
  mret (flag_64bit, memory).

(* ------------------------------------------------------------------ *)
(** ** Default page tables

    The page-table entry object is reused from one iteration to the next; the loops
    carry it beside the memory. *)

(* RISCV_Emulator.cc:472-474 k32BitMmuLevelOneSize *)
Definition k32BitMmuLevelOneSize : Z := 1024.
Definition k32BitMmuLevelZeroSize : Z := 1024.
Definition k32BitPteSize : Z := 4.

(* RISCV_Emulator.cc:476-506 SetDefaultMmuTable32 *)
Definition SetDefaultMmuTable32 (memory : M) : res M :=
  let level1 := k32BitMmuLevel1 in
  let level0 := k32BitMmuLevel0 in
  let pte := Pte32.make 0 in
  let pte := Pte32.SetV pte 1 in
  '(pte, memory) ← for_ (Z.to_nat k32BitMmuLevelOneSize) 0 (fun i '(pte, memory) =>
    let address := u32 (level1 + i * k32BitPteSize) in
    let ppn := u32 (level0 + i * k32BitMmuLevelZeroSize * k32BitPteSize) >>. 12 in
    let pte := Pte32.SetPpn pte ppn in
    let pte_value := Pte32.GetValue pte in
    memory ← mem_write W32 memory address pte_value;
    mret (pte, memory)) (pte, memory);
  let pte := Pte32.SetX pte 1 in
  let pte := Pte32.SetW pte 1 in
  let pte := Pte32.SetR pte 1 in
  '(pte, memory) ← for_ (Z.to_nat k32BitMmuLevelOneSize) 0 (fun j s =>
    for_ (Z.to_nat k32BitMmuLevelZeroSize) 0 (fun i '(pte, memory) =>
      let ppn := u32 (j * k32BitMmuLevelZeroSize + i) in
      let address := u32 (level0 + ppn * k32BitPteSize) in
      _ ← assert_that ((address <? level1) || (u32 (level1 + k32BitMmuLevelOneSize * k32BitPteSize) <=? address));
      let pte := Pte32.SetPpn pte ppn in
      memory ← mem_write W32 memory address (Pte32.GetValue pte);
      mret (pte, memory)) s) (pte, memory);
  mret memory.

(* RISCV_Emulator.cc:508-511 k64BitMmuLevelTwoSize *)
Definition k64BitMmuLevelTwoSize : Z := 512.
Definition k64BitMmuLevelOneSize : Z := 512.
Definition k64BitMmuLevelZeroSize : Z := 512.
Definition k64BitPteSize : Z := 8.

(* RISCV_Emulator.cc:513-566 SetDefaultMmuTable64 *)
Definition SetDefaultMmuTable64 (memory : M) : res M :=
  let level2 := k64BitMmuLevel2 in
  let level1 := k64BitMmuLevel1 in
  let level0 := k64BitMmuLevel0 in
  let pte := Pte32.make 0 in
  let kLevel2ValidEntry := 4 in
  '(pte, memory) ← for_ (Z.to_nat k64BitMmuLevelTwoSize) 0 (fun i '(pte, memory) =>
    let address := u32 (u64 (level2 + i * k64BitPteSize)) in
    let pte :=
      if i <? kLevel2ValidEntry then
        let pte := Pte32.SetV pte 1 in
        let ppn := u64 (level1 + i * k64BitMmuLevelOneSize * k64BitPteSize) >>. 12 in
        Pte32.SetPpn pte (u32 ppn)
      else Pte32.SetPpn pte 0 in
    let pte_value := Pte32.GetValue pte in
    memory ← mem_write W64 memory address pte_value;
    mret (pte, memory)) (pte, memory);
  let pte := Pte32.SetV pte 1 in
  '(pte, memory) ← for_ (Z.to_nat kLevel2ValidEntry) 0 (fun j s =>
    for_ (Z.to_nat k64BitMmuLevelOneSize) 0 (fun i '(pte, memory) =>
      let address := u32 (u64 (level1 + j * k64BitMmuLevelOneSize * k64BitPteSize + i * k64BitPteSize)) in
      let ppn := u64 (level0 + j * k64BitMmuLevelOneSize * k64BitMmuLevelZeroSize * k64BitPteSize
                      + i * k64BitMmuLevelZeroSize * k64BitPteSize) >>. 12 in
      let pte := Pte32.SetPpn pte (u32 ppn) in
      let pte_value := Pte32.GetValue pte in
      memory ← mem_write W64 memory address pte_value;
      mret (pte, memory)) s) (pte, memory);
  let pte := Pte32.SetX pte 1 in
  let pte := Pte32.SetW pte 1 in
  let pte := Pte32.SetR pte 1 in
  '(pte, memory) ← for_ (Z.to_nat kLevel2ValidEntry) 0 (fun k s =>
    for_ (Z.to_nat k64BitMmuLevelOneSize) 0 (fun j s =>
      for_ (Z.to_nat k64BitMmuLevelZeroSize) 0 (fun i '(pte, memory) =>
        let ppn := u64 (k * k64BitMmuLevelOneSize * k64BitMmuLevelZeroSize + j * k64BitMmuLevelZeroSize + i) in
        let address := u32 (u64 (level0 + ppn * k64BitPteSize)) in
        let pte := Pte32.SetPpn pte (u32 ppn) in
        memory ← mem_write W64 memory address (Pte32.GetValue pte);
        mret (pte, memory)) s) s) (pte, memory);
  mret memory.

(* RISCV_Emulator.cc:568-574 SetDefaultMmuTable *)
Definition SetDefaultMmuTable (address64bit : bool) (memory : M) : res M :=
  if address64bit then SetDefaultMmuTable64 memory else SetDefaultMmuTable32 memory.
End Loading.

(* ------------------------------------------------------------------ *)
(** ** Command line *)

(* RISCV_Emulator.cc:418-428 ParseCmd *)
Record Options : Type := mk_options {
  error : bool;
  filename : string;
  verbose : bool;
  address64bit : bool;
  paging : bool;
  ecall_emulation : bool;
  host_emulation : bool;
  device_enable : bool;
  disable_machine_interrupt_delegation : bool;
  diskimage_file : string
}.

#[global] Instance Options_settable : Settable Options := fun x => mk_options (error x) (filename x) (verbose x)
  (address64bit x) (paging x) (ecall_emulation x) (host_emulation x) (device_enable x)
  (disable_machine_interrupt_delegation x) (diskimage_file x).
#[global] Instance set_error : Setter error := ltac:(mk_setter error).
#[global] Instance set_filename : Setter filename := ltac:(mk_setter filename).
#[global] Instance set_verbose : Setter verbose := ltac:(mk_setter verbose).
#[global] Instance set_address64bit : Setter address64bit := ltac:(mk_setter address64bit).
#[global] Instance set_paging : Setter paging := ltac:(mk_setter paging).
#[global] Instance set_ecall_emulation : Setter ecall_emulation := ltac:(mk_setter ecall_emulation).
#[global] Instance set_host_emulation : Setter host_emulation := ltac:(mk_setter host_emulation).
#[global] Instance set_device_enable : Setter device_enable := ltac:(mk_setter device_enable).
#[global] Instance set_disable_machine_interrupt_delegation : Setter disable_machine_interrupt_delegation :=
  ltac:(mk_setter disable_machine_interrupt_delegation).
#[global] Instance set_diskimage_file : Setter diskimage_file := ltac:(mk_setter diskimage_file).

(* RISCV_Emulator.cc:420-429 ParseCmd *)
Definition default_options : Options := mk_options false "" false false false false false false false "".

(** The loop over the arguments after the program's name, up to an error. *)
(* RISCV_Emulator.cc:433-464 ParseCmd *)
Fixpoint parse_args (args : list string) (o : Options) : Options :=
  match args with
  | [] => o
  | arg :: rest =>
      match arg with
      | String "-" (String "v" _) => parse_args rest (o <| verbose := true |>)
      | String "-" (String "6" (String "4" _)) => parse_args rest (o <| address64bit := true |>)
      | String "-" (String "p" _) => parse_args rest (o <| paging := true |>)
      | String "-" (String "e" _) => parse_args rest (o <| ecall_emulation := true |>)
      | String "-" (String "h" _) => parse_args rest (o <| host_emulation := true |>)
      | String "-" (String "d" _) => parse_args rest (o <| device_enable := true |>)
      | String "-" (String "m" _) => parse_args rest (o <| disable_machine_interrupt_delegation := true |>)
      | String "-" (String "s" _) =>
          match rest with
          | file :: rest => parse_args rest (o <| diskimage_file := file |>)
          | [] => o <| error := true |>
          end
      | String "-" _ => o <| error := true |>
      | _ =>
          if bool_decide (filename o = ""%string) then parse_args rest (o <| filename := arg |>)
          else o <| error := true |>
      end
  end.

(* RISCV_Emulator.cc:418-470 ParseCmd *)
Definition ParseCmd (argv : list string) : Options :=
  match argv with
  | [] | [_] => default_options <| error := true |>
  | _ :: args => parse_args args default_options
  end.

(* ------------------------------------------------------------------ *)
(** ** The main program *)

Section Run.
  Context {M : Type} `{GuestMemory M} `{HostOs M}.

(** The processor as [run] sets it up; the device initialisation comes next. *)
(* RISCV_Emulator.cc:637-660 run *)
Definition configure (misa_shift : Z) (o : Options) (global_pointer : Z) : Cpu.t :=
  let cpu := Cpu.RiscvCpu misa_shift (address64bit o) in
  let cpu := Cpu.SetEcallEmulationEnable (ecall_emulation o) cpu in
  let cpu := Cpu.SetRegister SP kTop cpu in
  let cpu := Cpu.SetRegister GP (u64 global_pointer) cpu in
  let satp :=
    if paging o then
      if address64bit o then (k64BitMmuLevel2 >>. 12) .| u64 (8 <<. 60)
      else u64 (u32 ((k32BitMmuLevel1 >>. 12) .| u32 (1 <<. 31)))
    else 0 in
  let cpu := Cpu.SetCsr SATP satp cpu in
  let cpu := Cpu.SetWorkMemory kTop kBottom cpu in
  let cpu := Cpu.SetHostEmulationEnable (host_emulation o) cpu in
  let cpu := Cpu.SetDeviceEmulationEnable (device_enable o) cpu in
  Cpu.DisableMachineInterruptDelegation (disable_machine_interrupt_delegation o) cpu.

(** [files]: the contents of the files there are; [input]: the keys typed; [memory]:
    a fresh memory.  [None]: out of fuel. *)
(* RISCV_Emulator.cc:576-672 run *)
Definition run (fuel : nat) (misa_shift : Z) (argv : list string) (files : string -> option vector) (input : list Z)
    (memory : M) : res (option Z) :=
  let o := ParseCmd argv in
  if error o then mret (Some (-1))
  else
    match ReadFile (files (filename o)) with
    | None => mret (Some (-1))
    | Some program =>
        '(flag_64bit, memory) ← LoadElfFile program memory;
        entry_point ← GetEntryPoint flag_64bit program;
        let entry_point := u32 entry_point in
        global_pointer ← GetGlobalPointer flag_64bit program;
        let global_pointer := if global_pointer =? -1 then entry_point else global_pointer in
        match (if bool_decide (diskimage_file o = ""%string) then Some None
               else match ReadFile (files (diskimage_file o)) with None => None | Some d => Some (Some d) end) with
        | None => mret (Some (-1))
        | Some disk_image =>
            let cpu := configure misa_shift o global_pointer in
            memory ← SetDefaultMmuTable (address64bit o) memory;
            '(_, (cpu, memory)) ← DeviceInitialization input (cpu, memory);
            let cpu := Cpu.SetDiskImage disk_image cpu in
            '(r, (cpu, memory)) ← RunCpu fuel entry_point (cpu, memory);
            mret (match r with Some _ => Some (s32 (Cpu.ReadRegister cpu A0)) | None => None end)
        end
    end.
End Run.
