(* ===== verification/LoaderSpec.v ===== *)
(** * RISCV_Emulator.cc: the default page tables

    The rules for counting loops, arrays of entries filled by a loop, and the two
    sets of tables, which map every 32-bit address to itself under the translation
    of Mmu.v and keep doing so however they are used. *)

From Stdlib Require Import Ascii String.
From S2P Require Import Prelude BitTools Memory Pte Isa Mmu Peripheral Syscall CpuState Csr Trap LoadStore Cpu Loader.

(* ------------------------------------------------------------------ *)
(** ** Counting loops *)

Lemma for_inv {A} (I : Z -> A -> Prop) body n start a :
  I start a ->
  (forall i a, start <= i < start + Z.of_nat n -> I i a -> exists a', body i a = Ok a' /\ I (i + 1) a') ->
  exists a', for_ n start body a = Ok a' /\ I (start + Z.of_nat n) a'.
Proof.
  revert start a. induction n as [|n IH]; intros start a Ha Hb; cbn [for_].
  { exists a. split; [done |]. by rewrite Z.add_0_r. }
  destruct (Hb start a ltac:(lia) Ha) as (a1 & E & H1). destruct (IH (start + 1) a1 H1) as (a2 & E2 & H2).
  { intros i b Hi. apply Hb. lia. }
  exists a2. split.
  - unfold mbind, res_bind. by rewrite E.
  - by replace (start + Z.of_nat (S n)) with (start + 1 + Z.of_nat n) by lia.
Qed.

(** A loop and what follows it. *)
Lemma for_bind {A B} (I : Z -> A -> Prop) (Q : B -> Prop) body n start a (k : A -> res B) :
  I start a ->
  (forall i a, start <= i < start + Z.of_nat n -> I i a -> exists a', body i a = Ok a' /\ I (i + 1) a') ->
  (forall a', I (start + Z.of_nat n) a' -> exists b, k a' = Ok b /\ Q b) ->
  exists b, (for_ n start body a ≫= k) = Ok b /\ Q b.
Proof.
  intros Ha Hb Hk. destruct (for_inv I body n start a Ha Hb) as (a' & E & Hi).
  destruct (Hk a' Hi) as (b & E2 & Hq). exists b. rewrite E. done.
Qed.

(** A loop in a loop. *)
Lemma for_last {A} (I : Z -> A -> Prop) (Q : A -> Prop) body n start a :
  I start a ->
  (forall i a, start <= i < start + Z.of_nat n -> I i a -> exists a', body i a = Ok a' /\ I (i + 1) a') ->
  (forall a', I (start + Z.of_nat n) a' -> Q a') ->
  exists a', for_ n start body a = Ok a' /\ Q a'.
Proof. intros Ha Hb Hq. destruct (for_inv I body n start a Ha Hb) as (a' & E & Hi). eauto. Qed.

(* ------------------------------------------------------------------ *)
(** ** Page-table entries as arithmetic *)

(** The flags of an entry: its low ten bits. *)
Definition flags_of (pte : Z) : Z := pte mod 2 ^ 10.

(** A 32-bit entry with the flags [fl]. *)
Definition with_flags (fl pte : Z) : Prop := in_u 32 pte /\ flags_of pte = fl.

Lemma with_flags_lor fl pte k : in_u 10 k -> with_flags fl pte -> with_flags (fl .| k) (pte .| k).
Proof.
  intros Hk [Hp <-]. split; [apply in_u_lor; [lia | done | by apply (in_u_mono 10)] |].
  unfold flags_of. rewrite <- !Z.land_ones, Z.land_lor_distr_l by lia. f_equal.
  rewrite Z.land_ones by lia. by apply Z.mod_small.
Qed.

Lemma with_flags_rwx pte :
  with_flags 1 pte -> with_flags 15 (Pte32.SetR (Pte32.SetW (Pte32.SetX pte 1) 1) 1).
Proof.
  intros. unfold Pte32.SetX, Pte32.SetW, Pte32.SetR. rewrite !SetBit_1_lor by lia.
  by apply (with_flags_lor 13 _ 2), (with_flags_lor 9 _ 4), (with_flags_lor 1 _ 8).
Qed.

Lemma SetV_flags fl pte : fl = 0 \/ fl = 1 -> with_flags fl pte -> with_flags 1 (Pte32.SetV pte 1).
Proof.
  intros [-> | ->] Hp; unfold Pte32.SetV; rewrite SetBit_1_lor by lia;
    [by apply (with_flags_lor 0 _ 1) | by apply (with_flags_lor 1 _ 1)].
Qed.

Lemma SetPpn_flags fl pte ppn :
  with_flags fl pte -> in_u 22 ppn ->
  Pte32.SetPpn pte ppn = ppn * 2 ^ 10 + fl /\ with_flags fl (Pte32.SetPpn pte ppn).
Proof.
  intros [Hp <-] Hn. enough (E : Pte32.SetPpn pte ppn = ppn * 2 ^ 10 + flags_of pte).
  { split; [done |]. unfold with_flags. rewrite E. pose proof (Z.mod_pos_bound pte (2 ^ 10) eq_refl).
    unfold in_u, flags_of in *. split; [lia |]. rewrite Z.add_comm, Z.mod_add, Z.mod_mod; lia. }
  assert (Hf : in_u 10 (flags_of pte)) by (apply Z.mod_pos_bound; lia).
  rewrite <- lor_low by (lia || done). apply Z.bits_inj'. intros i Hi. unfold Pte32.SetPpn.
  rewrite SetPpn_testbit, Z.lor_spec, Z.shiftl_spec by (done || lia). unfold flags_of.
  destruct (Z.leb_spec 10 i); cbn [andb].
  - rewrite Z.mod_pow2_bits_high, orb_false_r by lia. destruct (Z.ltb_spec i 32); [done |].
    rewrite (testbit_above 32 pte), (testbit_above 22 ppn) by (done || lia). done.
  - by rewrite Z.mod_pow2_bits_low, (Z.testbit_neg_r ppn) by lia.
Qed.

(* ------------------------------------------------------------------ *)
(** ** Filling an array of the memory *)

Section Tables.
  Context {M : Type} `{GuestMemoryLaws M}.
  Implicit Types m : M.

(** The first [n] entries of the array at [base] are [g 0], [g 1], ...; memory
    outside it is that of [m0]. *)
Definition filled (m0 : M) (w : width) (base : Z) (g : Z -> Z) (n : Z) (m : M) : Prop :=
  mem_ok m /\
  (forall k, 0 <= k < n -> ByteMem.load (nbytes w) (mem_byte m) (base + Z.of_nat (nbytes w) * k) = g k) /\
  (forall b, 0 <= b < 2 ^ 32 -> ~ (base <= b < base + Z.of_nat (nbytes w) * n) -> mem_byte m b = mem_byte m0 b).

Lemma filled_0 m w base g : mem_ok m -> filled m w base g 0 m.
Proof. intros. split; [done |]. split; [lia | done]. Qed.

Lemma filled_S m0 w base g n m a v :
  filled m0 w base g n m -> 0 <= n -> 0 <= base -> base mod Z.of_nat (nbytes w) = 0 ->
  base + Z.of_nat (nbytes w) * (n + 1) <= 2 ^ 32 ->
  a = base + Z.of_nat (nbytes w) * n -> v = g n -> in_u (nbits w) v ->
  exists m', mem_write w m a v = Ok m' /\ filled m0 w base g (n + 1) m'.
Proof.
  intros (Hm & Hl & Hf) Hn Hb Hal Hend -> -> Hv.
  set (z := Z.of_nat (nbytes w)) in *. assert (Hz : 1 <= z <= 8) by (subst z; destruct w; cbn; lia).
  destruct (mem_write_spec w m (base + z * n) (g n)) as (m' & E & Hm' & Hby); [done | | done | |].
  { unfold in_u. nia. }
  { fold z. rewrite Z.mul_comm, Z.mod_add by lia. done. }
  exists m'. split; [done |]. split; [done |]. split.
  - intros k Hk. rewrite (ByteMem.load_ext _ _ (ByteMem.store (nbytes w) (mem_byte m) (base + z * n) (g n))) by auto.
    destruct (decide (k = n)) as [-> | Hne].
    + rewrite ByteMem.load_store_same by (fold z; lia). by apply uint_small.
    + rewrite ByteMem.load_store_other; [apply Hl; lia |]. fold z. intros i Hi.
      replace (base + z * k + i - (base + z * n)) with (2 ^ 32 + (z * (k - n) + i) + (-1) * 2 ^ 32) by ring.
      rewrite Z.mod_add by lia. rewrite Zplus_mod, Z.mod_same, Z.add_0_l, Z.mod_mod by lia.
      rewrite <- (Z.mod_add _ 1) by lia. rewrite Z.mod_small; nia.
  - intros b Hb32 Hout. rewrite Hby. unfold ByteMem.store. fold z. cbv zeta.
    destruct (Z.ltb_spec ((b - (base + z * n)) mod 2 ^ 32) z) as [Hlt |]; [| apply Hf; nia].
    exfalso. assert (0 <= z * n) by nia. zlia.
Qed.
(** One iteration: the page number goes into the entry, the entry to memory. *)
Lemma fill_entry m0 w base g fl ppn n m pte a :
  with_flags fl pte -> filled m0 w base g n m -> in_u 22 ppn -> g n = ppn * 2 ^ 10 + fl -> 32 <= nbits w ->
  0 <= n -> 0 <= base -> base mod Z.of_nat (nbytes w) = 0 -> base + Z.of_nat (nbytes w) * (n + 1) <= 2 ^ 32 ->
  a = base + Z.of_nat (nbytes w) * n ->
  exists s', (memory ← mem_write w m a (Pte32.GetValue (Pte32.SetPpn pte ppn)); mret (Pte32.SetPpn pte ppn, memory))
             = Ok s' /\ with_flags fl s'.1 /\ filled m0 w base g (n + 1) s'.2.
Proof.
  intros Hp Hfill Hppn Hg Hw Hn Hb Hal Hend Ha. destruct (SetPpn_flags fl pte ppn Hp Hppn) as [E Hp'].
  unfold Pte32.GetValue. destruct (filled_S m0 w base g n m a (Pte32.SetPpn pte ppn)) as (m' & Ew & Hm'); try done.
  { by rewrite E. }
  { apply (in_u_mono 32); [lia | apply Hp']. }
  exists (Pte32.SetPpn pte ppn, m'). rewrite Ew. done.
Qed.

(* ------------------------------------------------------------------ *)
(** ** The tables the two functions build *)

(** Entry [i] of a table of pointers to consecutive pages, and of the table of
    leaves, readable, writable and executable. *)
Definition pointer (page i : Z) : Z := (page + i) * 2 ^ 10 + 1.
Definition leaf_entry (k : Z) : Z := k * 2 ^ 10 + 15.
Definition root_entry (i : Z) : Z := if i <? 4 then pointer 0xC0001 i else 1.

Definition tables32 (m0 m : M) : Prop :=
  exists m1, filled m0 W32 k32BitMmuLevel1 (pointer 0xC0001) 1024 m1 /\
             filled m1 W32 k32BitMmuLevel0 leaf_entry (1024 * 1024) m.

Definition tables64 (m0 m : M) : Prop :=
  exists m2 m1, filled m0 W64 k64BitMmuLevel2 root_entry 512 m2 /\
                filled m2 W64 k64BitMmuLevel1 (pointer 0xC0005) (4 * 512) m1 /\
                filled m1 W64 k64BitMmuLevel0 leaf_entry (4 * 512 * 512) m.
End Tables.

Ltac constants :=
  change k32BitMmuLevel1 with 0xC0000000 in *; change k32BitMmuLevel0 with 0xC0001000 in *;
  change k64BitMmuLevel2 with 0xC0000000 in *; change k64BitMmuLevel1 with 0xC0001000 in *;
  change k64BitMmuLevel0 with 0xC0005000 in *;
  change k32BitMmuLevelZeroSize with 1024 in *; change k32BitPteSize with 4 in *;
  change k64BitMmuLevelZeroSize with 512 in *; change k64BitMmuLevelOneSize with 512 in *;
  change k64BitPteSize with 8 in *; cbn [fst snd nbytes nbits] in *.

Section Default.
  Context {M : Type} `{GuestMemoryLaws M}.
  Implicit Types m : M.

Lemma root_entry_lo i : i < 4 -> root_entry i = pointer 0xC0001 i.
Proof. intros. unfold root_entry. by destruct (Z.ltb_spec i 4); [| lia]. Qed.

Lemma root_entry_hi i : 4 <= i -> root_entry i = 0 * 2 ^ 10 + 1.
Proof. intros. unfold root_entry. by destruct (Z.ltb_spec i 4); [lia |]. Qed.

Ltac fill g :=
  rewrite ?Z.shiftr_div_pow2 by lia; rewrite ?(uint_small 64), ?(uint_small 32) by (unfold in_u; zlia);
  eapply (fill_entry _ _ _ g); try done; rewrite ?root_entry_lo, ?root_entry_hi by lia;
  unfold in_u, pointer, leaf_entry; cbn [nbytes nbits]; zlia.

Lemma SetDefaultMmuTable32_run m : mem_ok m -> exists m', SetDefaultMmuTable32 m = Ok m' /\ tables32 m m'.
Proof.
  intros Hm. unfold SetDefaultMmuTable32.
  apply (for_bind (fun i s => with_flags 1 s.1 /\ filled m W32 k32BitMmuLevel1 (pointer 0xC0001) i s.2)).
  { split; [split; reflexivity || (vm_compute; by split) | by apply filled_0]. }
  { intros i [pte m'] Hi [Hp Hf]. change (Z.of_nat _) with 1024 in Hi. constants. fill (pointer 0xC0001). }
  intros [pte1 m1] [Hp1 H1]. change (0 + Z.of_nat _) with 1024 in H1. cbn [fst snd] in Hp1, H1.
  apply (for_bind (fun j s => with_flags 15 s.1 /\ filled m1 W32 k32BitMmuLevel0 leaf_entry (1024 * j) s.2)).
  { split; [by apply with_flags_rwx | apply filled_0, H1]. }
  { intros j s Hj [Hp Hf]. change (Z.of_nat _) with 1024 in Hj.
    apply (for_last (fun i s => with_flags 15 s.1 /\
      filled m1 W32 k32BitMmuLevel0 leaf_entry (1024 * j + i) s.2)).
    - by rewrite Z.add_0_r.
    - clear s Hp Hf. intros i [pte m'] Hi [Hp Hf]. change (Z.of_nat _) with 1024 in Hi. constants.
      rewrite (uint_small 32 (j * 1024 + i)) by (unfold in_u; lia).
      rewrite (uint_small 32 (0xC0001000 + _)) by (unfold in_u; lia).
      ground_int (u32 (0xC0000000 + k32BitMmuLevelOneSize * 4)).
      destruct (Z.leb_spec 0xC0001000 (0xC0001000 + (j * 1024 + i) * 4)); [| lia].
      rewrite orb_true_r. cbv zeta. replace (1024 * j + (i + 1)) with (1024 * j + i + 1) by lia. fill leaf_entry.
    - intros s'. change (Z.of_nat _) with 1024. by replace (1024 * j + (0 + 1024)) with (1024 * (j + 1)) by lia. }
  intros [pte2 m2] [_ H2]. exists m2. split; [done |]. exists m1. by split.
Qed.

Lemma SetDefaultMmuTable64_run m : mem_ok m -> exists m', SetDefaultMmuTable64 m = Ok m' /\ tables64 m m'.
Proof.
  intros Hm. unfold SetDefaultMmuTable64.
  apply (for_bind (fun i s => with_flags (if i =? 0 then 0 else 1) s.1 /\
                              filled m W64 k64BitMmuLevel2 root_entry i s.2)).
  { split; [split; reflexivity || (vm_compute; by split) | by apply filled_0]. }
  { intros i [pte m'] Hi [Hp Hf]. change (Z.of_nat _) with 512 in Hi. constants.
    replace (i + 1 =? 0) with false by lia. cbv zeta.
    destruct (Z.ltb_spec i 4).
    - assert (Hp' : with_flags 1 (Pte32.SetV pte 1)) by (revert Hp; apply SetV_flags; case_match; auto).
      revert Hp'. generalize (Pte32.SetV pte 1). clear pte Hp. intros pte Hp. fill root_entry.
    - replace (i =? 0) with false in Hp by lia. fill root_entry. }
  intros [pte2 m2] [Hp2 H2]. change (0 + Z.of_nat _) with 512 in H2, Hp2. cbn [fst snd Z.eqb] in Hp2, H2.
  apply (for_bind (fun j s => with_flags 1 s.1 /\ filled m2 W64 k64BitMmuLevel1 (pointer 0xC0005) (512 * j) s.2)).
  { split; [by apply (SetV_flags 1); [right |] | apply filled_0, H2]. }
  { intros j s Hj [Hp Hf]. change (Z.of_nat _) with 4 in Hj.
    apply (for_last (fun i s => with_flags 1 s.1 /\
      filled m2 W64 k64BitMmuLevel1 (pointer 0xC0005) (512 * j + i) s.2)).
    - by rewrite Z.add_0_r.
    - clear s Hp Hf. intros i [pte m'] Hi [Hp Hf]. change (Z.of_nat _) with 512 in Hi. constants.
      cbv zeta. replace (512 * j + (i + 1)) with (512 * j + i + 1) by lia. fill (pointer 0xC0005).
    - intros s'. change (Z.of_nat _) with 512. by replace (512 * j + (0 + 512)) with (512 * (j + 1)) by lia. }
  intros [pte1 m1] [Hp1 H1]. change (512 * (0 + Z.of_nat _)) with (4 * 512) in H1. cbn [fst snd] in Hp1, H1.
  apply (for_bind (fun k s => with_flags 15 s.1 /\ filled m1 W64 k64BitMmuLevel0 leaf_entry (512 * 512 * k) s.2)).
  { split; [by apply with_flags_rwx | apply filled_0, H1]. }
  { intros k s Hk [Hp Hf]. change (Z.of_nat _) with 4 in Hk.
    apply (for_last (fun j s => with_flags 15 s.1 /\
      filled m1 W64 k64BitMmuLevel0 leaf_entry (512 * 512 * k + 512 * j) s.2)).
    - by rewrite Z.add_0_r.
    - clear s Hp Hf. intros j s Hj [Hp Hf]. change (Z.of_nat _) with 512 in Hj.
      apply (for_last (fun i s => with_flags 15 s.1 /\
        filled m1 W64 k64BitMmuLevel0 leaf_entry (512 * 512 * k + 512 * j + i) s.2)).
      + by rewrite Z.add_0_r.
      + clear s Hp Hf. intros i [pte m'] Hi [Hp Hf]. change (Z.of_nat _) with 512 in Hi. constants. cbv zeta.
        replace (512 * 512 * k + 512 * j + (i + 1)) with (512 * 512 * k + 512 * j + i + 1) by lia. fill leaf_entry.
      + intros s'. change (Z.of_nat _) with 512.
        by replace (512 * 512 * k + 512 * j + (0 + 512)) with (512 * 512 * k + 512 * (j + 1)) by lia.
    - intros s'. change (Z.of_nat _) with 512.
      by replace (512 * 512 * k + 512 * (0 + 512)) with (512 * 512 * (k + 1)) by lia. }
  intros [pte0 m0] [_ H0']. exists m0. split; [done |]. by exists m2, m1.
Qed.
End Default.

(* ------------------------------------------------------------------ *)
(** ** They map every 32-bit address to itself *)

Definition identity_mapped (fmt : PageTable.format) (root : Z) (f : ByteMem.t) : Prop :=
  forall va, in_u 32 va -> exists a pte, PageTable.translate fmt f root va = Some (va, a, pte).

(** A pointer leads to the page it names, a leaf maps to its page. *)
Lemma pointer_entry fmt page i :
  22 <= PageTable.ppn_bits fmt -> 0 <= page + i < 2 ^ 22 ->
  PageTable.valid (pointer page i) = true /\ PageTable.leaf (pointer page i) = false /\
  PageTable.ppn fmt (pointer page i) = page + i.
Proof.
  intros Hf Hi. set (n := page + i) in *.
  assert (Hb : forall j, 0 <= j < 10 -> Z.testbit (pointer page i) j = (j =? 0)).
  { intros j Hj. unfold pointer. fold n. rewrite <- (lor_low n 1 10) by (unfold in_u; lia).
    rewrite Z.lor_spec, Z.shiftl_spec, (Z.testbit_neg_r n) by lia. cbn [orb].
    destruct (Z.eqb_spec j 0) as [-> |]; [done |]. apply (testbit_above 1); unfold in_u; lia. }
  unfold PageTable.valid, PageTable.leaf. rewrite <- Z.bit0_odd, !Hb by lia. repeat split.
  unfold PageTable.ppn, pointer. fold n. rewrite Z.add_comm, Z.div_add by lia. apply Z.mod_small.
  split; [lia |]. apply (Z.lt_le_trans _ (2 ^ 22)); [lia | apply Z.pow_le_mono_r; lia].
Qed.

Lemma leaf_entry_spec fmt k :
  22 <= PageTable.ppn_bits fmt -> 0 <= k < 2 ^ 22 ->
  PageTable.valid (leaf_entry k) = true /\ PageTable.leaf (leaf_entry k) = true /\
  PageTable.ppn fmt (leaf_entry k) = k.
Proof.
  intros Hf Hk.
  assert (Hb : forall j, 0 <= j < 10 -> Z.testbit (leaf_entry k) j = (j <? 4)).
  { intros j Hj. unfold leaf_entry. rewrite <- (lor_low k 15 10) by (unfold in_u; lia).
    rewrite Z.lor_spec, Z.shiftl_spec, (Z.testbit_neg_r k) by lia. cbn [orb].
    change 15 with (Z.ones 4). by rewrite Z.testbit_ones_nonneg by lia. }
  unfold PageTable.valid, PageTable.leaf. rewrite <- Z.bit0_odd, !Hb by lia. repeat split.
  unfold PageTable.ppn, leaf_entry. rewrite Z.add_comm, Z.div_add by lia. apply Z.mod_small.
  split; [lia |]. apply (Z.lt_le_trans _ (2 ^ 22)); [lia | apply Z.pow_le_mono_r; lia].
Qed.

Section Identity.
  Context {M : Type} `{GuestMemoryLaws M}.
  Implicit Types m : M.

(** What is outside an array reads as before the array was filled. *)
Lemma filled_load m0 m w base g n k a :
  filled m0 w base g n m -> 0 <= a -> a + Z.of_nat k <= 2 ^ 32 ->
  a + Z.of_nat k <= base \/ base + Z.of_nat (nbytes w) * n <= a ->
  ByteMem.load k (mem_byte m) a = ByteMem.load k (mem_byte m0) a.
Proof. intros (_ & _ & Hf) Ha Hk Hd. apply ByteMem.load_ext. intros b Hb. apply Hf; lia. Qed.

Lemma filled_frame m0 m w base g n a :
  filled m0 w base g n m -> 0 <= a < 2 ^ 32 -> ~ (base <= a < base + Z.of_nat (nbytes w) * n) ->
  mem_byte m a = mem_byte m0 a.
Proof. intros (_ & _ & Hf). apply Hf. Qed.

(** The entry of [va] in a table at page [root] is the [vpn]-th of the array. *)
Lemma entry_at fmt m root va l :
  (root + 1) * 4096 <= 2 ^ 32 -> 0 <= root -> 0 <= PageTable.vpn_bits fmt ->
  Z.of_nat (nbytes (PageTable.pte_width fmt)) * 2 ^ PageTable.vpn_bits fmt = 4096 ->
  PageTable.entry fmt (mem_byte m) root va l =
    ByteMem.load (nbytes (PageTable.pte_width fmt)) (mem_byte m)
      (root * 4096 + Z.of_nat (nbytes (PageTable.pte_width fmt)) * PageTable.vpn fmt va l).
Proof.
  intros Hr Hr0 Hv Hsz. unfold PageTable.entry, PageTable.slot. f_equal.
  assert (Hb : 0 <= PageTable.vpn fmt va l < 2 ^ PageTable.vpn_bits fmt).
  { apply Z.mod_pos_bound, Z.pow_pos_nonneg; lia. }
  rewrite Z.mod_small; nia.
Qed.

Lemma tables32_identity m0 m : tables32 m0 m -> identity_mapped PageTable.sv32 0xC0000 (mem_byte m).
Proof.
  intros (m1 & H1 & H2) va Hva.
  set (v1 := PageTable.vpn PageTable.sv32 va 1). set (v0 := PageTable.vpn PageTable.sv32 va 0).
  assert (E1 : v1 = va / 2 ^ 22 /\ 0 <= v1 < 1024 /\ 0 <= v0 < 1024 /\ va / 2 ^ 12 = 1024 * v1 + v0).
  { subst v1 v0. unfold PageTable.vpn, PageTable.span, in_u in *. cbn [PageTable.vpn_bits PageTable.sv32].
    change (12 + 10 * Z.of_nat 1) with 22. change (12 + 10 * Z.of_nat 0) with 12. zlia. }
  destruct E1 as (_ & Hv1 & Hv0 & Hpn).
  assert (Er : PageTable.entry PageTable.sv32 (mem_byte m) 0xC0000 va 1 = pointer 0xC0001 v1).
  { rewrite entry_at by (cbn; lia). fold v1. cbn [PageTable.pte_width PageTable.sv32].
    constants. rewrite (filled_load _ _ _ _ _ _ _ _ H2) by (cbn [nbytes]; lia). apply H1. lia. }
  assert (El : PageTable.entry PageTable.sv32 (mem_byte m) (0xC0001 + v1) va 0 = leaf_entry (1024 * v1 + v0)).
  { rewrite entry_at by (cbn; lia). fold v0. cbn [PageTable.pte_width PageTable.sv32]. constants.
    replace ((0xC0001 + v1) * 4096 + Z.of_nat 4 * v0) with (0xC0001000 + Z.of_nat 4 * (1024 * v1 + v0)) by lia.
    apply H2. lia. }
  destruct (pointer_entry PageTable.sv32 0xC0001 v1) as (Vp & Lp & Pp); [cbn; lia | lia |].
  destruct (leaf_entry_spec PageTable.sv32 (1024 * v1 + v0)) as (Vl & Ll & Pl); [cbn; lia | lia |].
  unfold PageTable.translate. cbn [PageTable.top_level PageTable.sv32 PageTable.walk].
  rewrite Er, Vp, Lp, Pp. cbn [negb]. rewrite El, Vl, Ll. cbn [negb].
  unfold PageTable.aligned, PageTable.physical. rewrite Pl.
  cbn [PageTable.vpn_bits PageTable.pa_bits PageTable.sv32]. change (PageTable.span PageTable.sv32 0) with 12.
  change (2 ^ (10 * Z.of_nat 0)) with 1. rewrite Z.mod_1_r, Z.eqb_refl. do 2 eexists. do 3 f_equal.
  rewrite <- Hpn. unfold in_u in Hva. zlia.
Qed.

Lemma tables64_identity m0 m : tables64 m0 m -> identity_mapped PageTable.sv39 0xC0000 (mem_byte m).
Proof.
  intros (m2 & m1 & H2 & H1 & H0') va Hva.
  set (v2 := PageTable.vpn PageTable.sv39 va 2).
  set (v1 := PageTable.vpn PageTable.sv39 va 1). set (v0 := PageTable.vpn PageTable.sv39 va 0).
  assert (E1 : 0 <= v2 < 4 /\ 0 <= v1 < 512 /\ 0 <= v0 < 512 /\ va / 2 ^ 12 = 512 * (512 * v2 + v1) + v0).
  { subst v2 v1 v0. unfold PageTable.vpn, PageTable.span, in_u in *. cbn [PageTable.vpn_bits PageTable.sv39].
    change (12 + 9 * Z.of_nat 2) with 30. change (12 + 9 * Z.of_nat 1) with 21.
    change (12 + 9 * Z.of_nat 0) with 12. zlia. }
  destruct E1 as (Hv2 & Hv1 & Hv0 & Hpn).
  assert (Er : PageTable.entry PageTable.sv39 (mem_byte m) 0xC0000 va 2 = pointer 0xC0001 v2).
  { rewrite entry_at by (cbn; lia). fold v2. cbn [PageTable.pte_width PageTable.sv39]. constants.
    rewrite (filled_load _ _ _ _ _ _ _ _ H0'), (filled_load _ _ _ _ _ _ _ _ H1) by (cbn [nbytes]; lia).
    rewrite <- root_entry_lo by lia. apply H2. lia. }
  assert (Em : PageTable.entry PageTable.sv39 (mem_byte m) (0xC0001 + v2) va 1 = pointer 0xC0005 (512 * v2 + v1)).
  { rewrite entry_at by (cbn; lia). fold v1. cbn [PageTable.pte_width PageTable.sv39]. constants.
    rewrite (filled_load _ _ _ _ _ _ _ _ H0') by (cbn [nbytes]; lia).
    replace ((0xC0001 + v2) * 4096 + Z.of_nat 8 * v1) with (0xC0001000 + Z.of_nat 8 * (512 * v2 + v1)) by lia.
    apply H1. lia. }
  assert (El : PageTable.entry PageTable.sv39 (mem_byte m) (0xC0005 + (512 * v2 + v1)) va 0
               = leaf_entry (512 * (512 * v2 + v1) + v0)).
  { rewrite entry_at by (cbn; lia). fold v0. cbn [PageTable.pte_width PageTable.sv39]. constants.
    replace ((0xC0005 + (512 * v2 + v1)) * 4096 + Z.of_nat 8 * v0)
      with (0xC0005000 + Z.of_nat 8 * (512 * (512 * v2 + v1) + v0)) by lia.
    apply H0'. lia. }
  destruct (pointer_entry PageTable.sv39 0xC0001 v2) as (Vp & Lp & Pp); [cbn; lia | lia |].
  destruct (pointer_entry PageTable.sv39 0xC0005 (512 * v2 + v1)) as (Vq & Lq & Pq); [cbn; lia | lia |].
  destruct (leaf_entry_spec PageTable.sv39 (512 * (512 * v2 + v1) + v0)) as (Vl & Ll & Pl); [cbn; lia | lia |].
  unfold PageTable.translate. cbn [PageTable.top_level PageTable.sv39 PageTable.walk].
  rewrite Er, Vp, Lp, Pp. cbn [negb]. rewrite Em, Vq, Lq, Pq. cbn [negb]. rewrite El, Vl, Ll. cbn [negb].
  unfold PageTable.aligned, PageTable.physical. rewrite Pl.
  cbn [PageTable.vpn_bits PageTable.pa_bits PageTable.sv39]. change (PageTable.span PageTable.sv39 0) with 12.
  change (2 ^ (9 * Z.of_nat 0)) with 1. rewrite Z.mod_1_r, Z.eqb_refl. do 2 eexists. do 3 f_equal.
  rewrite <- Hpn. unfold in_u in Hva. zlia.
Qed.
End Identity.

(** A sequence of translations, as the processor makes them: the address and the
    fault of each. *)
Fixpoint translate_all {M} `{GuestMemory M} (satp : Z) (accesses : list (Z * bool)) : ST (Mmu.t * M) (list (Z * bool)) :=
  match accesses with
  | [] => mret []
  | (va, write) :: rest =>
      pa ← Mmu.VirtualToPhysical va satp write;
      fault ← gets (fun s => Mmu.GetPageFault s.1);
      results ← translate_all satp rest;
      mret ((pa, fault) :: results)
  end.

Section Accesses.
  Context {M : Type} `{GuestMemoryLaws M}.
  Implicit Types m : M.

Lemma identity_touch fmt root f write va pa a pte :
  (forall b, in_u 8 (f b)) -> 0 <= PageTable.ppn_bits fmt <= 64 ->
  PageTable.translate fmt f root va = Some (pa, a, pte) ->
  identity_mapped fmt root f -> identity_mapped fmt root (PageTable.touch fmt f write a pte).
Proof.
  intros Hf Hb T Hid va' Hva. rewrite (translate_touch fmt f write root va pa a pte) by done.
  destruct (Hid va' Hva) as (a' & pte' & ->). cbn [option_map]. eauto.
Qed.

Lemma identity_ext fmt root f g :
  (forall b, f b = g b) -> identity_mapped fmt root g -> identity_mapped fmt root f.
Proof. intros E Hid va Hva. rewrite (translate_ext _ f g) by done. by apply Hid. Qed.

(** Under an identity map, or without translation, every access gets its address. *)
Definition identical (u : Mmu.t) (m : M) (satp : Z) : Prop :=
  match regime_of u satp with
  | Bare => True
  | Paged fmt root => identity_mapped fmt root (mem_byte m)
  | Unsupported => False
  end.

Lemma translate_identical u m satp va write :
  mem_ok m -> in_u 32 va -> identical u m satp ->
  exists m', Mmu.VirtualToPhysical va satp write (u, m) = Ok (va, (cleared u, m')) /\ mem_ok m' /\
             identical (cleared u) m' satp.
Proof.
  intros Hm Hva Hid. pose proof (VirtualToPhysical_spec u m va satp write Hm) as Hs.
  unfold identical, translates, implements in *. change (regime_of (cleared u) satp) with (regime_of u satp).
  destruct (regime_of u satp) as [|fmt root|] eqn:R; [eauto | | done].
  cbn [fst snd] in Hs. destruct (Hid va Hva) as (a & pte & T). rewrite T in Hs.
  destruct Hs as (m' & E & Hm' & Hb). exists m'. split; [done |]. split; [done |].
  apply (identity_ext _ _ _ _ Hb). apply (identity_touch _ _ _ _ va va); [| | done | done].
  - intros. by apply mem_byte_range.
  - revert R. unfold regime_of. repeat case_match; intros [= <- _]; cbn; lia.
Qed.

Lemma translate_all_identical satp accesses u m :
  mem_ok m -> Forall (fun a => in_u 32 a.1) accesses -> identical u m satp ->
  exists s, translate_all satp accesses (u, m) = Ok (map (fun a => (a.1, false)) accesses, s).
Proof.
  revert u m. induction accesses as [|[va write] rest IH]; intros u m Hm Hall Hid; cbn [translate_all map].
  { by exists (u, m). }
  apply Forall_cons_1 in Hall as [Hva Hall]. destruct (translate_identical u m satp va write) as (m' & E & Hm' & Hid');
    [done | done | done |].
  destruct (IH (cleared u) m' Hm' Hall Hid') as (s & Es). exists s.
  unfold mbind, st_bind. rewrite E. unfold gets. cbn [fst snd]. rewrite Es. done.
Qed.

(** Where the tables are. *)
Definition tables_end (address64bit : bool) : Z := if address64bit then 0xC0805000 else 0xC0401000.

Lemma SetDefaultMmuTable_run b m :
  mem_ok m ->
  exists m', SetDefaultMmuTable b m = Ok m' /\ mem_ok m' /\
    (forall a, 0 <= a < 2 ^ 32 -> ~ (0xC0000000 <= a < tables_end b) -> mem_byte m' a = mem_byte m a) /\
    identity_mapped (if b then PageTable.sv39 else PageTable.sv32) 0xC0000 (mem_byte m').
Proof.
  intros Hm. destruct b; unfold SetDefaultMmuTable, tables_end.
  - destruct (SetDefaultMmuTable64_run m Hm) as (m' & E & Ht). exists m'. split; [done |].
    pose proof (tables64_identity m m' Ht) as Hid. destruct Ht as (m2 & m1 & H2 & H1 & H0').
    split; [apply H0' |]. split; [| done]. intros a Ha Hout. constants.
    by rewrite (filled_frame _ _ _ _ _ _ _ H0'), (filled_frame _ _ _ _ _ _ _ H1), (filled_frame _ _ _ _ _ _ _ H2)
      by (cbn [nbytes]; lia).
  - destruct (SetDefaultMmuTable32_run m Hm) as (m' & E & Ht). exists m'. split; [done |].
    pose proof (tables32_identity m m' Ht) as Hid. destruct Ht as (m1 & H1 & H2).
    split; [apply H2 |]. split; [| done]. intros a Ha Hout. constants.
    by rewrite (filled_frame _ _ _ _ _ _ _ H2), (filled_frame _ _ _ _ _ _ _ H1) by (cbn [nbytes]; lia).
Qed.

(** The processor [run] sets up translates through them. *)
Lemma configure_satp misa_shift o gp :
  Cpu.csr (configure misa_shift o gp) SATP =
    if paging o then (if address64bit o then 2 ^ 63 + 0xC0000 else 2 ^ 31 + 0xC0000) else 0.
Proof.
  unfold configure. generalize (Cpu.SetRegister GP (u64 gp) (Cpu.SetRegister SP kTop
    (Cpu.SetEcallEmulationEnable (ecall_emulation o) (Cpu.RiscvCpu misa_shift (address64bit o))))). intros c.
  match goal with |- _ = ?e => change (Cpu.csr (Cpu.SetCsr SATP (if paging o then if address64bit o
    then (k64BitMmuLevel2 >>. 12) .| u64 (8 <<. 60)
    else u64 (u32 ((k32BitMmuLevel1 >>. 12) .| u32 (1 <<. 31))) else 0) c) SATP = e) end.
  unfold Cpu.SetCsr. rewrite csr_put_csr_eq. by destruct (paging o), (address64bit o).
Qed.

(** C17: the default page tables are an identity map.  [SetDefaultMmuTable] fills any
    memory without a failed assertion and writes only the tables' range; with the
    [satp] that [run] gives the processor, every sequence of reads and writes of
    32-bit addresses, in any privilege mode, translates each address to itself
    without a page fault, whatever accessed and dirty bits the accesses leave. *)
Theorem default_tables_identity (o : Options) (misa_shift gp : Z) (u : Mmu.t) m (accesses : list (Z * bool)) :
  mem_ok m -> Mmu.mxl_ u = (if address64bit o then 2 else 1) -> Forall (fun a => in_u 32 a.1) accesses ->
  exists m' s,
    SetDefaultMmuTable (address64bit o) m = Ok m' /\
    (forall a, 0 <= a < 2 ^ 32 -> ~ (0xC0000000 <= a < tables_end (address64bit o)) -> mem_byte m' a = mem_byte m a) /\
    translate_all (Cpu.csr (configure misa_shift o gp) SATP) accesses (u, m') = Ok (map (fun a => (a.1, false)) accesses, s).
Proof.
  intros Hm Hmxl Hall. destruct (SetDefaultMmuTable_run (address64bit o) m Hm) as (m' & E & Hm' & Hf & Hid).
  rewrite configure_satp. match goal with |- context [translate_all ?satp _ _] =>
    destruct (translate_all_identical satp accesses u m' Hm' Hall) as (s & Es); [| by exists m', s] end.
  unfold identical, regime_of. rewrite Hmxl. destruct (decide (Mmu.privilege_ u = MACHINE_MODE)); [done |].
  destruct (paging o), (address64bit o); try exact I; exact Hid.
Qed.
End Accesses.

Definition paging_options : Options := default_options <| paging := true |> <| address64bit := true |>.

Lemma default_tables_identity_witness :
  exists m' s,
    SetDefaultMmuTable true MemoryWrapper.MemoryWrapper = Ok m' /\
    (forall a, 0 <= a < 2 ^ 32 -> ~ (0xC0000000 <= a < 0xC0805000) ->
       mem_byte m' a = mem_byte MemoryWrapper.MemoryWrapper a) /\
    translate_all (Cpu.csr (configure 62 paging_options 0) SATP) [(0x80001234, true); (0xC0005000, false)]
      (Mmu.mk 2 false 0 USER_MODE, m') = Ok ([(0x80001234, false); (0xC0005000, false)], s).
Proof.
  apply (default_tables_identity paging_options 62 0 (Mmu.mk 2 false 0 USER_MODE) MemoryWrapper.MemoryWrapper
           [(0x80001234, true); (0xC0005000, false)]);
    [exact init_mem_ok | reflexivity | repeat constructor; cbn; lia].
Defined.

