(* ===== verification/ElfSpec.v ===== *)
(** * RISCV_Emulator.cc: the memory image of an ELF file

    The specification reads the program headers and the .bss section of the file
    as a list of segments and a range, and describes the memory they stand for;
    the loader leaves exactly that memory. *)

From Stdlib Require Import Ascii String.
From S2P Require Import Prelude BitTools Memory Peripheral Syscall LoadStore Loader LoaderSpec.

(** The layout of a file's class. *)
Definition class_layout (flag_64bit : bool) : layout := if flag_64bit then elf64 else elf32.

Record segment : Type := Segment { seg_vaddr : Z; seg_offset : Z; seg_filesz : Z }.

(** The loadable program headers among the [n] from the [i]-th on. *)
Fixpoint segments (L : layout) (program : vector) (n : nat) (i : Z) : res (list segment) :=
  match n with
  | O => mret []
  | S n' =>
      phoff ← arrow program 0 (e_phoff (ehdr L));
      phentsize ← arrow program 0 (e_phentsize (ehdr L));
      let p := phoff + phentsize * i in
      type ← arrow program p (p_type (phdr L));
      if type =? 1 then
        filesz ← arrow program p (p_filesz (phdr L));
        vaddr ← arrow program p (p_vaddr (phdr L));
        offset ← arrow program p (p_offset (phdr L));
        rest ← segments L program n' (i + 1);
        mret (Segment vaddr offset filesz :: rest)
      else segments L program n' (i + 1)
  end.

Definition program_segments (L : layout) (program : vector) : res (list segment) :=
  phnum ← arrow program 0 (e_phnum (ehdr L)); segments L program (Z.to_nat phnum) 0.

(** Address and size of the section to clear; the empty range without one. *)
Definition bss_range (L : layout) (program : vector) : res (Z * Z) :=
  shdr_ ← SearchElfShdr_name L program ".bss";
  match shdr_ with
  | None => mret (0, 0)
  | Some s => addr ← arrow program s (sh_addr (shdr L)); size ← arrow program s (sh_size (shdr L)); mret (addr, size)
  end.

(** A segment in memory: the bytes of the file at its addresses. *)
Definition placed (program : vector) (f : ByteMem.t) (s : segment) : ByteMem.t := fun a =>
  if bool_decide (seg_vaddr s <= a < seg_vaddr s + seg_filesz s)
  then zget (bytes program) (seg_offset s + (a - seg_vaddr s)) else f a.

(** The segments in order, then the cleared range. *)
Definition image (program : vector) (segs : list segment) (bss : Z * Z) (f : ByteMem.t) : ByteMem.t := fun a =>
  if bool_decide (bss.1 <= a < bss.1 + bss.2) then 0 else fold_left (placed program) segs f a.

Definition file_ok (program : vector) : Prop := size program <= kMaxBinarySize /\ zvec_wf 8 (bytes program).

(** In the file, and at 32-bit addresses. *)
Definition segment_ok (program : vector) (s : segment) : Prop :=
  0 <= seg_offset s /\ seg_offset s + seg_filesz s <= size program /\ 0 <= seg_vaddr s /\
  0 <= seg_filesz s /\ seg_vaddr s + seg_filesz s <= 2 ^ 32.

Lemma Ok_bind {A B} (a : A) (k : A -> res B) : Ok a ≫= k = k a.
Proof. done. Qed.

Lemma fold_placed_ext program segs f g a :
  f a = g a -> fold_left (placed program) segs f a = fold_left (placed program) segs g a.
Proof.
  revert f g. induction segs as [|s segs IH]; intros f g E; cbn [fold_left]; [done |].
  apply IH. unfold placed. by rewrite E.
Qed.

(* ------------------------------------------------------------------ *)
(** ** The loops *)

Section Load.
  Context {M : Type} `{GuestMemoryLaws M}.
  Implicit Types m : M.

(** A byte written at an address of the memory. *)
Lemma write_byte m a v :
  mem_ok m -> 0 <= a < 2 ^ 32 -> in_u 8 v ->
  exists m', mem_write W8 m a v = Ok m' /\ mem_ok m' /\
    forall b, 0 <= b < 2 ^ 32 -> mem_byte m' b = if decide (b = a) then v else mem_byte m b.
Proof.
  intros Hm Ha Hv. destruct (mem_write_spec W8 m a v) as (m' & E & Hm' & Hb);
    [done | unfold in_u; lia | done | apply Z.mod_1_r |].
  exists m'. split; [done |]. split; [done |]. intros b Hb32. rewrite Hb. unfold ByteMem.store. cbn [nbytes].
  change (Z.of_nat 1) with 1. cbv zeta. case_decide as E'.
  - subst. rewrite Z.sub_diag. cbn. by apply uint_small.
  - destruct (Z.ltb_spec ((b - a) mod 2 ^ 32) 1); [| done]. exfalso. zlia.
Qed.

Lemma load_segment_run L program p m s :
  addr_bits L = 32 \/ addr_bits L = 64 ->
  mem_ok m -> file_ok program -> segment_ok program s ->
  arrow program p (p_filesz (phdr L)) = Ok (seg_filesz s) ->
  arrow program p (p_vaddr (phdr L)) = Ok (seg_vaddr s) ->
  arrow program p (p_offset (phdr L)) = Ok (seg_offset s) ->
  exists m', load_segment L program p m = Ok m' /\ mem_ok m' /\
    forall a, 0 <= a < 2 ^ 32 -> mem_byte m' a = placed program (mem_byte m) s a.
Proof.
  intros HL Hm [Hsize Hbytes] (Ho & Hend & Hv & Hn & Hmax) E1 E2 E3. unfold kMaxBinarySize in Hsize.
  unfold load_segment. rewrite E1. unfold mbind at 1, res_bind at 1.
  apply (for_last (fun i m' => mem_ok m' /\ forall a, 0 <= a < 2 ^ 32 ->
    mem_byte m' a = placed program (mem_byte m) (Segment (seg_vaddr s) (seg_offset s) i) a)).
  - split; [done |]. intros a Ha. unfold placed. cbn [seg_vaddr seg_filesz]. by rewrite bool_decide_false by lia.
  - intros i m' Hi [Hm' Hb]. rewrite Z2Nat.id in Hi by lia. rewrite E2, E3. unfold mbind, res_bind.
    rewrite (uint_small 32 i) by (unfold in_u; lia).
    rewrite !(uint_small (addr_bits L)) by (destruct HL as [-> | ->]; unfold in_u; lia).
    rewrite disk_get_ok by lia.
    destruct (write_byte m' (seg_vaddr s + i) (zget (bytes program) (seg_offset s + i))) as (m2 & E & Hm2 & Hb2);
      [done | lia | apply Hbytes |].
    exists m2. split; [done |]. split; [done |]. intros a Ha. rewrite Hb2, Hb by lia.
    unfold placed. cbn [seg_vaddr seg_offset seg_filesz]. case_decide as Hd.
    + rewrite bool_decide_true by lia. f_equal. lia.
    + destruct (decide (seg_vaddr s <= a < seg_vaddr s + i)); [rewrite !bool_decide_true by lia; done |].
      by rewrite !bool_decide_false by lia.
  - intros m'. rewrite Z2Nat.id, Z.add_0_l by lia. by destruct s.
Qed.

Lemma load_headers_run L program n i m segs :
  addr_bits L = 32 \/ addr_bits L = 64 ->
  mem_ok m -> file_ok program -> segments L program n i = Ok segs -> Forall (segment_ok program) segs ->
  exists m', for_ n i (load_header L program) m = Ok m' /\ mem_ok m' /\
    forall a, 0 <= a < 2 ^ 32 -> mem_byte m' a = fold_left (placed program) segs (mem_byte m) a.
Proof.
  intros HL. revert i m segs. induction n as [|n IH]; intros i m segs Hm Hf E Hok; cbn [for_ segments] in *.
  { injection E as <-. exists m. by split. }
  apply bind_Ok in E as (phoff & E1 & E). apply bind_Ok in E as (phentsize & E2 & E). cbv zeta in E.
  apply bind_Ok in E as (type & E3 & E).
  assert (Eh : load_header L program i m =
    if type =? 1 then load_segment L program (phoff + phentsize * i) m else mret m).
  { unfold load_header. rewrite E1, !Ok_bind, E2, Ok_bind. cbv zeta. by rewrite E3. }
  rewrite Eh. clear E1 E2 E3 Eh.
  destruct (type =? 1).
  - apply bind_Ok in E as (filesz & E1 & E). apply bind_Ok in E as (vaddr & E2 & E).
    apply bind_Ok in E as (offset & E3 & E). apply bind_Ok in E as (rest & E4 & E). injection E as <-.
    apply Forall_cons_1 in Hok as [Hs Hok].
    destruct (load_segment_run L program (phoff + phentsize * i) m (Segment vaddr offset filesz)) as (m1 & El & Hm1 & Hb1); try done.
    destruct (IH (i + 1) m1 rest) as (m2 & E5 & Hm2 & Hb2); try done.
    exists m2. rewrite El, Ok_bind. split; [done |]. split; [done |].
    intros a Ha. cbn [fold_left]. rewrite Hb2 by done. by apply fold_placed_ext, Hb1.
  - destruct (IH (i + 1) m segs) as (m2 & E5 & Hm2 & Hb2); try done. by exists m2.
Qed.

Lemma clear_bss_run L program m bss :
  addr_bits L = 32 \/ addr_bits L = 64 -> mem_ok m ->
  bss_range L program = Ok bss -> 0 <= bss.1 -> 0 <= bss.2 -> bss.1 + bss.2 < 2 ^ 32 ->
  exists m', (shdr_ ← SearchElfShdr_name L program ".bss"; clear_bss L program shdr_ m) = Ok m' /\ mem_ok m' /\
    forall a, 0 <= a < 2 ^ 32 ->
      mem_byte m' a = if bool_decide (bss.1 <= a < bss.1 + bss.2) then 0 else mem_byte m a.
Proof.
  intros HL Hm E Ha Hs Hend. unfold bss_range in E. apply bind_Ok in E as (shdr_ & -> & E).
  unfold mbind at 1, res_bind at 1. destruct shdr_ as [p|]; cbn [clear_bss].
  2:{ injection E as <-. exists m. split; [done |]. split; [done |]. intros. cbn. by rewrite bool_decide_false by lia. }
  apply bind_Ok in E as (addr & -> & E). apply bind_Ok in E as (size_ & -> & E). injection E as <-.
  cbn [fst snd] in *. unfold mbind, res_bind. cbv zeta.
  rewrite (uint_small (addr_bits L)), (uint_small 32) by (unfold in_u; destruct HL as [E | E]; rewrite ?E; lia).
  destruct (Z.leb_spec (2 ^ 32) (addr + size_)); [lia |].
  replace (addr + size_ - addr) with size_ by lia.
  apply (for_last (fun i m' => mem_ok m' /\ forall a, 0 <= a < 2 ^ 32 ->
    mem_byte m' a = if bool_decide (addr <= a < i) then 0 else mem_byte m a)).
  - split; [done |]. intros. by rewrite bool_decide_false by lia.
  - intros i m' Hi [Hm' Hb]. rewrite Z2Nat.id in Hi by lia.
    destruct (write_byte m' i 0) as (m2 & E & Hm2 & Hb2); [done | lia | done |].
    exists m2. split; [done |]. split; [done |]. intros a Ha32. rewrite Hb2, Hb by lia. case_decide.
    + by rewrite bool_decide_true by lia.
    + destruct (decide (addr <= a < i)); [rewrite !bool_decide_true by lia; done |].
      by rewrite !bool_decide_false by lia.
  - intros m'. by rewrite Z2Nat.id by lia.
Qed.

End Load.

Section Properties.
  Context {M : Type} `{GuestMemoryLaws M}.
  Implicit Types m : M.

(** Reading the identification of a file long enough for it. *)
Lemma arrow_ok program p f :
  0 <= p + f.1 -> p + f.1 + Z.of_nat f.2 <= size program -> exists v, arrow program p f = Ok v.
Proof.
  unfold arrow. generalize (p + f.1). generalize (f.2). intros n. induction n as [|n IH]; intros a Ha Hend; cbn [peek].
  { by exists 0. }
  rewrite disk_get_ok, Ok_bind by lia. destruct (IH (a + 1)) as (v & ->); [lia | lia |]. eauto.
Qed.

Lemma IsRightElf_ok program : 20 <= size program -> exists b, IsRightElf program = Ok b.
Proof.
  intros Hs. assert (Hok : forall f, 0 <= f.1 -> f.1 + Z.of_nat f.2 <= 20 -> exists v, arrow program 0 f = Ok v)
    by (intros; apply arrow_ok; lia).
  unfold IsRightElf. cbv zeta.
  repeat (match goal with |- exists _, (arrow program 0 ?f ≫= _) = _ =>
    let E := fresh "E" in destruct (Hok f) as (? & E); [cbn; lia | cbn; lia |]; rewrite E, Ok_bind end;
    match goal with |- exists _, (if ?b then _ else _) = _ => destruct b; [by eexists |] end).
  by eexists.
Qed.

(** Loading leaves the image. *)
Lemma LoadElfFile_run (program : vector) (flag_64bit : bool) (segs : list segment) (bss : Z * Z) m :
  mem_ok m -> file_ok program -> 20 <= size program ->
  Is64BitElf program = Ok flag_64bit ->
  program_segments (class_layout flag_64bit) program = Ok segs -> Forall (segment_ok program) segs ->
  bss_range (class_layout flag_64bit) program = Ok bss -> 0 <= bss.1 -> 0 <= bss.2 -> bss.1 + bss.2 < 2 ^ 32 ->
  exists m', LoadElfFile program m = Ok (flag_64bit, m') /\ mem_ok m' /\
    forall a, 0 <= a < 2 ^ 32 -> mem_byte m' a = image program segs bss (mem_byte m) a.
Proof.
  intros Hm Hf Hs Hc Hsegs Hok Hbss Ha Hn Hend. set (L := class_layout flag_64bit) in *.
  assert (HL : addr_bits L = 32 \/ addr_bits L = 64) by (subst L; destruct flag_64bit; auto).
  unfold LoadElfFile. destruct (IsRightElf_ok program Hs) as (b & ->). rewrite Ok_bind, Hc, Ok_bind.
  assert (El : (if flag_64bit then Load64BitElfFile program m else Load32BitElfFile program m) = LoadBitElfFile L program m)
    by (by destruct flag_64bit).
  rewrite El. unfold program_segments in Hsegs. apply bind_Ok in Hsegs as (phnum & Ep & Hsegs).
  destruct (load_headers_run L program (Z.to_nat phnum) 0 m segs) as (m1 & E1 & Hm1 & Hb1); try done.
  destruct (clear_bss_run L program m1 bss) as (m2 & E2 & Hm2 & Hb2); try done.
  exists m2. unfold LoadBitElfFile, load_headers. rewrite Ep, Ok_bind, E1, Ok_bind, E2. split; [done |]. split; [done |].
  intros a Ha32. unfold image. rewrite Hb2, Hb1 by done. done.
Qed.

(** C18: [LoadElfFile] leaves in memory the image the file describes: for a file whose
    headers can be read, whose loadable segments lie in the file and below 2^32 and
    whose .bss ends below 2^32, loading ends without a fault, every segment's bytes
    are at its addresses, later segments over earlier ones, the .bss is zero, and
    every other byte of memory is kept; also when the file is not a RISC-V one. *)
Theorem LoadElfFile_image (program : vector) (flag_64bit : bool) (segs : list segment) (bss : Z * Z) m :
  mem_ok m -> file_ok program -> 20 <= size program ->
  Is64BitElf program = Ok flag_64bit ->
  program_segments (class_layout flag_64bit) program = Ok segs -> Forall (segment_ok program) segs ->
  bss_range (class_layout flag_64bit) program = Ok bss -> 0 <= bss.1 -> 0 <= bss.2 -> bss.1 + bss.2 < 2 ^ 32 ->
  exists m', LoadElfFile program m = Ok (flag_64bit, m') /\ mem_ok m' /\
    forall a, 0 <= a < 2 ^ 32 -> mem_byte m' a = image program segs bss (mem_byte m) a.
Proof. apply LoadElfFile_run. Qed.
End Properties.

(* ------------------------------------------------------------------ *)
(** ** A sample file *)

Definition file_of (data : list Z) : vector :=
  mk_disk (Z.of_nat (length data)) (list_to_map (zip (Z.of_nat <$> seq 0 (length data)) data)).

Lemma file_of_bytes data : Forall (in_u 8) data -> zvec_wf 8 (bytes (file_of data)).
Proof.
  intros Hd i. unfold file_of, zget. cbn [bytes]. destruct (list_to_map _ !! i) as [v|] eqn:E; [| done].
  apply elem_of_list_to_map_2 in E. cbn.
  apply elem_of_zip_r in E. by eapply Forall_forall.
Qed.

Local Abbreviation h v := (le_bytes 2 v).
Local Abbreviation w v := (le_bytes 4 v).

(** A 32-bit RISC-V file: one segment of 12 bytes at 0x1000, the last 4 of them in
    the .bss at 0x1008, which extends to 0x1018. *)
Definition sample_elf : vector := file_of (
  (* 0: header *)
  [0x7f; 0x45; 0x4C; 0x46; 1; 1; 1; 0; 0; 0; 0; 0; 0; 0; 0; 0] ++ h 2 ++ h 243 ++ w 1 ++ w 0x1000 ++ w 52 ++ w 84 ++
  w 0 ++ h 52 ++ h 32 ++ h 1 ++ h 40 ++ h 2 ++ h 1 ++
  (* 52: program header *)
  w 1 ++ w 184 ++ w 0x1000 ++ w 0x1000 ++ w 12 ++ w 28 ++ w 7 ++ w 4 ++
  (* 84: section headers *)
  w 1 ++ w 8 ++ w 3 ++ w 0x1008 ++ w 184 ++ w 16 ++ w 0 ++ w 0 ++ w 4 ++ w 0 ++
  w 6 ++ w 3 ++ w 0 ++ w 0 ++ w 164 ++ w 16 ++ w 0 ++ w 0 ++ w 1 ++ w 0 ++
  (* 164: names *)
  [0; 0x2E; 0x62; 0x73; 0x73; 0; 0x2E; 0x73; 0x68; 0x73; 0x74; 0x72; 0x74; 0x61; 0x62; 0; 0; 0; 0; 0] ++
  (* 184: the segment *)
  [1; 2; 3; 4; 5; 6; 7; 8; 9; 10; 11; 12]).

Lemma LoadElfFile_image_witness :
  exists m', LoadElfFile sample_elf MemoryWrapper.MemoryWrapper = Ok (false, m') /\ mem_ok m' /\
    forall a, 0 <= a < 2 ^ 32 ->
      mem_byte m' a = image sample_elf [Segment 0x1000 184 12] (0x1008, 16) (mem_byte MemoryWrapper.MemoryWrapper) a.
Proof.
  apply (LoadElfFile_image sample_elf false [Segment 0x1000 184 12] (0x1008, 16) MemoryWrapper.MemoryWrapper);
    [ exact init_mem_ok
    | split; [vm_compute; discriminate | apply file_of_bytes; apply (bool_decide_unpack _); vm_compute; exact I]
    | vm_compute; discriminate | vm_compute; reflexivity | vm_compute; reflexivity
    | repeat constructor; vm_compute; discriminate
    | vm_compute; reflexivity | vm_compute; discriminate .. | vm_compute; reflexivity].
Defined.

Example sample_image :
  map (image sample_elf [Segment 0x1000 184 12] (0x1008, 16) (fun _ => 255)) [0x1000; 0x1007; 0x1008; 0x1017; 0x1018]
  = [1; 8; 0; 0; 255].
Proof. reflexivity. Qed.
