(* ===== verification/Program.v ===== *)
(** * RISCV_Emulator.cc: a program file, from the command line to its exit value

    The parts together: the command line selects an RV64 machine without devices, the
    ELF file is loaded, the default page tables are built, the
    processor is configured and runs; the emulator's result is what the program
    leaves in A0 on the abstract machine. *)

From Stdlib Require Import String.
From S2P Require Import Prelude BitTools Memory Isa Pte Mmu Peripheral Syscall CpuState Alu Csr Trap LoadStore Cpu Invariant Bare IsaMachine Regime Machine Simulate Loader LoaderSpec ElfSpec.
Import Cpu Isa_spec.

(** Programs run in machine mode without translation. *)
#[local] Existing Instance bare_regime.
#[local] Instance bare_regime_laws64 {M} `{GuestMemoryLaws M} : RegimeLaws (bare_regime M) 64 := bare_regime_laws 64 (or_intror eq_refl).

(** The options of a plain 64-bit run: only tracing, paging (the processor starts in
    machine mode), system call emulation and interrupt delegation are free. *)
Definition plain_options (o : Options) : Prop :=
  error o = false /\ address64bit o = true /\ host_emulation o = false /\ device_enable o = false /\
  diskimage_file o = ""%string.

(** The hart a program starts on: the stack pointer at the top of the work memory,
    the global pointer as the loader found it. *)
Definition start_hart (entry gp : Z) (f : ByteMem.t) : IsaMachine.hart :=
  IsaMachine.Hart entry (fun r => if r =? 2 then 0x80000000 else if r =? 3 then gp else 0) f.

(** An array of entries, byte by byte, and memory with the default tables of the
    64-bit mode in it: the root, four tables of pointers, the leaves. *)
Definition array_byte (w : width) (g : Z -> Z) (base a : Z) : Z :=
  let z := Z.of_nat (nbytes w) in g ((a - base) / z) / 256 ^ ((a - base) mod z) mod 256.

Definition with_tables (f : ByteMem.t) : ByteMem.t := fun a =>
  if (0xC0005000 <=? a) && (a <? 0xC0805000) then array_byte W64 leaf_entry 0xC0005000 a
  else if (0xC0001000 <=? a) && (a <? 0xC0005000) then array_byte W64 (pointer 0xC0005) 0xC0001000 a
  else if (0xC0000000 <=? a) && (a <? 0xC0001000) then array_byte W64 root_entry 0xC0000000 a
  else f a.

(** The memory a program starts in; addresses count modulo 2^32. *)
Definition start_memory (program : vector) (segs : list segment) (bss : Z * Z) (f : ByteMem.t) : ByteMem.t := fun b =>
  with_tables (image program segs bss f) (b mod 2 ^ 32).

(* ------------------------------------------------------------------ *)
(** ** The tables as bytes *)

Lemma load_byte n f a k :
  (forall b, in_u 8 (f b)) -> 0 <= k < Z.of_nat n -> f (a + k) = ByteMem.load n f a / 256 ^ k mod 256.
Proof.
  intros Hf. revert a k. induction n as [|n IH]; intros a k Hk; [lia |]. cbn [ByteMem.load].
  specialize (Hf a) as Ha. unfold in_u in Ha. destruct (Z.eqb_spec k 0) as [-> |].
  - rewrite Z.add_0_r, Z.pow_0_r, Z.div_1_r. zlia.
  - replace (a + k) with (a + 1 + (k - 1)) by lia. rewrite IH by lia. f_equal.
    replace k with (1 + (k - 1)) at 2 by lia. rewrite Z.pow_add_r, Z.pow_1_r, <- Z.div_div by lia.
    f_equal. generalize (ByteMem.load n f (a + 1)). zlia.
Qed.

Section TableBytes.
Context {M : Type} `{GuestMemoryLaws M}.
Implicit Types (m : M).

Lemma filled_byte m0 w base g n m a :
  filled m0 w base g n m -> base <= a < base + Z.of_nat (nbytes w) * n -> mem_byte m a = array_byte w g base a.
Proof.
  intros (Hm & Hl & _) Ha. unfold array_byte. set (z := Z.of_nat (nbytes w)) in *.
  assert (Hz : 0 < z) by (subst z; destruct w; cbn; lia).
  pose proof (Z.div_mod (a - base) z ltac:(lia)) as Hdm. pose proof (Z.mod_pos_bound (a - base) z Hz) as Hr.
  rewrite <- Hl by (split; [apply Z.div_pos | apply Z.div_lt_upper_bound]; lia).
  rewrite <- load_byte by (try done; intros; by apply mem_byte_range). f_equal. lia.
Qed.

Lemma tables64_bytes m0 m a : tables64 m0 m -> 0 <= a < 2 ^ 32 -> mem_byte m a = with_tables (mem_byte m0) a.
Proof.
  intros (m2 & m1 & H2 & H1 & H0') Ha. constants. unfold with_tables.
  destruct (Z.leb_spec 0xC0005000 a), (Z.ltb_spec a 0xC0805000); cbn [andb];
    try (by apply (filled_byte m1 W64 _ _ (4 * 512 * 512)); [| cbn; lia]);
    rewrite (filled_frame _ _ _ _ _ _ a H0') by (cbn [nbytes]; lia);
    destruct (Z.leb_spec 0xC0001000 a), (Z.ltb_spec a 0xC0005000); cbn [andb]; try lia;
    try (by apply (filled_byte m2 W64 _ _ (4 * 512)); [| cbn; lia]);
    rewrite (filled_frame _ _ _ _ _ _ a H1) by (cbn [nbytes]; lia);
    destruct (Z.leb_spec 0xC0000000 a), (Z.ltb_spec a 0xC0001000); cbn [andb]; try lia;
    try (by apply (filled_byte m0 W64 _ _ 512); [| cbn; lia]);
    by rewrite (filled_frame _ _ _ _ _ _ a H2) by (cbn [nbytes]; lia).
Qed.

Lemma start_memory_bytes program segs bss m m1 m2 :
  (forall a, 0 <= a < 2 ^ 32 -> mem_byte m1 a = image program segs bss (mem_byte m) a) -> tables64 m1 m2 ->
  forall b, mem_byte m2 b = start_memory program segs bss (mem_byte m) b.
Proof.
  intros Hi Ht b. unfold start_memory. rewrite <- mem_byte_period. pose proof (Z.mod_pos_bound b (2 ^ 32) eq_refl).
  rewrite (tables64_bytes m1) by done. unfold with_tables. by rewrite Hi.
Qed.
End TableBytes.

(* ------------------------------------------------------------------ *)
(** ** The configured processor *)

Lemma RiscvCpu_64_ok misa_shift : csr_ok (RiscvCpu misa_shift true).
Proof.
  assert (Hmisa : in_u 64 (u32 misa_shift .| 0x142100)).
  { apply (in_u_mono 32); [lia |]. apply in_u_lor; [lia | apply uint_range; lia | decide_it]. }
  unfold RiscvCpu, ClearTimerInterruptFlag, InitializeCsrs. cbv zeta.
  match goal with |- context [ApplyMstatusToCsr ?x] => apply (csr_ok_same (ApplyMstatusToCsr x)); [reflexivity |] end.
  apply ApplyMstatusToCsr_ok; [| by split].
  split; [by right | | intros i; by apply zvec_wf_empty | decide_it ..].
  rsimpl. apply zvec_wf_zset; [auto with rv | exact Hmisa].
Qed.

(** A fresh 64-bit processor, as far as a run depends on it. *)
Record fresh (c : Cpu.t) : Prop := {
  fr_csr : csr_ok c;
  fr_regs : reg_ c = ∅;
  fr_mode : xlen_ c = 64 /\ mxl_ c = 2 /\ privilege_ c = MACHINE_MODE /\ mstatus_ c = 0xA00000000 /\ mie_ c = 0;
  fr_zero : (pc_ c, next_pc_ c, ir_ c, faulting_address_ c) = (0, 0, 0, 0);
  fr_flags : (error_flag_ c, end_flag_ c, page_fault_ c) = (false, false, false);
  fr_parts : mmu_ c = Mmu.init /\ peripheral_ c = Peripheral.PeripheralEmulator 2;
  fr_brk : in_u 64 (brk_ c)
}.

Lemma RiscvCpu_fresh misa_shift : fresh (RiscvCpu misa_shift true).
Proof. split; [apply RiscvCpu_64_ok | done ..]. Qed.

Lemma configured_ok {M} `{GuestMemoryLaws M} misa_shift o gp (m : M) f :
  plain_options o -> in_u 32 gp -> mem_ok m ->
  let c := SetDiskImage None (configure misa_shift o gp) in
  well_formed (c, m) /\ quiet 64 c /\ mie_ c = 0 /\ (forall r, in_u 5 r -> reg c r = IsaMachine.get (start_hart 0 gp f) r).
Proof.
  intros (_ & H64 & Hh & Hdev & _) Hg Hm c. subst c. unfold configure. rewrite H64, Hh, Hdev. cbv zeta.
  pose proof (RiscvCpu_fresh misa_shift) as Hf. generalize dependent (RiscvCpu misa_shift true). intros c0 Hf.
  set (satp := if paging o then _ else _).
  assert (Hsatp : in_u 64 satp) by (subst satp; destruct (paging o); decide_it). clearbody satp.
  rewrite (uint_small 64 gp) by (by apply (in_u_mono 32)).
  set (c1 := SetEcallEmulationEnable _ c0). set (c := SetCsr SATP satp _).
  destruct Hf as [Hcsr Hregs (Hx & Hmx & Hpriv & Hst & Hie) [= Hpc Hnpc Hir Hfa] [= Her Hen Hpf] [Hmmu Hper] Hbrk].
  assert (Hc : csr_ok c).
  { unfold c, SetCsr, SetRegister. apply csr_ok_put_csr; [| done | |];
      [| intros [E | [E | E]]; vm_compute in E; discriminate E ..].
    apply csr_ok_put_reg; [apply csr_ok_put_reg; [by apply (csr_ok_same c0) | decide_it] | by apply (in_u_mono 32)]. }
  set (c2 := SetDiskImage None _).
  assert (Hok : csr_ok c2) by (by apply (csr_ok_same c)).
  assert (Hp2 : peripheral_ c2 = Peripheral.SetDiskImage None (Peripheral.SetDeviceEmulationEnable false
    (Peripheral.SetHostEmulationEnable false (Peripheral.PeripheralEmulator 2)))) by (rewrite <- Hper; done).
  assert (Hreg : reg_ c2 = zset (zset ∅ SP kTop) GP gp) by (rewrite <- Hregs; done).
  split; [| split; [| split; [exact Hie |]]].
  - split; [split; cbn [fst snd] | unfold zero_ok, reg; cbn [fst]; by rewrite Hreg].
    + split; [done | | | |].
      * change (in_u 64 (pc_ c0)). by rewrite Hpc.
      * change (in_u 64 (next_pc_ c0)). by rewrite Hnpc.
      * change (in_u 64 (faulting_address_ c0)). by rewrite Hfa.
      * change (in_u 32 (ir_ c0)). by rewrite Hir.
    + change (in_u 64 (Mmu.faulting_address_ (mmu_ c0))). by rewrite Hmmu.
    + rewrite Hp2. split; try decide_it. intros d Hd. discriminate Hd.
    + exact Hbrk.
    + done.
  - repeat split; try done.
    rewrite (proj2 (proj2 (ok_status _ Hok))). change (mstatus_ c2) with (mstatus_ c0). by rewrite Hst.
  - intros r Hr. unfold reg. rewrite Hreg. unfold IsaMachine.get, start_hart. cbn [IsaMachine.regs].
    rewrite !zget_zset, zget_empty.
    destruct (Z.eqb_spec r 0); [by subst |]. destruct (Z.eqb_spec r 2); [by subst |]. destruct (Z.eqb_spec r 3); [by subst |].
    rewrite !decide_False by (intros E; vm_compute in E; subst r; done). done.
Qed.

(** The loader's entry point and global pointer are 32-bit words, so that the
    comparison with -1 in [run] never succeeds. *)
Lemma entry_range flag program entry : GetEntryPoint flag program = Ok entry -> in_u 32 entry.
Proof.
  unfold GetEntryPoint, GetElf64EntryPoint, GetElf32EntryPoint, GetElfEntryPoint.
  destruct flag; intros (v & _ & [= <-])%bind_Ok; apply uint_range; lia.
Qed.

Lemma global_pointer_range flag program gp : GetGlobalPointer flag program = Ok gp -> in_u 32 gp.
Proof.
  unfold GetGlobalPointer, GetElf64GlobalPointer, GetElf32GlobalPointer, GetElfGlobalPointer.
  destruct flag; intros ([s|] & _ & E)%bind_Ok;
    first [apply bind_Ok in E as (v & _ & [= <-]); apply uint_range; lia | injection E as <-; apply uint_range; lia].
Qed.

(** The low half of a register is the same whether or not it was extended. *)
Lemma s32_embed v : s32 (embed 64 v) = s32 v.
Proof. unfold embed. rewrite sint_uint_le by lia. apply eqm_sint, sint_eqm. lia. Qed.

Section Start.
Context {M : Type} `{HostOsLaws M}.

Lemma start_word entry gp f r : in_u 32 gp -> in_u 64 (IsaMachine.get (start_hart entry gp f) r).
Proof using.
  intros Hg. unfold IsaMachine.get, start_hart. cbn [IsaMachine.regs].
  destruct (r =? 0); [decide_it |]. destruct (r =? 2); [decide_it |]. destruct (r =? 3); [by apply (in_u_mono 32) | decide_it].
Qed.

Lemma sim_start_hart entry gp (c : Cpu.t) (m : M) f :
  well_formed (c, m) -> quiet 64 c -> (forall r, in_u 5 r -> reg c r = IsaMachine.get (start_hart 0 gp f) r) -> in_u 32 gp ->
  (forall b, mem_byte m b = f b) ->
  in_u 32 entry -> entry mod 2 = 0 -> sim 64 (start_hart entry gp f) (started entry (c, m)).
Proof using All.
  intros Hw Hq Hr Hg Hf He Heven.
  assert (Hq' : quiet 64 (started entry (c, m)).1).
  { destruct Hq as (Q1 & Q2 & Q3 & Q5 & Q6 & _ & _). by repeat (split; [done |]). }
  assert (Hx : forall r, in_u 5 r -> reg c r = embed 64 (IsaMachine.get (start_hart 0 gp f) r)).
  { intros r Hr5. rewrite (Hr r Hr5). symmetry. by apply embed64, start_word. }
  assert (Hent : extended 64 entry) by (apply embed64, (in_u_mono 32); [lia | done]).
  assert (Hext : forall r, in_u 5 r -> extended 64 (reg c r)).
  { intros r Hr5. rewrite (Hr r Hr5). by apply embed64, start_word. }
  destruct (sim_started (R := bare_regime M) 64 (or_intror eq_refl) entry (c, m) Hw I Hq' Hext Hent Heven) as [S1 S2 S3 _ _ _ _].
  split; [exact S1 | exact S2 | by symmetry | split; [exact Heven | by apply (in_u_mono 32)] | exact Hx | |].
  - intros r _. by apply start_word.
  - split; [apply Hw | done |]. intros b _. exact (Hf b).
Qed.

Lemma started_mie entry (x : Cpu.t * M) : mie_ (started entry x).1 = mie_ x.1.
Proof using. done. Qed.

Lemma start_sim misa_shift o gp entry (m : M) f :
  plain_options o -> in_u 32 gp -> mem_ok m -> (forall b, mem_byte m b = f b) -> in_u 32 entry -> entry mod 2 = 0 ->
  let x := started entry (SetDiskImage None (configure misa_shift o gp), m) in sim 64 (start_hart entry gp f) x /\ mie_ x.1 = 0.
Proof using All.
  intros Ho Hg Hm Hf He Heven. destruct (configured_ok misa_shift o gp m f Ho Hg Hm) as (Hw & Hq & Hie & Hr).
  split; [exact (sim_start_hart entry gp _ m f Hw Hq Hr Hg Hf He Heven) |].
  cbv zeta. by rewrite started_mie.
Qed.
End Start.

(* ------------------------------------------------------------------ *)
(** ** Properties *)

(** C1: from a program file to the emulator's result: with a command line that selects
    a plain 64-bit run and a readable ELF file, whenever the abstract machine, started
    at the file's entry point with the stack and global pointers set and the image of
    the file and the default page tables in memory, comes to its return to address
    zero, [run] ends without a fault with the low 32 bits of A0 of that run as its
    (signed) result. *)
Theorem run_implements_isa {M} `{HostOsLaws M} (fuel : nat) (misa_shift : Z) (argv : list string)
    (files : string -> option vector) (input : list Z) (memory : M) (program : vector) (flag : bool) (segs : list segment)
    (bss : Z * Z) (entry gp : Z) (h' : IsaMachine.hart) :
  plain_options (ParseCmd argv) -> files (filename (ParseCmd argv)) = Some program ->
  mem_ok memory -> file_ok program -> 20 <= size program -> Is64BitElf program = Ok flag ->
  program_segments (class_layout flag) program = Ok segs -> Forall (segment_ok program) segs ->
  bss_range (class_layout flag) program = Ok bss -> 0 <= bss.1 -> 0 <= bss.2 -> bss.1 + bss.2 < 2 ^ 32 ->
  GetEntryPoint flag program = Ok entry -> entry mod 2 = 0 -> GetGlobalPointer flag program = Ok gp ->
  isa_run (R := bare_regime M) 64 fuel (start_hart entry gp (start_memory program segs bss (mem_byte memory))) = Some h' ->
  run (S fuel) misa_shift argv files input memory = Ok (Some (s32 (IsaMachine.get h' 10))).
Proof.
  intros Ho Hfile Hm Hf Hs Hc Hsegs Hseg Hbss Hb1 Hb2 Hend Hentry Heven Hgp Hrun.
  destruct (LoadElfFile_run program flag segs bss memory) as (m1 & E1 & Hm1 & Hi1); try done.
  destruct (SetDefaultMmuTable64_run m1 Hm1) as (m2 & E2 & Ht). pose proof (start_memory_bytes _ _ _ _ _ _ Hi1 Ht) as Hb.
  assert (Hm2 : mem_ok m2) by (destruct Ht as (? & ? & _ & _ & Ht); apply Ht).
  pose proof (entry_range _ _ _ Hentry) as Her. pose proof (global_pointer_range _ _ _ Hgp) as Hgr.
  pose proof (start_sim misa_shift (ParseCmd argv) gp entry m2 _ Ho Hgr Hm2 Hb Her Heven) as [Hsim Hie].
  destruct (isa_run_simulates 64 (or_intror eq_refl) _ fuel _ _ h' (disabled_patient 64) Hsim Hie Hrun) as ([s' m'] & Er & Hr & _).
  unfold run. cbv zeta. destruct Ho as (Herr & H64 & Hh & Hdev & Hdisk).
  rewrite Herr, Hfile. unfold ReadFile.
  replace ((kMaxBinarySize <? size program) || (size program <=? 0)) with false.
  2:{ symmetry. apply orb_false_iff. rewrite Z.ltb_ge, Z.leb_gt. destruct Hf. split; [done | lia]. }
  rewrite E1, Ok_bind, Hentry, Ok_bind, Hgp, Ok_bind, (uint_small 32 entry) by done.
  replace (gp =? -1) with false by (symmetry; apply Z.eqb_neq; unfold in_u in Hgr; lia).
  rewrite bool_decide_true by done. rewrite H64. unfold SetDefaultMmuTable. rewrite E2, Ok_bind.
  set (c := configure misa_shift (ParseCmd argv) gp) in *.
  assert (Ed : DeviceInitialization input (c, m2) = Ok (tt, (c, m2))).
  { unfold DeviceInitialization. rewrite (st_bind_run _ _ _ false (c, m2)); [done |].
    unfold field, c, configure. cbn [fst]. do 2 f_equal. exact Hdev. }
  rewrite Ed, Ok_bind, RunCpu_started, Er, Ok_bind. unfold ReadRegister.
  do 2 f_equal. pose proof (Hr 10 ltac:(decide_it)) as E10. cbn [fst] in E10. change (reg s' 10) with (reg s' A0) in E10. rewrite E10. apply s32_embed.
Qed.

(** *** Witness: a file with the compressed sample program *)

(** A 64-bit RISC-V file: one segment of 14 bytes at 0x1000, the entry point. *)
Definition sample_elf64 : vector := file_of (
  (* 0: header *)
  [0x7f; 0x45; 0x4C; 0x46; 2; 1; 1; 0; 0; 0; 0; 0; 0; 0; 0; 0] ++ le_bytes 2 2 ++ le_bytes 2 243 ++ le_bytes 4 1 ++ le_bytes 8 0x1000 ++ le_bytes 8 64 ++ le_bytes 8 0 ++
  le_bytes 4 0 ++ le_bytes 2 64 ++ le_bytes 2 56 ++ le_bytes 2 1 ++ le_bytes 2 64 ++ le_bytes 2 0 ++ le_bytes 2 0 ++
  (* 64: program header *)
  le_bytes 4 1 ++ le_bytes 4 5 ++ le_bytes 8 120 ++ le_bytes 8 0x1000 ++ le_bytes 8 0x1000 ++ le_bytes 8 14 ++ le_bytes 8 14 ++ le_bytes 8 4 ++
  (* 120: the segment *)
  le_bytes 2 0x4529 ++ le_bytes 2 0x4581 ++ le_bytes 2 0x95AA ++ le_bytes 2 0x157D ++ le_bytes 2 0xFD75 ++ le_bytes 2 0x852E ++ le_bytes 2 0x8082).

Definition sample_files (name : string) : option vector := if String.eqb name "sum" then Some sample_elf64 else None.

Lemma run_implements_isa_witness :
  run 101 0 ["emulator"; "-64"; "sum"]%string sample_files [] MemoryWrapper.MemoryWrapper = Ok (Some 55).
Proof.
  set (h0 := start_hart 0x1000 0xFFFFFFFF
    (start_memory sample_elf64 [Segment 0x1000 120 14] (0, 0) (mem_byte MemoryWrapper.MemoryWrapper))).
  assert (Hv : match isa_run (R := bare_regime MemoryWrapper.t) 64 100 h0 with Some h' => Some (IsaMachine.get h' 10) | None => None end = Some 55)
    by (vm_compute; reflexivity).
  destruct (isa_run (R := bare_regime MemoryWrapper.t) 64 100 h0) as [h'|] eqn:E; [| discriminate Hv]. injection Hv as Hv.
  transitivity (@Ok (option Z) (Some (s32 (IsaMachine.get h' 10)))); [| by rewrite Hv].
  apply (run_implements_isa 100 0 ["emulator"; "-64"; "sum"]%string sample_files [] MemoryWrapper.MemoryWrapper sample_elf64 true
    [Segment 0x1000 120 14] (0, 0) 0x1000 0xFFFFFFFF h');
    [ by repeat split | reflexivity | exact init_mem_ok
    | split; [vm_compute; discriminate | apply file_of_bytes; apply (bool_decide_unpack _); vm_compute; exact I]
    | vm_compute; discriminate | vm_compute; reflexivity | vm_compute; reflexivity
    | repeat constructor; vm_compute; discriminate
    | vm_compute; reflexivity | vm_compute; discriminate | vm_compute; discriminate | vm_compute; reflexivity
    | vm_compute; reflexivity | reflexivity | vm_compute; reflexivity | exact E].
Defined.
