(* ===== verification/CommandLine.v ===== *)
(** * RISCV_Emulator.cc: the command-line grammar

    The specification is a grammar of arguments and what each does to the options;
    [ParseCmd] accepts exactly that grammar and has that effect. *)

From Stdlib Require Import Ascii String.
From S2P Require Import Prelude Loader.
#[local] Open Scope string_scope.

(** The options without a value; the characters after the letter are ignored. *)
Inductive switch : Type := Verbose | Address64 | Paging | Ecall | Host | Device | NoDelegation.

Definition letter (f : switch) : string :=
  match f with
  | Verbose => "v" | Address64 => "64" | Paging => "p" | Ecall => "e" | Host => "h" | Device => "d" | NoDelegation => "m"
  end.

Inductive argument : Type :=
| Switch (f : switch) (suffix : string)
| DiskImage (suffix file : string)
| Program (name : string)
| Unknown (tail : string).

Definition letters : list ascii := ["v"; "p"; "e"; "h"; "d"; "m"; "s"]%char.

(** A program does not look like an option; an unknown option is none of the others. *)
Definition well_formed (a : argument) : bool :=
  match a with
  | Switch _ _ | DiskImage _ _ => true
  | Program EmptyString => true
  | Program (String c _) => negb (c =? "-")%char
  | Unknown EmptyString => true
  | Unknown (String c tail) =>
      negb (existsb (Ascii.eqb c) letters) &&
      negb ((c =? "6")%char && match tail with String d _ => (d =? "4")%char | EmptyString => false end)
  end.

Definition render (a : argument) : list string :=
  match a with
  | Switch f suffix => ["-" ++ letter f ++ suffix]
  | DiskImage suffix file => ["-s" ++ suffix; file]
  | Program name => [name]
  | Unknown tail => ["-" ++ tail]
  end.

Definition turn_on (f : switch) (o : Options) : Options :=
  match f with
  | Verbose => o <| verbose := true |>
  | Address64 => o <| address64bit := true |>
  | Paging => o <| paging := true |>
  | Ecall => o <| ecall_emulation := true |>
  | Host => o <| host_emulation := true |>
  | Device => o <| device_enable := true |>
  | NoDelegation => o <| disable_machine_interrupt_delegation := true |>
  end.

(** The effect of an argument: nothing after an error; a second program is one. *)
Definition effect (o : Options) (a : argument) : Options :=
  if error o then o
  else match a with
       | Switch f _ => turn_on f o
       | DiskImage _ file => o <| diskimage_file := file |>
       | Program name => if bool_decide (filename o = "") then o <| filename := name |> else o <| error := true |>
       | Unknown _ => o <| error := true |>
       end.

Definition command_line (args : list argument) : list string := concat (map render args).

(* ------------------------------------------------------------------ *)
(** ** The parser follows the grammar *)

Lemma effect_error args o : error o = true -> fold_left effect args o = o.
Proof.
  intros E. induction args as [|a args IH]; cbn [fold_left]; [done |]. unfold effect at 2. by rewrite E.
Qed.

(** Case analysis on the characters a known test distinguishes. *)
Ltac each_char c := destruct c as [[] [] [] [] [] [] [] []].

Lemma parse_unknown tail rest o :
  well_formed (Unknown tail) = true -> parse_args (("-" ++ tail) :: rest) o = o <| error := true |>.
Proof.
  destruct tail as [|c tail]; [done |]. cbn [well_formed]. intros Hw.
  each_char c; try discriminate Hw; try reflexivity.
  destruct tail as [|d tail]; [reflexivity |]. each_char d; try discriminate Hw; reflexivity.
Qed.

Lemma parse_program name rest o :
  well_formed (Program name) = true ->
  parse_args (name :: rest) o =
    if bool_decide (filename o = "") then parse_args rest (o <| filename := name |>) else o <| error := true |>.
Proof. destruct name as [|c name]; [done |]. cbn [well_formed]. intros Hw. each_char c; done. Qed.

Lemma parse_step a rest o :
  well_formed a = true -> error o = false ->
  parse_args (render a ++ rest)%list o = if error (effect o a) then effect o a else parse_args rest (effect o a).
Proof.
  intros Hw He. unfold effect. rewrite He. destruct a as [f suffix | suffix file | name | tail]; cbn [render app].
  - destruct f; cbn [letter turn_on append parse_args]; by rsimpl; rewrite He.
  - cbn [append]. change (error (o <| diskimage_file := file |>)) with (error o). by rewrite He.
  - rewrite parse_program by done. case_bool_decide; rsimpl; by rewrite ?He.
  - by rewrite parse_unknown.
Qed.

Lemma parse_line args rest o :
  forallb well_formed args = true -> error o = false ->
  parse_args (command_line args ++ rest)%list o =
    let o' := fold_left effect args o in if error o' then o' else parse_args rest o'.
Proof.
  revert o. induction args as [|a args IH]; intros o Hw He; cbn [command_line map concat fold_left forallb] in *.
  { cbn. by rewrite He. }
  apply andb_true_iff in Hw as [Ha Hw]. rewrite <- (assoc_L (++)%list), parse_step by done.
  destruct (error (effect o a)) eqn:E; [| by apply IH].
  cbv zeta. by rewrite effect_error, E.
Qed.

(** Every argument is one of the grammar's. *)
Definition classify (s : string) : argument :=
  match s with
  | String "-" (String "v" r) => Switch Verbose r
  | String "-" (String "6" (String "4" r)) => Switch Address64 r
  | String "-" (String "p" r) => Switch Paging r
  | String "-" (String "e" r) => Switch Ecall r
  | String "-" (String "h" r) => Switch Host r
  | String "-" (String "d" r) => Switch Device r
  | String "-" (String "m" r) => Switch NoDelegation r
  | String "-" (String "s" r) => DiskImage r ""
  | String "-" r => Unknown r
  | _ => Program s
  end.

Lemma classify_render s :
  well_formed (classify s) = true /\
  (render (classify s) = [s] \/ exists suffix, classify s = DiskImage suffix "" /\ s = "-s" ++ suffix).
Proof.
  destruct s as [|c s]; [by split; [| left] |]. each_char c; try (by split; [| left]).
  destruct s as [|d s]; [by split; [| left] |].
  each_char d; try (by split; [| left]); try (split; [done |]; right; by eexists).
  destruct s as [|e s]; [by split; [| left] |]. each_char e; by split; [| left].
Qed.

(** A trailing [-s] without its file. *)
Definition dangling_line (dangling : option string) : list string :=
  match dangling with Some suffix => ["-s" ++ suffix] | None => [] end.

Lemma line_complete strs :
  exists args dangling, forallb well_formed args = true /\ strs = (command_line args ++ dangling_line dangling)%list.
Proof.
  induction strs as [strs IH] using (induction_ltof1 _ (@length string)). unfold ltof in IH.
  destruct strs as [|s rest]; [by exists [], None |]. destruct (classify_render s) as [Hw [Hr | (suffix & _ & Hs)]].
  - destruct (IH rest) as (args & dangling & Hargs & E); [cbn; lia |].
    exists (classify s :: args), dangling. cbn [forallb]. rewrite Hw, Hargs. split; [done |].
    unfold command_line. cbn [map concat]. by rewrite Hr, E.
  - destruct rest as [|file rest]; [exists [], (Some suffix); by rewrite Hs |].
    destruct (IH rest) as (args & dangling & Hargs & E); [cbn; lia |].
    exists (DiskImage suffix file :: args), dangling. cbn [forallb well_formed andb]. split; [done |].
    unfold command_line. cbn [map concat render app]. by rewrite Hs, E.
Qed.

Lemma set_error_same o : error o = true -> o <| error := true |> = o.
Proof. destruct o. cbn. by intros ->. Qed.

(** C35: [ParseCmd] implements the command-line grammar.  Every argument list is a
    list of switches, disk images with their files, program names and unknown
    options, perhaps with a [-s] at the end that lacks its file; however it is read
    so, the result is the effect of the arguments in order up to the first error,
    and the missing file is an error. *)
Theorem ParseCmd_grammar (prog : string) (strs : list string) :
  strs <> [] ->
  (exists args dangling, forallb well_formed args = true /\ strs = (command_line args ++ dangling_line dangling)%list) /\
  forall args dangling, forallb well_formed args = true -> strs = (command_line args ++ dangling_line dangling)%list ->
    ParseCmd (prog :: strs) =
      let o := fold_left effect args default_options in
      match dangling with Some _ => o <| error := true |> | None => o end.
Proof.
  intros Hne. split; [apply line_complete |]. intros args dangling Hw E.
  unfold ParseCmd. destruct strs as [|s strs]; [done |]. rewrite E, parse_line by done. cbv zeta.
  destruct (error _) eqn:He; [by destruct dangling; rewrite ?set_error_same |].
  by destruct dangling.
Qed.

Lemma ParseCmd_grammar_witness :
  ParseCmd ["emu"; "-v"; "kernel.elf"; "-s"; "disk.img"; "-64"] =
    default_options <| verbose := true |> <| filename := "kernel.elf" |> <| diskimage_file := "disk.img" |>
      <| address64bit := true |> /\
  error (ParseCmd ["emu"; "a.elf"; "-p"; "b.elf"]) = true.
Proof.
  destruct (ParseCmd_grammar "emu" ["-v"; "kernel.elf"; "-s"; "disk.img"; "-64"]) as [_ H1]; [discriminate |].
  destruct (ParseCmd_grammar "emu" ["a.elf"; "-p"; "b.elf"]) as [_ H2]; [discriminate |].
  split.
  - rewrite (H1 [Switch Verbose ""; Program "kernel.elf"; DiskImage "" "disk.img"; Switch Address64 ""] None);
      reflexivity.
  - rewrite (H2 [Program "a.elf"; Switch Paging ""; Program "b.elf"] None); reflexivity.
Defined.
